(** * Tomasulo simulator: a shallow embedding of the Python sources

    The development follows the layout of the repository:
    [utils/config.py], [components/memory.py], [components/register_file.py],
    [components/instruction.py], [utils/parser.py],
    [components/reservation_station.py], [components/functional_unit.py],
    [components/common_data_bus.py], [utils/metrics.py] and [simulator.py].

    Python objects that are shared by reference are kept in one store and
    referred to by position: a functional unit refers to its reservation
    station by the station's index in [all_stations], a reservation station
    refers to its instruction by the instruction's index in
    [Simulator.instructions].  Python values that may be [None] are options,
    exceptions are the [Raise] results of an error monad, and what the
    program prints is collected as a list of messages. *)

From Stdlib Require Import ZArith QArith Ascii String DecimalString.
From Stdlib Require DecimalZ DecimalFacts.
From stdpp Require Import base list strings.

Local Open Scope string_scope.
Local Open Scope list_scope.
Local Open Scope Z_scope.

(** ** Python values, exceptions and printed output *)

(** A Python value that is either [None] or an [int]. *)
Definition pyval : Type := option Z.

Inductive exn : Type :=
| ValueError
| IndexError
| TypeError
| AttributeError
| KeyError.

Inductive result (A : Type) : Type :=
| Ok (a : A)
| Raise (e : exn).
Arguments Ok {A} a.
Arguments Raise {A} e.

Definition bind {A B : Type} (m : result A) (k : A → result B) : result B :=
  match m with
  | Ok a => k a
  | Raise e => Raise e
  end.

Notation "'let*' x ':=' m 'in' k" := (bind m (λ x, k))
  (at level 10, x pattern, m at level 100, k at level 200).

(** Lines written on standard output by [print]. *)
Inductive message : Type :=
| WarnDivisionByZero (instruction : option nat)
    (* "Warning: Division by zero in instruction {rs.instruction}" *)
| WarnLoadOutOfRange (address : Z)
    (* "Warning: Memory address out of range: {address}. LOAD skipped." *)
| WarnStoreOutOfRange (address : Z)
    (* "Warning: Memory address out of range: {address}. STORE skipped." *)
| ErrorParsingLine (line_num : nat) (e : exn)
    (* "Error parsing line {line_num}: {e}" *)
| EchoLine (line : string).
    (* "Line: {line}" *)

(** Python's binary operators on values: an operand that is [None] raises
    [TypeError]. *)
Definition py_arith (f : Z → Z → Z) (a b : pyval) : result pyval :=
  match a, b with
  | Some x, Some y => Ok (Some (f x y))
  | _, _ => Raise TypeError
  end.

(** [xs[i]] for a non-negative index. *)
Definition py_getitem {A : Type} (xs : list A) (i : nat) : result A :=
  match xs !! i with
  | Some x => Ok x
  | None => Raise IndexError
  end.

(** [xs[i] = x] for a non-negative index. *)
Definition py_setitem {A : Type} (xs : list A) (i : nat) (x : A) : result (list A) :=
  if decide (i < length xs)%nat then Ok (<[i := x]> xs) else Raise IndexError.

(** CPython (3.11 and later, with its default settings) converts between
    [int] and [str] up to [sys.int_info.default_max_str_digits] digits
    only: beyond that, [str(n)], an f-string that formats [n] and [int(s)]
    raise [ValueError]. *)
Definition int_max_str_digits : Z := 4300.

(** What [str(n)] or [f'{n}'] does before it returns: it raises when [n]
    has more digits than the limit. *)
Definition py_check_str (n : Z) : result unit :=
  if Z.abs n <? 10 ^ int_max_str_digits then Ok tt else Raise ValueError.

(** ** The string methods used by the parser (ASCII input) *)

Module PyStr.

(** [str.isspace] on the characters below 256. *)
Definition isspace (c : ascii) : bool :=
  let n := nat_of_ascii c in
  ((9 <=? n) && (n <=? 13) || (28 <=? n) && (n <=? 32)
   || (n =? 133) || (n =? 160))%nat.

Fixpoint lstrip (s : string) : string :=
  match s with
  | String c s' => if isspace c then lstrip s' else s
  | EmptyString => EmptyString
  end.

Definition rstrip_by (p : ascii → bool) (s : string) : string :=
  String.rev ((fix go (r : string) : string :=
                 match r with
                 | String c r' => if p c then go r' else r
                 | EmptyString => EmptyString
                 end) (String.rev s)).

(** [s.strip()] *)
Definition strip (s : string) : string := rstrip_by isspace (lstrip s).

(** [s.rstrip(')')] *)
Definition rstrip_char (c : ascii) (s : string) : string :=
  rstrip_by (Ascii.eqb c) s.

(** [s.split()] : the maximal runs of characters that are not spaces. *)
Fixpoint split_ws_go (cur : option string) (s : string) : list string :=
  match s with
  | EmptyString => option_list (String.rev <$> cur)
  | String c s' =>
      if isspace c
      then option_list (String.rev <$> cur) ++ split_ws_go None s'
      else split_ws_go (Some (String c (default EmptyString cur))) s'
  end.
Definition split_ws (s : string) : list string := split_ws_go None s.

(** [s.split(sep)] for a separator of one character. *)
Fixpoint split_go (sep : ascii) (cur : string) (s : string) : list string :=
  match s with
  | EmptyString => [String.rev cur]
  | String c s' =>
      if Ascii.eqb c sep
      then String.rev cur :: split_go sep EmptyString s'
      else split_go sep (String c cur) s'
  end.
Definition split (sep : ascii) (s : string) : list string :=
  split_go sep EmptyString s.

(** [sep.join(xs)] *)
Fixpoint join (sep : string) (xs : list string) : string :=
  match xs with
  | [] => EmptyString
  | [x] => x
  | x :: xs' => x +:+ sep +:+ join sep xs'
  end.

(** [s.replace(c, '')] *)
Fixpoint remove_char (c : ascii) (s : string) : string :=
  match s with
  | EmptyString => EmptyString
  | String d s' =>
      if Ascii.eqb d c then remove_char c s' else String d (remove_char c s')
  end.

Definition upper_char (c : ascii) : ascii :=
  let n := nat_of_ascii c in
  if ((97 <=? n) && (n <=? 122))%nat then ascii_of_nat (n - 32) else c.

(** [s.upper()] *)
Fixpoint upper (s : string) : string :=
  match s with
  | EmptyString => EmptyString
  | String c s' => String (upper_char c) (upper s')
  end.

(** [s.startswith(c)] for a prefix of one character. *)
Definition startswith (c : ascii) (s : string) : bool :=
  match s with
  | String d _ => Ascii.eqb d c
  | EmptyString => false
  end.

(** [s[1:]] *)
Definition tail (s : string) : string :=
  match s with
  | String _ s' => s'
  | EmptyString => EmptyString
  end.

Definition digit (c : ascii) : option Z :=
  let n := nat_of_ascii c in
  if ((48 <=? n) && (n <=? 57))%nat then Some (Z.of_nat (n - 48)) else None.

(** Decimal digits, single underscores allowed between two digits. *)
Fixpoint digits (acc : Z) (after_digit : bool) (s : string) : option Z :=
  match s with
  | EmptyString => if after_digit then Some acc else None
  | String c s' =>
      if Ascii.eqb c "_"
      then (if after_digit then digits acc false s' else None)
      else match digit c with
           | Some d => digits (10 * acc + d) true s'
           | None => None
           end
  end.

(** The number of decimal digits in a string: what the limit on the
    conversion counts (leading zeros included; sign, underscores and
    surrounding white space excluded). *)
Fixpoint count_digits (s : string) : Z :=
  match s with
  | EmptyString => 0
  | String c s' =>
      match digit c with
      | Some _ => 1 + count_digits s'
      | None => count_digits s'
      end
  end.

(** [int(s)] : surrounding white space, an optional sign, decimal digits;
    anything else raises [ValueError], and so do more digits than the
    limit. *)
Definition int (s : string) : result Z :=
  let body := strip s in
  let parsed :=
    match body with
    | String "-" r => Z.opp <$> digits 0 false r
    | String "+" r => digits 0 false r
    | _ => digits 0 false body
    end in
  match parsed with
  | Some z =>
      if int_max_str_digits <? count_digits body then Raise ValueError
      else Ok z
  | None => Raise ValueError
  end.

End PyStr.

(** ** utils/config.py *)

Module Config.
Definition NUM_REGISTERS : Z := 8.
Definition NUM_ALU_UNITS : nat := 2.
Definition NUM_MUL_DIV_UNITS : nat := 1.
Definition NUM_LOAD_STORE_UNITS : nat := 1.
Definition NUM_ALU_RS : nat := 3.
Definition NUM_MUL_DIV_RS : nat := 2.
Definition NUM_LOAD_BUFFER_ENTRIES : nat := 2.
Definition NUM_STORE_BUFFER_ENTRIES : nat := 2.
Definition MEMORY_SIZE : Z := 1024.
End Config.

(** The six operations of the instruction set; [Instruction.parse] rejects
    every other mnemonic. *)
Inductive opcode : Type := ADD | SUB | MUL | DIV | LOAD | STORE.

Global Instance opcode_eq_dec : EqDecision opcode.
Proof. solve_decision. Defined.

(** [LATENCIES] *)
Definition LATENCIES (op : opcode) : Z :=
  match op with
  | ADD => 2
  | SUB => 2
  | MUL => 10
  | DIV => 20
  | LOAD => 5
  | STORE => 5
  end.

(** ** components/memory.py *)

Module Memory.

Record t : Type := mk { memory : list pyval }.

(** [Memory.__init__] *)
Definition init : t :=
  {| memory := replicate (Z.to_nat Config.MEMORY_SIZE) (Some 0) |}.

(** [Memory.read]: the value read and what was printed.  The warning
    formats [address] in an f-string, which raises when the address has
    more digits than the conversion limit. *)
Definition read (self : t) (address : Z) : result (pyval * list message) :=
  if (address <? 0) || (address >=? Config.MEMORY_SIZE)
  then let* _ := py_check_str address in
       Ok (Some 0, [WarnLoadOutOfRange address])
  else let* word := py_getitem (memory self) (Z.to_nat address) in
       Ok (word, []).

(** [Memory.write]: the memory after the call and what was printed; the
    warning formats [address] as in [read]. *)
Definition write (self : t) (address : Z) (value : pyval)
  : result (t * list message) :=
  if (address <? 0) || (address >=? Config.MEMORY_SIZE)
  then let* _ := py_check_str address in
       Ok (self, [WarnStoreOutOfRange address])
  else let* m := py_setitem (memory self) (Z.to_nat address) value in
       Ok ({| memory := m |}, []).

End Memory.

(** ** components/register_file.py *)

Module RegisterFile.

Record t : Type := mk {
  registers : list pyval;
  status : list (option string)
}.

(** [RegisterFile.__init__]; the initial register values (drawn at random
    by the source, or set by the host) are the argument. *)
Definition init (registers : list pyval) : t :=
  {| registers := registers;
     status := replicate (Z.to_nat Config.NUM_REGISTERS) None |}.

(** [get_register_index]; a name that is [None] has no [startswith]. *)
Definition get_register_index (reg_name : option string) : result nat :=
  match reg_name with
  | None => Raise AttributeError
  | Some reg_name =>
      if negb (PyStr.startswith "R" reg_name) then Raise ValueError
      else
        let* index := PyStr.int (PyStr.tail reg_name) in
        if (index <? 0) || (index >=? Config.NUM_REGISTERS)
        then Raise ValueError
        else Ok (Z.to_nat index)
  end.

Definition read (self : t) (reg_name : option string) : result pyval :=
  let* index := get_register_index reg_name in
  py_getitem (registers self) index.

Definition write (self : t) (reg_name : option string) (value : pyval)
  : result t :=
  let* index := get_register_index reg_name in
  let* regs := py_setitem (registers self) index value in
  Ok {| registers := regs; status := status self |}.

Definition get_status (self : t) (reg_name : option string)
  : result (option string) :=
  let* index := get_register_index reg_name in
  py_getitem (status self) index.

Definition set_status (self : t) (reg_name : option string)
    (reservation_station : option string) : result t :=
  let* index := get_register_index reg_name in
  let* st := py_setitem (status self) index reservation_station in
  Ok {| registers := registers self; status := st |}.

Definition is_available (self : t) (reg_name : option string) : result bool :=
  let* index := get_register_index reg_name in
  let* s := py_getitem (status self) index in
  Ok (bool_decide (s = None)).

End RegisterFile.

(** ** components/instruction.py *)

Module Instruction.

Record t : Type := mk {
  op : opcode;
  dest : option string;
  src1 : option string;
  src2 : option string;
  offset : option Z;
  base : option string;
  issue_cycle : option nat;
  start_cycle : option nat;
  execute_complete_cycle : option nat;
  write_result_cycle : option nat
}.

(** [Instruction.__init__] *)
Definition init (op : opcode) (dest src1 src2 : option string)
    (offset : option Z) (base : option string) : t :=
  {| op := op; dest := dest; src1 := src1; src2 := src2;
     offset := offset; base := base;
     issue_cycle := None; start_cycle := None;
     execute_complete_cycle := None; write_result_cycle := None |}.

Definition get_latency (self : t) : Z := LATENCIES (op self).

Definition is_arithmetic (self : t) : bool :=
  bool_decide (op self ∈ [ADD; SUB; MUL; DIV]).

Definition is_memory_op (self : t) : bool :=
  bool_decide (op self ∈ [LOAD; STORE]).

(** The mnemonic named by an upper-cased word, if any. *)
Definition opcode_of (word : string) : option opcode :=
  if String.eqb word "ADD" then Some ADD
  else if String.eqb word "SUB" then Some SUB
  else if String.eqb word "MUL" then Some MUL
  else if String.eqb word "DIV" then Some DIV
  else if String.eqb word "LOAD" then Some LOAD
  else if String.eqb word "STORE" then Some STORE
  else None.

(** [' '.join(parts[1:]).replace(' ', '').split(',')] *)
Definition operands_of (parts : list string) : list string :=
  PyStr.split "," (PyStr.remove_char " " (PyStr.join " " (drop 1 parts))).

(** [Instruction.parse] *)
Definition parse (instruction_str : string) : result t :=
  let parts := PyStr.split_ws (PyStr.strip instruction_str) in
  let* word := py_getitem parts 0 in
  match opcode_of (PyStr.upper word) with
  | Some LOAD =>
      let operands := operands_of parts in
      let* dest := py_getitem operands 0 in
      let* mem_ref := py_getitem operands 1 in
      let offset_base := PyStr.split "(" mem_ref in
      let* offset_str := py_getitem offset_base 0 in
      let* offset := PyStr.int offset_str in
      let* base_str := py_getitem offset_base 1 in
      let base := PyStr.rstrip_char ")" base_str in
      Ok (init LOAD (Some dest) None None (Some offset) (Some base))
  | Some STORE =>
      let operands := operands_of parts in
      let* mem_ref := py_getitem operands 0 in
      let offset_base := PyStr.split "(" mem_ref in
      let* offset_str := py_getitem offset_base 0 in
      let* offset := PyStr.int offset_str in
      let* base_str := py_getitem offset_base 1 in
      let base := PyStr.rstrip_char ")" base_str in
      let* src1 := py_getitem operands 1 in
      Ok (init STORE None (Some src1) None (Some offset) (Some base))
  | Some op =>
      let operands := operands_of parts in
      let* dest := py_getitem operands 0 in
      let* src1 := py_getitem operands 1 in
      let* src2 := py_getitem operands 2 in
      Ok (init op (Some dest) (Some src1) (Some src2) None None)
  | None => Raise ValueError
  end.

End Instruction.

(** ** utils/parser.py *)

Module TraceParser.

(** [parse_file] on the lines of the file, numbered from [line_num]:
    the instructions read and what was printed.  Only [ValueError] is
    caught by the [except] clause; any other exception leaves the
    function. *)
Fixpoint parse_lines (line_num : nat) (lines : list string)
  : result (list Instruction.t) * list message :=
  match lines with
  | [] => (Ok [], [])
  | line :: rest =>
      let line := PyStr.strip line in
      if bool_decide (line = EmptyString) || PyStr.startswith "#" line
      then parse_lines (S line_num) rest
      else
        match Instruction.parse line with
        | Ok instruction =>
            let '(r, out) := parse_lines (S line_num) rest in
            (let* instructions := r in Ok (instruction :: instructions), out)
        | Raise ValueError =>
            let '(r, out) := parse_lines (S line_num) rest in
            (r, ErrorParsingLine line_num ValueError :: EchoLine line :: out)
        | Raise e => (Raise e, [])
        end
  end.

Definition parse_file (lines : list string)
  : result (list Instruction.t) * list message :=
  parse_lines 1 lines.

End TraceParser.

(** ** components/reservation_station.py *)

Module ReservationStation.

(** The attribute [functional_unit] of the source is [None] from
    [__init__] to the end (nothing assigns it) and is left out. *)
Record t : Type := mk {
  name : string;
  op : option opcode;
  vj : pyval;
  vk : pyval;
  qj : option string;
  qk : option string;
  busy : bool;
  dest : option string;
  instruction : option nat;
  offset : option Z;
  address : option Z;
  executing : bool;
  execution_cycles_left : Z
}.

(** [ReservationStation.__init__(name)] *)
Definition init (name : string) : t :=
  {| name := name; op := None; vj := None; vk := None; qj := None;
     qk := None; busy := false; dest := None; instruction := None;
     offset := None; address := None; executing := false;
     execution_cycles_left := 0 |}.

Definition isReady (self : t) : bool :=
  busy self && negb (executing self)
  && bool_decide (qj self = None) && bool_decide (qk self = None).

(** [clear] resets every attribute but [name] and [offset]. *)
Definition clear (self : t) : t :=
  {| name := name self; op := None; vj := None; vk := None; qj := None;
     qk := None; busy := false; dest := None; instruction := None;
     offset := offset self; address := None; executing := false;
     execution_cycles_left := 0 |}.

(** The two [if] statements of [update_operand] and of the loop body of
    [ReservationStations.update_from_cdb]. *)
Definition update_operand (self : t) (reservation_station_name : string)
    (value : pyval) : t :=
  let hit_j := bool_decide (qj self = Some reservation_station_name) in
  let hit_k := bool_decide (qk self = Some reservation_station_name) in
  {| name := name self; op := op self;
     vj := if hit_j then value else vj self;
     vk := if hit_k then value else vk self;
     qj := if hit_j then None else qj self;
     qk := if hit_k then None else qk self;
     busy := busy self; dest := dest self; instruction := instruction self;
     offset := offset self; address := address self;
     executing := executing self;
     execution_cycles_left := execution_cycles_left self |}.

(** Assignments to single attributes. *)
Definition set_execution (self : t) (executing : bool) (left : Z) : t :=
  {| name := name self; op := op self; vj := vj self; vk := vk self;
     qj := qj self; qk := qk self; busy := busy self; dest := dest self;
     instruction := instruction self; offset := offset self;
     address := address self; executing := executing;
     execution_cycles_left := left |}.

Definition set_address (self : t) (address : option Z) : t :=
  {| name := name self; op := op self; vj := vj self; vk := vk self;
     qj := qj self; qk := qk self; busy := busy self; dest := dest self;
     instruction := instruction self; offset := offset self;
     address := address; executing := executing self;
     execution_cycles_left := execution_cycles_left self |}.

(** What [Simulator.issue] writes into a free station. *)
Definition bind_instruction (self : t) (op : opcode) (instruction : nat)
    (dest : option string) (qj : option string) (vj : pyval)
    (qk : option string) (vk : pyval) (offset : option Z) : t :=
  {| name := name self; op := Some op; vj := vj; vk := vk; qj := qj;
     qk := qk; busy := true; dest := dest; instruction := Some instruction;
     offset := offset; address := address self;
     executing := executing self;
     execution_cycles_left := execution_cycles_left self |}.

End ReservationStation.

Module ReservationStations.

(** [all_stations]: the station objects, in the order
    [alu_stations + mul_div_stations + load_buffers + store_buffers]. *)
Abbreviation t := (list ReservationStation.t).

Definition station_names : list string :=
  ["ALU1"; "ALU2"; "ALU3"; "MUL1"; "MUL2"; "LOAD1"; "LOAD2"; "STORE1"; "STORE2"].

(** [ReservationStations.__init__] *)
Definition init : t := ReservationStation.init <$> station_names.

(** The four pools hold the same objects as [all_stations]; each is given
    by the positions of its stations there. *)
Definition alu_stations : list nat := seq 0 Config.NUM_ALU_RS.
Definition mul_div_stations : list nat :=
  seq Config.NUM_ALU_RS Config.NUM_MUL_DIV_RS.
Definition load_buffers : list nat :=
  seq (Config.NUM_ALU_RS + Config.NUM_MUL_DIV_RS) Config.NUM_LOAD_BUFFER_ENTRIES.
Definition store_buffers : list nat :=
  seq (Config.NUM_ALU_RS + Config.NUM_MUL_DIV_RS + Config.NUM_LOAD_BUFFER_ENTRIES)
      Config.NUM_STORE_BUFFER_ENTRIES.

Definition get_station_by_name (self : t) (name : string) : option nat :=
  fst <$> list_find (λ station, ReservationStation.name station = name) self.

(** The first station of a pool that is not busy. *)
Fixpoint first_free (self : t) (pool : list nat) : option nat :=
  match pool with
  | [] => None
  | i :: pool' =>
      match self !! i with
      | Some station =>
          if ReservationStation.busy station then first_free self pool'
          else Some i
      | None => first_free self pool'
      end
  end.

Definition pool_of (op : opcode) : list nat :=
  match op with
  | ADD | SUB => alu_stations
  | MUL | DIV => mul_div_stations
  | LOAD => load_buffers
  | STORE => store_buffers
  end.

Definition get_available_station (self : t) (op : opcode) : option nat :=
  first_free self (pool_of op).

Definition update_from_cdb (self : t) (cdb_name : string) (cdb_value : pyval)
  : t :=
  (λ station, ReservationStation.update_operand station cdb_name cdb_value)
    <$> self.

End ReservationStations.

(** ** components/functional_unit.py *)

Module FunctionalUnit.

(** The three subclasses of [FunctionalUnit]. *)
Inductive unit_class : Type := ALU | MulDiv | LoadStore.

Record t : Type := mk {
  name : string;
  kind : unit_class;
  busy : bool;
  reservation_station : option nat;
  cycles_left : Z
}.

Definition init (name : string) (kind : unit_class) : t :=
  {| name := name; kind := kind; busy := false;
     reservation_station := None; cycles_left := 0 |}.

Definition supported_ops (kind : unit_class) : list opcode :=
  match kind with
  | ALU => [ADD; SUB]
  | MulDiv => [MUL; DIV]
  | LoadStore => [LOAD; STORE]
  end.

(** [can_accept]; the operation of a cleared station is [None], which is in
    no list of supported operations. *)
Definition can_accept (self : t) (op : option opcode) : bool :=
  match op with
  | Some op => bool_decide (op ∈ supported_ops (kind self)) && negb (busy self)
  | None => false
  end.

(** [start_execution]: the unit and the station after the call. *)
Definition start_execution (self : t) (rs_index : nat)
    (reservation_station : ReservationStation.t)
  : result (t * ReservationStation.t) :=
  match ReservationStation.op reservation_station with
  | None => Raise KeyError
  | Some op =>
      Ok ({| name := name self; kind := kind self; busy := true;
             reservation_station := Some rs_index;
             cycles_left := LATENCIES op |},
          ReservationStation.set_execution reservation_station true
            (LATENCIES op))
  end.

(** [compute_result] of the three subclasses: the result, the memory after
    the call and what was printed. *)
Definition compute_result (kind : unit_class) (rs : ReservationStation.t)
    (memory : Memory.t) : result (pyval * Memory.t * list message) :=
  match kind with
  | ALU =>
      match ReservationStation.op rs with
      | Some ADD =>
          let* r := py_arith Z.add (ReservationStation.vj rs)
                      (ReservationStation.vk rs) in
          Ok (r, memory, [])
      | Some SUB =>
          let* r := py_arith Z.sub (ReservationStation.vj rs)
                      (ReservationStation.vk rs) in
          Ok (r, memory, [])
      | _ => Raise ValueError
      end
  | MulDiv =>
      match ReservationStation.op rs with
      | Some MUL =>
          let* r := py_arith Z.mul (ReservationStation.vj rs)
                      (ReservationStation.vk rs) in
          Ok (r, memory, [])
      | Some DIV =>
          if bool_decide (ReservationStation.vk rs = Some 0)
          then Ok (Some 0, memory,
                   [WarnDivisionByZero (ReservationStation.instruction rs)])
          else
            let* r := py_arith Z.div (ReservationStation.vj rs)
                        (ReservationStation.vk rs) in
            Ok (r, memory, [])
      | _ => Raise ValueError
      end
  | LoadStore =>
      match ReservationStation.op rs with
      | Some LOAD =>
          match ReservationStation.address rs with
          | None => Raise TypeError
          | Some address =>
              let* (word, out) := Memory.read memory address in
              Ok (word, memory, out)
          end
      | Some STORE =>
          match ReservationStation.address rs with
          | None => Raise TypeError
          | Some address =>
              let* (memory', out) :=
                Memory.write memory address (ReservationStation.vk rs) in
              Ok (None, memory', out)
          end
      | _ => Raise ValueError
      end
  end.

(** [FunctionalUnit.tick]: the unit, the stations and the memory after the
    call, what was printed, and the completion [(rs_name, result)] if the
    unit finished. *)
Definition tick (self : t) (stations : ReservationStations.t)
    (memory : Memory.t)
  : result (t * ReservationStations.t * Memory.t * list message
            * option (string * pyval)) :=
  if negb (busy self) then Ok (self, stations, memory, [], None)
  else
    match reservation_station self with
    | None => Raise AttributeError
    | Some i =>
        let* rs := py_getitem stations i in
        let left := cycles_left self - 1 in
        let rs := ReservationStation.set_execution rs
                    (ReservationStation.executing rs)
                    (ReservationStation.execution_cycles_left rs - 1) in
        if 0 <? left
        then Ok ({| name := name self; kind := kind self; busy := true;
                    reservation_station := Some i; cycles_left := left |},
                 <[i := rs]> stations, memory, [], None)
        else
          let* (res, memory', out) := compute_result (kind self) rs memory in
          let rs_name := ReservationStation.name rs in
          Ok ({| name := name self; kind := kind self; busy := false;
                 reservation_station := None; cycles_left := left |},
              <[i := ReservationStation.set_execution rs false
                       (ReservationStation.execution_cycles_left rs)]> stations,
              memory', out, Some (rs_name, res))
    end.

End FunctionalUnit.

Module FunctionalUnits.

(** [all_units], in the order [alus + mul_divs + load_stores]. *)
Abbreviation t := (list FunctionalUnit.t).

(** [FunctionalUnits.__init__] *)
Definition init : t :=
  [ FunctionalUnit.init "ALU1" FunctionalUnit.ALU;
    FunctionalUnit.init "ALU2" FunctionalUnit.ALU;
    FunctionalUnit.init "MULDIV1" FunctionalUnit.MulDiv;
    FunctionalUnit.init "LOADSTORE1" FunctionalUnit.LoadStore ].

(** The first unit, in traversal order, that can accept the operation. *)
Definition get_available (self : t) (op : option opcode) : option nat :=
  fst <$> list_find (λ unit, FunctionalUnit.can_accept unit op = true) self.

(** [FunctionalUnits.tick]: every unit is advanced in turn; the completions
    are returned in traversal order. *)
Fixpoint tick (self : t) (stations : ReservationStations.t)
    (memory : Memory.t)
  : result (t * ReservationStations.t * Memory.t * list message
            * list (string * pyval)) :=
  match self with
  | [] => Ok ([], stations, memory, [], [])
  | unit :: units =>
      let* (unit', stations1, memory1, out1, completion) :=
        FunctionalUnit.tick unit stations memory in
      let* (units', stations2, memory2, out2, results) :=
        tick units stations1 memory1 in
      Ok (unit' :: units', stations2, memory2, out1 ++ out2,
          option_list completion ++ results)
  end.

End FunctionalUnits.

(** ** components/common_data_bus.py *)

Module CommonDataBus.

Record t : Type := mk {
  reservation_station : option string;
  value : pyval;
  busy : option bool
}.

Definition init : t :=
  {| reservation_station := None; value := None; busy := None |}.

Definition broadcast (self : t) (reservation_station : string) (value : pyval)
  : t * bool :=
  if bool_decide (busy self = Some true) then (self, false)
  else ({| reservation_station := Some reservation_station; value := value;
           busy := Some true |}, true).

Definition clear (self : t) : t :=
  {| reservation_station := None; value := None; busy := None |}.

End CommonDataBus.

(** ** utils/metrics.py *)

Module Metrics.

Record t : Type := mk {
  total_cycles : nat;
  total_instrcutions : nat;
  completed_instructions : nat;
  rs_busy_cycles : nat;
  total_rs_cycles : nat;
  ls_buffer_busy_cycles : nat;
  total_ls_buffer_cycles : nat;
  structural_hazard_stalls : nat
}.

Definition init : t :=
  {| total_cycles := 0; total_instrcutions := 0; completed_instructions := 0;
     rs_busy_cycles := 0; total_rs_cycles := 0; ls_buffer_busy_cycles := 0;
     total_ls_buffer_cycles := 0; structural_hazard_stalls := 0 |}.

(** The number of busy stations among the given positions. *)
Definition count_busy (stations : ReservationStations.t) (pool : list nat)
  : nat :=
  length (filter (λ i, ReservationStation.busy <$> stations !! i = Some true)
            pool).

Definition update_rs_occupancy (self : t) (stations : ReservationStations.t)
  : t :=
  let pool := ReservationStations.alu_stations
              ++ ReservationStations.mul_div_stations in
  {| total_cycles := total_cycles self;
     total_instrcutions := total_instrcutions self;
     completed_instructions := completed_instructions self;
     rs_busy_cycles := rs_busy_cycles self + count_busy stations pool;
     total_rs_cycles := total_rs_cycles self
                        + (length ReservationStations.alu_stations
                           + length ReservationStations.mul_div_stations);
     ls_buffer_busy_cycles := ls_buffer_busy_cycles self;
     total_ls_buffer_cycles := total_ls_buffer_cycles self;
     structural_hazard_stalls := structural_hazard_stalls self |}%nat.

Definition update_ls_buffer_utilization (self : t)
    (stations : ReservationStations.t) : t :=
  let pool := ReservationStations.load_buffers
              ++ ReservationStations.store_buffers in
  {| total_cycles := total_cycles self;
     total_instrcutions := total_instrcutions self;
     completed_instructions := completed_instructions self;
     rs_busy_cycles := rs_busy_cycles self;
     total_rs_cycles := total_rs_cycles self;
     ls_buffer_busy_cycles := ls_buffer_busy_cycles self
                              + count_busy stations pool;
     total_ls_buffer_cycles := total_ls_buffer_cycles self
                        + (length ReservationStations.load_buffers
                           + length ReservationStations.store_buffers);
     structural_hazard_stalls := structural_hazard_stalls self |}%nat.

Definition increment_structural_hazard_stalls (self : t) : t :=
  {| total_cycles := total_cycles self;
     total_instrcutions := total_instrcutions self;
     completed_instructions := completed_instructions self;
     rs_busy_cycles := rs_busy_cycles self;
     total_rs_cycles := total_rs_cycles self;
     ls_buffer_busy_cycles := ls_buffer_busy_cycles self;
     total_ls_buffer_cycles := total_ls_buffer_cycles self;
     structural_hazard_stalls := S (structural_hazard_stalls self) |}.

Definition set_total_cycles (self : t) (n : nat) : t :=
  {| total_cycles := n;
     total_instrcutions := total_instrcutions self;
     completed_instructions := completed_instructions self;
     rs_busy_cycles := rs_busy_cycles self;
     total_rs_cycles := total_rs_cycles self;
     ls_buffer_busy_cycles := ls_buffer_busy_cycles self;
     total_ls_buffer_cycles := total_ls_buffer_cycles self;
     structural_hazard_stalls := structural_hazard_stalls self |}.

Definition set_total_instrcutions (self : t) (n : nat) : t :=
  {| total_cycles := total_cycles self;
     total_instrcutions := n;
     completed_instructions := completed_instructions self;
     rs_busy_cycles := rs_busy_cycles self;
     total_rs_cycles := total_rs_cycles self;
     ls_buffer_busy_cycles := ls_buffer_busy_cycles self;
     total_ls_buffer_cycles := total_ls_buffer_cycles self;
     structural_hazard_stalls := structural_hazard_stalls self |}.

Definition increment_completed_instructions (self : t) : t :=
  {| total_cycles := total_cycles self;
     total_instrcutions := total_instrcutions self;
     completed_instructions := S (completed_instructions self);
     rs_busy_cycles := rs_busy_cycles self;
     total_rs_cycles := total_rs_cycles self;
     ls_buffer_busy_cycles := ls_buffer_busy_cycles self;
     total_ls_buffer_cycles := total_ls_buffer_cycles self;
     structural_hazard_stalls := structural_hazard_stalls self |}.

(** [a / b if b > 0 else 0]; the quotient of the source is a float, here it
    is the exact rational. *)
Definition ratio (a b : nat) : Q :=
  if (0 <? b)%nat then Qmake (Z.of_nat a) (Pos.of_nat b) else 0%Q.

(** The derived metrics of [report], before they are formatted with two
    decimals. *)
Definition ipc (self : t) : Q :=
  ratio (completed_instructions self) (total_cycles self).

Definition rs_occupancy_percent (self : t) : Q :=
  (ratio (rs_busy_cycles self) (total_rs_cycles self) * 100)%Q.

Definition ls_buffer_utilization_percent (self : t) : Q :=
  (ratio (ls_buffer_busy_cycles self) (total_ls_buffer_cycles self) * 100)%Q.

Definition stall_percent (self : t) : Q :=
  (ratio (structural_hazard_stalls self) (total_cycles self) * 100)%Q.

End Metrics.

(** ** simulator.py *)

Module Simulator.

Record t : Type := mk {
  memory : Memory.t;
  register_file : RegisterFile.t;
  functional_units : FunctionalUnits.t;
  reservation_stations : ReservationStations.t;
  cdb : CommonDataBus.t;
  metrics : Metrics.t;
  instructions : list Instruction.t;
  pc : nat;
  cycle : nat;
  done : bool;
  stdout : list message
}.

(** [Simulator.__init__], for the given initial register values. *)
Definition init (registers : list pyval) : t :=
  {| memory := Memory.init;
     register_file := RegisterFile.init registers;
     functional_units := FunctionalUnits.init;
     reservation_stations := ReservationStations.init;
     cdb := CommonDataBus.init;
     metrics := Metrics.init;
     instructions := [];
     pc := 0;
     cycle := 0;
     done := false;
     stdout := [] |}.

(** The part of [load_trace] after the file has been parsed. *)
Definition load_instructions (self : t) (instructions : list Instruction.t)
  : t :=
  {| memory := memory self;
     register_file := register_file self;
     functional_units := functional_units self;
     reservation_stations := reservation_stations self;
     cdb := cdb self;
     metrics := Metrics.set_total_instrcutions (metrics self)
                  (length instructions);
     instructions := instructions;
     pc := 0;
     cycle := 0;
     done := false;
     stdout := stdout self |}.

(** [load_trace] on the lines of the trace file. *)
Definition load_trace (self : t) (lines : list string) : result t :=
  let '(r, out) := TraceParser.parse_file lines in
  let* instructions := r in
  let self := load_instructions self instructions in
  Ok {| memory := memory self;
        register_file := register_file self;
        functional_units := functional_units self;
        reservation_stations := reservation_stations self;
        cdb := cdb self;
        metrics := metrics self;
        instructions := Simulator.instructions self;
        pc := pc self;
        cycle := cycle self;
        done := done self;
        stdout := stdout self ++ out |}.

(** Assignment of a timestamp of [self.instructions[k]]. *)
Definition stamp (f : Instruction.t → Instruction.t) (k : nat)
    (instructions : list Instruction.t) : result (list Instruction.t) :=
  let* instruction := py_getitem instructions k in
  py_setitem instructions k (f instruction).

Definition set_issue_cycle (c : nat) (i : Instruction.t) : Instruction.t :=
  {| Instruction.op := Instruction.op i; Instruction.dest := Instruction.dest i;
     Instruction.src1 := Instruction.src1 i;
     Instruction.src2 := Instruction.src2 i;
     Instruction.offset := Instruction.offset i;
     Instruction.base := Instruction.base i;
     Instruction.issue_cycle := Some c;
     Instruction.start_cycle := Instruction.start_cycle i;
     Instruction.execute_complete_cycle := Instruction.execute_complete_cycle i;
     Instruction.write_result_cycle := Instruction.write_result_cycle i |}.

Definition set_start_cycle (c : nat) (i : Instruction.t) : Instruction.t :=
  {| Instruction.op := Instruction.op i; Instruction.dest := Instruction.dest i;
     Instruction.src1 := Instruction.src1 i;
     Instruction.src2 := Instruction.src2 i;
     Instruction.offset := Instruction.offset i;
     Instruction.base := Instruction.base i;
     Instruction.issue_cycle := Instruction.issue_cycle i;
     Instruction.start_cycle := Some c;
     Instruction.execute_complete_cycle := Instruction.execute_complete_cycle i;
     Instruction.write_result_cycle := Instruction.write_result_cycle i |}.

(** [execute_complete_cycle] and [write_result_cycle] are assigned together. *)
Definition set_completion_cycles (c : nat) (i : Instruction.t)
  : Instruction.t :=
  {| Instruction.op := Instruction.op i; Instruction.dest := Instruction.dest i;
     Instruction.src1 := Instruction.src1 i;
     Instruction.src2 := Instruction.src2 i;
     Instruction.offset := Instruction.offset i;
     Instruction.base := Instruction.base i;
     Instruction.issue_cycle := Instruction.issue_cycle i;
     Instruction.start_cycle := Instruction.start_cycle i;
     Instruction.execute_complete_cycle := Some c;
     Instruction.write_result_cycle := Some c |}.

(** Operand capture at issue: the [q] and [v] attributes of the station
    after consulting the status of [src_reg]; a pending operand leaves the
    [v] attribute as it was. *)
Definition capture (rf : RegisterFile.t) (src_reg : option string)
    (v : pyval) : result (option string * pyval) :=
  let* status := RegisterFile.get_status rf src_reg in
  match status with
  | Some tag => Ok (Some tag, v)
  | None =>
      let* value := RegisterFile.read rf src_reg in
      Ok (None, value)
  end.

(** [Simulator.issue]: the simulator after the call and the returned flag. *)
Definition issue (self : t) : result (t * bool) :=
  if bool_decide (length (instructions self) ≤ pc self)%nat
  then Ok (self, false)
  else
    let* instruction := py_getitem (instructions self) (pc self) in
    let op := Instruction.op instruction in
    match ReservationStations.get_available_station
            (reservation_stations self) op with
    | None =>
        Ok ({| memory := memory self;
               register_file := register_file self;
               functional_units := functional_units self;
               reservation_stations := reservation_stations self;
               cdb := cdb self;
               metrics :=
                 Metrics.increment_structural_hazard_stalls (metrics self);
               instructions := instructions self;
               pc := pc self;
               cycle := cycle self;
               done := done self;
               stdout := stdout self |}, false)
    | Some i =>
        let* rs := py_getitem (reservation_stations self) i in
        let* instructions' :=
          stamp (set_issue_cycle (cycle self)) (pc self) (instructions self) in
        let rf := register_file self in
        let* (rs', rf') :=
          match op with
          | ADD | SUB | MUL | DIV =>
              let* (qj, vj) :=
                capture rf (Instruction.src1 instruction)
                  (ReservationStation.vj rs) in
              let* (qk, vk) :=
                capture rf (Instruction.src2 instruction)
                  (ReservationStation.vk rs) in
              let* rf' :=
                RegisterFile.set_status rf (Instruction.dest instruction)
                  (Some (ReservationStation.name rs)) in
              Ok (ReservationStation.bind_instruction rs op (pc self)
                    (Instruction.dest instruction) qj vj qk vk
                    (ReservationStation.offset rs), rf')
          | LOAD =>
              let* (qj, vj) :=
                capture rf (Instruction.base instruction)
                  (ReservationStation.vj rs) in
              let* rf' :=
                RegisterFile.set_status rf (Instruction.dest instruction)
                  (Some (ReservationStation.name rs)) in
              Ok (ReservationStation.bind_instruction rs op (pc self)
                    (Instruction.dest instruction) qj vj
                    (ReservationStation.qk rs) (ReservationStation.vk rs)
                    (Instruction.offset instruction), rf')
          | STORE =>
              let* (qj, vj) :=
                capture rf (Instruction.base instruction)
                  (ReservationStation.vj rs) in
              let* (qk, vk) :=
                capture rf (Instruction.src1 instruction)
                  (ReservationStation.vk rs) in
              Ok (ReservationStation.bind_instruction rs op (pc self)
                    (ReservationStation.dest rs) qj vj qk vk
                    (Instruction.offset instruction), rf)
          end in
        Ok ({| memory := memory self;
               register_file := rf';
               functional_units := functional_units self;
               reservation_stations := <[i := rs']> (reservation_stations self);
               cdb := cdb self;
               metrics := metrics self;
               instructions := instructions';
               pc := S (pc self);
               cycle := cycle self;
               done := done self;
               stdout := stdout self |}, true)
    end.

(** The body of the loop of [Simulator.execute] for the station at
    position [i] of [all_stations]. *)
Definition execute_station (i : nat) (self : t) : result t :=
  let* rs := py_getitem (reservation_stations self) i in
  if ReservationStation.isReady rs && negb (ReservationStation.executing rs)
  then
    match FunctionalUnits.get_available (functional_units self)
            (ReservationStation.op rs) with
    | None => Ok self
    | Some u =>
        let* fu := py_getitem (functional_units self) u in
        let* (fu', rs') := FunctionalUnit.start_execution fu i rs in
        let* k :=
          match ReservationStation.instruction rs' with
          | Some k => Ok k
          | None => Raise AttributeError
          end in
        let* instructions' :=
          stamp (set_start_cycle (cycle self)) k (instructions self) in
        let* rs'' :=
          if bool_decide (ReservationStation.op rs' = Some LOAD
                          ∨ ReservationStation.op rs' = Some STORE)
          then
            let* a := py_arith Z.add (ReservationStation.vj rs')
                        (ReservationStation.offset rs') in
            Ok (ReservationStation.set_address rs' a)
          else Ok rs' in
        Ok {| memory := memory self;
              register_file := register_file self;
              functional_units := <[u := fu']> (functional_units self);
              reservation_stations := <[i := rs'']> (reservation_stations self);
              cdb := cdb self;
              metrics := metrics self;
              instructions := instructions';
              pc := pc self;
              cycle := cycle self;
              done := done self;
              stdout := stdout self |}
    end
  else Ok self.

(** The loop [for rs in self.reservation_stations.all_stations]. *)
Fixpoint for_each (body : nat → t → result t) (positions : list nat)
    (self : t) : result t :=
  match positions with
  | [] => Ok self
  | i :: positions' =>
      let* self' := body i self in
      for_each body positions' self'
  end.

(** [Simulator.execute] *)
Definition execute (self : t) : result t :=
  for_each execute_station (seq 0 (length (reservation_stations self))) self.

(** The body of [if results:] in [Simulator.write_back], for the first
    completion [(rs_name, value)], in the state left by
    [self.functional_units.tick()]. *)
Definition write_result (self : t) (rs_name : string) (value : pyval)
  : result t :=
  let '(cdb', _) := CommonDataBus.broadcast (cdb self) rs_name value in
  match ReservationStations.get_station_by_name (reservation_stations self)
          rs_name with
  | None =>
      Ok {| memory := memory self;
            register_file := register_file self;
            functional_units := functional_units self;
            reservation_stations := reservation_stations self;
            cdb := cdb';
            metrics := metrics self;
            instructions := instructions self;
            pc := pc self;
            cycle := cycle self;
            done := done self;
            stdout := stdout self |}
  | Some i =>
      let* rs := py_getitem (reservation_stations self) i in
      let* k :=
        match ReservationStation.instruction rs with
        | Some k => Ok k
        | None => Raise AttributeError
        end in
      let* instructions' :=
        stamp (set_completion_cycles (cycle self)) k (instructions self) in
      let* rf' :=
        if bool_decide (ReservationStation.op rs = Some STORE
                        ∨ ReservationStation.op rs = None)
        then Ok (register_file self)
        else
          let dest_reg := ReservationStation.dest rs in
          let* rf1 := RegisterFile.write (register_file self) dest_reg value in
          let* status := RegisterFile.get_status rf1 dest_reg in
          if bool_decide (status = Some rs_name)
          then RegisterFile.set_status rf1 dest_reg None
          else Ok rf1 in
      let stations' :=
        ReservationStations.update_from_cdb (reservation_stations self)
          rs_name value in
      let* rs1 := py_getitem stations' i in
      Ok {| memory := memory self;
            register_file := rf';
            functional_units := functional_units self;
            reservation_stations :=
              <[i := ReservationStation.clear rs1]> stations';
            cdb := cdb';
            metrics := Metrics.increment_completed_instructions (metrics self);
            instructions := instructions';
            pc := pc self;
            cycle := cycle self;
            done := done self;
            stdout := stdout self |}
  end.

(** [Simulator.write_back] *)
Definition write_back (self : t) : result t :=
  let cdb0 := CommonDataBus.clear (cdb self) in
  let* (units', stations', memory', out, results) :=
    FunctionalUnits.tick (functional_units self) (reservation_stations self)
      (memory self) in
  let self1 :=
    {| memory := memory';
       register_file := register_file self;
       functional_units := units';
       reservation_stations := stations';
       cdb := cdb0;
       metrics := metrics self;
       instructions := instructions self;
       pc := pc self;
       cycle := cycle self;
       done := done self;
       stdout := stdout self ++ out |} in
  match results with
  | [] => Ok self1
  | (rs_name, value) :: _ => write_result self1 rs_name value
  end.

(** The first statements of [Simulator.tick]: the clock and the sampled
    metrics. *)
Definition begin_cycle (self : t) : t :=
  let cycle' := S (cycle self) in
  {| memory := memory self;
     register_file := register_file self;
     functional_units := functional_units self;
     reservation_stations := reservation_stations self;
     cdb := cdb self;
     metrics :=
       Metrics.update_ls_buffer_utilization
         (Metrics.update_rs_occupancy
            (Metrics.set_total_cycles (metrics self) cycle')
            (reservation_stations self))
         (reservation_stations self);
     instructions := instructions self;
     pc := pc self;
     cycle := cycle';
     done := done self;
     stdout := stdout self |}.

(** [Simulator.tick]: the simulator after the call and the returned flag. *)
Definition tick (self : t) : result (t * bool) :=
  let self := begin_cycle self in
  let* self := write_back self in
  let* self := execute self in
  let* (self, issued) := issue self in
  if negb issued
     && bool_decide (length (instructions self) ≤ pc self)%nat
     && forallb (λ rs, negb (ReservationStation.busy rs))
          (reservation_stations self)
  then Ok (self, false)
  else Ok (self, true).

(** [n] calls of [tick], whatever they return (as a host stepping the
    simulator with [run_step] may do). *)
Fixpoint ticks (n : nat) (self : t) : result t :=
  match n with
  | O => Ok self
  | S n' =>
      let* self' := ticks n' self in
      let* (self'', _) := tick self' in
      Ok self''
  end.

(** The loop [while self.tick(): pass] of [Simulator.run], cut after [fuel]
    calls: [None] when the loop has not ended by then. *)
Fixpoint run_loop (fuel : nat) (self : t) : result (option t) :=
  match fuel with
  | O => Ok None
  | S fuel' =>
      let* (self', continue) := tick self in
      if continue then run_loop fuel' self' else Ok (Some self')
  end.

End Simulator.

(** * Runs and the predicates used to state the properties *)

(** The state after [Simulator()] and [load_trace] for a trace that parsed
    to [instructions] while [out] was printed. *)
Definition loaded (registers : list pyval) (instructions : list Instruction.t)
    (out : list message) : Simulator.t :=
  let self := Simulator.load_instructions (Simulator.init registers)
                instructions in
  {| Simulator.memory := Simulator.memory self;
     Simulator.register_file := Simulator.register_file self;
     Simulator.functional_units := Simulator.functional_units self;
     Simulator.reservation_stations := Simulator.reservation_stations self;
     Simulator.cdb := Simulator.cdb self;
     Simulator.metrics := Simulator.metrics self;
     Simulator.instructions := Simulator.instructions self;
     Simulator.pc := Simulator.pc self;
     Simulator.cycle := Simulator.cycle self;
     Simulator.done := Simulator.done self;
     Simulator.stdout := out |}.

(** The instructions [parse_file] reads from the lines of a trace. *)
Definition program (lines : list string) : list Instruction.t :=
  match TraceParser.parse_file lines with
  | (Ok instructions, _) => instructions
  | (Raise _, _) => []
  end.

(** The state [n] ticks after the trace was loaded. *)
Definition state_after (n : nat) (registers : list pyval)
    (lines : list string) : Simulator.t :=
  match Simulator.ticks n (loaded registers (program lines) []) with
  | Ok s => s
  | Raise _ => loaded registers (program lines) []
  end.

(** The register values of the end-to-end scenarios of the specification:
    R0=0, R1=5, R2=7, R3=3 and the others 0. *)
Definition scenario_registers : list pyval :=
  Some <$> [0; 5; 7; 3; 0; 0; 0; 0].

(** An instruction as [Instruction.__init__] leaves it. *)
Definition fresh (i : Instruction.t) : bool :=
  bool_decide (Instruction.issue_cycle i = None)
  && bool_decide (Instruction.start_cycle i = None)
  && bool_decide (Instruction.execute_complete_cycle i = None)
  && bool_decide (Instruction.write_result_cycle i = None).

(** The states a run goes through: some number of ticks after the trace
    was loaded. *)
Definition reachable (s : Simulator.t) : Prop :=
  ∃ registers instructions out n,
    length registers = Z.to_nat Config.NUM_REGISTERS
    ∧ forallb fresh instructions = true
    ∧ Simulator.ticks n (loaded registers instructions out) = Ok s.

(** The operations with a destination register. *)
Definition producing (op : option opcode) : bool :=
  match op with
  | Some STORE | None => false
  | Some _ => true
  end.

(** A station without the two attributes a functional unit writes. *)
Definition payload (st : ReservationStation.t) : ReservationStation.t :=
  ReservationStation.set_execution st false 0.

(** The position in the register file of a station's destination. *)
Definition dest_index (st : ReservationStation.t) : option nat :=
  match ReservationStation.dest st with
  | Some d =>
      match RegisterFile.get_register_index (Some d) with
      | Ok r => Some r
      | Raise _ => None
      end
  | None => None
  end.

(** The number of busy stations whose destination is register [r]. *)
Definition busy_producers (s : Simulator.t) (r : nat) : nat :=
  length (filter (λ st, ReservationStation.busy st = true
                        ∧ dest_index st = Some r)
            (Simulator.reservation_stations s)).

(** The status of register [r], [None] also when there is no such
    register. *)
Definition status_of (s : Simulator.t) (r : nat) : option string :=
  mjoin (RegisterFile.status (Simulator.register_file s) !! r).

(** The well-formedness of the scheduler state that every tick keeps. *)
Record Inv (s : Simulator.t) : Prop := {
  inv_names :
    ReservationStation.name <$> Simulator.reservation_stations s
    = ReservationStations.station_names;
  inv_bound : ∀ ui u,
    Simulator.functional_units s !! ui = Some u →
    FunctionalUnit.busy u = true →
    ∃ i st, FunctionalUnit.reservation_station u = Some i
      ∧ Simulator.reservation_stations s !! i = Some st
      ∧ ReservationStation.busy st = true
      ∧ ReservationStation.executing st = true
      ∧ ReservationStation.qj st = None
      ∧ ReservationStation.qk st = None;
  inv_inj : ∀ ui uj u u' i,
    Simulator.functional_units s !! ui = Some u →
    Simulator.functional_units s !! uj = Some u' →
    FunctionalUnit.busy u = true →
    FunctionalUnit.busy u' = true →
    FunctionalUnit.reservation_station u = Some i →
    FunctionalUnit.reservation_station u' = Some i →
    ui = uj;
  inv_status : ∀ r t,
    status_of s r = Some t →
    ∃ i st, Simulator.reservation_stations s !! i = Some st
      ∧ ReservationStation.name st = t
      ∧ ReservationStation.busy st = true
      ∧ dest_index st = Some r;
  inv_dest : ∀ i st,
    Simulator.reservation_stations s !! i = Some st →
    is_Some (ReservationStation.dest st) →
    ReservationStation.busy st = true
    ∧ producing (ReservationStation.op st) = true;
  inv_fresh : ∀ k ins,
    Simulator.instructions s !! k = Some ins →
    (Simulator.pc s ≤ k)%nat →
    fresh ins = true;
  inv_instr : ∀ i st k,
    Simulator.reservation_stations s !! i = Some st →
    ReservationStation.instruction st = Some k →
    ReservationStation.busy st = true
    ∧ (k < Simulator.pc s)%nat
    ∧ ∃ ins, Simulator.instructions s !! k = Some ins
        ∧ Instruction.execute_complete_cycle ins = None
        ∧ Instruction.write_result_cycle ins = None;
  inv_instr_inj : ∀ i j st st' k,
    Simulator.reservation_stations s !! i = Some st →
    Simulator.reservation_stations s !! j = Some st' →
    ReservationStation.instruction st = Some k →
    ReservationStation.instruction st' = Some k →
    i = j
}.

(** What [write_back] relies on when it processes a completion: the
    register file has its [NUM_REGISTERS] entries, and a busy station has
    its instruction and, unless it holds a STORE, a destination that names
    a register. *)
Record Writable (s : Simulator.t) : Prop := {
  wr_registers :
    length (RegisterFile.registers (Simulator.register_file s))
    = Z.to_nat Config.NUM_REGISTERS;
  wr_status :
    length (RegisterFile.status (Simulator.register_file s))
    = Z.to_nat Config.NUM_REGISTERS;
  wr_instr : ∀ i st,
    Simulator.reservation_stations s !! i = Some st →
    ReservationStation.busy st = true →
    is_Some (ReservationStation.instruction st);
  wr_dest : ∀ i st,
    Simulator.reservation_stations s !! i = Some st →
    ReservationStation.busy st = true →
    producing (ReservationStation.op st) = true →
    is_Some (dest_index st)
}.

(** What a later state may have changed in the timestamps of an
    instruction: [issue_cycle], [execute_complete_cycle] and
    [write_result_cycle] are kept once set, and [start_cycle] is kept once
    the instruction has written back. *)
Definition stamps_kept (i i' : Instruction.t) : Prop :=
  (∀ c, Instruction.issue_cycle i = Some c →
        Instruction.issue_cycle i' = Some c)
  ∧ (∀ c, Instruction.execute_complete_cycle i = Some c →
          Instruction.execute_complete_cycle i' = Some c)
  ∧ (∀ c, Instruction.write_result_cycle i = Some c →
          Instruction.write_result_cycle i' = Some c)
  ∧ (is_Some (Instruction.write_result_cycle i) →
     Instruction.start_cycle i' = Instruction.start_cycle i).

(** The same for the list of instructions of two states. *)
Definition instrs_kept (l l' : list Instruction.t) : Prop :=
  ∀ k ins, l !! k = Some ins →
    ∃ ins', l' !! k = Some ins' ∧ stamps_kept ins ins'.

(** The value of a call that did not raise. *)
Definition get_ok {A : Type} (default : A) (r : result A) : A :=
  match r with
  | Ok a => a
  | Raise _ => default
  end.

(** The claim that a register has a status exactly when one busy station
    has it as destination. *)
Definition status_iff_one_producer (s : Simulator.t) : Prop :=
  ∀ r, (r < Z.to_nat Config.NUM_REGISTERS)%nat →
    status_of s r ≠ None ↔ busy_producers s r = 1%nat.

(** The claim that every access outside the memory is a soft failure:
    a warning, 0 for a read, nothing written, and no exception. *)
Definition memory_soft_failure : Prop :=
  ∀ (m : Memory.t) (a : Z) (v : pyval),
    ¬ (0 ≤ a < Config.MEMORY_SIZE) →
    Memory.read m a = Ok (Some 0, [WarnLoadOutOfRange a])
    ∧ Memory.write m a v = Ok (m, [WarnStoreOutOfRange a]).

(** The claim that no timestamp of an instruction is ever overwritten with
    another value. *)
Definition timestamps_never_overwritten : Prop :=
  ∀ s s' n k ins ins',
    reachable s → Simulator.ticks n s = Ok s' →
    Simulator.instructions s !! k = Some ins →
    Simulator.instructions s' !! k = Some ins' →
    (∀ c, Instruction.issue_cycle ins = Some c →
          Instruction.issue_cycle ins' = Some c)
    ∧ (∀ c, Instruction.start_cycle ins = Some c →
            Instruction.start_cycle ins' = Some c)
    ∧ (∀ c, Instruction.execute_complete_cycle ins = Some c →
            Instruction.execute_complete_cycle ins' = Some c)
    ∧ (∀ c, Instruction.write_result_cycle ins = Some c →
            Instruction.write_result_cycle ins' = Some c).

(** Traces used as concrete inputs. *)
Definition trace_same_destination : list string :=
  ["ADD R4, R1, R2"; "ADD R4, R1, R2"].
Definition trace_slow_then_fast : list string :=
  ["MUL R4, R1, R2"; "ADD R4, R1, R2"].
Definition trace_two_finish_together : list string :=
  ["ADD R4, R1, R2"; "SUB R5, R4, R3"; "SUB R6, R4, R3"].
Definition trace_three_mul : list string :=
  ["MUL R4, R1, R2"; "MUL R5, R1, R2"; "MUL R6, R1, R2"].
Definition trace_store : list string := ["STORE 0(R0), R1"].
Definition trace_store_loses : list string :=
  ["STORE 0(R0), R1"; "ADD R2, R2, R2"; "ADD R3, R3, R3"; "ADD R4, R1, R1"].
Definition trace_div_by_zero : list string := ["DIV R1, R2, R0"].



(** The state in which [write_back] runs in tick [n + 1] of a trace. *)
Definition entering_tick (n : nat) (lines : list string) : Simulator.t :=
  Simulator.begin_cycle (state_after n scenario_registers lines).

(** The completions [FunctionalUnits.tick] returns in state [s]. *)
Definition completions_in (s : Simulator.t) : result (list (string * pyval)) :=
  let* (_, _, _, _, results) :=
    FunctionalUnits.tick (Simulator.functional_units s)
      (Simulator.reservation_stations s) (Simulator.memory s) in
  Ok results.



(** * Further invariants of a run *)

(** The operand tags: a station that executes is busy and waits for no
    operand, a free station waits for no operand, and a tag a station
    waits for names a busy station that will produce a register result. *)
Record Tags (s : Simulator.t) : Prop := {
  tag_exec : ∀ i st,
    Simulator.reservation_stations s !! i = Some st →
    ReservationStation.executing st = true →
    ReservationStation.busy st = true
    ∧ ReservationStation.qj st = None
    ∧ ReservationStation.qk st = None;
  tag_free : ∀ i st,
    Simulator.reservation_stations s !! i = Some st →
    ReservationStation.busy st = false →
    ReservationStation.qj st = None ∧ ReservationStation.qk st = None;
  tag_wait : ∀ i st t,
    Simulator.reservation_stations s !! i = Some st →
    ReservationStation.qj st = Some t ∨ ReservationStation.qk st = Some t →
    ∃ j st', Simulator.reservation_stations s !! j = Some st'
      ∧ ReservationStation.name st' = t
      ∧ ReservationStation.busy st' = true
      ∧ producing (ReservationStation.op st') = true
      ∧ j ≠ i
}.

(** The number of busy stations. *)
Definition busy_count (sts : list ReservationStation.t) : nat :=
  sum_list ((λ st, if ReservationStation.busy st then 1%nat else 0%nat)
              <$> sts).

(** Every issued instruction is in a busy station or has completed. *)
Record Accounted (s : Simulator.t) : Prop := {
  acc_issued :
    (Metrics.completed_instructions (Simulator.metrics s)
     + busy_count (Simulator.reservation_stations s))%nat
    = Simulator.pc s;
  acc_pc : (Simulator.pc s ≤ length (Simulator.instructions s))%nat;
  acc_total :
    Metrics.total_instrcutions (Simulator.metrics s)
    = length (Simulator.instructions s)
}.

(** The classes of stations and units: a busy station holds an operation
    of the class of its pool, and a busy unit is bound to a station whose
    operation it supports. *)
Record Dispatched (s : Simulator.t) : Prop := {
  dis_kinds :
    FunctionalUnit.kind <$> Simulator.functional_units s
    = FunctionalUnit.kind <$> FunctionalUnits.init;
  dis_pool : ∀ i st,
    Simulator.reservation_stations s !! i = Some st →
    ReservationStation.busy st = true →
    ∃ o, ReservationStation.op st = Some o
      ∧ i ∈ ReservationStations.pool_of o;
  dis_unit : ∀ ui u i st,
    Simulator.functional_units s !! ui = Some u →
    FunctionalUnit.busy u = true →
    FunctionalUnit.reservation_station u = Some i →
    Simulator.reservation_stations s !! i = Some st →
    ∃ o, ReservationStation.op st = Some o
      ∧ o ∈ FunctionalUnit.supported_ops (FunctionalUnit.kind u)
}.

(** * Runs that cannot raise *)

(** A name that [get_register_index] accepts. *)
Definition is_register (reg : option string) : bool :=
  match RegisterFile.get_register_index reg with
  | Ok _ => true
  | Raise _ => false
  end.

(** An instruction whose operands [issue] and [execute] can use: the
    registers its operation reads and writes are registers of the file,
    and a LOAD or a STORE has its offset. *)
Definition well_formed (ins : Instruction.t) : bool :=
  match Instruction.op ins with
  | ADD | SUB | MUL | DIV =>
      is_register (Instruction.dest ins)
      && is_register (Instruction.src1 ins)
      && is_register (Instruction.src2 ins)
  | LOAD =>
      is_register (Instruction.dest ins)
      && is_register (Instruction.base ins)
      && bool_decide (is_Some (Instruction.offset ins))
  | STORE =>
      is_register (Instruction.src1 ins)
      && is_register (Instruction.base ins)
      && bool_decide (is_Some (Instruction.offset ins))
  end.

(** A memory of [MEMORY_SIZE] integers. *)
Definition memory_ok (mem : Memory.t) : Prop :=
  length (Memory.memory mem) = Z.to_nat Config.MEMORY_SIZE
  ∧ Forall is_Some (Memory.memory mem).

(** What [compute_result] of a unit of class [kind] reads in the station:
    an operation of the class, with integer operands, and for LOAD and
    STORE the address. *)
Definition unit_ready (kind : FunctionalUnit.unit_class)
    (st : ReservationStation.t) : Prop :=
  ∃ o, ReservationStation.op st = Some o
    ∧ o ∈ FunctionalUnit.supported_ops kind
    ∧ match o with
      | LOAD => is_Some (ReservationStation.address st)
      | STORE => is_Some (ReservationStation.address st)
                 ∧ is_Some (ReservationStation.vk st)
      | _ => is_Some (ReservationStation.vj st)
             ∧ is_Some (ReservationStation.vk st)
      end.

(** The values of a state: registers and memory hold integers, a busy
    station holds an integer for each operand it does not wait for and the
    offset of a LOAD or STORE, a LOAD or STORE in execution has its
    address, and the instructions are well formed. *)
Record Valued (s : Simulator.t) : Prop := {
  val_registers :
    Forall is_Some (RegisterFile.registers (Simulator.register_file s));
  val_memory : memory_ok (Simulator.memory s);
  val_operands : ∀ i st,
    Simulator.reservation_stations s !! i = Some st →
    ReservationStation.busy st = true →
    (ReservationStation.qj st = None → is_Some (ReservationStation.vj st))
    ∧ (ReservationStation.qk st = None →
       ReservationStation.op st ≠ Some LOAD →
       is_Some (ReservationStation.vk st))
    ∧ (ReservationStation.op st = Some LOAD
       ∨ ReservationStation.op st = Some STORE →
       is_Some (ReservationStation.offset st));
  val_address : ∀ i st,
    Simulator.reservation_stations s !! i = Some st →
    ReservationStation.executing st = true →
    ReservationStation.op st = Some LOAD
    ∨ ReservationStation.op st = Some STORE →
    is_Some (ReservationStation.address st);
  val_instructions : ∀ k ins,
    Simulator.instructions s !! k = Some ins → well_formed ins = true
}.

(** The invariants of a run together. *)
Definition Sound (s : Simulator.t) : Prop :=
  Inv s ∧ Writable s ∧ Tags s ∧ Dispatched s ∧ Valued s.

(** A station with a LOAD or a STORE whose address lies outside the
    memory and has more digits than the conversion limit: the warning of
    [Memory.read] or [Memory.write] cannot be formatted. *)
Definition unprintable (st : ReservationStation.t) : Prop :=
  (ReservationStation.op st = Some LOAD
   ∨ ReservationStation.op st = Some STORE)
  ∧ ∃ a, ReservationStation.address st = Some a
      ∧ ¬ (0 ≤ a < Config.MEMORY_SIZE)
      ∧ 10 ^ int_max_str_digits ≤ Z.abs a.

(** A tick that ends with the [ValueError] of the conversion limit, raised
    for a LOAD or STORE in execution. *)
Definition raises_at_limit (s : Simulator.t) : Prop :=
  Simulator.tick s = Raise ValueError
  ∧ ∃ i st, Simulator.reservation_stations s !! i = Some st
      ∧ ReservationStation.executing st = true
      ∧ unprintable st.

(** A program without LOAD and STORE, and stations that hold none. *)
Definition arithmetic_only (s : Simulator.t) : Prop :=
  (∀ k ins, Simulator.instructions s !! k = Some ins →
     Instruction.is_arithmetic ins = true)
  ∧ (∀ i st, Simulator.reservation_stations s !! i = Some st →
       ReservationStation.op st ≠ Some LOAD
       ∧ ReservationStation.op st ≠ Some STORE).

(** * Runs that end *)

(** The cycles a busy unit still counts down. *)
Definition unit_work (u : FunctionalUnit.t) : nat :=
  if FunctionalUnit.busy u then Z.to_nat (FunctionalUnit.cycles_left u)
  else 0%nat.

(** A busy station that is not in execution has its whole latency ahead,
    which is at most 20 cycles. *)
Definition station_work (st : ReservationStation.t) : nat :=
  if ReservationStation.busy st && negb (ReservationStation.executing st)
  then 21%nat else 0%nat.

(** A bound on the work ahead while no instruction completes: the
    countdowns of the units, the stations that have not started, and the
    instructions that are not issued. *)
Definition work (s : Simulator.t) : nat :=
  (sum_list_with unit_work (Simulator.functional_units s)
   + sum_list_with station_work (Simulator.reservation_stations s)
   + 22 * (length (Simulator.instructions s) - Simulator.pc s))%nat.

(** The instructions that have not completed. *)
Definition remaining (s : Simulator.t) : nat :=
  (length (Simulator.instructions s)
   - Metrics.completed_instructions (Simulator.metrics s))%nat.

(** A station waits only for stations that hold earlier instructions. *)
Record Ordered (s : Simulator.t) : Prop := {
  ord_wait : ∀ i st t,
    Simulator.reservation_stations s !! i = Some st →
    ReservationStation.qj st = Some t ∨ ReservationStation.qk st = Some t →
    ∃ j st' k k',
      Simulator.reservation_stations s !! j = Some st'
      ∧ ReservationStation.name st' = t
      ∧ ReservationStation.busy st' = true
      ∧ ReservationStation.instruction st = Some k
      ∧ ReservationStation.instruction st' = Some k'
      ∧ (k' < k)%nat
}.

(** A station in execution has a busy unit working for it. *)
Record Driven (s : Simulator.t) : Prop := {
  drv_unit : ∀ i st,
    Simulator.reservation_stations s !! i = Some st →
    ReservationStation.executing st = true →
    ∃ ui u, Simulator.functional_units s !! ui = Some u
      ∧ FunctionalUnit.busy u = true
      ∧ FunctionalUnit.reservation_station u = Some i
}.

(** The invariants behind the termination of a run. *)
Definition Live (s : Simulator.t) : Prop :=
  Sound s ∧ Ordered s ∧ Driven s ∧ Accounted s.

(** * Timestamps and latencies *)

(** The clocks of a state.  [ds] and [du] are 1 while a cycle that has
    been counted has not yet issued ([ds]) or not yet advanced the units
    ([du]), and 0 otherwise: a station holds the operation of its
    instruction, issued [ds] cycles ago at least; a busy unit that counts
    [cycles_left] started its instruction [LATENCIES - cycles_left + du]
    cycles ago; an instruction started after it was issued, and wrote its
    result [LATENCIES] cycles after it started. *)
Record Timed (ds du : nat) (s : Simulator.t) : Prop := {
  tm_station : ∀ i st k ins,
    Simulator.reservation_stations s !! i = Some st →
    ReservationStation.instruction st = Some k →
    Simulator.instructions s !! k = Some ins →
    ReservationStation.op st = Some (Instruction.op ins)
    ∧ ∃ c1, Instruction.issue_cycle ins = Some c1
        ∧ (c1 + ds ≤ Simulator.cycle s)%nat;
  tm_unit : ∀ ui u i st k ins,
    Simulator.functional_units s !! ui = Some u →
    FunctionalUnit.busy u = true →
    FunctionalUnit.reservation_station u = Some i →
    Simulator.reservation_stations s !! i = Some st →
    ReservationStation.instruction st = Some k →
    Simulator.instructions s !! k = Some ins →
    ∃ c2, Instruction.start_cycle ins = Some c2
      ∧ FunctionalUnit.cycles_left u + Z.of_nat (Simulator.cycle s)
        = LATENCIES (Instruction.op ins) + Z.of_nat c2 + Z.of_nat du
      ∧ 1 ≤ FunctionalUnit.cycles_left u;
  tm_started : ∀ k ins c2,
    Simulator.instructions s !! k = Some ins →
    Instruction.start_cycle ins = Some c2 →
    ∃ c1, Instruction.issue_cycle ins = Some c1
      ∧ (c1 < c2)%nat ∧ (c2 ≤ Simulator.cycle s)%nat;
  tm_written : ∀ k ins c3,
    Simulator.instructions s !! k = Some ins →
    Instruction.write_result_cycle ins = Some c3 →
    Instruction.execute_complete_cycle ins = Some c3
    ∧ (c3 ≤ Simulator.cycle s)%nat
    ∧ ∃ c2, Instruction.start_cycle ins = Some c2
        ∧ Z.of_nat c3 = Z.of_nat c2 + LATENCIES (Instruction.op ins)
}.

(** * tests/generate_random_traces.py *)

(** [str(n)] for an integer. *)
Definition py_str (z : Z) : string := NilZero.string_of_int (Z.to_int z).

Module TraceGenerator.

Definition MEMORY_SIZE : Z := 1024.

(** [REGISTERS = [f'R{i}' for i in range(8)]] *)
Definition REGISTERS : list string := (λ i, "R" +:+ py_str i) <$> seqZ 0 8.


Definition mnemonic (op : opcode) : string :=
  match op with
  | ADD => "ADD" | SUB => "SUB" | MUL => "MUL" | DIV => "DIV"
  | LOAD => "LOAD" | STORE => "STORE"
  end.




(** The bounds that [generate_valid_offset] passes to [random.randint]. *)
Definition offset_range (base_val : Z) : Z * Z :=
  let min_offset := - base_val in
  let max_offset := MEMORY_SIZE - 1 - base_val in
  let min_offset := Z.max min_offset (-32) in
  let max_offset := Z.min max_offset 32 in
  if max_offset <? min_offset then (0, 0) else (min_offset, max_offset).

Section Random.

(** The random source: the [n]-th number drawn.  A function that draws
    threads the count of the numbers drawn so far and may raise. *)
Variable draw : nat → nat.

Definition gen (A : Type) : Type := nat → result (A * nat).




(** [random.randint(a, b)]: any integer of [a..b], [ValueError] if there
    is none. *)
Definition randint (a b : Z) : gen Z :=
  λ pos, if b <? a then Raise ValueError
         else Ok (a + Z.of_nat (draw pos) mod (b - a + 1), S pos).


Definition generate_valid_offset (base_val : Z) : gen Z :=
  let '(min_offset, max_offset) := offset_range base_val in
  randint min_offset max_offset.





End Random.

End TraceGenerator.



(** * Data flow *)

(** An instruction without its timestamps. *)
Definition unstamped (i : Instruction.t) : Instruction.t :=
  Instruction.init (Instruction.op i) (Instruction.dest i)
    (Instruction.src1 i) (Instruction.src2 i) (Instruction.offset i)
    (Instruction.base i).

(** The position of a register in the register file. *)
Definition reg_index (reg : option string) : nat :=
  get_ok 0%nat (RegisterFile.get_register_index reg).

(** The value that [compute_result] of the ALU and of the MUL/DIV unit
    returns for integer operands. *)
Definition arith_value (op : opcode) (a b : Z) : Z :=
  match op with
  | ADD => a + b
  | SUB => a - b
  | MUL => a * b
  | DIV => if bool_decide (b = 0) then 0 else a / b
  | LOAD | STORE => 0
  end.

(** The registers after one arithmetic instruction executed on its own,
    as [generate_trace_file] simulates it in [reg_values]. *)
Definition sequential_step (regs : list Z) (ins : Instruction.t) : list Z :=
  <[reg_index (Instruction.dest ins) :=
      arith_value (Instruction.op ins)
        (regs !!! reg_index (Instruction.src1 ins))
        (regs !!! reg_index (Instruction.src2 ins))]> regs.

(** The registers after the instructions executed one after the other. *)
Definition sequential (regs : list Z) (program : list Instruction.t)
  : list Z :=
  foldl sequential_step regs program.

(** The destinations of a program. *)
Definition destinations (program : list Instruction.t) : list nat :=
  (λ ins, reg_index (Instruction.dest ins)) <$> program.

(** The data flow of a run of [program] from the register values [regs0]:
    a register without status holds the value it has after the issued
    instructions executed in order; the status of the destination of an
    instruction in a station names that station; an operand that a
    station holds is the value its instruction reads when the program
    executes in order, and an operand it waits for comes from the station
    of the earlier instruction that writes the register. *)
Record Flow (program : list Instruction.t) (regs0 : list Z)
    (s : Simulator.t) : Prop := {
  fl_program : unstamped <$> Simulator.instructions s = program;
  fl_value : ∀ r,
    (r < Z.to_nat Config.NUM_REGISTERS)%nat →
    status_of s r = None →
    RegisterFile.registers (Simulator.register_file s) !! r
    = Some (Some (sequential regs0 (take (Simulator.pc s) program) !!! r));
  fl_status : ∀ i st k ins,
    Simulator.reservation_stations s !! i = Some st →
    ReservationStation.instruction st = Some k →
    program !! k = Some ins →
    ReservationStation.op st = Some (Instruction.op ins)
    ∧ ReservationStation.dest st = Instruction.dest ins
    ∧ status_of s (reg_index (Instruction.dest ins))
      = Some (ReservationStation.name st);
  fl_operands : ∀ i st k ins,
    Simulator.reservation_stations s !! i = Some st →
    ReservationStation.instruction st = Some k →
    program !! k = Some ins →
    (ReservationStation.qj st = None →
     ReservationStation.vj st
     = Some (sequential regs0 (take k program)
             !!! reg_index (Instruction.src1 ins)))
    ∧ (ReservationStation.qk st = None →
       ReservationStation.vk st
       = Some (sequential regs0 (take k program)
               !!! reg_index (Instruction.src2 ins)))
    ∧ (∀ t, ReservationStation.qj st = Some t →
         ∃ j st' p ins', Simulator.reservation_stations s !! j = Some st'
           ∧ ReservationStation.name st' = t
           ∧ ReservationStation.instruction st' = Some p
           ∧ program !! p = Some ins'
           ∧ (p < k)%nat
           ∧ reg_index (Instruction.dest ins')
             = reg_index (Instruction.src1 ins))
    ∧ (∀ t, ReservationStation.qk st = Some t →
         ∃ j st' p ins', Simulator.reservation_stations s !! j = Some st'
           ∧ ReservationStation.name st' = t
           ∧ ReservationStation.instruction st' = Some p
           ∧ program !! p = Some ins'
           ∧ (p < k)%nat
           ∧ reg_index (Instruction.dest ins')
             = reg_index (Instruction.src2 ins))
}.

(** * Printing an instruction *)

Module InstructionStr.

(** [f'{x}'] for an attribute that holds a string or [None]. *)
Definition format_name (x : option string) : string := default "None" x.

(** [f'{x}'] for an attribute that holds an integer or [None]. *)
Definition format_int (x : option Z) : string :=
  match x with
  | Some z => py_str z
  | None => "None"
  end.

(** [Instruction.__str__]; [self.op] is the mnemonic. *)
Definition __str__ (self : Instruction.t) : string :=
  let op := TraceGenerator.mnemonic (Instruction.op self) in
  if Instruction.is_arithmetic self
  then op +:+ " " +:+ format_name (Instruction.dest self) +:+ " , "
       +:+ format_name (Instruction.src1 self) +:+ " , "
       +:+ format_name (Instruction.src2 self)
  else
    match Instruction.op self with
    | LOAD =>
        op +:+ " " +:+ format_name (Instruction.dest self) +:+ " , "
        +:+ format_int (Instruction.offset self) +:+ " ("
        +:+ format_name (Instruction.base self) +:+ ")"
    | STORE =>
        op +:+ " " +:+ format_int (Instruction.offset self) +:+ " ("
        +:+ format_name (Instruction.base self) +:+ "), "
        +:+ format_name (Instruction.src1 self) +:+ " "
    | _ => "The instruction is unknown"
    end.

End InstructionStr.

(** A string without any character of the class [p]. *)
Fixpoint free_of (p : ascii → bool) (s : string) : bool :=
  match s with
  | EmptyString => true
  | String c s' => negb (p c) && free_of p s'
  end.

(** A string without its white space: what [' '.join(s.split())] followed
    by [replace(' ', '')] leaves of [s]. *)
Fixpoint remove_spaces (s : string) : string :=
  match s with
  | EmptyString => EmptyString
  | String c s' =>
      if PyStr.isspace c then remove_spaces s' else String c (remove_spaces s')
  end.

(** * Renaming *)

(** The instruction writes register [r]: it is not a STORE and its
    destination is the name of register [r]. *)
Definition writes_register (ins : Instruction.t) (r : nat) : Prop :=
  Instruction.op ins ≠ STORE
  ∧ RegisterFile.get_register_index (Instruction.dest ins) = Ok r.

(** Instruction [k] is the most recently issued instruction that writes
    register [r]. *)
Definition youngest_producer (s : Simulator.t) (r k : nat) : Prop :=
  (k < Simulator.pc s)%nat
  ∧ (∃ ins, Simulator.instructions s !! k = Some ins ∧ writes_register ins r)
  ∧ ∀ k' ins', (k < k' < Simulator.pc s)%nat →
      Simulator.instructions s !! k' = Some ins' → ¬ writes_register ins' r.

(** Instruction [k] has written its result. *)
Definition written_back (s : Simulator.t) (k : nat) : Prop :=
  ∃ ins c, Simulator.instructions s !! k = Some ins
    ∧ Instruction.write_result_cycle ins = Some c.

(** Register renaming: a busy station holds the operation and the
    destination of its instruction; a status names the station of the most
    recently issued instruction that writes the register; and a register
    without status has no such instruction, or that instruction has
    written its result. *)
Record Renamed (s : Simulator.t) : Prop := {
  ren_station : ∀ i st,
    Simulator.reservation_stations s !! i = Some st →
    ReservationStation.busy st = true →
    ∃ k ins, ReservationStation.instruction st = Some k
      ∧ Simulator.instructions s !! k = Some ins
      ∧ ReservationStation.op st = Some (Instruction.op ins)
      ∧ (Instruction.op ins ≠ STORE →
         ReservationStation.dest st = Instruction.dest ins);
  ren_status : ∀ r t,
    status_of s r = Some t →
    ∃ i st k, Simulator.reservation_stations s !! i = Some st
      ∧ ReservationStation.name st = t
      ∧ ReservationStation.instruction st = Some k
      ∧ youngest_producer s r k;
  ren_clear : ∀ r k,
    status_of s r = None → youngest_producer s r k → written_back s k
}.

(** * Properties *)

(** ** The error monad *)

Lemma bind_Ok {A B : Type} (m : result A) (k : A → result B) (b : B) :
  bind m k = Ok b ↔ ∃ a, m = Ok a ∧ k a = Ok b.
Proof.
  destruct m as [a|e]; simpl; split.
  - eauto.
  - by intros (? & [= <-] & ?).
  - done.
  - by intros (? & ? & ?).
Qed.

Lemma py_getitem_Ok {A : Type} (xs : list A) (i : nat) (x : A) :
  py_getitem xs i = Ok x ↔ xs !! i = Some x.
Proof. unfold py_getitem. destruct (xs !! i); naive_solver. Qed.

Lemma py_setitem_Ok {A : Type} (xs ys : list A) (i : nat) (x : A) :
  py_setitem xs i x = Ok ys ↔ (i < length xs)%nat ∧ ys = <[i := x]> xs.
Proof.
  unfold py_setitem. destruct (decide (i < length xs)%nat); split.
  - by intros [= <-].
  - by intros [_ ->].
  - done.
  - by intros [? _].
Qed.

(** ** Parsing *)

Example parse_add :
  Instruction.parse "ADD R4, R1, R2"
  = Ok (Instruction.init ADD (Some "R4") (Some "R1") (Some "R2") None None).
Proof. reflexivity. Qed.

Example parse_load :
  Instruction.parse "load R1,  4(R0)"
  = Ok (Instruction.init LOAD (Some "R1") None None (Some 4) (Some "R0")).
Proof. reflexivity. Qed.

Example parse_store :
  Instruction.parse "STORE -8(R2), R7"
  = Ok (Instruction.init STORE None (Some "R7") None (Some (-8)) (Some "R2")).
Proof. reflexivity. Qed.

Example parse_unknown_operation :
  Instruction.parse "NOP R1, R2, R3" = Raise ValueError.
Proof. reflexivity. Qed.

Example parse_missing_operand :
  Instruction.parse "ADD R1, R2" = Raise IndexError.
Proof. reflexivity. Qed.

(** A line on which [Instruction.parse] raises [ValueError] is reported
    with its number and skipped. *)
Lemma parse_lines_skips_ValueError (n : nat) (line : string)
    (rest : list string) :
  PyStr.strip line ≠ EmptyString →
  PyStr.startswith "#" (PyStr.strip line) = false →
  Instruction.parse (PyStr.strip line) = Raise ValueError →
  TraceParser.parse_lines n (line :: rest)
  = ((TraceParser.parse_lines (S n) rest).1,
     ErrorParsingLine n ValueError :: EchoLine (PyStr.strip line)
       :: (TraceParser.parse_lines (S n) rest).2).
Proof.
  intros Hne Hc Hp. simpl.
  rewrite bool_decide_eq_false_2 by done. rewrite Hc, Hp. simpl.
  by destruct (TraceParser.parse_lines (S n) rest).
Qed.

(** C6 (the code departs from the claim): a line with a missing operand
    makes [Instruction.parse] raise [IndexError], which [parse_file] does
    not catch: the call ends with that exception and returns no list, so
    the well-formed lines around it are not loaded. *)
Theorem parse_file_aborts_on_missing_operand :
  TraceParser.parse_file ["ADD R4, R1, R2"; "ADD R1, R2"; "SUB R5, R4, R3"]
  = (Raise IndexError, []).
Proof. reflexivity. Qed.

(** ** Memory *)



Lemma py_check_str_cases (n : Z) :
  py_check_str n = Ok tt ∨ py_check_str n = Raise ValueError.
Proof. unfold py_check_str. destruct (_ <? _); eauto. Qed.


Lemma in_range_test (a : Z) :
  0 ≤ a < Config.MEMORY_SIZE →
  (a <? 0) || (a >=? Config.MEMORY_SIZE) = false.
Proof.
  unfold Config.MEMORY_SIZE. intros Hin.
  apply orb_false_iff. split; [apply Z.ltb_ge; lia|].
  destruct (Z.geb_spec a 1024); [lia|done].
Qed.



(** C9 (as stated) fails for an address with more digits than the
    conversion limit: the warning of [read] and of [write] formats the
    address, and the call ends with [ValueError]. *)
Lemma memory_soft_failure_counterexample :
  Memory.read Memory.init (10 ^ int_max_str_digits) = Raise ValueError
  ∧ Memory.write Memory.init (10 ^ int_max_str_digits) (Some 9)
    = Raise ValueError
  ∧ ¬ memory_soft_failure.
Proof.
  assert (Memory.read Memory.init (10 ^ int_max_str_digits)
          = Raise ValueError) as Hr by (vm_compute; reflexivity).
  split; [done|]. split; [vm_compute; reflexivity|].
  intros H.
  destruct (H Memory.init (10 ^ int_max_str_digits) None) as [Habs _].
  - vm_compute. intros [_ Hlt]. discriminate Hlt.
  - rewrite Hr in Habs. discriminate Habs.
Qed.

(** ** Issue *)

(** C5: when no station of the instruction's class is free, [issue] only
    counts a structural-hazard stall and returns [False]: [pc], the
    instructions, the register file, the stations and the units are as
    before, so the next call of [issue] fetches the same instruction. *)
Theorem issue_structural_hazard (s : Simulator.t) (ins : Instruction.t) :
  Simulator.instructions s !! Simulator.pc s = Some ins →
  ReservationStations.get_available_station
    (Simulator.reservation_stations s) (Instruction.op ins) = None →
  ∃ s', Simulator.issue s = Ok (s', false)
    ∧ Metrics.structural_hazard_stalls (Simulator.metrics s')
      = S (Metrics.structural_hazard_stalls (Simulator.metrics s))
    ∧ Simulator.pc s' = Simulator.pc s
    ∧ Simulator.instructions s' = Simulator.instructions s
    ∧ Simulator.instructions s' !! Simulator.pc s' = Some ins
    ∧ Simulator.register_file s' = Simulator.register_file s
    ∧ Simulator.reservation_stations s' = Simulator.reservation_stations s
    ∧ Simulator.functional_units s' = Simulator.functional_units s
    ∧ Simulator.memory s' = Simulator.memory s
    ∧ Simulator.cdb s' = Simulator.cdb s
    ∧ Simulator.cycle s' = Simulator.cycle s.
Proof.
  intros Hins Hnone. unfold Simulator.issue.
  rewrite bool_decide_eq_false_2.
  2:{ apply lookup_lt_Some in Hins. lia. }
  unfold py_getitem. rewrite Hins. simpl. rewrite Hnone.
  eexists. split; [reflexivity|]. simpl. by repeat split.
Qed.

(** ** Functional units *)

Lemma payload_set_execution st e c :
  payload (ReservationStation.set_execution st e c) = payload st.
Proof. by destruct st. Qed.

Lemma payload_fields st st' :
  payload st = payload st' →
  ReservationStation.name st = ReservationStation.name st'
  ∧ ReservationStation.op st = ReservationStation.op st'
  ∧ ReservationStation.vj st = ReservationStation.vj st'
  ∧ ReservationStation.vk st = ReservationStation.vk st'
  ∧ ReservationStation.qj st = ReservationStation.qj st'
  ∧ ReservationStation.qk st = ReservationStation.qk st'
  ∧ ReservationStation.busy st = ReservationStation.busy st'
  ∧ ReservationStation.dest st = ReservationStation.dest st'
  ∧ ReservationStation.instruction st = ReservationStation.instruction st'
  ∧ ReservationStation.offset st = ReservationStation.offset st'
  ∧ ReservationStation.address st = ReservationStation.address st'.
Proof. destruct st, st'. unfold payload. simpl. by intros [= -> -> -> -> -> -> -> -> -> -> ->]. Qed.

(** What one call of [FunctionalUnit.tick] does. *)
Lemma unit_tick_cases u sts mem u' sts' mem' out c :
  FunctionalUnit.tick u sts mem = Ok (u', sts', mem', out, c) →
  FunctionalUnit.kind u' = FunctionalUnit.kind u
  ∧ ((FunctionalUnit.busy u = false ∧ u' = u ∧ sts' = sts ∧ mem' = mem
      ∧ out = [] ∧ c = None)
     ∨ ∃ i rs, FunctionalUnit.busy u = true
         ∧ FunctionalUnit.reservation_station u = Some i
         ∧ sts !! i = Some rs
         ∧ ((0 < FunctionalUnit.cycles_left u - 1
             ∧ FunctionalUnit.busy u' = true
             ∧ FunctionalUnit.reservation_station u' = Some i
             ∧ sts' = <[i := ReservationStation.set_execution rs
                               (ReservationStation.executing rs)
                               (ReservationStation.execution_cycles_left rs - 1)]> sts
             ∧ mem' = mem ∧ out = [] ∧ c = None)
            ∨ (FunctionalUnit.cycles_left u - 1 ≤ 0
               ∧ FunctionalUnit.busy u' = false
               ∧ sts' = <[i := ReservationStation.set_execution rs false
                                 (ReservationStation.execution_cycles_left rs - 1)]> sts
               ∧ ∃ res, c = Some (ReservationStation.name rs, res)
                   ∧ FunctionalUnit.compute_result (FunctionalUnit.kind u)
                       (ReservationStation.set_execution rs
                          (ReservationStation.executing rs)
                          (ReservationStation.execution_cycles_left rs - 1))
                       mem = Ok (res, mem', out)))).
Proof.
  unfold FunctionalUnit.tick. intros H.
  destruct (FunctionalUnit.busy u) eqn:Hb; simpl in H.
  2:{ simplify_eq. split; [done|]. by left. }
  destruct (FunctionalUnit.reservation_station u) as [i|] eqn:Hrs; [|done].
  apply bind_Ok in H as (rs & Hrs' & H). apply py_getitem_Ok in Hrs'.
  destruct (Z.ltb_spec 0 (FunctionalUnit.cycles_left u - 1)) as [Hlt|Hle].
  - simplify_eq. split; [done|]. right. exists i, rs. naive_solver.
  - apply bind_Ok in H as ([[res m1] o1] & Hc & H). simplify_eq.
    split; [done|]. right. exists i, rs. split_and!; try done. right.
    split_and!; try done. by exists res.
Qed.

Lemma payload_insert (sts : list ReservationStation.t) (i : nat) rs e c :
  sts !! i = Some rs →
  payload <$> <[i := ReservationStation.set_execution rs e c]> sts
  = payload <$> sts.
Proof.
  intros Hi. rewrite list_fmap_insert, payload_set_execution.
  apply list_insert_id. by rewrite list_lookup_fmap, Hi.
Qed.

Lemma payload_lookup (sts sts' : list ReservationStation.t) (i : nat) st' :
  payload <$> sts' = payload <$> sts →
  sts' !! i = Some st' →
  ∃ st, sts !! i = Some st ∧ payload st = payload st'.
Proof.
  intros Hp Hi.
  assert ((payload <$> sts) !! i = Some (payload st')) as H.
  { by rewrite <- Hp, list_lookup_fmap, Hi. }
  rewrite list_lookup_fmap in H.
  destruct (sts !! i) as [st|]; [|done].
  exists st. split; [done|]. simpl in H. congruence.
Qed.

(** What [FunctionalUnits.tick] does to the units and the stations, and
    where its completions come from. *)
Lemma units_tick_spec units : ∀ sts mem units' sts' mem' out results,
  FunctionalUnits.tick units sts mem = Ok (units', sts', mem', out, results) →
  length units' = length units
  ∧ payload <$> sts' = payload <$> sts
  ∧ (∀ ui u', units' !! ui = Some u' →
       ∃ u, units !! ui = Some u
         ∧ FunctionalUnit.kind u' = FunctionalUnit.kind u
         ∧ (FunctionalUnit.busy u' = true →
            FunctionalUnit.busy u = true
            ∧ FunctionalUnit.reservation_station u'
              = FunctionalUnit.reservation_station u))
  ∧ (∀ i st', sts' !! i = Some st' →
       ReservationStation.executing st' = true →
       ∃ st, sts !! i = Some st ∧ ReservationStation.executing st = true)
  ∧ (∀ i st st', sts !! i = Some st → sts' !! i = Some st' →
       ReservationStation.executing st = true →
       ReservationStation.executing st' = false →
       ∃ ui u u', units !! ui = Some u
         ∧ FunctionalUnit.busy u = true
         ∧ FunctionalUnit.reservation_station u = Some i
         ∧ units' !! ui = Some u'
         ∧ FunctionalUnit.busy u' = false)
  ∧ (∀ n v, (n, v) ∈ results →
       ∃ ui u u' i st st', units !! ui = Some u
         ∧ FunctionalUnit.busy u = true
         ∧ FunctionalUnit.reservation_station u = Some i
         ∧ sts !! i = Some st
         ∧ ReservationStation.name st = n
         ∧ units' !! ui = Some u'
         ∧ FunctionalUnit.busy u' = false
         ∧ sts' !! i = Some st'
         ∧ ReservationStation.executing st' = false
         ∧ ∃ stx m m' o, payload stx = payload st
             ∧ FunctionalUnit.compute_result (FunctionalUnit.kind u) stx m
               = Ok (v, m', o)
             ∧ o ⊆ out).
Proof.
  induction units as [|u us IH]; intros sts mem units' sts' mem' out results H.
  { simpl in H. simplify_eq. split_and!; try done.
    - intros i st' Hi He. eauto.
    - intros i st st' H1 H2 H3 H4. simplify_eq. congruence.
    - intros n v Hin. by apply elem_of_nil in Hin. }
  simpl in H.
  apply bind_Ok in H as ([[[[u1 sts1] mem1] out1] c] & Hu & H).
  apply bind_Ok in H as ([[[[us2 sts2] mem2] out2] res2] & Hus & H).
  injection H as <- <- <- <- <-.
  apply IH in Hus as (Hlen & Hpay & Hunits & Hon & Hoff & Hres).
  apply unit_tick_cases in Hu as [Hkind Hu].
  assert (payload <$> sts1 = payload <$> sts) as Hpay1.
  { destruct Hu as [(_ & _ & -> & _)|(i & rs & _ & _ & Hi & [H|H])]; [done|..].
    - destruct H as (_ & _ & _ & -> & _). by apply payload_insert.
    - destruct H as (_ & _ & -> & _). by apply payload_insert. }
  assert (∀ i st1, sts1 !! i = Some st1 →
            ReservationStation.executing st1 = true →
            ∃ st, sts !! i = Some st ∧ ReservationStation.executing st = true)
    as Hon1.
  { intros j st1 Hj He.
    destruct Hu as [(_ & _ & -> & _)|(i & rs & _ & _ & Hi & [H|H])]; [eauto|..].
    - destruct H as (_ & _ & _ & -> & _).
      destruct (decide (i = j)) as [->|Hne].
      + rewrite list_lookup_insert_eq in Hj by by eapply lookup_lt_Some.
        simplify_eq. simpl in He. eauto.
      + rewrite list_lookup_insert_ne in Hj by done. eauto.
    - destruct H as (_ & _ & -> & _).
      destruct (decide (i = j)) as [->|Hne].
      + rewrite list_lookup_insert_eq in Hj by by eapply lookup_lt_Some.
        simplify_eq.
      + rewrite list_lookup_insert_ne in Hj by done. eauto. }
  split_and!.
  - simpl. by rewrite Hlen.
  - by rewrite Hpay.
  - intros [|ui] u' Hui; simpl in *.
    + simplify_eq. exists u. split; [done|]. split; [done|]. intros Hb.
      destruct Hu as [(_ & -> & _)|(i & rs & Hbu & Hrs & _ & [H|H])];
        [done|..].
      * destruct H as (_ & _ & -> & _). done.
      * destruct H as (_ & Hnb & _). congruence.
    + by apply Hunits.
  - intros i st' Hi He. destruct (Hon i st' Hi He) as (st1 & H1 & He1). eauto.
  - intros j st st' Hj Hj' He He'.
    destruct (payload_lookup _ _ _ _ Hpay Hj') as (st1 & Hj1 & _).
    destruct (ReservationStation.executing st1) eqn:He1.
    + destruct (Hoff j st1 st' Hj1 Hj' He1 He')
        as (ui & u0 & u0' & ? & ? & ? & ? & ?).
      exists (S ui), u0, u0'. by split_and!.
    + destruct Hu as [(_ & _ & -> & _)|(i & rs & Hbu & Hrs & Hi & [H|H])].
      * simplify_eq. congruence.
      * destruct H as (_ & _ & _ & -> & _).
        destruct (decide (i = j)) as [->|Hne].
        -- rewrite list_lookup_insert_eq in Hj1 by by eapply lookup_lt_Some.
           simplify_eq. simpl in He1. congruence.
        -- rewrite list_lookup_insert_ne in Hj1 by done. simplify_eq. congruence.
      * destruct H as (_ & Hnb & -> & _).
        destruct (decide (i = j)) as [->|Hne].
        -- exists O, u, u1. by split_and!.
        -- rewrite list_lookup_insert_ne in Hj1 by done. simplify_eq. congruence.
  - intros n v Hin. apply elem_of_app in Hin as [Hin|Hin].
    + destruct Hu as [(_ & _ & _ & _ & _ & ->)|(i & rs & Hbu & Hrs & Hi & [H|H])].
      * by apply elem_of_nil in Hin.
      * destruct H as (_ & _ & _ & _ & _ & _ & ->). by apply elem_of_nil in Hin.
      * destruct H as (_ & Hnb & -> & res & -> & Hc).
        apply list_elem_of_singleton in Hin. simplify_eq.
        assert (i < length sts)%nat as Hlt by by eapply lookup_lt_Some.
        assert (is_Some (sts2 !! i)) as [st2 Hst2].
        { apply lookup_lt_is_Some.
          rewrite <- (length_fmap payload sts2), Hpay, length_fmap.
          by rewrite length_insert. }
        exists O, u, u1, i, rs, st2. split_and!; try done.
        { destruct (ReservationStation.executing st2) eqn:He2; [|done].
          destruct (Hon i st2 Hst2 He2) as (st1 & Hst1 & He1).
          rewrite list_lookup_insert_eq in Hst1 by done. by simplify_eq. }
        eexists _, _, _, _. split; [|split; [exact Hc|]].
        { apply payload_set_execution. }
        intros x Hx. apply elem_of_app. by left.
    + destruct (Hres n v Hin)
        as (ui & u0 & u0' & i & st1 & st2 & ? & ? & ? & Hst1 & ? & ? & ? & ? & ?
            & stx & m & m' & o & Hpx & Hcx & Hox).
      destruct (payload_lookup _ _ _ _ Hpay1 Hst1) as (st & Hst & Hpst).
      exists (S ui), u0, u0', i, st, st2. split_and!; try done.
      { apply payload_fields in Hpst as (Hn & _). congruence. }
      exists stx, m, m', o. split_and!; try done.
      { congruence. }
      intros x Hx. apply elem_of_app. right. by apply Hox.
Qed.

(** ** The invariant *)

Lemma NoDup_station_names : NoDup ReservationStations.station_names.
Proof. compute_done. Qed.

Lemma name_lookup_inj (sts : list ReservationStation.t) i j st st' :
  ReservationStation.name <$> sts = ReservationStations.station_names →
  sts !! i = Some st → sts !! j = Some st' →
  ReservationStation.name st = ReservationStation.name st' →
  i = j.
Proof.
  intros Hn Hi Hj Heq.
  apply (NoDup_lookup (ReservationStation.name <$> sts) i j
           (ReservationStation.name st)).
  - rewrite Hn. apply NoDup_station_names.
  - by rewrite list_lookup_fmap, Hi.
  - by rewrite list_lookup_fmap, Hj, Heq.
Qed.

Lemma get_station_by_name_Some (sts : list ReservationStation.t) n i :
  ReservationStations.get_station_by_name sts n = Some i →
  ∃ st, sts !! i = Some st ∧ ReservationStation.name st = n.
Proof.
  unfold ReservationStations.get_station_by_name. intros H.
  destruct (list_find _ sts) as [[i' st]|] eqn:Hf; simplify_eq/=.
  apply list_find_Some in Hf as (? & ? & _). eauto.
Qed.

(** [Inv] reads five attributes of the simulator. *)
Lemma Inv_ext s s' :
  Simulator.functional_units s' = Simulator.functional_units s →
  Simulator.reservation_stations s' = Simulator.reservation_stations s →
  Simulator.register_file s' = Simulator.register_file s →
  Simulator.instructions s' = Simulator.instructions s →
  Simulator.pc s' = Simulator.pc s →
  Inv s → Inv s'.
Proof.
  intros Hu Hs Hr Hi Hp [H1 H2 H3 H4 H5 H6 H7 H8].
  split; unfold status_of in *; rewrite ?Hu, ?Hs, ?Hr, ?Hi, ?Hp; done.
Qed.

Lemma dest_index_Some st r :
  dest_index st = Some r ↔
  ∃ d, ReservationStation.dest st = Some d
       ∧ RegisterFile.get_register_index (Some d) = Ok r.
Proof.
  unfold dest_index. destruct (ReservationStation.dest st) as [d|].
  - destruct (RegisterFile.get_register_index (Some d)) eqn:E; split.
    + intros [= ->]. eauto.
    + intros (d' & [= <-] & H). congruence.
    + done.
    + intros (d' & [= <-] & H). congruence.
  - split; [done|]. by intros (d & ? & _).
Qed.

Lemma update_operand_fields st n v :
  let st' := ReservationStation.update_operand st n v in
  ReservationStation.name st' = ReservationStation.name st
  ∧ ReservationStation.op st' = ReservationStation.op st
  ∧ ReservationStation.busy st' = ReservationStation.busy st
  ∧ ReservationStation.dest st' = ReservationStation.dest st
  ∧ ReservationStation.instruction st' = ReservationStation.instruction st
  ∧ ReservationStation.executing st' = ReservationStation.executing st
  ∧ (ReservationStation.qj st = None → ReservationStation.qj st' = None)
  ∧ (ReservationStation.qk st = None → ReservationStation.qk st' = None).
Proof.
  destruct st; simpl. split_and!; try done.
  - intros ->. by case_bool_decide.
  - intros ->. by case_bool_decide.
Qed.

Lemma dest_index_update_operand st n v :
  dest_index (ReservationStation.update_operand st n v) = dest_index st.
Proof. by destruct st. Qed.

(** The register status after the register-file part of [write_result]:
    an entry that is still set was set before, and it does not name the
    completed station. *)
Lemma write_result_status rf (rs : ReservationStation.t) n v rf' :
  (if bool_decide (ReservationStation.op rs = Some STORE
                   ∨ ReservationStation.op rs = None)
   then Ok rf
   else
     let* rf1 := RegisterFile.write rf (ReservationStation.dest rs) v in
     let* status := RegisterFile.get_status rf1 (ReservationStation.dest rs) in
     if bool_decide (status = Some n)
     then RegisterFile.set_status rf1 (ReservationStation.dest rs) None
     else Ok rf1) = Ok rf' →
  ∀ r t, mjoin (RegisterFile.status rf' !! r) = Some t →
    mjoin (RegisterFile.status rf !! r) = Some t
    ∧ (t = n → dest_index rs = Some r →
       producing (ReservationStation.op rs) = false).
Proof.
  intros H r t Hr. case_bool_decide as Hop.
  { simplify_eq. split; [done|]. intros _ _. by destruct Hop as [-> | ->]. }
  apply bind_Ok in H as (rf1 & Hw & H).
  apply bind_Ok in H as (status & Hg & H).
  unfold RegisterFile.write in Hw.
  apply bind_Ok in Hw as (r0 & Hr0 & Hw).
  apply bind_Ok in Hw as (regs & _ & Hw). simplify_eq.
  unfold RegisterFile.get_status in Hg. rewrite Hr0 in Hg. simpl in Hg.
  apply py_getitem_Ok in Hg.
  assert (∀ r', dest_index rs = Some r' → r' = r0) as Hidx.
  { intros r' (d & Hd & Hd')%dest_index_Some. rewrite Hd in Hr0. congruence. }
  case_bool_decide as Hs.
  - unfold RegisterFile.set_status in H. rewrite Hr0 in H. simpl in H.
    apply bind_Ok in H as (st' & Hset & H). apply py_setitem_Ok in Hset as [Hlt ->].
    simplify_eq. simpl in *.
    destruct (decide (r = r0)) as [->|Hne].
    + rewrite list_lookup_insert_eq in Hr by done. done.
    + rewrite list_lookup_insert_ne in Hr by done. split; [done|].
      intros _ Hd. by apply Hidx in Hd.
  - simplify_eq. simpl in *. split; [done|]. intros -> Hd.
    apply Hidx in Hd as ->. rewrite Hg in Hr. simpl in Hr. congruence.
Qed.

Lemma write_result_Inv s n v s' :
  Inv s →
  (∀ i ui u, ReservationStations.get_station_by_name
               (Simulator.reservation_stations s) n = Some i →
             Simulator.functional_units s !! ui = Some u →
             FunctionalUnit.busy u = true →
             FunctionalUnit.reservation_station u ≠ Some i) →
  Simulator.write_result s n v = Ok s' →
  Inv s'.
Proof.
  intros HI Hfree H. unfold Simulator.write_result in H.
  destruct (CommonDataBus.broadcast _ _ _) as [cdb' ?].
  destruct (ReservationStations.get_station_by_name _ n) as [i|] eqn:Hfind.
  2:{ simplify_eq. by eapply Inv_ext; [..|exact HI]. }
  specialize (Hfree i). pose proof (λ ui u, Hfree ui u eq_refl) as Hfree'.
  clear Hfree.
  apply get_station_by_name_Some in Hfind as (rs0 & Hrs0 & Hname).
  apply bind_Ok in H as (rs & Hrs & H). apply py_getitem_Ok in Hrs.
  rewrite Hrs0 in Hrs. injection Hrs as <-.
  apply bind_Ok in H as (k & Hk & H).
  destruct (ReservationStation.instruction rs0) as [k'|] eqn:Hins; [|done].
  injection Hk as ->.
  apply bind_Ok in H as (instrs' & Hst & H).
  unfold Simulator.stamp in Hst.
  apply bind_Ok in Hst as (ins & Hik & Hst). apply py_getitem_Ok in Hik.
  apply py_setitem_Ok in Hst as [Hklt ->].
  apply bind_Ok in H as (rf' & Hrf & H).
  pose proof (write_result_status _ _ _ _ _ Hrf) as Hstatus. clear Hrf.
  apply bind_Ok in H as (rs1 & Hrs1 & H). apply py_getitem_Ok in Hrs1.
  unfold ReservationStations.update_from_cdb in Hrs1.
  rewrite list_lookup_fmap, Hrs0 in Hrs1. injection Hrs1 as <-.
  injection H as <-.
  destruct HI as [Hnames Hbound Hinj Hstat Hdest Hfresh Hinstr Hiinj].
  destruct (Hinstr i rs0 k Hrs0 Hins) as (Hbusy0 & Hkpc & ins0 & Hins0 & Hec & Hwr).
  rewrite Hik in Hins0. injection Hins0 as <-.
  assert (i < length (Simulator.reservation_stations s))%nat as Hilt
    by by eapply lookup_lt_Some.
  (* the stations after the call *)
  set (upd := λ st, ReservationStation.update_operand st n v) in *.
  assert (∀ j st', <[i := ReservationStation.clear (upd rs0)]>
                     (ReservationStations.update_from_cdb
                        (Simulator.reservation_stations s) n v) !! j = Some st' →
            (j = i ∧ st' = ReservationStation.clear (upd rs0))
            ∨ (j ≠ i ∧ ∃ st, Simulator.reservation_stations s !! j = Some st
                 ∧ st' = upd st)) as Hlook.
  { intros j st' Hj. destruct (decide (j = i)) as [->|Hne].
    - rewrite list_lookup_insert_eq in Hj
        by (unfold ReservationStations.update_from_cdb; by rewrite length_fmap).
      left. by simplify_eq.
    - rewrite list_lookup_insert_ne in Hj by done.
      unfold ReservationStations.update_from_cdb in Hj.
      rewrite list_lookup_fmap in Hj.
      destruct (Simulator.reservation_stations s !! j) as [st|] eqn:Hsj;
        [|done].
      right. split; [done|]. exists st. by simplify_eq/=. }
  split; simpl.
  - rewrite list_fmap_insert. unfold ReservationStations.update_from_cdb.
    rewrite <- list_fmap_compose.
    rewrite list_insert_id.
    + rewrite <- Hnames. apply list_fmap_ext. intros ? st ?. by destruct st.
    + rewrite list_lookup_fmap, Hrs0. by destruct rs0.
  - intros ui u Hu Hb.
    destruct (Hbound ui u Hu Hb) as (j & st & Hrs & Hj & ? & ? & ? & ?).
    assert (j ≠ i) as Hne.
    { intros ->. by eapply Hfree'. }
    exists j, (upd st). split; [done|]. split.
    { rewrite list_lookup_insert_ne by done.
      unfold ReservationStations.update_from_cdb.
      by rewrite list_lookup_fmap, Hj. }
    destruct (update_operand_fields st n v) as (_ & _ & Hb' & _ & _ & He' & Hj' & Hk').
    fold (upd st) in Hb', He', Hj', Hk'.
    split_and!; [congruence|congruence|by apply Hj'|by apply Hk'].
  - apply Hinj.
  - intros r t Hr. unfold status_of in Hr. simpl in Hr.
    destruct (Hstatus r t Hr) as (Hold & Hnot).
    destruct (Hstat r t Hold) as (j & st & Hj & Hn & Hb & Hd).
    assert (j ≠ i) as Hne.
    { intros ->. rewrite Hrs0 in Hj. injection Hj as <-.
      assert (is_Some (ReservationStation.dest rs0)) as Hsome.
      { apply dest_index_Some in Hd as (d & -> & _). eauto. }
      destruct (Hdest i rs0 Hrs0 Hsome) as [_ Hp].
      rewrite Hnot in Hp; [done|congruence|done]. }
    exists j, (upd st). split.
    { rewrite list_lookup_insert_ne by done.
      unfold ReservationStations.update_from_cdb.
      by rewrite list_lookup_fmap, Hj. }
    destruct (update_operand_fields st n v) as (Hn' & _ & Hb' & _).
    fold (upd st) in Hn', Hb'.
    split_and!; [congruence|congruence|].
    unfold upd. by rewrite dest_index_update_operand.
  - intros j st' Hj [d Hd].
    destruct (Hlook j st' Hj) as [[-> ->]|(Hne & st & Hsj & ->)].
    { by destruct rs0. }
    destruct (update_operand_fields st n v) as (_ & Ho' & Hb' & Hd' & _).
    fold (upd st) in Ho', Hb', Hd'.
    rewrite Ho', Hb'. apply (Hdest j st Hsj). rewrite <- Hd'. eauto.
  - intros k' ins' Hk' Hpc.
    rewrite list_lookup_insert_ne in Hk' by lia. by eapply Hfresh.
  - intros j st' k' Hj Hk'.
    destruct (Hlook j st' Hj) as [[-> ->]|(Hne & st & Hsj & ->)].
    { by destruct rs0. }
    destruct (update_operand_fields st n v) as (_ & _ & Hb' & _ & Hi' & _).
    fold (upd st) in Hb', Hi'. rewrite Hi' in Hk'.
    destruct (Hinstr j st k' Hsj Hk') as (? & ? & ins' & ? & ? & ?).
    split; [congruence|]. split; [done|]. exists ins'.
    rewrite list_lookup_insert_ne; [done|].
    intros ->. apply Hne. by eapply Hiinj.
  - intros j1 j2 st1 st2 k' Hj1 Hj2 Hk1 Hk2.
    destruct (Hlook j1 st1 Hj1) as [[-> ->]|(Hne1 & st1' & Hs1 & ->)].
    { by destruct rs0. }
    destruct (Hlook j2 st2 Hj2) as [[-> ->]|(Hne2 & st2' & Hs2 & ->)].
    { by destruct rs0. }
    destruct (update_operand_fields st1' n v) as (_ & _ & _ & _ & Hi1 & _).
    destruct (update_operand_fields st2' n v) as (_ & _ & _ & _ & Hi2 & _).
    fold (upd st1') in Hi1. fold (upd st2') in Hi2.
    rewrite Hi1 in Hk1. rewrite Hi2 in Hk2. by eapply Hiinj.
Qed.

Lemma dest_index_payload st st' :
  payload st = payload st' → dest_index st = dest_index st'.
Proof.
  intros H. apply payload_fields in H. unfold dest_index.
  by replace (ReservationStation.dest st) with (ReservationStation.dest st')
    by (symmetry; apply H).
Qed.

(** The state in which [write_back] looks at the completions keeps the
    invariant, and no unit that is still busy is bound to the station of a
    completion. *)
Lemma units_tick_Inv s s1 mem' out results :
  Inv s →
  FunctionalUnits.tick (Simulator.functional_units s)
    (Simulator.reservation_stations s) (Simulator.memory s)
  = Ok (Simulator.functional_units s1, Simulator.reservation_stations s1,
        mem', out, results) →
  Simulator.register_file s1 = Simulator.register_file s →
  Simulator.instructions s1 = Simulator.instructions s →
  Simulator.pc s1 = Simulator.pc s →
  Inv s1
  ∧ ∀ n v i ui u, (n, v) ∈ results →
      ReservationStations.get_station_by_name
        (Simulator.reservation_stations s1) n = Some i →
      Simulator.functional_units s1 !! ui = Some u →
      FunctionalUnit.busy u = true →
      FunctionalUnit.reservation_station u ≠ Some i.
Proof.
  intros [Hnames Hbound Hinj Hstat Hdest Hfresh Hinstr Hiinj] Htick Hrf Hins Hpc.
  apply units_tick_spec in Htick as (Hlen & Hpay & Hunits & Hon & Hoff & Hres).
  pose proof (λ i st', payload_lookup _ _ i st' Hpay) as Hback.
  pose proof (λ i st, payload_lookup _ _ i st (eq_sym Hpay)) as Hforw.
  assert (ReservationStation.name <$> Simulator.reservation_stations s1
          = ReservationStations.station_names) as Hnames1.
  { rewrite <- Hnames.
    transitivity (ReservationStation.name
                    <$> (payload <$> Simulator.reservation_stations s1)).
    - rewrite <- list_fmap_compose. apply list_fmap_ext. intros ? st ?.
      by destruct st.
    - rewrite Hpay, <- list_fmap_compose. apply list_fmap_ext. intros ? st ?.
      by destruct st. }
  assert (∀ ui u', Simulator.functional_units s1 !! ui = Some u' →
            FunctionalUnit.busy u' = true →
            ∃ i st st', FunctionalUnit.reservation_station u' = Some i
              ∧ Simulator.reservation_stations s !! i = Some st
              ∧ Simulator.reservation_stations s1 !! i = Some st'
              ∧ payload st' = payload st
              ∧ ReservationStation.busy st = true
              ∧ ReservationStation.executing st' = true
              ∧ ReservationStation.qj st = None
              ∧ ReservationStation.qk st = None) as Hbound1.
  { intros ui u' Hu' Hb'.
    destruct (Hunits ui u' Hu') as (u & Hu & _ & Hbu).
    destruct (Hbu Hb') as [Hb Hrs].
    destruct (Hbound ui u Hu Hb) as (i & st & Hi & Hst & ? & He & ? & ?).
    destruct (Hforw i st Hst) as (st' & Hst' & Hp).
    exists i, st, st'. split_and!; try done; [congruence|].
    destruct (ReservationStation.executing st') eqn:He'; [done|].
    destruct (Hoff i st st' Hst Hst' He He')
      as (uj & u2 & u2' & Hu2 & Hb2 & Hrs2 & Hu2' & Hnb).
    assert (ui = uj) as -> by by eapply Hinj.
    congruence. }
  split; [split|].
  - done.
  - intros ui u' Hu' Hb'.
    destruct (Hbound1 ui u' Hu' Hb')
      as (i & st & st' & ? & ? & ? & Hp & ? & ? & ? & ?).
    apply payload_fields in Hp as (_ & _ & _ & _ & Hqj & Hqk & Hbusy & _).
    exists i, st'. split_and!; try done; congruence.
  - intros ui uj u u' i Hu Hu' Hb Hb' Hrs Hrs'.
    destruct (Hunits ui u Hu) as (u0 & Hu0 & _ & H0).
    destruct (Hunits uj u' Hu') as (u0' & Hu0' & _ & H0').
    destruct (H0 Hb) as [? E]. destruct (H0' Hb') as [? E'].
    eapply (Hinj ui uj u0 u0' i); [exact Hu0|exact Hu0'|done|done|congruence|congruence].
  - intros r t Hr. unfold status_of in Hr. rewrite Hrf in Hr.
    destruct (Hstat r t Hr) as (j & st & Hj & Hn & Hb & Hd).
    destruct (Hforw j st Hj) as (st' & Hst' & Hp).
    exists j, st'. split; [done|].
    rewrite (dest_index_payload _ _ Hp).
    apply payload_fields in Hp as (Hn' & _ & _ & _ & _ & _ & Hbusy & _).
    split_and!; [congruence|congruence|done].
  - intros j st' Hj Hd.
    destruct (Hback j st' Hj) as (st & Hst & Hp).
    apply payload_fields in Hp
      as (_ & Hop & _ & _ & _ & _ & Hbusy & Hdst & _).
    rewrite <- Hop, <- Hbusy. apply (Hdest j st Hst). by rewrite Hdst.
  - intros k ins. rewrite Hins, Hpc. apply Hfresh.
  - intros j st' k Hj Hk.
    destruct (Hback j st' Hj) as (st & Hst & Hp).
    apply payload_fields in Hp
      as (_ & _ & _ & _ & _ & _ & Hbusy & _ & Hi & _).
    rewrite Hins, Hpc, <- Hbusy. apply (Hinstr j st k Hst). congruence.
  - intros j1 j2 st1 st2 k Hj1 Hj2 Hk1 Hk2.
    destruct (Hback j1 st1 Hj1) as (st1' & Hst1 & Hp1).
    destruct (Hback j2 st2 Hj2) as (st2' & Hst2 & Hp2).
    apply payload_fields in Hp1
      as (_ & _ & _ & _ & _ & _ & _ & _ & Hi1 & _).
    apply payload_fields in Hp2
      as (_ & _ & _ & _ & _ & _ & _ & _ & Hi2 & _).
    eapply (Hiinj j1 j2 st1' st2' k); [exact Hst1|exact Hst2|congruence|congruence].
  - intros n v i ui u' Hin Hfind Hu' Hb' Hrs'.
    destruct (Hres n v Hin)
      as (uj & u2 & u2' & i2 & st2 & st2' & Hu2 & Hb2 & Hrs2 & Hst2 & Hn2
          & Hu2' & Hnb2 & Hst2' & _).
    apply get_station_by_name_Some in Hfind as (sti & Hsti & Hni).
    destruct (Hback i sti Hsti) as (sti0 & Hsti0 & Hpi).
    apply payload_fields in Hpi as (Hni0 & _).
    assert (i = i2) as ->.
    { eapply name_lookup_inj; [exact Hnames|exact Hsti0|exact Hst2|congruence]. }
    destruct (Hunits ui u' Hu') as (u & Hu & _ & Hbu).
    destruct (Hbu Hb') as [Hb Hrs].
    assert (ui = uj) as ->.
    { eapply (Hinj ui uj u u2 i2); [exact Hu|exact Hu2|done|done|congruence|done]. }
    congruence.
Qed.

Lemma write_back_Inv s s' :
  Inv s → Simulator.write_back s = Ok s' → Inv s'.
Proof.
  intros HI H. unfold Simulator.write_back in H.
  apply bind_Ok in H as ([[[[units' sts'] mem'] out] results] & Htick & H).
  match type of H with
  | match _ with [] => Ok ?x | _ => _ end = _ => set (s1 := x) in *
  end.
  destruct (units_tick_Inv s s1 mem' out results HI Htick)
    as [HI1 Hfree]; [done..|].
  destruct results as [|[n v] rest].
  - by simplify_eq.
  - eapply write_result_Inv; [exact HI1| |exact H].
    intros i ui u. eapply Hfree. apply list_elem_of_here.
Qed.
(** ** Execute *)

Lemma isReady_true st :
  ReservationStation.isReady st = true ↔
  ReservationStation.busy st = true
  ∧ ReservationStation.executing st = false
  ∧ ReservationStation.qj st = None
  ∧ ReservationStation.qk st = None.
Proof.
  unfold ReservationStation.isReady.
  rewrite !andb_true_iff, negb_true_iff, !bool_decide_eq_true. tauto.
Qed.

Lemma get_available_Some (units : list FunctionalUnit.t) op u :
  FunctionalUnits.get_available units op = Some u →
  ∃ fu o, units !! u = Some fu
    ∧ op = Some o
    ∧ o ∈ FunctionalUnit.supported_ops (FunctionalUnit.kind fu)
    ∧ FunctionalUnit.busy fu = false.
Proof.
  unfold FunctionalUnits.get_available. intros H.
  destruct (list_find _ units) as [[u' fu]|] eqn:Hf; [|done].
  injection H as ->.
  apply list_find_Some in Hf as (Hu & Hc & _).
  unfold FunctionalUnit.can_accept in Hc. destruct op as [o|]; [|done].
  apply andb_true_iff in Hc as [Ho Hb].
  apply bool_decide_eq_true in Ho. apply negb_true_iff in Hb.
  by exists fu, o.
Qed.

(** What one round of the loop of [execute] does: nothing, or it binds
    the station at position [i], which was ready, to a unit that was free. *)
Lemma execute_station_cases i s s' :
  Simulator.execute_station i s = Ok s' →
  (s' = s
   ∧ ∀ rs, Simulator.reservation_stations s !! i = Some rs →
       ReservationStation.isReady rs = true →
       FunctionalUnits.get_available (Simulator.functional_units s)
         (ReservationStation.op rs) = None)
  ∨ ∃ rs rs' u fu fu' o k ins,
      Simulator.reservation_stations s !! i = Some rs
      ∧ ReservationStation.isReady rs = true
      ∧ Simulator.functional_units s !! u = Some fu
      ∧ FunctionalUnit.busy fu = false
      ∧ ReservationStation.op rs = Some o
      ∧ o ∈ FunctionalUnit.supported_ops (FunctionalUnit.kind fu)
      ∧ ReservationStation.instruction rs = Some k
      ∧ Simulator.instructions s !! k = Some ins
      ∧ payload rs' = payload (ReservationStation.set_address rs
                                 (ReservationStation.address rs'))
      ∧ ReservationStation.executing rs' = true
      ∧ fu' = {| FunctionalUnit.name := FunctionalUnit.name fu;
                 FunctionalUnit.kind := FunctionalUnit.kind fu;
                 FunctionalUnit.busy := true;
                 FunctionalUnit.reservation_station := Some i;
                 FunctionalUnit.cycles_left := LATENCIES o |}
      ∧ s' = {| Simulator.memory := Simulator.memory s;
                Simulator.register_file := Simulator.register_file s;
                Simulator.functional_units :=
                  <[u := fu']> (Simulator.functional_units s);
                Simulator.reservation_stations :=
                  <[i := rs']> (Simulator.reservation_stations s);
                Simulator.cdb := Simulator.cdb s;
                Simulator.metrics := Simulator.metrics s;
                Simulator.instructions :=
                  <[k := Simulator.set_start_cycle (Simulator.cycle s) ins]>
                    (Simulator.instructions s);
                Simulator.pc := Simulator.pc s;
                Simulator.cycle := Simulator.cycle s;
                Simulator.done := Simulator.done s;
                Simulator.stdout := Simulator.stdout s |}.
Proof.
  unfold Simulator.execute_station. intros H.
  apply bind_Ok in H as (rs & Hrs & H). apply py_getitem_Ok in Hrs.
  destruct (ReservationStation.isReady rs
            && negb (ReservationStation.executing rs)) eqn:Hready.
  2:{ left. split; [by injection H|]. intros rs0 Hrs0 Hr.
      rewrite Hrs in Hrs0. injection Hrs0 as <-.
      rewrite Hr in Hready. simpl in Hready.
      apply isReady_true in Hr as (_ & He & _). by rewrite He in Hready. }
  apply andb_true_iff in Hready as [Hready _].
  destruct (FunctionalUnits.get_available _ _) as [u|] eqn:Hav.
  2:{ left. split; [by injection H|]. intros rs0 Hrs0 _.
      rewrite Hrs in Hrs0. by injection Hrs0 as <-. }
  apply get_available_Some in Hav as (fu & o & Hfu & Hop & Hsup & Hnb).
  apply bind_Ok in H as (fu0 & Hfu0 & H). apply py_getitem_Ok in Hfu0.
  rewrite Hfu in Hfu0. injection Hfu0 as <-.
  apply bind_Ok in H as ([fu' rs1] & Hstart & H).
  unfold FunctionalUnit.start_execution in Hstart. rewrite Hop in Hstart.
  injection Hstart as <- <-.
  apply bind_Ok in H as (k & Hk & H).
  destruct (ReservationStation.instruction _) as [k'|] eqn:Hins in Hk; [|done].
  injection Hk as ->.
  apply bind_Ok in H as (instrs' & Hst & H).
  unfold Simulator.stamp in Hst.
  apply bind_Ok in Hst as (ins & Hik & Hst). apply py_getitem_Ok in Hik.
  apply py_setitem_Ok in Hst as [Hklt ->].
  apply bind_Ok in H as (rs2 & Hrs2 & H). injection H as <-.
  right. exists rs, rs2, u, fu. eexists. exists o, k, ins.
  split_and!; try done.
  - case_bool_decide.
    + apply bind_Ok in Hrs2 as (a & _ & Hrs2). injection Hrs2 as <-.
      by destruct rs.
    + injection Hrs2 as <-. by destruct rs.
  - case_bool_decide.
    + apply bind_Ok in Hrs2 as (a & _ & Hrs2). by injection Hrs2 as <-.
    + by injection Hrs2 as <-.
Qed.

Lemma payload_set_address_fields st st' a :
  payload st' = payload (ReservationStation.set_address st a) →
  ReservationStation.name st' = ReservationStation.name st
  ∧ ReservationStation.op st' = ReservationStation.op st
  ∧ ReservationStation.qj st' = ReservationStation.qj st
  ∧ ReservationStation.qk st' = ReservationStation.qk st
  ∧ ReservationStation.busy st' = ReservationStation.busy st
  ∧ ReservationStation.dest st' = ReservationStation.dest st
  ∧ ReservationStation.instruction st' = ReservationStation.instruction st.
Proof.
  intros H. apply payload_fields in H. destruct st; simpl in *. tauto.
Qed.

Lemma execute_station_Inv i s s' :
  Inv s → Simulator.execute_station i s = Ok s' → Inv s'.
Proof.
  intros HI H. apply execute_station_cases in H as [[-> _]|H]; [done|].
  destruct H as (rs & rs' & u & fu & fu' & o & k & ins & Hrs & Hready & Hfu
                 & Hnb & Hop & Hsup & Hk & Hins & Hpay & Hexec & -> & ->).
  apply isReady_true in Hready as (Hbusy & Hnex & Hqj & Hqk).
  apply payload_set_address_fields in Hpay
    as (Hn' & Ho' & Hqj' & Hqk' & Hb' & Hd' & Hi').
  destruct HI as [Hnames Hbound Hinj Hstat Hdest Hfresh Hinstr Hiinj].
  assert (i < length (Simulator.reservation_stations s))%nat as Hilt
    by by eapply lookup_lt_Some.
  assert (u < length (Simulator.functional_units s))%nat as Hult
    by by eapply lookup_lt_Some.
  assert (dest_index rs' = dest_index rs) as Hdi.
  { unfold dest_index. by rewrite Hd'. }
  assert (∀ j st', <[i := rs']> (Simulator.reservation_stations s) !! j
                   = Some st' →
            ∃ st, Simulator.reservation_stations s !! j = Some st
              ∧ ReservationStation.name st' = ReservationStation.name st
              ∧ ReservationStation.op st' = ReservationStation.op st
              ∧ ReservationStation.busy st' = ReservationStation.busy st
              ∧ ReservationStation.dest st' = ReservationStation.dest st
              ∧ ReservationStation.instruction st'
                = ReservationStation.instruction st) as Hback.
  { intros j st' Hj. destruct (decide (j = i)) as [->|Hne].
    - rewrite list_lookup_insert_eq in Hj by done. injection Hj as <-.
      exists rs. by split_and!.
    - rewrite list_lookup_insert_ne in Hj by done. exists st'. by split_and!. }
  assert (∀ j st, Simulator.reservation_stations s !! j = Some st →
            ∃ st', <[i := rs']> (Simulator.reservation_stations s) !! j
                   = Some st'
              ∧ ReservationStation.name st' = ReservationStation.name st
              ∧ ReservationStation.busy st' = ReservationStation.busy st
              ∧ dest_index st' = dest_index st) as Hforw.
  { intros j st Hj. destruct (decide (j = i)) as [->|Hne].
    - rewrite list_lookup_insert_eq by done. exists rs'.
      rewrite Hrs in Hj. injection Hj as <-. by split_and!.
    - rewrite list_lookup_insert_ne by done. exists st. by split_and!. }
  split; simpl.
  - rewrite list_fmap_insert, Hn'. rewrite list_insert_id; [done|].
    by rewrite list_lookup_fmap, Hrs.
  - intros ui u0 Hu0 Hb0. destruct (decide (ui = u)) as [->|Hne].
    + rewrite list_lookup_insert_eq in Hu0 by done. injection Hu0 as <-.
      exists i, rs'. rewrite list_lookup_insert_eq by done.
      split_and!; try done; congruence.
    + rewrite list_lookup_insert_ne in Hu0 by done.
      destruct (Hbound ui u0 Hu0 Hb0) as (j & st & Hj & Hst & ? & He & ? & ?).
      assert (j ≠ i) as Hji.
      { intros ->. rewrite Hrs in Hst. injection Hst as <-. congruence. }
      exists j, st. rewrite list_lookup_insert_ne by done. by split_and!.
  - intros ui uj u1 u2 j Hu1 Hu2 Hb1 Hb2 Hr1 Hr2.
    assert (∀ ui u1, ui ≠ u →
              Simulator.functional_units s !! ui = Some u1 →
              FunctionalUnit.busy u1 = true →
              FunctionalUnit.reservation_station u1 ≠ Some i) as Hnot.
    { intros ui' u1' _ Hu Hb Hr.
      destruct (Hbound ui' u1' Hu Hb) as (j' & st & Hj & Hst & ? & He & ? & ?).
      rewrite Hr in Hj. injection Hj as <-.
      rewrite Hrs in Hst. injection Hst as <-. congruence. }
    destruct (decide (ui = u)) as [->|Hne1];
      destruct (decide (uj = u)) as [->|Hne2]; [done|..].
    + rewrite list_lookup_insert_eq in Hu1 by done. injection Hu1 as <-.
      rewrite list_lookup_insert_ne in Hu2 by done.
      simpl in Hr1. injection Hr1 as <-.
      by destruct (Hnot uj u2 Hne2 Hu2 Hb2).
    + rewrite list_lookup_insert_eq in Hu2 by done. injection Hu2 as <-.
      rewrite list_lookup_insert_ne in Hu1 by done.
      simpl in Hr2. injection Hr2 as <-.
      by destruct (Hnot ui u1 Hne1 Hu1 Hb1).
    + rewrite list_lookup_insert_ne in Hu1, Hu2 by done.
      by eapply (Hinj ui uj u1 u2 j).
  - intros r t Hr.
    destruct (Hstat r t Hr) as (j & st & Hj & Hn & Hb & Hd).
    destruct (Hforw j st Hj) as (st' & Hj' & Hn1 & Hb1 & Hd1).
    exists j, st'. split_and!; congruence.
  - intros j st' Hj Hd.
    destruct (Hback j st' Hj) as (st & Hst & _ & Ho1 & Hb1 & Hd1 & _).
    rewrite Ho1, Hb1. apply (Hdest j st Hst). by rewrite <- Hd1.
  - intros k' ins' Hk' Hpc.
    destruct (Hinstr i rs k Hrs Hk) as (_ & Hlt & _).
    rewrite list_lookup_insert_ne in Hk' by lia. by eapply Hfresh.
  - intros j st' k' Hj Hk'.
    destruct (Hback j st' Hj) as (st & Hst & _ & _ & Hb1 & _ & Hi1).
    rewrite Hi1 in Hk'.
    destruct (Hinstr j st k' Hst Hk') as (? & ? & ins' & Hins' & ? & ?).
    split; [congruence|]. split; [done|].
    destruct (decide (k' = k)) as [->|Hne].
    + rewrite list_lookup_insert_eq by by eapply lookup_lt_Some.
      rewrite Hins in Hins'. injection Hins' as <-.
      eexists. split; [done|]. done.
    + rewrite list_lookup_insert_ne by done. eauto.
  - intros j1 j2 st1 st2 k' Hj1 Hj2 Hk1 Hk2.
    destruct (Hback j1 st1 Hj1) as (st1' & Hst1 & _ & _ & _ & _ & Hi1).
    destruct (Hback j2 st2 Hj2) as (st2' & Hst2 & _ & _ & _ & _ & Hi2).
    eapply (Hiinj j1 j2 st1' st2' k'); [done|done|congruence|congruence].
Qed.

Lemma for_each_Inv positions : ∀ s s',
  Inv s → Simulator.for_each Simulator.execute_station positions s = Ok s' →
  Inv s'.
Proof.
  induction positions as [|i positions IH]; intros s s' HI H; simpl in H.
  - by injection H as <-.
  - apply bind_Ok in H as (s1 & H1 & H). eapply IH; [|exact H].
    by eapply execute_station_Inv.
Qed.

Lemma execute_Inv s s' :
  Inv s → Simulator.execute s = Ok s' → Inv s'.
Proof. apply for_each_Inv. Qed.
(** ** Issue and the whole tick *)

Lemma first_free_Some (sts : list ReservationStation.t) pool i :
  ReservationStations.first_free sts pool = Some i →
  ∃ rs, sts !! i = Some rs ∧ ReservationStation.busy rs = false.
Proof.
  induction pool as [|j pool IH]; simpl; [done|].
  destruct (sts !! j) as [st|] eqn:Hj; [|done].
  destruct (ReservationStation.busy st) eqn:Hb; [done|].
  intros [= <-]. eauto.
Qed.

(** What [issue] does when it returns [True]. *)
Lemma issue_cases s s' b :
  Simulator.issue s = Ok (s', b) →
  (b = false
   ∧ Simulator.functional_units s' = Simulator.functional_units s
   ∧ Simulator.reservation_stations s' = Simulator.reservation_stations s
   ∧ Simulator.register_file s' = Simulator.register_file s
   ∧ Simulator.instructions s' = Simulator.instructions s
   ∧ Simulator.pc s' = Simulator.pc s)
  ∨ (b = true
     ∧ ∃ ins i rs d qj vj qk vk off rf',
       Simulator.instructions s !! Simulator.pc s = Some ins
       ∧ Simulator.reservation_stations s !! i = Some rs
       ∧ ReservationStation.busy rs = false
       ∧ ((Instruction.op ins = STORE ∧ rf' = Simulator.register_file s
           ∧ d = ReservationStation.dest rs)
          ∨ (Instruction.op ins ≠ STORE ∧ d = Instruction.dest ins
             ∧ RegisterFile.set_status (Simulator.register_file s)
                 (Instruction.dest ins) (Some (ReservationStation.name rs))
               = Ok rf'))
       ∧ s' = {| Simulator.memory := Simulator.memory s;
                 Simulator.register_file := rf';
                 Simulator.functional_units := Simulator.functional_units s;
                 Simulator.reservation_stations :=
                   <[i := ReservationStation.bind_instruction rs
                            (Instruction.op ins) (Simulator.pc s) d qj vj qk vk
                            off]> (Simulator.reservation_stations s);
                 Simulator.cdb := Simulator.cdb s;
                 Simulator.metrics := Simulator.metrics s;
                 Simulator.instructions :=
                   <[Simulator.pc s :=
                       Simulator.set_issue_cycle (Simulator.cycle s) ins]>
                     (Simulator.instructions s);
                 Simulator.pc := S (Simulator.pc s);
                 Simulator.cycle := Simulator.cycle s;
                 Simulator.done := Simulator.done s;
                 Simulator.stdout := Simulator.stdout s |}).
Proof.
  unfold Simulator.issue. intros H. case_bool_decide as Hpc.
  { injection H as <- <-. left. by split_and!. }
  apply bind_Ok in H as (ins & Hins & H). apply py_getitem_Ok in Hins.
  destruct (ReservationStations.get_available_station _ _) as [i|] eqn:Hav.
  2:{ injection H as <- <-. left. by split_and!. }
  apply first_free_Some in Hav as (rs & Hrs & Hnb).
  apply bind_Ok in H as (rs0 & Hrs0 & H). apply py_getitem_Ok in Hrs0.
  rewrite Hrs in Hrs0. injection Hrs0 as <-.
  apply bind_Ok in H as (instrs' & Hst & H).
  unfold Simulator.stamp in Hst.
  apply bind_Ok in Hst as (ins0 & Hik & Hst). apply py_getitem_Ok in Hik.
  rewrite Hins in Hik. injection Hik as <-.
  apply py_setitem_Ok in Hst as [Hklt ->].
  apply bind_Ok in H as ([rs' rf'] & Hop & H). injection H as <- <-.
  right. split; [done|].
  destruct (Instruction.op ins) eqn:Eop.
  1-4: apply bind_Ok in Hop as ([qj vj] & _ & Hop);
       apply bind_Ok in Hop as ([qk vk] & _ & Hop);
       apply bind_Ok in Hop as (rf1 & Hset & Hop); injection Hop as <- <-;
       eexists ins, i, rs, _, _, _, _, _, _, _; rewrite Eop;
       do 3 (split; [done|]); (split; [|reflexivity]);
       right; by split_and!.
  - apply bind_Ok in Hop as ([qj vj] & _ & Hop).
    apply bind_Ok in Hop as (rf1 & Hset & Hop). injection Hop as <- <-.
    eexists ins, i, rs, _, _, _, _, _, _, _. rewrite Eop.
    do 3 (split; [done|]). split; [|reflexivity].
    right. by split_and!.
  - apply bind_Ok in Hop as ([qj vj] & _ & Hop).
    apply bind_Ok in Hop as ([qk vk] & _ & Hop). injection Hop as <- <-.
    eexists ins, i, rs, _, _, _, _, _, _, _. rewrite Eop.
    do 3 (split; [done|]). split; [|reflexivity].
    left. by split_and!.
Qed.

Lemma set_status_Ok rf reg tag rf' :
  RegisterFile.set_status rf reg tag = Ok rf' →
  ∃ d r, reg = Some d
    ∧ RegisterFile.get_register_index (Some d) = Ok r
    ∧ (r < length (RegisterFile.status rf))%nat
    ∧ RegisterFile.status rf' = <[r := tag]> (RegisterFile.status rf)
    ∧ RegisterFile.registers rf' = RegisterFile.registers rf.
Proof.
  unfold RegisterFile.set_status. intros H.
  apply bind_Ok in H as (r & Hr & H).
  apply bind_Ok in H as (st & Hst & H). apply py_setitem_Ok in Hst as [Hlt ->].
  injection H as <-. destruct reg as [d|]; [|done].
  exists d, r. by split_and!.
Qed.

Lemma issue_Inv s s' b :
  Inv s → Simulator.issue s = Ok (s', b) → Inv s'.
Proof.
  intros HI H. apply issue_cases in H as [(_ & ? & ? & ? & ? & ?)|[_ H]].
  { by eapply Inv_ext; [..|exact HI]. }
  destruct H as (ins & i & rs & d & qj & vj & qk & vk & off & rf' & Hins & Hrs
                 & Hnb & Hrf & ->).
  destruct HI as [Hnames Hbound Hinj Hstat Hdest Hfresh Hinstr Hiinj].
  assert (i < length (Simulator.reservation_stations s))%nat as Hilt
    by by eapply lookup_lt_Some.
  set (rs' := ReservationStation.bind_instruction rs (Instruction.op ins)
                (Simulator.pc s) d qj vj qk vk off) in *.
  assert (∀ j st, j ≠ i →
            <[i := rs']> (Simulator.reservation_stations s) !! j = Some st ↔
            Simulator.reservation_stations s !! j = Some st) as Hother.
  { intros j st Hne. by rewrite list_lookup_insert_ne. }
  assert (∀ j st, Simulator.reservation_stations s !! j = Some st →
            ReservationStation.busy st = true → j ≠ i) as Hbusy_ne.
  { intros j st Hj Hb ->. rewrite Hrs in Hj. injection Hj as <-. congruence. }
  split; simpl.
  - rewrite list_fmap_insert. rewrite list_insert_id; [done|].
    by rewrite list_lookup_fmap, Hrs.
  - intros ui u Hu Hb.
    destruct (Hbound ui u Hu Hb) as (j & st & Hj & Hst & Hbs & ? & ? & ?).
    exists j, st. split_and!; try done.
    apply Hother; [|done]. by eapply Hbusy_ne.
  - apply Hinj.
  - intros r t Hr. unfold status_of in Hr. simpl in Hr.
    assert (status_of s r = Some t →
            ∃ j st, <[i := rs']> (Simulator.reservation_stations s) !! j
                    = Some st
              ∧ ReservationStation.name st = t
              ∧ ReservationStation.busy st = true
              ∧ dest_index st = Some r) as Hold.
    { intros Hr'. destruct (Hstat r t Hr') as (j & st & Hj & ? & Hb & ?).
      exists j, st. split_and!; try done.
      apply Hother; [|done]. by eapply Hbusy_ne. }
    destruct Hrf as [(_ & -> & _)|(Hop & -> & Hset)]; [by apply Hold|].
    apply set_status_Ok in Hset as (d & r0 & Hd & Hr0 & Hlt & Hst' & _).
    rewrite Hst' in Hr. destruct (decide (r = r0)) as [->|Hne].
    + rewrite list_lookup_insert_eq in Hr by done. simpl in Hr.
      injection Hr as <-. exists i, rs'.
      rewrite list_lookup_insert_eq by done. split_and!; try done.
      apply dest_index_Some. exists d. by split.
    + rewrite list_lookup_insert_ne in Hr by done. by apply Hold.
  - intros j st Hj Hd. destruct (decide (j = i)) as [->|Hne].
    + rewrite list_lookup_insert_eq in Hj by done. injection Hj as <-.
      split; [done|]. simpl.
      destruct Hrf as [(Hop & _ & ->)|(Hop & _ & _)].
      * destruct (Hdest i rs Hrs) as [Hb _]; [exact Hd|congruence].
      * by destruct (Instruction.op ins).
    + apply Hother in Hj; [|done]. by eapply Hdest.
  - intros k ins' Hk Hpc.
    rewrite list_lookup_insert_ne in Hk by lia. eapply Hfresh; [done|lia].
  - intros j st k Hj Hk. destruct (decide (j = i)) as [->|Hne].
    + rewrite list_lookup_insert_eq in Hj by done. injection Hj as <-.
      simpl in Hk. injection Hk as <-.
      split; [done|]. split; [lia|].
      rewrite list_lookup_insert_eq by by eapply lookup_lt_Some.
      eexists. split; [done|]. simpl.
      specialize (Hfresh _ _ Hins (Nat.le_refl _)). unfold fresh in Hfresh.
      rewrite !andb_true_iff, !bool_decide_eq_true in Hfresh. tauto.
    + apply Hother in Hj; [|done].
      destruct (Hinstr j st k Hj Hk) as (? & ? & ins' & ? & ? & ?).
      split; [done|]. split; [lia|]. exists ins'.
      rewrite list_lookup_insert_ne by lia. done.
  - intros j1 j2 st1 st2 k Hj1 Hj2 Hk1 Hk2.
    destruct (decide (j1 = i)) as [->|Hne1];
      destruct (decide (j2 = i)) as [->|Hne2]; [done|..].
    + rewrite list_lookup_insert_eq in Hj1 by done. injection Hj1 as <-.
      simpl in Hk1. injection Hk1 as <-.
      apply Hother in Hj2; [|done].
      destruct (Hinstr j2 st2 _ Hj2 Hk2) as (_ & ? & _). lia.
    + rewrite list_lookup_insert_eq in Hj2 by done. injection Hj2 as <-.
      simpl in Hk2. injection Hk2 as <-.
      apply Hother in Hj1; [|done].
      destruct (Hinstr j1 st1 _ Hj1 Hk1) as (_ & ? & _). lia.
    + apply Hother in Hj1, Hj2; [|done..]. by eapply (Hiinj j1 j2 st1 st2 k).
Qed.

Lemma begin_cycle_Inv s : Inv s → Inv (Simulator.begin_cycle s).
Proof. by apply Inv_ext. Qed.

Lemma tick_Inv s s' b :
  Inv s → Simulator.tick s = Ok (s', b) → Inv s'.
Proof.
  intros HI H. unfold Simulator.tick in H.
  apply bind_Ok in H as (s1 & H1 & H).
  apply bind_Ok in H as (s2 & H2 & H).
  apply bind_Ok in H as ([s3 issued] & H3 & H).
  assert (Inv s3) as HI3.
  { eapply issue_Inv; [|exact H3]. eapply execute_Inv; [|exact H2].
    eapply write_back_Inv; [|exact H1]. by apply begin_cycle_Inv. }
  destruct (_ && _) in H; by injection H as <- _.
Qed.

Lemma loaded_Inv registers instructions out :
  forallb fresh instructions = true → Inv (loaded registers instructions out).
Proof.
  intros Hfresh. split; simpl.
  - done.
  - intros ui u Hu Hb.
    apply list_elem_of_lookup_2 in Hu.
    unfold FunctionalUnits.init in Hu.
    repeat (apply elem_of_cons in Hu as [->|Hu]; [done|]).
    by apply elem_of_nil in Hu.
  - intros ui uj u u' i Hu _ Hb.
    apply list_elem_of_lookup_2 in Hu.
    unfold FunctionalUnits.init in Hu.
    repeat (apply elem_of_cons in Hu as [->|Hu]; [done|]).
    by apply elem_of_nil in Hu.
  - intros r t Hr. unfold status_of in Hr. simpl in Hr.
    do 8 (destruct r as [|r]; [done|]). by destruct r.
  - intros i st Hst [d Hd].
    apply list_elem_of_lookup_2 in Hst.
    unfold ReservationStations.init in Hst.
    apply list_elem_of_fmap in Hst as (n & -> & _). done.
  - intros k ins Hk _. rewrite forallb_forall in Hfresh. apply Hfresh.
    apply list_elem_of_In. by eapply list_elem_of_lookup_2.
  - intros i st k Hst Hk.
    apply list_elem_of_lookup_2 in Hst.
    unfold ReservationStations.init in Hst.
    apply list_elem_of_fmap in Hst as (n & -> & _). done.
  - intros i j st st' k Hst _ Hk.
    apply list_elem_of_lookup_2 in Hst.
    unfold ReservationStations.init in Hst.
    apply list_elem_of_fmap in Hst as (n & -> & _). done.
Qed.

Lemma ticks_Inv n : ∀ s s',
  Inv s → Simulator.ticks n s = Ok s' → Inv s'.
Proof.
  induction n as [|n IH]; intros s s' HI H; simpl in H.
  - by injection H as <-.
  - apply bind_Ok in H as (s1 & H1 & H).
    apply bind_Ok in H as ([s2 b] & H2 & H). injection H as <-.
    eapply tick_Inv; [|exact H2]. by eapply IH.
Qed.

Lemma reachable_Inv s : reachable s → Inv s.
Proof.
  intros (registers & instructions & out & n & _ & Hfresh & H).
  eapply ticks_Inv; [|exact H]. by apply loaded_Inv.
Qed.
(** ** Timestamps *)

Lemma stamps_kept_refl ins : stamps_kept ins ins.
Proof. by split_and!. Qed.

Lemma stamps_kept_trans a b c :
  stamps_kept a b → stamps_kept b c → stamps_kept a c.
Proof.
  intros (H1 & H2 & H3 & H4) (H1' & H2' & H3' & H4'). split_and!.
  - intros x Hx. by apply H1', H1.
  - intros x Hx. by apply H2', H2.
  - intros x Hx. by apply H3', H3.
  - intros [x Hx]. rewrite H4' by (rewrite (H3 x Hx); eauto).
    apply H4. eauto.
Qed.

Lemma instrs_kept_refl l : instrs_kept l l.
Proof. intros k ins Hk. exists ins. split; [done|apply stamps_kept_refl]. Qed.

Lemma instrs_kept_trans l1 l2 l3 :
  instrs_kept l1 l2 → instrs_kept l2 l3 → instrs_kept l1 l3.
Proof.
  intros H12 H23 k ins Hk.
  destruct (H12 k ins Hk) as (ins2 & Hk2 & Hs2).
  destruct (H23 k ins2 Hk2) as (ins3 & Hk3 & Hs3).
  exists ins3. split; [done|]. by eapply stamps_kept_trans.
Qed.

Lemma instrs_kept_insert (l : list Instruction.t) k ins ins' :
  l !! k = Some ins → stamps_kept ins ins' →
  instrs_kept l (<[k := ins']> l).
Proof.
  intros Hk Hs j x Hj. destruct (decide (j = k)) as [->|Hne].
  - rewrite list_lookup_insert_eq by by eapply lookup_lt_Some.
    rewrite Hk in Hj. injection Hj as <-. eauto.
  - rewrite list_lookup_insert_ne by done. exists x.
    split; [done|apply stamps_kept_refl].
Qed.

Lemma write_result_stamps s n v s' :
  Inv s → Simulator.write_result s n v = Ok s' →
  instrs_kept (Simulator.instructions s) (Simulator.instructions s').
Proof.
  intros HI H. unfold Simulator.write_result in H.
  destruct (CommonDataBus.broadcast _ _ _) as [cdb' ?].
  destruct (ReservationStations.get_station_by_name _ n) as [i|] eqn:Hfind.
  2:{ injection H as <-. apply instrs_kept_refl. }
  apply bind_Ok in H as (rs & Hrs & H). apply py_getitem_Ok in Hrs.
  apply bind_Ok in H as (k & Hk & H).
  destruct (ReservationStation.instruction rs) as [k'|] eqn:Hins; [|done].
  injection Hk as ->.
  apply bind_Ok in H as (instrs' & Hst & H).
  unfold Simulator.stamp in Hst.
  apply bind_Ok in Hst as (ins & Hik & Hst). apply py_getitem_Ok in Hik.
  apply py_setitem_Ok in Hst as [Hklt ->].
  apply bind_Ok in H as (rf' & _ & H).
  apply bind_Ok in H as (rs1 & _ & H). injection H as <-. simpl.
  destruct (inv_instr s HI i rs k Hrs Hins) as (_ & _ & ins0 & Hins0 & Hec & Hwr).
  rewrite Hik in Hins0. injection Hins0 as <-.
  apply (instrs_kept_insert _ _ ins); [done|].
  split_and!; simpl; [done|congruence|congruence|].
  intros [x Hx]. congruence.
Qed.

Lemma write_back_stamps s s' :
  Inv s → Simulator.write_back s = Ok s' →
  instrs_kept (Simulator.instructions s) (Simulator.instructions s').
Proof.
  intros HI H. unfold Simulator.write_back in H.
  apply bind_Ok in H as ([[[[units' sts'] mem'] out] results] & Htick & H).
  match type of H with
  | match _ with [] => Ok ?x | _ => _ end = _ => set (s1 := x) in *
  end.
  destruct (units_tick_Inv s s1 mem' out results HI Htick)
    as [HI1 _]; [done..|].
  destruct results as [|[n v] rest].
  - injection H as <-. apply instrs_kept_refl.
  - by apply (write_result_stamps s1 n v s').
Qed.

Lemma execute_station_stamps i s s' :
  Inv s → Simulator.execute_station i s = Ok s' →
  instrs_kept (Simulator.instructions s) (Simulator.instructions s').
Proof.
  intros HI H. apply execute_station_cases in H as [[-> _]|H].
  { apply instrs_kept_refl. }
  destruct H as (rs & rs' & u & fu & fu' & o & k & ins & Hrs & _ & _
                 & _ & _ & _ & Hk & Hins & _ & _ & _ & ->). simpl.
  destruct (inv_instr s HI i rs k Hrs Hk) as (_ & _ & ins0 & Hins0 & _ & Hwr).
  rewrite Hins in Hins0. injection Hins0 as <-.
  apply (instrs_kept_insert _ _ ins); [done|].
  split_and!; simpl; try done. intros [x Hx]. congruence.
Qed.

Lemma for_each_stamps positions : ∀ s s',
  Inv s → Simulator.for_each Simulator.execute_station positions s = Ok s' →
  instrs_kept (Simulator.instructions s) (Simulator.instructions s').
Proof.
  induction positions as [|i positions IH]; intros s s' HI H; simpl in H.
  - injection H as <-. apply instrs_kept_refl.
  - apply bind_Ok in H as (s1 & H1 & H).
    eapply instrs_kept_trans; [by eapply execute_station_stamps|].
    eapply IH; [|exact H]. by eapply execute_station_Inv.
Qed.

Lemma issue_stamps s s' b :
  Inv s → Simulator.issue s = Ok (s', b) →
  instrs_kept (Simulator.instructions s) (Simulator.instructions s').
Proof.
  intros HI H. apply issue_cases in H as [(_ & _ & _ & _ & -> & _)|[_ H]].
  { apply instrs_kept_refl. }
  destruct H as (ins & i & rs & d & qj & vj & qk & vk & off & rf' & Hins & _
                 & _ & _ & ->). simpl.
  apply (instrs_kept_insert _ _ ins); [done|].
  pose proof (inv_fresh s HI _ _ Hins (Nat.le_refl _)) as Hfresh.
  unfold fresh in Hfresh.
  rewrite !andb_true_iff, !bool_decide_eq_true in Hfresh.
  destruct Hfresh as [[[Hi Hs] He] Hw].
  split_and!; simpl; try done; try congruence.
Qed.

Lemma tick_stamps s s' b :
  Inv s → Simulator.tick s = Ok (s', b) →
  instrs_kept (Simulator.instructions s) (Simulator.instructions s').
Proof.
  intros HI H. unfold Simulator.tick in H.
  apply bind_Ok in H as (s1 & H1 & H).
  apply bind_Ok in H as (s2 & H2 & H).
  apply bind_Ok in H as ([s3 issued] & H3 & H).
  pose proof (begin_cycle_Inv s HI) as HI0.
  pose proof (write_back_Inv _ _ HI0 H1) as HI1.
  pose proof (execute_Inv _ _ HI1 H2) as HI2.
  assert (s' = s3) as -> by (destruct (_ && _) in H; by injection H as <- _).
  eapply instrs_kept_trans; [exact (write_back_stamps _ _ HI0 H1)|].
  eapply instrs_kept_trans; [exact (for_each_stamps _ _ _ HI1 H2)|].
  exact (issue_stamps _ _ _ HI2 H3).
Qed.

Lemma ticks_stamps n : ∀ s s',
  Inv s → Simulator.ticks n s = Ok s' →
  instrs_kept (Simulator.instructions s) (Simulator.instructions s').
Proof.
  induction n as [|n IH]; intros s s' HI H; simpl in H.
  - injection H as <-. apply instrs_kept_refl.
  - apply bind_Ok in H as (s1 & H1 & H).
    apply bind_Ok in H as ([s2 b] & H2 & H). injection H as <-.
    eapply instrs_kept_trans; [by eapply IH|].
    eapply tick_stamps; [|exact H2]. by eapply ticks_Inv.
Qed.

(** ** Completions of one cycle *)

(** Two completions of one call of [FunctionalUnits.tick] never carry the
    same tag. *)
Lemma units_tick_NoDup units : ∀ sts mem units' sts' mem' out results,
  FunctionalUnits.tick units sts mem = Ok (units', sts', mem', out, results) →
  NoDup (ReservationStation.name <$> sts) →
  (∀ ui uj u u' i, units !! ui = Some u → units !! uj = Some u' →
     FunctionalUnit.busy u = true → FunctionalUnit.busy u' = true →
     FunctionalUnit.reservation_station u = Some i →
     FunctionalUnit.reservation_station u' = Some i → ui = uj) →
  NoDup results.*1.
Proof.
  induction units as [|u us IH];
    intros sts mem units' sts' mem' out results H Hnd Hinj; simpl in H.
  { injection H as <- <- <- <- <-. constructor. }
  apply bind_Ok in H as ([[[[u1 sts1] mem1] out1] c] & Hu & H).
  apply bind_Ok in H as ([[[[us2 sts2] mem2] out2] res2] & Hus & H).
  injection H as <- <- <- <- <-.
  apply unit_tick_cases in Hu as [_ Hu].
  assert (payload <$> sts1 = payload <$> sts) as Hpay1.
  { destruct Hu as [(_ & _ & -> & _)|(i & rs & _ & _ & Hi & [H|H])]; [done|..].
    - destruct H as (_ & _ & _ & -> & _). by apply payload_insert.
    - destruct H as (_ & _ & -> & _). by apply payload_insert. }
  assert (ReservationStation.name <$> sts1 = ReservationStation.name <$> sts)
    as Hnames1.
  { transitivity (ReservationStation.name <$> (payload <$> sts1)).
    - rewrite <- list_fmap_compose. apply list_fmap_ext. intros ? st ?.
      by destruct st.
    - rewrite Hpay1, <- list_fmap_compose. apply list_fmap_ext. intros ? st ?.
      by destruct st. }
  assert (NoDup res2.*1) as Hnd2.
  { eapply IH; [exact Hus|by rewrite Hnames1|].
    intros ui uj u0 u0' i Hu0 Hu0' Hb Hb' Hr Hr'.
    assert (S ui = S uj) by by eapply (Hinj (S ui) (S uj) u0 u0' i). lia. }
  rewrite fmap_app. destruct c as [[n res]|]; [|done]. simpl.
  apply NoDup_cons. split; [|done].
  intros Hin. apply list_elem_of_fmap in Hin as ([n' v'] & Hn' & Hin).
  simpl in Hn'. subst n'.
  destruct (proj2 (proj2 (proj2 (proj2 (proj2
              (units_tick_spec _ _ _ _ _ _ _ _ Hus))))) n v' Hin)
    as (uj & u2 & u2' & i2 & st2 & st2' & Hu2 & Hb2 & Hr2 & Hst2 & Hn2 & _).
  destruct Hu as [(_ & _ & _ & _ & _ & [=])|(i & rs & Hb & Hr & Hi & [H|H])].
  { by destruct H as (_ & _ & _ & _ & _ & _ & [=]). }
  destruct H as (_ & _ & _ & res' & [= -> ->] & _).
  destruct (payload_lookup _ _ _ _ Hpay1 Hst2) as (st0 & Hst0 & Hp0).
  apply payload_fields in Hp0 as (Hn0 & _).
  assert (i = i2) as ->.
  { eapply (NoDup_lookup _ i i2 (ReservationStation.name rs)); [exact Hnd|..].
    - by rewrite list_lookup_fmap, Hi.
    - rewrite list_lookup_fmap, Hst0. simpl. congruence. }
  assert (O = S uj) by by eapply (Hinj O (S uj) u u2 i2). done.
Qed.

(** ** The loop of [execute] *)

Lemma get_available_None (units : list FunctionalUnit.t) op :
  FunctionalUnits.get_available units op = None ↔
  ∀ u fu, units !! u = Some fu → FunctionalUnit.can_accept fu op = false.
Proof.
  unfold FunctionalUnits.get_available.
  destruct (list_find _ units) as [[u fu]|] eqn:Hf; simpl.
  - split; [done|]. intros H.
    apply list_find_Some in Hf as (Hu & Hc & _). rewrite (H u fu Hu) in Hc.
    done.
  - split; [|done]. intros _ u fu Hu.
    apply list_find_None in Hf. rewrite Forall_forall in Hf.
    specialize (Hf fu (list_elem_of_lookup_2 _ _ _ Hu)).
    by destruct (FunctionalUnit.can_accept fu op).
Qed.






(** ** Write-back *)

Lemma write_back_unfold s units' sts' mem' out results :
  FunctionalUnits.tick (Simulator.functional_units s)
    (Simulator.reservation_stations s) (Simulator.memory s)
  = Ok (units', sts', mem', out, results) →
  Simulator.write_back s
  = let s1 :=
      {| Simulator.memory := mem';
         Simulator.register_file := Simulator.register_file s;
         Simulator.functional_units := units';
         Simulator.reservation_stations := sts';
         Simulator.cdb := CommonDataBus.clear (Simulator.cdb s);
         Simulator.metrics := Simulator.metrics s;
         Simulator.instructions := Simulator.instructions s;
         Simulator.pc := Simulator.pc s;
         Simulator.cycle := Simulator.cycle s;
         Simulator.done := Simulator.done s;
         Simulator.stdout := Simulator.stdout s ++ out |} in
    match results with
    | [] => Ok s1
    | (rs_name, value) :: _ => Simulator.write_result s1 rs_name value
    end.
Proof. intros H. unfold Simulator.write_back. by rewrite H. Qed.

(** The register-file part of [write_result]. *)
Lemma write_result_registers rf (rs : ReservationStation.t) n v rf' :
  (if bool_decide (ReservationStation.op rs = Some STORE
                   ∨ ReservationStation.op rs = None)
   then Ok rf
   else
     let* rf1 := RegisterFile.write rf (ReservationStation.dest rs) v in
     let* status := RegisterFile.get_status rf1 (ReservationStation.dest rs) in
     if bool_decide (status = Some n)
     then RegisterFile.set_status rf1 (ReservationStation.dest rs) None
     else Ok rf1) = Ok rf' →
  (producing (ReservationStation.op rs) = false → rf' = rf)
  ∧ (producing (ReservationStation.op rs) = true →
     ∃ r, dest_index rs = Some r ∧ RegisterFile.registers rf' !! r = Some v)
  ∧ (∀ r, dest_index rs ≠ Some r →
       RegisterFile.registers rf' !! r = RegisterFile.registers rf !! r
       ∧ RegisterFile.status rf' !! r = RegisterFile.status rf !! r).
Proof.
  intros H. case_bool_decide as Hop.
  { injection H as <-. split_and!; [done| |done].
    intros Hp. destruct Hop as [Hop|Hop]; by rewrite Hop in Hp. }
  apply bind_Ok in H as (rf1 & Hw & H).
  apply bind_Ok in H as (status & Hg & H).
  unfold RegisterFile.write in Hw.
  apply bind_Ok in Hw as (r0 & Hr0 & Hw).
  apply bind_Ok in Hw as (regs & Hregs & Hw).
  apply py_setitem_Ok in Hregs as [Hlt ->]. injection Hw as <-.
  assert (dest_index rs = Some r0) as Hd0.
  { unfold dest_index.
    destruct (ReservationStation.dest rs); [by rewrite Hr0|done]. }
  assert (RegisterFile.registers rf' = <[r0 := v]> (RegisterFile.registers rf)
          ∧ ∀ r, r ≠ r0 →
              RegisterFile.status rf' !! r = RegisterFile.status rf !! r)
    as [Hregs' Hstat'].
  { case_bool_decide.
    - apply set_status_Ok in H as (d & r1 & Hd & Hr1 & _ & Hs & Hr).
      rewrite Hd in Hr0. rewrite Hr0 in Hr1. injection Hr1 as <-.
      split; [done|]. intros r Hne. rewrite Hs.
      by rewrite list_lookup_insert_ne.
    - by injection H as <-. }
  split_and!.
  - intros Hp. destruct (ReservationStation.op rs) as [[]|]; simpl in Hp;
      try done; exfalso; apply Hop; (by left) || (by right).
  - intros _. exists r0. split; [done|]. rewrite Hregs'.
    by apply list_lookup_insert_eq.
  - intros r Hne. assert (r ≠ r0) by congruence.
    rewrite Hregs', list_lookup_insert_ne by done.
    split; [done|by apply Hstat'].
Qed.

(** What [write_result] changes when the completed station is found. *)
Lemma write_result_effect s n v s' i rs :
  Simulator.write_result s n v = Ok s' →
  ReservationStations.get_station_by_name (Simulator.reservation_stations s) n
  = Some i →
  Simulator.reservation_stations s !! i = Some rs →
  Simulator.reservation_stations s'
  = <[i := ReservationStation.clear (ReservationStation.update_operand rs n v)]>
      (ReservationStations.update_from_cdb (Simulator.reservation_stations s)
         n v)
  ∧ Metrics.completed_instructions (Simulator.metrics s')
    = S (Metrics.completed_instructions (Simulator.metrics s))
  ∧ (CommonDataBus.busy (Simulator.cdb s) ≠ Some true →
     Simulator.cdb s'
     = {| CommonDataBus.reservation_station := Some n;
          CommonDataBus.value := v;
          CommonDataBus.busy := Some true |})
  ∧ (producing (ReservationStation.op rs) = false →
     Simulator.register_file s' = Simulator.register_file s)
  ∧ (producing (ReservationStation.op rs) = true →
     ∃ r, dest_index rs = Some r
       ∧ RegisterFile.registers (Simulator.register_file s') !! r
         = Some v)
  ∧ (∀ r, dest_index rs ≠ Some r →
       RegisterFile.registers (Simulator.register_file s') !! r
       = RegisterFile.registers (Simulator.register_file s) !! r
       ∧ RegisterFile.status (Simulator.register_file s') !! r
         = RegisterFile.status (Simulator.register_file s) !! r)
  ∧ (∀ k, ReservationStation.instruction rs ≠ Some k →
       Simulator.instructions s' !! k = Simulator.instructions s !! k)
  ∧ Simulator.functional_units s' = Simulator.functional_units s
  ∧ Simulator.memory s' = Simulator.memory s
  ∧ Simulator.pc s' = Simulator.pc s
  ∧ Simulator.stdout s' = Simulator.stdout s.
Proof.
  intros H Hfind Hrs. unfold Simulator.write_result in H.
  destruct (CommonDataBus.broadcast _ _ _) as [cdb' b] eqn:Hcdb.
  rewrite Hfind in H.
  apply bind_Ok in H as (rs0 & Hrs0 & H). apply py_getitem_Ok in Hrs0.
  rewrite Hrs in Hrs0. injection Hrs0 as <-.
  apply bind_Ok in H as (k & Hk & H).
  destruct (ReservationStation.instruction rs) as [k'|] eqn:Hins; [|done].
  injection Hk as ->.
  apply bind_Ok in H as (instrs' & Hst & H).
  unfold Simulator.stamp in Hst.
  apply bind_Ok in Hst as (ins & Hik & Hst). apply py_getitem_Ok in Hik.
  apply py_setitem_Ok in Hst as [Hklt ->].
  apply bind_Ok in H as (rf' & Hrf & H).
  apply write_result_registers in Hrf as (Hr1 & Hr2 & Hr3).
  apply bind_Ok in H as (rs1 & Hrs1 & H). apply py_getitem_Ok in Hrs1.
  unfold ReservationStations.update_from_cdb in Hrs1.
  rewrite list_lookup_fmap, Hrs in Hrs1. injection Hrs1 as <-.
  injection H as <-. simpl. split_and!; try done.
  - intros Hb. unfold CommonDataBus.broadcast in Hcdb.
    rewrite bool_decide_eq_false_2 in Hcdb by done. by injection Hcdb as <- _.
  - intros k' Hne. apply list_lookup_insert_ne. congruence.
Qed.

Lemma update_operand_ready st n v :
  ReservationStation.qj st = None → ReservationStation.qk st = None →
  ReservationStation.update_operand st n v = st.
Proof. destruct st; simpl. by intros -> ->. Qed.

Lemma get_station_by_name_lookup (sts : list ReservationStation.t) i st :
  NoDup (ReservationStation.name <$> sts) →
  sts !! i = Some st →
  ReservationStations.get_station_by_name sts (ReservationStation.name st)
  = Some i.
Proof.
  intros Hnd Hi. unfold ReservationStations.get_station_by_name.
  destruct (list_find_elem_of
              (λ station, ReservationStation.name station
                          = ReservationStation.name st) sts st)
    as [[j st'] Hf]; [by eapply list_elem_of_lookup_2|done|].
  rewrite Hf. simpl. f_equal.
  apply list_find_Some in Hf as (Hj & Hn & _).
  eapply (NoDup_lookup _ j i (ReservationStation.name st)); [exact Hnd|..].
  - by rewrite list_lookup_fmap, Hj, <- Hn.
  - by rewrite list_lookup_fmap, Hi.
Qed.

Lemma names_payload (sts sts' : list ReservationStation.t) :
  payload <$> sts' = payload <$> sts →
  ReservationStation.name <$> sts' = ReservationStation.name <$> sts.
Proof.
  intros Hpay.
  transitivity (ReservationStation.name <$> (payload <$> sts')).
  - rewrite <- list_fmap_compose. apply list_fmap_ext. intros ? st ?.
    by destruct st.
  - rewrite Hpay, <- list_fmap_compose. apply list_fmap_ext. intros ? st ?.
    by destruct st.
Qed.

(** The completions of one cycle, under the invariant: the first one is
    processed by [write_back]; the station of every other one is left busy,
    not executing, with both operands, and bound to no unit. *)
Lemma completions_of_cycle s units' sts' mem' out n v rest s' :
  Inv s →
  FunctionalUnits.tick (Simulator.functional_units s)
    (Simulator.reservation_stations s) (Simulator.memory s)
  = Ok (units', sts', mem', out, (n, v) :: rest) →
  Simulator.write_back s = Ok s' →
  (∃ i st0 st1,
      Simulator.reservation_stations s !! i = Some st0
      ∧ ReservationStation.name st0 = n
      ∧ sts' !! i = Some st1
      ∧ payload st1 = payload st0
      ∧ ReservationStations.get_station_by_name sts' n = Some i
      ∧ Simulator.write_result
          {| Simulator.memory := mem';
             Simulator.register_file := Simulator.register_file s;
             Simulator.functional_units := units';
             Simulator.reservation_stations := sts';
             Simulator.cdb := CommonDataBus.clear (Simulator.cdb s);
             Simulator.metrics := Simulator.metrics s;
             Simulator.instructions := Simulator.instructions s;
             Simulator.pc := Simulator.pc s;
             Simulator.cycle := Simulator.cycle s;
             Simulator.done := Simulator.done s;
             Simulator.stdout := Simulator.stdout s ++ out |} n v = Ok s')
  ∧ ∀ n' v', (n', v') ∈ rest →
      n' ≠ n
      ∧ ∃ j ui u st0 st',
          Simulator.functional_units s !! ui = Some u
          ∧ FunctionalUnit.busy u = true
          ∧ FunctionalUnit.reservation_station u = Some j
          ∧ Simulator.reservation_stations s !! j = Some st0
          ∧ ReservationStation.name st0 = n'
          ∧ Simulator.reservation_stations s' !! j = Some st'
          ∧ payload st' = payload st0
          ∧ ReservationStation.busy st' = true
          ∧ ReservationStation.executing st' = false
          ∧ ReservationStation.qj st' = None
          ∧ ReservationStation.qk st' = None
          ∧ (∀ uj u', Simulator.functional_units s' !! uj = Some u' →
               FunctionalUnit.busy u' = true →
               FunctionalUnit.reservation_station u' ≠ Some j)
          ∧ (∀ k, ReservationStation.instruction st0 = Some k →
               Simulator.instructions s' !! k = Simulator.instructions s !! k).
Proof.
  intros HI Htick Hwb.
  rewrite (write_back_unfold _ _ _ _ _ _ Htick) in Hwb. simpl in Hwb.
  pose proof (units_tick_spec _ _ _ _ _ _ _ _ Htick)
    as (Hlen & Hpay & Hunits & Hon & Hoff & Hres).
  assert (NoDup (ReservationStation.name
                   <$> Simulator.reservation_stations s)) as Hnd.
  { rewrite (inv_names s HI). apply NoDup_station_names. }
  assert (NoDup (ReservationStation.name <$> sts')) as Hnd'.
  { by rewrite (names_payload _ _ Hpay). }
  pose proof (units_tick_NoDup _ _ _ _ _ _ _ _ Htick Hnd (inv_inj s HI))
    as Hndr.
  simpl in Hndr. apply NoDup_cons in Hndr as [Hnotin _].
  (* the first completion *)
  destruct (Hres n v (list_elem_of_here _ _))
    as (uw & u_w & u_w' & i & stw & stw' & Huw & Hbw & Hrw & Hstw & Hnw & Huw'
        & Hnbw & Hstw' & Hew & _).
  destruct (payload_lookup _ _ _ _ Hpay Hstw') as (stw0 & Hstw0 & Hpw).
  rewrite Hstw in Hstw0. injection Hstw0 as <-.
  assert (ReservationStation.name stw' = n) as Hnw'.
  { apply payload_fields in Hpw as (Hx & _). congruence. }
  assert (ReservationStations.get_station_by_name sts' n = Some i) as Hfind.
  { rewrite <- Hnw'. by apply get_station_by_name_lookup. }
  split.
  { exists i, stw, stw'. by split_and!. }
  pose proof (write_result_effect _ _ _ _ i stw' Hwb Hfind Hstw')
    as (Hsts & _ & _ & _ & _ & _ & Hinstrs & Hunits' & _).
  simpl in Hsts, Hinstrs, Hunits'.
  intros n' v' Hin.
  assert (n' ≠ n) as Hne.
  { intros ->. apply Hnotin. apply list_elem_of_fmap. by exists (n, v'). }
  split; [done|].
  destruct (Hres n' v' (list_elem_of_further _ _ _ Hin))
    as (ul & u_l & u_l' & j & stl & stl' & Hul & Hbl & Hrl & Hstl & Hnl & Hul'
        & Hnbl & Hstl' & Hel & _).
  destruct (payload_lookup _ _ _ _ Hpay Hstl') as (stl0 & Hstl0 & Hpl).
  rewrite Hstl in Hstl0. injection Hstl0 as <-.
  destruct (inv_bound s HI ul u_l Hul Hbl)
    as (j' & stl0 & Hj' & Hstl0 & Hbusy & _ & Hqj & Hqk).
  rewrite Hrl in Hj'. injection Hj' as <-.
  rewrite Hstl in Hstl0. injection Hstl0 as <-.
  pose proof (payload_fields _ _ Hpl)
    as (_ & _ & _ & _ & Hqj' & Hqk' & Hbusy' & _ & Hins' & _).
  assert (j ≠ i) as Hji.
  { intros ->. rewrite Hstw in Hstl. injection Hstl as <-. congruence. }
  assert (Simulator.reservation_stations s' !! j = Some stl') as Hfinal.
  { rewrite Hsts, list_lookup_insert_ne by done.
    unfold ReservationStations.update_from_cdb.
    rewrite list_lookup_fmap, Hstl'. simpl. f_equal.
    apply update_operand_ready; congruence. }
  exists j, ul, u_l, stl, stl'. split_and!; try done; try congruence.
  - intros uj u' Hu' Hb' Hr'. rewrite Hunits' in Hu'.
    destruct (Hunits uj u' Hu') as (u0 & Hu0 & _ & Hbu).
    destruct (Hbu Hb') as [Hb0 Hr0].
    assert (uj = ul) as ->.
    { eapply (inv_inj s HI uj ul u0 u_l j);
        [done|done|done|done|congruence|done]. }
    congruence.
  - intros k Hk. apply Hinstrs. intros Hkw.
    apply Hji. symmetry.
    apply payload_fields in Hpw
      as (_ & _ & _ & _ & _ & _ & _ & _ & Hiw & _).
    eapply (inv_instr_inj s HI i j stw stl k); [done|done|congruence|done].
Qed.
(** ** The claims about the scheduler *)

Lemma state_after_reachable n lines :
  Simulator.ticks n (loaded scenario_registers (program lines) [])
  = Ok (state_after n scenario_registers lines) →
  forallb fresh (program lines) = true →
  reachable (state_after n scenario_registers lines).
Proof.
  intros H Hf. exists scenario_registers, (program lines), [], n.
  split; [reflexivity|]. by split.
Qed.

(** C1 (as stated) fails in both directions: after two ticks of
    [ADD R4, R1, R2; ADD R4, R1, R2] register R4 has a status and two busy
    stations have it as destination; after five ticks of
    [MUL R4, R1, R2; ADD R4, R1, R2] one busy station has R4 as destination
    and R4 has no status. *)
Lemma status_iff_one_producer_counterexample :
  (reachable (state_after 2 scenario_registers trace_same_destination)
   ∧ status_of (state_after 2 scenario_registers trace_same_destination) 4
     = Some "ALU2"
   ∧ busy_producers (state_after 2 scenario_registers trace_same_destination) 4
     = 2%nat
   ∧ ¬ status_iff_one_producer
         (state_after 2 scenario_registers trace_same_destination))
  ∧ (reachable (state_after 5 scenario_registers trace_slow_then_fast)
     ∧ status_of (state_after 5 scenario_registers trace_slow_then_fast) 4
       = None
     ∧ busy_producers (state_after 5 scenario_registers trace_slow_then_fast) 4
       = 1%nat
     ∧ ¬ status_iff_one_producer
           (state_after 5 scenario_registers trace_slow_then_fast)).
Proof.
  assert (status_of (state_after 2 scenario_registers trace_same_destination) 4
          = Some "ALU2") as Ha1 by (vm_compute; reflexivity).
  assert (busy_producers
            (state_after 2 scenario_registers trace_same_destination) 4
          = 2%nat) as Ha2 by (vm_compute; reflexivity).
  assert (status_of (state_after 5 scenario_registers trace_slow_then_fast) 4
          = None) as Hb1 by (vm_compute; reflexivity).
  assert (busy_producers
            (state_after 5 scenario_registers trace_slow_then_fast) 4
          = 1%nat) as Hb2 by (vm_compute; reflexivity).
  split; (split; [|split; [assumption|split; [assumption|]]]).
  - apply state_after_reachable; vm_compute; reflexivity.
  - intros H. specialize (H 4%nat). rewrite Ha1, Ha2 in H.
    assert (2 = 1)%nat as Habs; [|discriminate Habs].
    apply H; [vm_compute; lia|discriminate].
  - apply state_after_reachable; vm_compute; reflexivity.
  - intros H. specialize (H 4%nat). rewrite Hb1, Hb2 in H.
    apply H; [vm_compute; lia|reflexivity|reflexivity].
Qed.

(** C3 (as amended): over any run, [issue_cycle],
    [execute_complete_cycle] and [write_result_cycle] of an instruction keep
    the value they were given, and [start_cycle] keeps its value once the
    instruction has written back. *)
Theorem timestamps_kept s s' n k ins :
  reachable s →
  Simulator.ticks n s = Ok s' →
  Simulator.instructions s !! k = Some ins →
  ∃ ins', Simulator.instructions s' !! k = Some ins'
    ∧ (∀ c, Instruction.issue_cycle ins = Some c →
            Instruction.issue_cycle ins' = Some c)
    ∧ (∀ c, Instruction.execute_complete_cycle ins = Some c →
            Instruction.execute_complete_cycle ins' = Some c)
    ∧ (∀ c, Instruction.write_result_cycle ins = Some c →
            Instruction.write_result_cycle ins' = Some c)
    ∧ (is_Some (Instruction.write_result_cycle ins) →
       Instruction.start_cycle ins' = Instruction.start_cycle ins).
Proof.
  intros HI%reachable_Inv Hticks Hk.
  exact (ticks_stamps n s s' HI Hticks k ins Hk).
Qed.

Lemma timestamps_kept_witness :
  ∃ ins',
    Simulator.instructions
      (state_after 6 scenario_registers trace_two_finish_together) !! 1%nat
    = Some ins'
    ∧ (∀ c, Some 2%nat = Some c → Instruction.issue_cycle ins' = Some c)
    ∧ (∀ c, None = Some c → Instruction.execute_complete_cycle ins' = Some c)
    ∧ (∀ c, None = Some c → Instruction.write_result_cycle ins' = Some c)
    ∧ (is_Some (@None nat) → Instruction.start_cycle ins' = Some 4%nat).
Proof.
  apply (timestamps_kept
           (state_after 4 scenario_registers trace_two_finish_together)
           (state_after 6 scenario_registers trace_two_finish_together)
           2 1
           {| Instruction.op := SUB; Instruction.dest := Some "R5";
              Instruction.src1 := Some "R4"; Instruction.src2 := Some "R3";
              Instruction.offset := None; Instruction.base := None;
              Instruction.issue_cycle := Some 2%nat;
              Instruction.start_cycle := Some 4%nat;
              Instruction.execute_complete_cycle := None;
              Instruction.write_result_cycle := None |}).
  - exists scenario_registers, (program trace_two_finish_together), [], 4%nat.
    split; [reflexivity|]. split; [reflexivity|vm_compute; reflexivity].
  - vm_compute; reflexivity.
  - vm_compute; reflexivity.
Defined.

(** C3 (as stated) fails for [start_cycle]: in the run of
    [ADD R4, R1, R2; SUB R5, R4, R3; SUB R6, R4, R3] the third instruction
    has [start_cycle = 4] after tick 4 and [start_cycle = 6] after tick 6. *)
Lemma timestamps_never_overwritten_counterexample :
  reachable (state_after 4 scenario_registers trace_two_finish_together)
  ∧ Simulator.ticks 2
      (state_after 4 scenario_registers trace_two_finish_together)
    = Ok (state_after 6 scenario_registers trace_two_finish_together)
  ∧ Instruction.start_cycle
      <$> Simulator.instructions
            (state_after 4 scenario_registers trace_two_finish_together)
          !! 2%nat
    = Some (Some 4%nat)
  ∧ Instruction.start_cycle
      <$> Simulator.instructions
            (state_after 6 scenario_registers trace_two_finish_together)
          !! 2%nat
    = Some (Some 6%nat)
  ∧ ¬ timestamps_never_overwritten.
Proof.
  assert (reachable
            (state_after 4 scenario_registers trace_two_finish_together))
    as Hreach by (apply state_after_reachable; vm_compute; reflexivity).
  assert (Simulator.ticks 2
            (state_after 4 scenario_registers trace_two_finish_together)
          = Ok (state_after 6 scenario_registers trace_two_finish_together))
    as Hticks by (vm_compute; reflexivity).
  split; [exact Hreach|]. split; [exact Hticks|].
  split; [vm_compute; reflexivity|]. split; [vm_compute; reflexivity|].
  intros H.
  destruct (Simulator.instructions
              (state_after 4 scenario_registers trace_two_finish_together)
            !! 2%nat) as [ins|] eqn:E4; [|by vm_compute in E4].
  destruct (Simulator.instructions
              (state_after 6 scenario_registers trace_two_finish_together)
            !! 2%nat) as [ins'|] eqn:E6; [|by vm_compute in E6].
  destruct (H _ _ _ _ _ _ Hreach Hticks E4 E6) as (_ & Hs & _).
  vm_compute in E4. injection E4 as <-.
  vm_compute in E6. injection E6 as <-.
  specialize (Hs 4%nat eq_refl). simpl in Hs. discriminate Hs.
Qed.
(** C7: when the completion that [write_back] processes belongs to a STORE
    station, the register file (values and status) is left as it was; the
    memory is the one the functional units left. *)
Theorem store_write_back_keeps_register_file
    s units' sts' mem' out n v rest i rs s' :
  FunctionalUnits.tick (Simulator.functional_units s)
    (Simulator.reservation_stations s) (Simulator.memory s)
  = Ok (units', sts', mem', out, (n, v) :: rest) →
  ReservationStations.get_station_by_name sts' n = Some i →
  sts' !! i = Some rs →
  ReservationStation.op rs = Some STORE →
  Simulator.write_back s = Ok s' →
  Simulator.register_file s' = Simulator.register_file s
  ∧ Simulator.memory s' = mem'.
Proof.
  intros Htick Hfind Hrs Hop Hwb.
  rewrite (write_back_unfold _ _ _ _ _ _ Htick) in Hwb. simpl in Hwb.
  pose proof (write_result_effect _ _ _ _ i rs Hwb Hfind Hrs)
    as (_ & _ & _ & Hrf & _ & _ & _ & _ & Hmem & _).
  split; [|done]. apply Hrf. by rewrite Hop.
Qed.

Lemma store_write_back_keeps_register_file_witness :
  Simulator.register_file
    (get_ok (entering_tick 6 trace_store)
       (Simulator.write_back (entering_tick 6 trace_store)))
  = Simulator.register_file (entering_tick 6 trace_store)
  ∧ Memory.memory
      (Simulator.memory
         (get_ok (entering_tick 6 trace_store)
            (Simulator.write_back (entering_tick 6 trace_store))))
    !! 0%nat = Some (Some 5).
Proof.
  eassert (FunctionalUnits.tick
             (Simulator.functional_units (entering_tick 6 trace_store))
             (Simulator.reservation_stations (entering_tick 6 trace_store))
             (Simulator.memory (entering_tick 6 trace_store))
           = Ok (_, _, _, _, [("STORE1", None)])) as Htick.
  { vm_compute. reflexivity. }
  eassert (ReservationStations.get_station_by_name _ "STORE1" = Some 7%nat)
    as Hfind.
  2: eassert (_ !! 7%nat = Some _) as Hrs.
  3: eassert (ReservationStation.op _ = Some STORE) as Hop.
  4: assert (Simulator.write_back (entering_tick 6 trace_store)
             = Ok (get_ok (entering_tick 6 trace_store)
                     (Simulator.write_back (entering_tick 6 trace_store))))
       as Hwb.
  5: destruct (store_write_back_keeps_register_file
                 _ _ _ _ _ _ _ _ _ _ _ Htick Hfind Hrs Hop Hwb)
       as [Hrf Hmem].
  - vm_compute. reflexivity.
  - vm_compute. reflexivity.
  - vm_compute. reflexivity.
  - vm_compute. reflexivity.
  - split; [exact Hrf|]. rewrite Hmem. vm_compute. reflexivity.
Defined.


(** The run of [STORE 0(R0), R1; ADD R2, R2, R2; ADD R3, R3, R3;
    ADD R4, R1, R1]: the store unit finishes in tick 7 together with an ALU,
    its completion is not processed, and it finishes again in tick 12; both
    times [compute_result] writes the value 5 at address 0. *)
Example store_completes_twice :
  completions_in (entering_tick 6 trace_store_loses)
  = Ok [("ALU3", Some 10); ("STORE1", None)]
  ∧ completions_in (entering_tick 11 trace_store_loses)
    = Ok [("STORE1", None)]
  ∧ (λ st, (ReservationStation.address st, ReservationStation.vk st))
      <$> Simulator.reservation_stations (entering_tick 6 trace_store_loses)
          !! 7%nat
    = Some (Some 0, Some 5)
  ∧ (λ st, (ReservationStation.address st, ReservationStation.vk st))
      <$> Simulator.reservation_stations (entering_tick 11 trace_store_loses)
          !! 7%nat
    = Some (Some 0, Some 5)
  ∧ Instruction.start_cycle
      <$> Simulator.instructions (entering_tick 6 trace_store_loses) !! 0%nat
    = Some (Some 2%nat)
  ∧ Instruction.start_cycle
      <$> Simulator.instructions (entering_tick 11 trace_store_loses) !! 0%nat
    = Some (Some 7%nat).
Proof. split_and!; vm_compute; reflexivity. Qed.
(** ** Write-back does not raise *)

Lemma get_register_index_lt reg r :
  RegisterFile.get_register_index reg = Ok r →
  (r < Z.to_nat Config.NUM_REGISTERS)%nat.
Proof.
  unfold RegisterFile.get_register_index. destruct reg as [name|]; [|done].
  destruct (negb _); [done|]. intros H.
  apply bind_Ok in H as (index & _ & H).
  destruct ((index <? 0) || (index >=? Config.NUM_REGISTERS)) eqn:E; [done|].
  injection H as <-. apply orb_false_iff in E as [E1 E2].
  apply Z.ltb_ge in E1. unfold Config.NUM_REGISTERS in *.
  destruct (Z.geb_spec index 8); [done|]. lia.
Qed.

Lemma Writable_ext s s' :
  Simulator.reservation_stations s' = Simulator.reservation_stations s →
  Simulator.register_file s' = Simulator.register_file s →
  Writable s → Writable s'.
Proof. intros Hs Hr [H1 H2 H3 H4]. split; rewrite ?Hs, ?Hr; done. Qed.

Lemma Writable_payload s s' :
  payload <$> Simulator.reservation_stations s'
  = payload <$> Simulator.reservation_stations s →
  Simulator.register_file s' = Simulator.register_file s →
  Writable s → Writable s'.
Proof.
  intros Hpay Hr [H1 H2 H3 H4]. split; rewrite ?Hr; try done.
  - intros i st' Hi Hb.
    destruct (payload_lookup _ _ _ _ Hpay Hi) as (st & Hst & Hp).
    apply payload_fields in Hp
      as (_ & _ & _ & _ & _ & _ & Hbusy & _ & Hins & _).
    rewrite <- Hins. apply (H3 i st Hst). congruence.
  - intros i st' Hi Hb Hp'.
    destruct (payload_lookup _ _ _ _ Hpay Hi) as (st & Hst & Hp).
    rewrite <- (dest_index_payload _ _ Hp).
    apply payload_fields in Hp
      as (_ & Hop & _ & _ & _ & _ & Hbusy & _).
    apply (H4 i st Hst); congruence.
Qed.

Lemma write_result_registers_length rf (rs : ReservationStation.t) n v rf' :
  (if bool_decide (ReservationStation.op rs = Some STORE
                   ∨ ReservationStation.op rs = None)
   then Ok rf
   else
     let* rf1 := RegisterFile.write rf (ReservationStation.dest rs) v in
     let* status := RegisterFile.get_status rf1 (ReservationStation.dest rs) in
     if bool_decide (status = Some n)
     then RegisterFile.set_status rf1 (ReservationStation.dest rs) None
     else Ok rf1) = Ok rf' →
  length (RegisterFile.registers rf') = length (RegisterFile.registers rf)
  ∧ length (RegisterFile.status rf') = length (RegisterFile.status rf).
Proof.
  intros H. case_bool_decide as Hop.
  { by injection H as <-. }
  apply bind_Ok in H as (rf1 & Hw & H).
  apply bind_Ok in H as (status & Hg & H).
  unfold RegisterFile.write in Hw.
  apply bind_Ok in Hw as (r0 & Hr0 & Hw).
  apply bind_Ok in Hw as (regs & Hregs & Hw).
  apply py_setitem_Ok in Hregs as [Hlt ->]. injection Hw as <-.
  case_bool_decide.
  - apply set_status_Ok in H as (d & r1 & _ & _ & _ & Hs & Hr).
    rewrite Hs, Hr. simpl. by rewrite !length_insert.
  - injection H as <-. simpl. by rewrite length_insert.
Qed.

Lemma write_result_Writable s n v s' :
  Writable s → Simulator.write_result s n v = Ok s' → Writable s'.
Proof.
  intros HW H. unfold Simulator.write_result in H.
  destruct (CommonDataBus.broadcast _ _ _) as [cdb' ?].
  destruct (ReservationStations.get_station_by_name _ n) as [i|] eqn:Hfind.
  2:{ injection H as <-. by eapply Writable_ext; [..|exact HW]. }
  apply bind_Ok in H as (rs & Hrs & H). apply py_getitem_Ok in Hrs.
  apply bind_Ok in H as (k & _ & H).
  apply bind_Ok in H as (instrs' & _ & H).
  apply bind_Ok in H as (rf' & Hrf & H).
  apply write_result_registers_length in Hrf as [Hl1 Hl2].
  apply bind_Ok in H as (rs1 & Hrs1 & H). injection H as <-.
  destruct HW as [H1 H2 H3 H4].
  assert (i < length (Simulator.reservation_stations s))%nat as Hilt
    by by eapply lookup_lt_Some.
  assert (∀ j st', <[i := ReservationStation.clear rs1]>
                     (ReservationStations.update_from_cdb
                        (Simulator.reservation_stations s) n v) !! j = Some st' →
            ReservationStation.busy st' = true →
            ∃ st, Simulator.reservation_stations s !! j = Some st
              ∧ st' = ReservationStation.update_operand st n v) as Hlook.
  { intros j st' Hj Hb. destruct (decide (j = i)) as [->|Hne].
    - rewrite list_lookup_insert_eq in Hj
        by (unfold ReservationStations.update_from_cdb; by rewrite length_fmap).
      injection Hj as <-. done.
    - rewrite list_lookup_insert_ne in Hj by done.
      unfold ReservationStations.update_from_cdb in Hj.
      rewrite list_lookup_fmap in Hj.
      destruct (Simulator.reservation_stations s !! j) as [st|]; [|done].
      exists st. split; [done|]. simpl in Hj. congruence. }
  split; simpl.
  - congruence.
  - congruence.
  - intros j st' Hj Hb. destruct (Hlook j st' Hj Hb) as (st & Hst & ->).
    destruct (update_operand_fields st n v) as (_ & _ & Hb' & _ & Hi' & _).
    rewrite Hi'. apply (H3 j st Hst). congruence.
  - intros j st' Hj Hb Hp. destruct (Hlook j st' Hj Hb) as (st & Hst & ->).
    rewrite dest_index_update_operand.
    destruct (update_operand_fields st n v) as (_ & Ho' & Hb' & _).
    apply (H4 j st Hst); congruence.
Qed.

Lemma write_back_Writable s s' :
  Writable s → Simulator.write_back s = Ok s' → Writable s'.
Proof.
  intros HW H. unfold Simulator.write_back in H.
  apply bind_Ok in H as ([[[[units' sts'] mem'] out] results] & Htick & H).
  match type of H with
  | match _ with [] => Ok ?x | _ => _ end = _ => set (s1 := x) in *
  end.
  assert (Writable s1) as HW1.
  { apply (Writable_payload s s1); [|done|done].
    by apply units_tick_spec in Htick as (_ & Hpay & _). }
  destruct results as [|[n v] rest].
  - by injection H as <-.
  - by eapply write_result_Writable.
Qed.

Lemma execute_station_Writable i s s' :
  Writable s → Simulator.execute_station i s = Ok s' → Writable s'.
Proof.
  intros HW H. apply execute_station_cases in H as [[-> _]|H]; [done|].
  destruct H as (rs & rs' & u & fu & fu' & o & k & ins & Hrs & _ & _
                 & _ & _ & _ & _ & _ & Hpay & _ & _ & ->).
  apply payload_set_address_fields in Hpay
    as (_ & Ho' & _ & _ & Hb' & Hd' & Hi').
  destruct HW as [H1 H2 H3 H4].
  assert (i < length (Simulator.reservation_stations s))%nat as Hilt
    by by eapply lookup_lt_Some.
  assert (dest_index rs' = dest_index rs) as Hdi.
  { unfold dest_index. by rewrite Hd'. }
  split; simpl; try done.
  - intros j st' Hj Hb. destruct (decide (j = i)) as [->|Hne].
    + rewrite list_lookup_insert_eq in Hj by done. injection Hj as <-.
      rewrite Hi'. apply (H3 i rs Hrs). congruence.
    + rewrite list_lookup_insert_ne in Hj by done. by eapply H3.
  - intros j st' Hj Hb Hp. destruct (decide (j = i)) as [->|Hne].
    + rewrite list_lookup_insert_eq in Hj by done. injection Hj as <-.
      rewrite Hdi. apply (H4 i rs Hrs); congruence.
    + rewrite list_lookup_insert_ne in Hj by done. by eapply H4.
Qed.

Lemma for_each_Writable positions : ∀ s s',
  Writable s →
  Simulator.for_each Simulator.execute_station positions s = Ok s' →
  Writable s'.
Proof.
  induction positions as [|i positions IH]; intros s s' HW H; simpl in H.
  - by injection H as <-.
  - apply bind_Ok in H as (s1 & H1 & H). eapply IH; [|exact H].
    by eapply execute_station_Writable.
Qed.

Lemma issue_Writable s s' b :
  Writable s → Simulator.issue s = Ok (s', b) → Writable s'.
Proof.
  intros HW H. apply issue_cases in H as [(_ & _ & ? & ? & _)|[_ H]].
  { by eapply Writable_ext; [..|exact HW]. }
  destruct H as (ins & i & rs & d & qj & vj & qk & vk & off & rf' & Hins & Hrs
                 & Hnb & Hrf & ->).
  destruct HW as [H1 H2 H3 H4].
  assert (i < length (Simulator.reservation_stations s))%nat as Hilt
    by by eapply lookup_lt_Some.
  assert (length (RegisterFile.registers rf')
          = length (RegisterFile.registers (Simulator.register_file s))
          ∧ length (RegisterFile.status rf')
            = length (RegisterFile.status (Simulator.register_file s)))
    as [Hl1 Hl2].
  { destruct Hrf as [(_ & -> & _)|(_ & _ & Hset)]; [done|].
    apply set_status_Ok in Hset as (? & ? & _ & _ & _ & Hs & Hr).
    rewrite Hs, Hr. by rewrite length_insert. }
  split; simpl.
  - congruence.
  - congruence.
  - intros j st Hj Hb. destruct (decide (j = i)) as [->|Hne].
    + rewrite list_lookup_insert_eq in Hj by done. injection Hj as <-.
      simpl. eauto.
    + rewrite list_lookup_insert_ne in Hj by done. by eapply H3.
  - intros j st Hj Hb Hp. destruct (decide (j = i)) as [->|Hne].
    + rewrite list_lookup_insert_eq in Hj by done. injection Hj as <-.
      destruct Hrf as [(Hop & _ & _)|(_ & -> & Hset)].
      { simpl in Hp. by rewrite Hop in Hp. }
      apply set_status_Ok in Hset as (d & r & Hd & Hr & _).
      exists r. apply dest_index_Some. exists d. by split.
    + rewrite list_lookup_insert_ne in Hj by done. by eapply H4.
Qed.

Lemma tick_Writable s s' b :
  Writable s → Simulator.tick s = Ok (s', b) → Writable s'.
Proof.
  intros HW H. unfold Simulator.tick in H.
  apply bind_Ok in H as (s1 & H1 & H).
  apply bind_Ok in H as (s2 & H2 & H).
  apply bind_Ok in H as ([s3 issued] & H3 & H).
  assert (Writable s3) as HW3.
  { eapply issue_Writable; [|exact H3].
    eapply for_each_Writable; [|exact H2].
    eapply write_back_Writable; [|exact H1].
    by apply (Writable_ext s). }
  destruct (_ && _) in H; by injection H as <- _.
Qed.

Lemma ticks_Writable n : ∀ s s',
  Writable s → Simulator.ticks n s = Ok s' → Writable s'.
Proof.
  induction n as [|n IH]; intros s s' HW H; simpl in H.
  - by injection H as <-.
  - apply bind_Ok in H as (s1 & H1 & H).
    apply bind_Ok in H as ([s2 b] & H2 & H). injection H as <-.
    eapply tick_Writable; [|exact H2]. by eapply IH.
Qed.

Lemma reachable_Writable s : reachable s → Writable s.
Proof.
  intros (registers & instructions & out & n & Hlen & _ & H).
  eapply ticks_Writable; [|exact H]. split; simpl; try done.
  - intros i st Hst Hb. apply list_elem_of_lookup_2 in Hst.
    unfold ReservationStations.init in Hst.
    apply list_elem_of_fmap in Hst as (x & -> & _). done.
  - intros i st Hst Hb. apply list_elem_of_lookup_2 in Hst.
    unfold ReservationStations.init in Hst.
    apply list_elem_of_fmap in Hst as (x & -> & _). done.
Qed.

(** [write_result] returns for the tag of a busy station. *)
Lemma write_result_returns s n v i rs :
  Inv s → Writable s →
  ReservationStations.get_station_by_name (Simulator.reservation_stations s) n
  = Some i →
  Simulator.reservation_stations s !! i = Some rs →
  ReservationStation.busy rs = true →
  ∃ s', Simulator.write_result s n v = Ok s'.
Proof.
  intros HI HW Hfind Hrs Hbusy. unfold Simulator.write_result.
  destruct (CommonDataBus.broadcast _ _ _) as [cdb' ?]. rewrite Hfind.
  unfold py_getitem at 1. rewrite Hrs. simpl.
  destruct (wr_instr s HW i rs Hrs Hbusy) as [k Hk]. rewrite Hk. simpl.
  destruct (inv_instr s HI i rs k Hrs Hk) as (_ & _ & ins & Hins & _).
  unfold Simulator.stamp, py_getitem at 1. rewrite Hins. simpl.
  unfold py_setitem at 1.
  rewrite decide_True by by eapply lookup_lt_Some. simpl.
  assert (∃ rf',
    (if bool_decide (ReservationStation.op rs = Some STORE
                     ∨ ReservationStation.op rs = None)
     then Ok (Simulator.register_file s)
     else
       let* rf1 := RegisterFile.write (Simulator.register_file s)
                     (ReservationStation.dest rs) v in
       let* status := RegisterFile.get_status rf1
                        (ReservationStation.dest rs) in
       if bool_decide (status = Some n)
       then RegisterFile.set_status rf1 (ReservationStation.dest rs) None
       else Ok rf1) = Ok rf') as [rf' ->].
  { case_bool_decide as Hop; [eauto|].
    assert (producing (ReservationStation.op rs) = true) as Hp.
    { destruct (ReservationStation.op rs) as [[]|]; try done;
        exfalso; apply Hop; (by left) || (by right). }
    destruct (wr_dest s HW i rs Hrs Hbusy Hp) as [r Hr].
    apply dest_index_Some in Hr as (d & Hd & Hr).
    pose proof (get_register_index_lt _ _ Hr) as Hlt.
    rewrite Hd. unfold RegisterFile.write. rewrite Hr. simpl.
    unfold py_setitem at 1.
    rewrite decide_True by by rewrite (wr_registers s HW). simpl.
    unfold RegisterFile.get_status. rewrite Hr. simpl.
    destruct (lookup_lt_is_Some_2
                (RegisterFile.status (Simulator.register_file s)) r)
      as [x Hx]; [by rewrite (wr_status s HW)|].
    unfold py_getitem at 1. rewrite Hx. simpl.
    case_bool_decide; [|eauto].
    unfold RegisterFile.set_status. rewrite Hr. simpl.
    unfold py_setitem. rewrite decide_True by by rewrite (wr_status s HW).
    simpl. eauto. }
  simpl. unfold py_getitem, ReservationStations.update_from_cdb.
  rewrite list_lookup_fmap, Hrs. simpl. eauto.
Qed.
(** The station of the first completion of a cycle. *)
Lemma first_completion_station s units' sts' mem' out n v rest :
  Inv s →
  FunctionalUnits.tick (Simulator.functional_units s)
    (Simulator.reservation_stations s) (Simulator.memory s)
  = Ok (units', sts', mem', out, (n, v) :: rest) →
  ∃ i st0 st1 u stx m m' o,
    Simulator.reservation_stations s !! i = Some st0
    ∧ ReservationStation.name st0 = n
    ∧ ReservationStation.busy st0 = true
    ∧ sts' !! i = Some st1
    ∧ payload st1 = payload st0
    ∧ ReservationStations.get_station_by_name sts' n = Some i
    ∧ payload stx = payload st0
    ∧ FunctionalUnit.compute_result (FunctionalUnit.kind u) stx m
      = Ok (v, m', o)
    ∧ o ⊆ out.
Proof.
  intros HI Htick.
  pose proof (units_tick_spec _ _ _ _ _ _ _ _ Htick)
    as (_ & Hpay & _ & _ & _ & Hres).
  destruct (Hres n v (list_elem_of_here _ _))
    as (uw & u & u' & i & st0 & st1 & Hu & Hb & Hr & Hst0 & Hn & _ & _ & Hst1
        & _ & stx & m & m' & o & Hpx & Hc & Ho).
  destruct (inv_bound s HI uw u Hu Hb) as (i' & st & Hi' & Hst & Hbusy & _).
  rewrite Hr in Hi'. injection Hi' as <-.
  rewrite Hst0 in Hst. injection Hst as <-.
  destruct (payload_lookup _ _ _ _ Hpay Hst1) as (st0' & Hst0' & Hp1).
  rewrite Hst0 in Hst0'. injection Hst0' as <-.
  exists i, st0, st1, u, stx, m, m', o. split_and!; try done.
  assert (ReservationStation.name st1 = n) as <-.
  { apply payload_fields in Hp1 as (Hx & _). congruence. }
  apply get_station_by_name_lookup; [|done].
  rewrite (names_payload _ _ Hpay), (inv_names s HI).
  apply NoDup_station_names.
Qed.

(** In a run, [write_back] returns whenever [FunctionalUnits.tick] does. *)
Lemma write_back_returns s units' sts' mem' out results :
  reachable s →
  FunctionalUnits.tick (Simulator.functional_units (Simulator.begin_cycle s))
    (Simulator.reservation_stations (Simulator.begin_cycle s))
    (Simulator.memory (Simulator.begin_cycle s))
  = Ok (units', sts', mem', out, results) →
  ∃ s', Simulator.write_back (Simulator.begin_cycle s) = Ok s'.
Proof.
  intros Hreach Htick.
  pose proof (begin_cycle_Inv _ (reachable_Inv _ Hreach)) as HI.
  pose proof (reachable_Writable _ Hreach) as HW.
  rewrite (write_back_unfold _ _ _ _ _ _ Htick).
  destruct results as [|[n v] rest]; [simpl; eauto|].
  destruct (first_completion_station _ _ _ _ _ _ _ _ HI Htick)
    as (i & st0 & st1 & _ & _ & _ & _ & _ & _ & _ & Hbusy & Hst1 & Hp1 & Hfind
        & _).
  cbv zeta.
  match goal with
  | |- ∃ s', Simulator.write_result ?x _ _ = _ => set (s1 := x)
  end.
  destruct (units_tick_Inv (Simulator.begin_cycle s) s1 mem' out _ HI Htick)
    as [HI1 _]; [done..|].
  assert (Writable s1) as HW1.
  { apply (Writable_payload s s1); [|done|done].
    by apply units_tick_spec in Htick as (_ & Hpay & _). }
  apply (write_result_returns s1 n v i st1); try done.
  apply payload_fields in Hp1 as (_ & _ & _ & _ & _ & _ & Hb & _). congruence.
Qed.


Lemma write_result_destination s n v s' i rs :
  Simulator.write_result s n v = Ok s' →
  ReservationStations.get_station_by_name (Simulator.reservation_stations s) n
  = Some i →
  Simulator.reservation_stations s !! i = Some rs →
  producing (ReservationStation.op rs) = true →
  ∃ r, dest_index rs = Some r
    ∧ RegisterFile.registers (Simulator.register_file s') !! r = Some v
    ∧ status_of s' r
      = if bool_decide (status_of s r = Some n) then None else status_of s r.
Proof.
  intros H Hfind Hrs Hprod. unfold Simulator.write_result in H.
  destruct (CommonDataBus.broadcast _ _ _) as [cdb' b] eqn:Hcdb.
  rewrite Hfind in H.
  apply bind_Ok in H as (rs0 & Hrs0 & H). apply py_getitem_Ok in Hrs0.
  rewrite Hrs in Hrs0. injection Hrs0 as <-.
  apply bind_Ok in H as (k & Hk & H).
  apply bind_Ok in H as (instrs' & Hst & H).
  apply bind_Ok in H as (rf' & Hrf & H).
  apply bind_Ok in H as (rs1 & Hrs1 & H). injection H as <-.
  unfold status_of. simpl.
  rewrite bool_decide_eq_false_2 in Hrf
    by (intros [Ho|Ho]; by rewrite Ho in Hprod).
  apply bind_Ok in Hrf as (rf1 & Hw & Hrf).
  apply bind_Ok in Hrf as (status & Hg & Hrf).
  unfold RegisterFile.write in Hw.
  apply bind_Ok in Hw as (r & Hr & Hw).
  apply bind_Ok in Hw as (regs & Hregs & Hw).
  apply py_setitem_Ok in Hregs as [Hlt ->]. injection Hw as <-.
  unfold RegisterFile.get_status in Hg. rewrite Hr in Hg. simpl in Hg.
  apply py_getitem_Ok in Hg.
  exists r. split.
  { unfold dest_index.
    destruct (ReservationStation.dest rs); [by rewrite Hr|done]. }
  rewrite Hg. simpl. case_bool_decide as Hs.
  - unfold RegisterFile.set_status in Hrf. rewrite Hr in Hrf. simpl in Hrf.
    apply bind_Ok in Hrf as (st & Hst' & Hrf).
    apply py_setitem_Ok in Hst' as [Hlt' ->]. injection Hrf as <-. simpl.
    split; [by apply list_lookup_insert_eq|].
    by rewrite list_lookup_insert_eq.
  - injection Hrf as <-. simpl. rewrite Hg.
    split; [by apply list_lookup_insert_eq|done].
Qed.

(** C2: in a run, when several units finish in one cycle, [write_back]
    returns and has broadcast the first completion only and counted one
    completed instruction.  The first completion is applied: its value is
    written to the destination register of its station (unless the
    operation is STORE, which leaves the register file as it was), the
    status of that register is cleared exactly when it named the station,
    every station has snooped the broadcast (an operand that waited for the
    tag holds the value and waits no more) and the first completion's
    station is cleared; no register but the destination is written.  The
    station of every other completion keeps its instruction, whose
    timestamps are not written. *)
Theorem write_back_processes_first_completion_only
    s units' sts' mem' out n v rest :
  reachable s →
  FunctionalUnits.tick (Simulator.functional_units (Simulator.begin_cycle s))
    (Simulator.reservation_stations (Simulator.begin_cycle s))
    (Simulator.memory (Simulator.begin_cycle s))
  = Ok (units', sts', mem', out, (n, v) :: rest) →
  ∃ s',
    Simulator.write_back (Simulator.begin_cycle s) = Ok s'
    ∧ Simulator.cdb s'
      = {| CommonDataBus.reservation_station := Some n;
           CommonDataBus.value := v;
           CommonDataBus.busy := Some true |}
    ∧ Metrics.completed_instructions (Simulator.metrics s')
      = S (Metrics.completed_instructions (Simulator.metrics s))
    ∧ (∃ i w, sts' !! i = Some w
         ∧ ReservationStation.name w = n
         ∧ Simulator.reservation_stations s' !! i
           = Some (ReservationStation.clear
                     (ReservationStation.update_operand w n v))
         ∧ (∀ r, dest_index w ≠ Some r →
             RegisterFile.registers (Simulator.register_file s') !! r
             = RegisterFile.registers (Simulator.register_file s) !! r
             ∧ RegisterFile.status (Simulator.register_file s') !! r
               = RegisterFile.status (Simulator.register_file s) !! r)
         ∧ (producing (ReservationStation.op w) = true →
            ∃ r, dest_index w = Some r
              ∧ RegisterFile.registers (Simulator.register_file s') !! r
                = Some v
              ∧ status_of s' r
                = if bool_decide (status_of s r = Some n) then None
                  else status_of s r)
         ∧ (producing (ReservationStation.op w) = false →
            Simulator.register_file s' = Simulator.register_file s)
         ∧ Simulator.reservation_stations s'
           = <[i := ReservationStation.clear
                      (ReservationStation.update_operand w n v)]>
               (ReservationStations.update_from_cdb sts' n v)
         ∧ ∀ j st, j ≠ i → sts' !! j = Some st →
             ∃ st', Simulator.reservation_stations s' !! j = Some st'
               ∧ st' = ReservationStation.update_operand st n v
               ∧ (ReservationStation.qj st = Some n →
                  ReservationStation.qj st' = None
                  ∧ ReservationStation.vj st' = v)
               ∧ (ReservationStation.qk st = Some n →
                  ReservationStation.qk st' = None
                  ∧ ReservationStation.vk st' = v))
    ∧ ∀ n' v', (n', v') ∈ rest →
        n' ≠ n
        ∧ ∃ j st0 st',
            Simulator.reservation_stations s !! j = Some st0
            ∧ ReservationStation.name st0 = n'
            ∧ Simulator.reservation_stations s' !! j = Some st'
            ∧ payload st' = payload st0
            ∧ ReservationStation.busy st' = true
            ∧ ∀ k, ReservationStation.instruction st0 = Some k →
                Simulator.instructions s' !! k
                = Simulator.instructions s !! k.
Proof.
  intros Hreach Htick.
  destruct (write_back_returns _ _ _ _ _ _ Hreach Htick) as [s' Hwb].
  pose proof (begin_cycle_Inv _ (reachable_Inv _ Hreach)) as HI.
  destruct (completions_of_cycle _ _ _ _ _ _ _ _ _ HI Htick Hwb)
    as [(i & st0 & st1 & Hst0 & Hn0 & Hst1 & Hp1 & Hfind & Hwr) Hrest].
  pose proof (write_result_effect _ _ _ _ i st1 Hwr Hfind Hst1)
    as (Hsts & Hcount & Hcdb & Hstore & _ & Hregs & _).
  simpl in Hsts, Hcount, Hcdb, Hregs, Hstore.
  exists s'. split_and!.
  - done.
  - by apply Hcdb.
  - done.
  - exists i, st1. split_and!; try done.
    + apply payload_fields in Hp1 as (Hx & _). congruence.
    + rewrite Hsts. apply list_lookup_insert_eq.
      unfold ReservationStations.update_from_cdb. rewrite length_fmap.
      by eapply lookup_lt_Some.
    + intros Hprod.
      exact (write_result_destination _ _ _ _ i st1 Hwr Hfind Hst1 Hprod).
    + intros j st Hj Hst. exists (ReservationStation.update_operand st n v).
      split.
      { rewrite Hsts, list_lookup_insert_ne by done.
        unfold ReservationStations.update_from_cdb.
        by rewrite list_lookup_fmap, Hst. }
      split; [done|]. destruct st; simpl.
      split; intros Hq; by rewrite bool_decide_eq_true_2.
  - intros n' v' Hin.
    destruct (Hrest n' v' Hin)
      as (Hne & j & ul & u_l & stl & stl' & _ & _ & _ & Hstl & Hnl & Hstl'
          & Hpl & Hbl & _ & _ & _ & _ & Hinstr).
    split; [done|]. exists j, stl, stl'. by split_and!.
Qed.

Lemma write_back_processes_first_completion_only_witness :
  ∃ s',
    Simulator.write_back (entering_tick 5 trace_two_finish_together) = Ok s'
    ∧ Simulator.cdb s'
      = {| CommonDataBus.reservation_station := Some "ALU2";
           CommonDataBus.value := Some 9;
           CommonDataBus.busy := Some true |}
    ∧ Metrics.completed_instructions (Simulator.metrics s') = 2%nat.
Proof.
  eassert (FunctionalUnits.tick
             (Simulator.functional_units
                (entering_tick 5 trace_two_finish_together))
             (Simulator.reservation_stations
                (entering_tick 5 trace_two_finish_together))
             (Simulator.memory (entering_tick 5 trace_two_finish_together))
           = Ok (_, _, _, _, [("ALU2", Some 9); ("ALU3", Some 9)])) as Htick.
  { vm_compute. reflexivity. }
  assert (reachable
            (state_after 5 scenario_registers trace_two_finish_together))
    as Hreach.
  { exists scenario_registers, (program trace_two_finish_together), [], 5%nat.
    split; [reflexivity|]. split; [reflexivity|vm_compute; reflexivity]. }
  destruct (write_back_processes_first_completion_only
              _ _ _ _ _ _ _ _ Hreach Htick) as (s' & Hwb & Hcdb & Hcount & _).
  exists s'. split; [exact Hwb|]. split; [exact Hcdb|exact Hcount].
Defined.


(** The scenario [DIV R1, R2, R0] of the specification, for any values of
    the registers with [R0 = 0]: the run ends after 22 ticks without an
    exception, the warning was printed once and [R1 = 0]. *)
Example div_by_zero_scenario (r1 r2 r3 r4 r5 r6 r7 : Z) :
  ∃ s0 s,
    Simulator.load_trace
      (Simulator.init (Some <$> [0; r1; r2; r3; r4; r5; r6; r7]))
      trace_div_by_zero = Ok s0
    ∧ Simulator.run_loop 22 s0 = Ok (Some s)
    ∧ Simulator.cycle s = 22%nat
    ∧ Simulator.stdout s = [WarnDivisionByZero (Some 0%nat)]
    ∧ RegisterFile.registers (Simulator.register_file s) !! 1%nat
      = Some (Some 0).
Proof.
  eexists _, _. split; [vm_compute; reflexivity|].
  split; [vm_compute; reflexivity|].
  split_and!; vm_compute; reflexivity.
Qed.

(** ** The single ADD *)

(** C4: for the trace [ADD R4, R1, R2] with [R1 = 5] and [R2 = 7], whatever
    the other registers hold, the loop of [run] ends with the fourth tick
    (and not before); the instruction was issued in cycle 1, started in
    cycle 2 and wrote back in cycle 4, [R4 = 12], and the IPC of the report
    is 1/4 = 0.25. *)
Theorem single_add_scenario (r0 r3 r4 r5 r6 r7 : Z) :
  ∃ s0 s,
    Simulator.load_trace
      (Simulator.init (Some <$> [r0; 5; 7; r3; r4; r5; r6; r7]))
      ["ADD R4, R1, R2"] = Ok s0
    ∧ Simulator.run_loop 3 s0 = Ok None
    ∧ (∀ fuel, Simulator.run_loop (4 + fuel) s0 = Ok (Some s))
    ∧ Simulator.cycle s = 4%nat
    ∧ Metrics.total_cycles (Simulator.metrics s) = 4%nat
    ∧ Metrics.completed_instructions (Simulator.metrics s) = 1%nat
    ∧ (λ i, (Instruction.issue_cycle i, Instruction.start_cycle i,
             Instruction.execute_complete_cycle i,
             Instruction.write_result_cycle i))
        <$> Simulator.instructions s
      = [(Some 1%nat, Some 2%nat, Some 4%nat, Some 4%nat)]
    ∧ RegisterFile.registers (Simulator.register_file s) !! 4%nat
      = Some (Some 12)
    ∧ Metrics.ipc (Simulator.metrics s) = (1 # 4)%Q
    ∧ (Metrics.ipc (Simulator.metrics s) == 0.25)%Q.
Proof.
  eexists _, _. split; [vm_compute; reflexivity|].
  split; [vm_compute; reflexivity|].
  split; [intros fuel; vm_compute; reflexivity|].
  split_and!; vm_compute; reflexivity.
Qed.

Lemma issue_structural_hazard_witness :
  ∃ s',
    Simulator.issue (state_after 2 scenario_registers trace_three_mul)
    = Ok (s', false)
    ∧ Metrics.structural_hazard_stalls (Simulator.metrics s') = 1%nat
    ∧ Simulator.pc s' = 2%nat
    ∧ Simulator.instructions s' !! 2%nat
      = Some (Instruction.init MUL (Some "R6") (Some "R1") (Some "R2")
                None None).
Proof.
  destruct (issue_structural_hazard
              (state_after 2 scenario_registers trace_three_mul)
              (Instruction.init MUL (Some "R6") (Some "R1") (Some "R2")
                 None None))
    as (s' & Hissue & Hstalls & Hpc & _ & Hins & _).
  - vm_compute. reflexivity.
  - vm_compute. reflexivity.
  - exists s'. split; [exact Hissue|]. split; [exact Hstalls|].
    split; [exact Hpc|]. rewrite Hpc in Hins. exact Hins.
Defined.
(** * Further properties of the components *)

(** ** Register file *)

(** A register name is [None] (no [startswith]), or it is refused with
    [ValueError], or it is ['R'] followed by the decimal index of one of
    the [NUM_REGISTERS] registers. *)
Theorem get_register_index_cases (reg : option string) :
  (reg = None ∧ RegisterFile.get_register_index reg = Raise AttributeError)
  ∨ (∃ name, reg = Some name
       ∧ (RegisterFile.get_register_index reg = Raise ValueError
          ∨ ∃ r, RegisterFile.get_register_index reg = Ok r
              ∧ (r < Z.to_nat Config.NUM_REGISTERS)%nat
              ∧ PyStr.startswith "R" name = true
              ∧ PyStr.int (PyStr.tail name) = Ok (Z.of_nat r))).
Proof.
  destruct reg as [name|]; [right|by left]. exists name. split; [done|].
  unfold RegisterFile.get_register_index.
  destruct (PyStr.startswith "R" name) eqn:Hs; simpl; [|by left].
  destruct (PyStr.int (PyStr.tail name)) as [index|e] eqn:Hi; simpl.
  - destruct ((index <? 0) || (index >=? Config.NUM_REGISTERS)) eqn:E;
      [by left|].
    right. exists (Z.to_nat index).
    apply orb_false_iff in E as [E1 E2]. apply Z.ltb_ge in E1.
    unfold Config.NUM_REGISTERS in *.
    destruct (Z.geb_spec index 8); [done|].
    split_and!; try done; [lia|]. by rewrite Z2Nat.id.
  - left. unfold PyStr.int in Hi. repeat case_match; congruence.
Qed.

(** X1: writing a register and reading it back, under any name of the same
    register, gives the value written; the other registers and the whole
    status vector are as before. *)
Theorem register_write_read rf a v r :
  RegisterFile.get_register_index a = Ok r →
  (r < length (RegisterFile.registers rf))%nat →
  ∃ rf', RegisterFile.write rf a v = Ok rf'
    ∧ RegisterFile.status rf' = RegisterFile.status rf
    ∧ length (RegisterFile.registers rf') = length (RegisterFile.registers rf)
    ∧ (∀ b, RegisterFile.get_register_index b = Ok r →
            RegisterFile.read rf' b = Ok v)
    ∧ (∀ b r', RegisterFile.get_register_index b = Ok r' → r' ≠ r →
               RegisterFile.read rf' b = RegisterFile.read rf b).
Proof.
  intros Ha Hlt. unfold RegisterFile.write. rewrite Ha. simpl.
  unfold py_setitem. rewrite decide_True by done. simpl.
  eexists. split; [done|]. simpl. split_and!; try done.
  - by rewrite length_insert.
  - intros b Hb. unfold RegisterFile.read. rewrite Hb. simpl.
    unfold py_getitem. by rewrite list_lookup_insert_eq.
  - intros b r' Hb Hne. unfold RegisterFile.read. rewrite Hb. simpl.
    unfold py_getitem. by rewrite list_lookup_insert_ne.
Qed.

Lemma register_write_read_witness :
  ∃ rf', RegisterFile.write (RegisterFile.init scenario_registers)
           (Some "R4") (Some 12) = Ok rf'
    ∧ RegisterFile.status rf'
      = RegisterFile.status (RegisterFile.init scenario_registers)
    ∧ length (RegisterFile.registers rf')
      = length (RegisterFile.registers (RegisterFile.init scenario_registers))
    ∧ (∀ b, RegisterFile.get_register_index b = Ok 4%nat →
            RegisterFile.read rf' b = Ok (Some 12))
    ∧ (∀ b r', RegisterFile.get_register_index b = Ok r' → r' ≠ 4%nat →
               RegisterFile.read rf' b
               = RegisterFile.read (RegisterFile.init scenario_registers) b).
Proof.
  apply (register_write_read (RegisterFile.init scenario_registers)
           (Some "R4") (Some 12) 4).
  - reflexivity.
  - vm_compute. lia.
Defined.

(** X2: setting the status of a register and getting it back, under any name
    of the same register, gives the tag that was set ([is_available] says
    whether it is [None]); the status of the other registers and all the
    values are as before. *)
Theorem register_set_get_status rf a tag r :
  RegisterFile.get_register_index a = Ok r →
  (r < length (RegisterFile.status rf))%nat →
  ∃ rf', RegisterFile.set_status rf a tag = Ok rf'
    ∧ RegisterFile.registers rf' = RegisterFile.registers rf
    ∧ length (RegisterFile.status rf') = length (RegisterFile.status rf)
    ∧ (∀ b, RegisterFile.get_register_index b = Ok r →
            RegisterFile.get_status rf' b = Ok tag
            ∧ RegisterFile.is_available rf' b
              = Ok (bool_decide (tag = None)))
    ∧ (∀ b r', RegisterFile.get_register_index b = Ok r' → r' ≠ r →
               RegisterFile.get_status rf' b = RegisterFile.get_status rf b).
Proof.
  intros Ha Hlt. unfold RegisterFile.set_status. rewrite Ha. simpl.
  unfold py_setitem. rewrite decide_True by done. simpl.
  eexists. split; [done|]. simpl. split_and!; try done.
  - by rewrite length_insert.
  - intros b Hb. unfold RegisterFile.get_status, RegisterFile.is_available.
    rewrite Hb. simpl. unfold py_getitem.
    by rewrite list_lookup_insert_eq.
  - intros b r' Hb Hne. unfold RegisterFile.get_status. rewrite Hb. simpl.
    unfold py_getitem. by rewrite list_lookup_insert_ne.
Qed.

Lemma register_set_get_status_witness :
  ∃ rf', RegisterFile.set_status (RegisterFile.init scenario_registers)
           (Some "R4") (Some "ALU1") = Ok rf'
    ∧ RegisterFile.registers rf'
      = RegisterFile.registers (RegisterFile.init scenario_registers)
    ∧ length (RegisterFile.status rf')
      = length (RegisterFile.status (RegisterFile.init scenario_registers))
    ∧ (∀ b, RegisterFile.get_register_index b = Ok 4%nat →
            RegisterFile.get_status rf' b = Ok (Some "ALU1")
            ∧ RegisterFile.is_available rf' b
              = Ok (bool_decide (Some "ALU1" = None)))
    ∧ (∀ b r', RegisterFile.get_register_index b = Ok r' → r' ≠ 4%nat →
               RegisterFile.get_status rf' b
               = RegisterFile.get_status
                   (RegisterFile.init scenario_registers) b).
Proof.
  apply (register_set_get_status (RegisterFile.init scenario_registers)
           (Some "R4") (Some "ALU1") 4).
  - reflexivity.
  - vm_compute. lia.
Defined.

(** ** Common data bus *)

(** After [clear], a broadcast is accepted and the bus holds it; a second
    broadcast before the next [clear] is refused and leaves the bus as it
    is. *)
Theorem cdb_single_slot (c : CommonDataBus.t) n v n' v' :
  let accepted := CommonDataBus.broadcast (CommonDataBus.clear c) n v in
  accepted
  = ({| CommonDataBus.reservation_station := Some n;
        CommonDataBus.value := v;
        CommonDataBus.busy := Some true |}, true)
  ∧ CommonDataBus.broadcast accepted.1 n' v' = (accepted.1, false)
  ∧ CommonDataBus.clear accepted.1 = CommonDataBus.init.
Proof. done. Qed.

(** ** Reservation stations *)

(** X3: [get_available_station] returns the first station of the pool of the
    operation that is not busy: the stations of the pool before it are
    busy; it returns [None] only if every station of the pool is busy. *)
Theorem get_available_station_first_free
    (sts : list ReservationStation.t) (op : opcode) :
  match ReservationStations.get_available_station sts op with
  | Some i =>
      ∃ before after st,
        ReservationStations.pool_of op = before ++ i :: after
        ∧ sts !! i = Some st
        ∧ ReservationStation.busy st = false
        ∧ ∀ j st', j ∈ before → sts !! j = Some st' →
            ReservationStation.busy st' = true
  | None =>
      ∀ j st', j ∈ ReservationStations.pool_of op → sts !! j = Some st' →
        ReservationStation.busy st' = true
  end.
Proof.
  unfold ReservationStations.get_available_station.
  generalize (ReservationStations.pool_of op). intros pool.
  induction pool as [|j pool IH]; simpl.
  { intros j st' Hj. by apply elem_of_nil in Hj. }
  destruct (sts !! j) as [st|] eqn:Hj.
  - destruct (ReservationStation.busy st) eqn:Hb.
    + destruct (ReservationStations.first_free sts pool) as [i|].
      * destruct IH as (before & after & st0 & -> & Hi & Hb0 & Hall).
        exists (j :: before), after, st0. split_and!; try done.
        intros j' st' [->|Hin]%elem_of_cons Hj'; [|by eapply Hall].
        rewrite Hj in Hj'. by injection Hj' as <-.
      * intros j' st' [->|Hin]%elem_of_cons Hj'; [|by eapply IH].
        rewrite Hj in Hj'. by injection Hj' as <-.
    + exists [], pool, st. split_and!; try done.
      intros j' st' Hin. by apply elem_of_nil in Hin.
  - destruct (ReservationStations.first_free sts pool) as [i|].
    + destruct IH as (before & after & st0 & -> & Hi & Hb0 & Hall).
      exists (j :: before), after, st0. split_and!; try done.
      intros j' st' [->|Hin]%elem_of_cons Hj'; [|by eapply Hall].
      by rewrite Hj in Hj'.
    + intros j' st' [->|Hin]%elem_of_cons Hj'; [|by eapply IH].
      by rewrite Hj in Hj'.
Qed.

(** The four pools are disjoint and together they are all the stations. *)
Theorem pools_partition_stations :
  ReservationStations.alu_stations ++ ReservationStations.mul_div_stations
  ++ ReservationStations.load_buffers ++ ReservationStations.store_buffers
  = seq 0 (length ReservationStations.init)
  ∧ ∀ op op' i, i ∈ ReservationStations.pool_of op →
      i ∈ ReservationStations.pool_of op' →
      ReservationStations.pool_of op = ReservationStations.pool_of op'.
Proof.
  split; [reflexivity|]. intros op op' i Hi Hi'.
  destruct op, op'; try reflexivity; exfalso;
    unfold ReservationStations.pool_of in *;
    apply elem_of_seq in Hi; apply elem_of_seq in Hi';
    vm_compute in Hi; vm_compute in Hi'; lia.
Qed.

(** X4: the snoop of [update_from_cdb]: afterwards no station waits for the
    tag; an operand that waited for it holds the value and waits no more;
    the other operand is as before, and so is every other attribute of the
    station (name, operation, busy flag, destination, instruction, offset,
    address, executing flag and remaining cycles); the list keeps its
    length; a second snoop of the same tag changes nothing. *)
Theorem update_from_cdb_snoop (sts : list ReservationStation.t) n v i st :
  sts !! i = Some st →
  ∃ st', ReservationStations.update_from_cdb sts n v !! i = Some st'
    ∧ ReservationStation.qj st' ≠ Some n
    ∧ ReservationStation.qk st' ≠ Some n
    ∧ (ReservationStation.qj st = Some n →
       ReservationStation.qj st' = None ∧ ReservationStation.vj st' = v)
    ∧ (ReservationStation.qk st = Some n →
       ReservationStation.qk st' = None ∧ ReservationStation.vk st' = v)
    ∧ (ReservationStation.qj st ≠ Some n →
       ReservationStation.qj st' = ReservationStation.qj st
       ∧ ReservationStation.vj st' = ReservationStation.vj st)
    ∧ (ReservationStation.qk st ≠ Some n →
       ReservationStation.qk st' = ReservationStation.qk st
       ∧ ReservationStation.vk st' = ReservationStation.vk st)
    ∧ payload (ReservationStation.update_operand st' n v) = payload st'
    ∧ ReservationStation.busy st' = ReservationStation.busy st
    ∧ ReservationStation.op st' = ReservationStation.op st
    ∧ ReservationStation.dest st' = ReservationStation.dest st
    ∧ ReservationStation.executing st' = ReservationStation.executing st
    ∧ ReservationStation.name st' = ReservationStation.name st
    ∧ ReservationStation.instruction st' = ReservationStation.instruction st
    ∧ ReservationStation.offset st' = ReservationStation.offset st
    ∧ ReservationStation.address st' = ReservationStation.address st
    ∧ ReservationStation.execution_cycles_left st'
      = ReservationStation.execution_cycles_left st
    ∧ length (ReservationStations.update_from_cdb sts n v) = length sts
    ∧ ∀ v', ReservationStations.update_from_cdb
              (ReservationStations.update_from_cdb sts n v) n v'
            = ReservationStations.update_from_cdb sts n v.
Proof.
  intros Hi. exists (ReservationStation.update_operand st n v).
  unfold ReservationStations.update_from_cdb.
  rewrite list_lookup_fmap, Hi. split; [done|].
  assert (∀ x v', ReservationStation.update_operand
                    (ReservationStation.update_operand x n v) n v'
                  = ReservationStation.update_operand x n v) as Hidem.
  { intros x v'. destruct x as [nm o a b qa qb bs d ins off ad ex ecl].
    unfold ReservationStation.update_operand; simpl.
    destruct (decide (qa = Some n)) as [Ha|Ha];
      destruct (decide (qb = Some n)) as [Hb|Hb];
      rewrite ?(bool_decide_eq_true_2 _ Ha), ?(bool_decide_eq_true_2 _ Hb),
        ?(bool_decide_eq_false_2 _ Ha), ?(bool_decide_eq_false_2 _ Hb);
      simpl;
      rewrite ?(bool_decide_eq_false_2 _ Ha), ?(bool_decide_eq_false_2 _ Hb);
      reflexivity. }
  destruct st; simpl.
  split_and!; try done; try (by case_bool_decide);
    try (by rewrite length_fmap).
  - f_equal. apply (Hidem (ReservationStation.mk name op vj vk qj qk busy
                             dest instruction offset address executing
                             execution_cycles_left) v).
  - intros v'. rewrite <- list_fmap_compose. apply list_fmap_ext.
    intros ? x _. apply Hidem.
Qed.

Lemma update_from_cdb_snoop_witness :
  ∃ st',
    ReservationStations.update_from_cdb
      (Simulator.reservation_stations
         (state_after 3 scenario_registers trace_two_finish_together))
      "ALU1" (Some 12) !! 1%nat = Some st'
    ∧ ReservationStation.qj st' = None
    ∧ ReservationStation.vj st' = Some 12.
Proof.
  eassert (Simulator.reservation_stations
             (state_after 3 scenario_registers trace_two_finish_together)
           !! 1%nat = Some _) as Hst.
  { vm_compute. reflexivity. }
  destruct (update_from_cdb_snoop _ "ALU1" (Some 12) _ _ Hst)
    as (st' & Hst' & _ & _ & Hj & _).
  exists st'. split; [exact Hst'|]. apply Hj. reflexivity.
Defined.

(** ** Parsing and loading *)

(** X5: an instruction that [Instruction.parse] returns has no timestamp, and
    exactly the operands of its operation: destination and two sources for
    ADD, SUB, MUL and DIV; destination, offset and base for LOAD; offset,
    base and one source for STORE. *)
Theorem parse_shape (line : string) (ins : Instruction.t) :
  Instruction.parse line = Ok ins →
  fresh ins = true
  ∧ match Instruction.op ins with
    | LOAD =>
        is_Some (Instruction.dest ins) ∧ is_Some (Instruction.offset ins)
        ∧ is_Some (Instruction.base ins)
        ∧ Instruction.src1 ins = None ∧ Instruction.src2 ins = None
    | STORE =>
        is_Some (Instruction.src1 ins) ∧ is_Some (Instruction.offset ins)
        ∧ is_Some (Instruction.base ins)
        ∧ Instruction.dest ins = None ∧ Instruction.src2 ins = None
    | _ =>
        is_Some (Instruction.dest ins) ∧ is_Some (Instruction.src1 ins)
        ∧ is_Some (Instruction.src2 ins)
        ∧ Instruction.offset ins = None ∧ Instruction.base ins = None
    end.
Proof.
  unfold Instruction.parse. intros H.
  apply bind_Ok in H as (word & _ & H).
  destruct (Instruction.opcode_of (PyStr.upper word)) as [[]|]; [..|done].
  1-4: apply bind_Ok in H as (dest & _ & H);
       apply bind_Ok in H as (src1 & _ & H);
       apply bind_Ok in H as (src2 & _ & H);
       injection H as <-; simpl; split; [done|]; split_and!; eauto.
  - apply bind_Ok in H as (dest & _ & H).
    apply bind_Ok in H as (mem_ref & _ & H).
    apply bind_Ok in H as (offset_str & _ & H).
    apply bind_Ok in H as (offset & _ & H).
    apply bind_Ok in H as (base_str & _ & H).
    injection H as <-. simpl. split; [done|]. split_and!; eauto.
  - apply bind_Ok in H as (mem_ref & _ & H).
    apply bind_Ok in H as (offset_str & _ & H).
    apply bind_Ok in H as (offset & _ & H).
    apply bind_Ok in H as (base_str & _ & H).
    apply bind_Ok in H as (src1 & _ & H).
    injection H as <-. simpl. split; [done|]. split_and!; eauto.
Qed.

Lemma parse_shape_witness :
  fresh (Instruction.init LOAD (Some "R1") None None (Some 4) (Some "R0"))
  = true
  ∧ is_Some (Some "R1") ∧ is_Some (Some 4) ∧ is_Some (Some "R0")
  ∧ @None string = None ∧ @None string = None.
Proof.
  apply (parse_shape "LOAD R1, 4(R0)"
           (Instruction.init LOAD (Some "R1") None None (Some 4) (Some "R0"))).
  reflexivity.
Defined.

Lemma parse_lines_renumber (lines : list string) : ∀ n m,
  (TraceParser.parse_lines n lines).1 = (TraceParser.parse_lines m lines).1.
Proof.
  induction lines as [|line lines IH]; intros n m; simpl; [done|].
  destruct (_ || _); [apply IH|].
  destruct (Instruction.parse _) as [ins|[]]; try done.
  - specialize (IH (S n) (S m)).
    destruct (TraceParser.parse_lines (S n) lines),
      (TraceParser.parse_lines (S m) lines). simpl in *. by rewrite IH.
  - specialize (IH (S n) (S m)).
    destruct (TraceParser.parse_lines (S n) lines),
      (TraceParser.parse_lines (S m) lines). simpl in *. by rewrite IH.
Qed.

(** X6: blank lines and lines that start with [#], wherever they are in the
    file, do not change the list of instructions that [parse_file]
    returns. *)
Theorem parse_file_ignores_comments (before after : list string)
    (line : string) :
  PyStr.strip line = EmptyString
  ∨ PyStr.startswith "#" (PyStr.strip line) = true →
  (TraceParser.parse_file (before ++ line :: after)).1
  = (TraceParser.parse_file (before ++ after)).1.
Proof.
  intros Hskip. unfold TraceParser.parse_file. generalize 1%nat.
  induction before as [|l before IH]; intros n; simpl.
  - assert (bool_decide (PyStr.strip line = EmptyString)
            || PyStr.startswith "#" (PyStr.strip line) = true) as ->.
    { apply orb_true_iff. destruct Hskip as [H|H]; [left|by right].
      by apply bool_decide_eq_true. }
    apply parse_lines_renumber.
  - destruct (_ || _); [apply IH|].
    destruct (Instruction.parse _) as [ins|[]]; try done.
    + specialize (IH (S n)).
      destruct (TraceParser.parse_lines (S n) (before ++ line :: after)),
        (TraceParser.parse_lines (S n) (before ++ after)).
      simpl in *. by rewrite IH.
    + specialize (IH (S n)).
      destruct (TraceParser.parse_lines (S n) (before ++ line :: after)),
        (TraceParser.parse_lines (S n) (before ++ after)).
      simpl in *. by rewrite IH.
Qed.

Lemma parse_file_ignores_comments_witness :
  (TraceParser.parse_file
     (["ADD R4, R1, R2"] ++ "  # a comment" :: ["SUB R5, R4, R3"])).1
  = (TraceParser.parse_file (["ADD R4, R1, R2"] ++ ["SUB R5, R4, R3"])).1.
Proof.
  apply (parse_file_ignores_comments ["ADD R4, R1, R2"] ["SUB R5, R4, R3"]
           "  # a comment").
  right. reflexivity.
Defined.

Lemma parse_fresh (line : string) (ins : Instruction.t) :
  Instruction.parse line = Ok ins → fresh ins = true.
Proof.
  unfold Instruction.parse. intros H.
  apply bind_Ok in H as (word & _ & H).
  destruct (Instruction.opcode_of (PyStr.upper word)) as [[]|]; [..|done].
  1-4: apply bind_Ok in H as (dest & _ & H);
       apply bind_Ok in H as (src1 & _ & H);
       apply bind_Ok in H as (src2 & _ & H);
       by injection H as <-.
  - apply bind_Ok in H as (dest & _ & H).
    apply bind_Ok in H as (mem_ref & _ & H).
    apply bind_Ok in H as (offset_str & _ & H).
    apply bind_Ok in H as (offset & _ & H).
    apply bind_Ok in H as (base_str & _ & H).
    by injection H as <-.
  - apply bind_Ok in H as (mem_ref & _ & H).
    apply bind_Ok in H as (offset_str & _ & H).
    apply bind_Ok in H as (offset & _ & H).
    apply bind_Ok in H as (base_str & _ & H).
    apply bind_Ok in H as (src1 & _ & H).
    by injection H as <-.
Qed.

Lemma parse_lines_fresh (lines : list string) : ∀ n instructions out,
  TraceParser.parse_lines n lines = (Ok instructions, out) →
  forallb fresh instructions = true
  ∧ (length instructions ≤ length lines)%nat.
Proof.
  induction lines as [|line lines IH]; intros n instructions out H;
    simpl in H.
  { injection H as <- <-. split; [done|simpl; lia]. }
  destruct (_ || _).
  { destruct (IH _ _ _ H). split; [done|simpl; lia]. }
  destruct (Instruction.parse _) as [ins|[]] eqn:Hp; try done.
  - destruct (TraceParser.parse_lines (S n) lines) as [[l|e] o] eqn:Hl;
      simpl in H; [|done].
    injection H as <- <-. destruct (IH _ _ _ Hl) as [Hf Hlen].
    apply parse_fresh in Hp. simpl. rewrite Hp, Hf.
    split; [done|lia].
  - destruct (TraceParser.parse_lines (S n) lines) as [r o] eqn:Hl.
    injection H as -> <-. destruct (IH _ _ _ Hl) as [Hf Hlen].
    split; [done|simpl; lia].
Qed.

(** X7: a simulator made by [Simulator()] and [load_trace], ticked any number
    of times, is in a state of a run: what is proved of every [reachable]
    state holds of it; [total_instrcutions] is the number of instructions
    loaded, at most the number of lines of the file. *)
Theorem load_trace_reachable registers lines s0 n s :
  length registers = Z.to_nat Config.NUM_REGISTERS →
  Simulator.load_trace (Simulator.init registers) lines = Ok s0 →
  Simulator.ticks n s0 = Ok s →
  reachable s
  ∧ Metrics.total_instrcutions (Simulator.metrics s0)
    = length (Simulator.instructions s0)
  ∧ (length (Simulator.instructions s0) ≤ length lines)%nat
  ∧ Simulator.pc s0 = 0%nat ∧ Simulator.cycle s0 = 0%nat.
Proof.
  intros Hlen Hload Hticks. unfold Simulator.load_trace in Hload.
  unfold TraceParser.parse_file in Hload.
  destruct (TraceParser.parse_lines 1 lines) as [[instructions|e] out] eqn:Hp;
    [|done].
  simpl in Hload. injection Hload as <-.
  destruct (parse_lines_fresh _ _ _ _ Hp) as [Hfresh Hle].
  split_and!; try done.
  exists registers, instructions, out, n. split_and!; try done.
Qed.

Lemma load_trace_reachable_witness :
  reachable (state_after 3 scenario_registers trace_two_finish_together)
  ∧ 3%nat = 3%nat ∧ (3 ≤ 3)%nat ∧ 0%nat = 0%nat ∧ 0%nat = 0%nat.
Proof.
  apply (load_trace_reachable scenario_registers trace_two_finish_together
           (loaded scenario_registers (program trace_two_finish_together) [])
           3).
  - reflexivity.
  - vm_compute. reflexivity.
  - vm_compute. reflexivity.
Defined.
(** * Further invariants of a run *)

Lemma capture_Ok rf src v q v' :
  Simulator.capture rf src v = Ok (q, v') →
  ∃ r, RegisterFile.get_register_index src = Ok r
    ∧ ((∃ t, q = Some t ∧ v' = v
          ∧ RegisterFile.status rf !! r = Some (Some t))
       ∨ (q = None ∧ RegisterFile.status rf !! r = Some None
          ∧ RegisterFile.registers rf !! r = Some v')).
Proof.
  unfold Simulator.capture. intros H.
  apply bind_Ok in H as (status & Hg & H).
  unfold RegisterFile.get_status in Hg.
  apply bind_Ok in Hg as (r & Hr & Hg). apply py_getitem_Ok in Hg.
  exists r. split; [done|]. destruct status as [t|].
  - injection H as <- <-. left. by exists t.
  - apply bind_Ok in H as (value & Hread & H). injection H as <- <-.
    unfold RegisterFile.read in Hread. rewrite Hr in Hread. simpl in Hread.
    apply py_getitem_Ok in Hread. by right.
Qed.

(** What [issue] does when it returns [True], operation by operation. *)
Lemma issue_detail s s' :
  Simulator.issue s = Ok (s', true) →
  ∃ ins i rs rs' rf',
    Simulator.instructions s !! Simulator.pc s = Some ins
    ∧ ReservationStations.get_available_station
        (Simulator.reservation_stations s) (Instruction.op ins) = Some i
    ∧ Simulator.reservation_stations s !! i = Some rs
    ∧ ReservationStation.busy rs = false
    ∧ s' = {| Simulator.memory := Simulator.memory s;
              Simulator.register_file := rf';
              Simulator.functional_units := Simulator.functional_units s;
              Simulator.reservation_stations :=
                <[i := rs']> (Simulator.reservation_stations s);
              Simulator.cdb := Simulator.cdb s;
              Simulator.metrics := Simulator.metrics s;
              Simulator.instructions :=
                <[Simulator.pc s :=
                    Simulator.set_issue_cycle (Simulator.cycle s) ins]>
                  (Simulator.instructions s);
              Simulator.pc := S (Simulator.pc s);
              Simulator.cycle := Simulator.cycle s;
              Simulator.done := Simulator.done s;
              Simulator.stdout := Simulator.stdout s |}
    ∧ match Instruction.op ins with
      | LOAD =>
          ∃ qj vj,
            Simulator.capture (Simulator.register_file s)
              (Instruction.base ins) (ReservationStation.vj rs) = Ok (qj, vj)
            ∧ RegisterFile.set_status (Simulator.register_file s)
                (Instruction.dest ins) (Some (ReservationStation.name rs))
              = Ok rf'
            ∧ rs' = ReservationStation.bind_instruction rs LOAD
                      (Simulator.pc s) (Instruction.dest ins) qj vj
                      (ReservationStation.qk rs) (ReservationStation.vk rs)
                      (Instruction.offset ins)
      | STORE =>
          ∃ qj vj qk vk,
            Simulator.capture (Simulator.register_file s)
              (Instruction.base ins) (ReservationStation.vj rs) = Ok (qj, vj)
            ∧ Simulator.capture (Simulator.register_file s)
                (Instruction.src1 ins) (ReservationStation.vk rs)
              = Ok (qk, vk)
            ∧ rf' = Simulator.register_file s
            ∧ rs' = ReservationStation.bind_instruction rs STORE
                      (Simulator.pc s) (ReservationStation.dest rs) qj vj
                      qk vk (Instruction.offset ins)
      | o =>
          ∃ qj vj qk vk,
            Simulator.capture (Simulator.register_file s)
              (Instruction.src1 ins) (ReservationStation.vj rs) = Ok (qj, vj)
            ∧ Simulator.capture (Simulator.register_file s)
                (Instruction.src2 ins) (ReservationStation.vk rs)
              = Ok (qk, vk)
            ∧ RegisterFile.set_status (Simulator.register_file s)
                (Instruction.dest ins) (Some (ReservationStation.name rs))
              = Ok rf'
            ∧ rs' = ReservationStation.bind_instruction rs o
                      (Simulator.pc s) (Instruction.dest ins) qj vj qk vk
                      (ReservationStation.offset rs)
      end.
Proof.
  unfold Simulator.issue. intros H. case_bool_decide as Hpc; [done|].
  apply bind_Ok in H as (ins & Hins & H). apply py_getitem_Ok in Hins.
  destruct (ReservationStations.get_available_station _ _) as [i|] eqn:Hav;
    [|done].
  pose proof Hav as Hav'. apply first_free_Some in Hav' as (rs & Hrs & Hnb).
  apply bind_Ok in H as (rs0 & Hrs0 & H). apply py_getitem_Ok in Hrs0.
  rewrite Hrs in Hrs0. injection Hrs0 as <-.
  apply bind_Ok in H as (instrs' & Hst & H).
  unfold Simulator.stamp in Hst.
  apply bind_Ok in Hst as (ins0 & Hik & Hst). apply py_getitem_Ok in Hik.
  rewrite Hins in Hik. injection Hik as <-.
  apply py_setitem_Ok in Hst as [Hklt ->].
  apply bind_Ok in H as ([rs' rf'] & Hop & H). injection H as <-.
  exists ins, i, rs, rs', rf'. do 5 (split; [done|]).
  destruct (Instruction.op ins) eqn:Eop.
  1-4: apply bind_Ok in Hop as ([qj vj] & Hc1 & Hop);
       apply bind_Ok in Hop as ([qk vk] & Hc2 & Hop);
       apply bind_Ok in Hop as (rf1 & Hset & Hop); injection Hop as <- <-;
       by exists qj, vj, qk, vk.
  - apply bind_Ok in Hop as ([qj vj] & Hc1 & Hop).
    apply bind_Ok in Hop as (rf1 & Hset & Hop). injection Hop as <- <-.
    by exists qj, vj.
  - apply bind_Ok in Hop as ([qj vj] & Hc1 & Hop).
    apply bind_Ok in Hop as ([qk vk] & Hc2 & Hop). injection Hop as <- <-.
    by exists qj, vj, qk, vk.
Qed.

Lemma issue_false s s' :
  Simulator.issue s = Ok (s', false) →
  Simulator.functional_units s' = Simulator.functional_units s
  ∧ Simulator.reservation_stations s' = Simulator.reservation_stations s
  ∧ Simulator.register_file s' = Simulator.register_file s
  ∧ Simulator.instructions s' = Simulator.instructions s
  ∧ Simulator.pc s' = Simulator.pc s
  ∧ Simulator.memory s' = Simulator.memory s
  ∧ Simulator.cycle s' = Simulator.cycle s
  ∧ Simulator.stdout s' = Simulator.stdout s
  ∧ Metrics.completed_instructions (Simulator.metrics s')
    = Metrics.completed_instructions (Simulator.metrics s)
  ∧ Metrics.total_instrcutions (Simulator.metrics s')
    = Metrics.total_instrcutions (Simulator.metrics s).
Proof.
  unfold Simulator.issue. intros H. case_bool_decide as Hpc.
  { injection H as <-. by split_and!. }
  apply bind_Ok in H as (ins & Hins & H).
  destruct (ReservationStations.get_available_station _ _) as [i|].
  - apply bind_Ok in H as (rs0 & Hrs0 & H).
    apply bind_Ok in H as (instrs' & Hst & H).
    apply bind_Ok in H as ([rs' rf'] & Hop & H). done.
  - injection H as <-. by split_and!.
Qed.

(** The stations after [write_result]. *)
Lemma write_result_stations s n v s' :
  Simulator.write_result s n v = Ok s' →
  (ReservationStations.get_station_by_name
     (Simulator.reservation_stations s) n = None
   ∧ Simulator.reservation_stations s' = Simulator.reservation_stations s
   ∧ Simulator.register_file s' = Simulator.register_file s
   ∧ Simulator.metrics s' = Simulator.metrics s)
  ∨ ∃ i rs,
      ReservationStations.get_station_by_name
        (Simulator.reservation_stations s) n = Some i
      ∧ Simulator.reservation_stations s !! i = Some rs
      ∧ ReservationStation.name rs = n
      ∧ Simulator.reservation_stations s'
        = <[i := ReservationStation.clear
                   (ReservationStation.update_operand rs n v)]>
            (ReservationStations.update_from_cdb
               (Simulator.reservation_stations s) n v).
Proof.
  intros H.
  destruct (ReservationStations.get_station_by_name
              (Simulator.reservation_stations s) n) as [i|] eqn:Hfind.
  - right. destruct (get_station_by_name_Some _ _ _ Hfind) as (rs & Hrs & Hn).
    exists i, rs. split_and!; try done.
    by apply (write_result_effect _ _ _ _ i rs H Hfind Hrs).
  - left. unfold Simulator.write_result in H. rewrite Hfind in H.
    destruct (CommonDataBus.broadcast _ _ _). injection H as <-.
    by split_and!.
Qed.

Lemma Tags_payload s s' :
  payload <$> Simulator.reservation_stations s'
  = payload <$> Simulator.reservation_stations s →
  (∀ i st', Simulator.reservation_stations s' !! i = Some st' →
     ReservationStation.executing st' = true →
     ∃ st, Simulator.reservation_stations s !! i = Some st
       ∧ ReservationStation.executing st = true) →
  Tags s → Tags s'.
Proof.
  intros Hpay Hon [H1 H2 H3].
  pose proof (λ i st', payload_lookup _ _ i st' Hpay) as Hback.
  pose proof (λ i st, payload_lookup _ _ i st (eq_sym Hpay)) as Hforw.
  split.
  - intros i st' Hi He.
    destruct (Hon i st' Hi He) as (st & Hst & He0).
    destruct (Hback i st' Hi) as (st0 & Hst0 & Hp).
    rewrite Hst in Hst0. injection Hst0 as <-.
    apply payload_fields in Hp as (_ & _ & _ & _ & Hqj & Hqk & Hb & _).
    rewrite <- Hqj, <- Hqk, <- Hb. by eapply H1.
  - intros i st' Hi Hb.
    destruct (Hback i st' Hi) as (st & Hst & Hp).
    apply payload_fields in Hp as (_ & _ & _ & _ & Hqj & Hqk & Hb' & _).
    rewrite <- Hqj, <- Hqk. apply (H2 i st Hst). congruence.
  - intros i st' t Hi Hq.
    destruct (Hback i st' Hi) as (st & Hst & Hp).
    apply payload_fields in Hp as (_ & _ & _ & _ & Hqj & Hqk & _).
    destruct (H3 i st t Hst) as (j & stj & Hj & Hn & Hb & Hprod & Hji).
    { by rewrite Hqj, Hqk. }
    destruct (Hforw j stj Hj) as (stj' & Hj' & Hp').
    apply payload_fields in Hp' as (Hn' & Ho' & _ & _ & _ & _ & Hb' & _).
    exists j, stj'. split_and!; congruence.
Qed.

Lemma write_result_Tags s n v s' :
  Inv s → Tags s → Simulator.write_result s n v = Ok s' → Tags s'.
Proof.
  intros HI [H1 H2 H3] H.
  apply write_result_stations in H
    as [(_ & Hsts & _)|(i & rs & _ & Hrs & Hn & Hsts)].
  { split; rewrite Hsts; done. }
  assert (i < length (Simulator.reservation_stations s))%nat as Hilt
    by by eapply lookup_lt_Some.
  set (upd := λ st, ReservationStation.update_operand st n v) in *.
  assert (∀ j st', Simulator.reservation_stations s' !! j = Some st' →
            (j = i ∧ st' = ReservationStation.clear (upd rs))
            ∨ (j ≠ i ∧ ∃ st, Simulator.reservation_stations s !! j = Some st
                 ∧ st' = upd st)) as Hlook.
  { intros j st' Hj. rewrite Hsts in Hj.
    destruct (decide (j = i)) as [->|Hne].
    - rewrite list_lookup_insert_eq in Hj
        by (unfold ReservationStations.update_from_cdb; by rewrite length_fmap).
      left. split; [done|]. by injection Hj.
    - rewrite list_lookup_insert_ne in Hj by done.
      unfold ReservationStations.update_from_cdb in Hj.
      rewrite list_lookup_fmap in Hj.
      destruct (Simulator.reservation_stations s !! j) as [st|]; [|done].
      right. split; [done|]. exists st. split; [done|]. simpl in Hj.
      by injection Hj. }
  assert (∀ st, (ReservationStation.qj (upd st) = None
                 ∨ (ReservationStation.qj (upd st) = ReservationStation.qj st
                    ∧ ReservationStation.qj st ≠ Some n))
                ∧ (ReservationStation.qk (upd st) = None
                   ∨ (ReservationStation.qk (upd st)
                      = ReservationStation.qk st
                      ∧ ReservationStation.qk st ≠ Some n))) as Hq.
  { intros st. destruct st; simpl. split; case_bool_decide; eauto. }
  split.
  - intros j st' Hj He.
    destruct (Hlook j st' Hj) as [[-> ->]|(Hne & st & Hst & ->)]; [done|].
    destruct (update_operand_fields st n v)
      as (_ & _ & Hb & _ & _ & Hex & Hqj & Hqk).
    fold (upd st) in Hb, Hex, Hqj, Hqk. rewrite Hex in He.
    destruct (H1 j st Hst He) as (? & ? & ?).
    split_and!; [congruence|by apply Hqj|by apply Hqk].
  - intros j st' Hj Hb.
    destruct (Hlook j st' Hj) as [[-> ->]|(Hne & st & Hst & ->)]; [done|].
    destruct (update_operand_fields st n v)
      as (_ & _ & Hb' & _ & _ & _ & Hqj & Hqk).
    fold (upd st) in Hb', Hqj, Hqk. rewrite Hb' in Hb.
    destruct (H2 j st Hst Hb). split; [by apply Hqj|by apply Hqk].
  - intros j st' t Hj Hwait.
    destruct (Hlook j st' Hj) as [[-> ->]|(Hne & st & Hst & ->)].
    { by destruct Hwait. }
    destruct (Hq st) as [Hqj Hqk].
    assert ((ReservationStation.qj st = Some t
             ∨ ReservationStation.qk st = Some t) ∧ t ≠ n) as [Hold Htn].
    { destruct Hwait as [Hw|Hw].
      - destruct Hqj as [Hx|[Hx Hy]]; [congruence|].
        split; [left|]; congruence.
      - destruct Hqk as [Hx|[Hx Hy]]; [congruence|].
        split; [right|]; congruence. }
    destruct (H3 j st t Hst Hold) as (j' & stj & Hj' & Hnj & Hbj & Hpj & Hjj).
    assert (j' ≠ i) as Hne'.
    { intros ->. rewrite Hrs in Hj'. injection Hj' as <-. congruence. }
    exists j', (upd stj). split.
    { rewrite Hsts, list_lookup_insert_ne by done.
      unfold ReservationStations.update_from_cdb.
      by rewrite list_lookup_fmap, Hj'. }
    destruct (update_operand_fields stj n v) as (Hn' & Ho' & Hb' & _).
    fold (upd stj) in Hn', Ho', Hb'. split_and!; congruence.
Qed.

Lemma write_back_Tags s s' :
  Inv s → Tags s → Simulator.write_back s = Ok s' → Tags s'.
Proof.
  intros HI HT H. unfold Simulator.write_back in H.
  apply bind_Ok in H as ([[[[units' sts'] mem'] out] results] & Htick & H).
  match type of H with
  | match _ with [] => Ok ?x | _ => _ end = _ => set (s1 := x) in *
  end.
  destruct (units_tick_Inv s s1 mem' out results HI Htick)
    as [HI1 _]; [done..|].
  assert (Tags s1) as HT1.
  { apply units_tick_spec in Htick as (_ & Hpay & _ & Hon & _).
    by apply (Tags_payload s s1). }
  destruct results as [|[n v] rest].
  - by injection H as <-.
  - by eapply write_result_Tags.
Qed.

Lemma execute_station_Tags i s s' :
  Tags s → Simulator.execute_station i s = Ok s' → Tags s'.
Proof.
  intros [H1 H2 H3] H. apply execute_station_cases in H as [[-> _]|H]; [done|].
  destruct H as (rs & rs' & u & fu & fu' & o & k & ins & Hrs & Hready & _
                 & _ & _ & _ & _ & _ & Hpay & Hexec & _ & ->).
  apply isReady_true in Hready as (Hbusy & Hnex & Hqj & Hqk).
  apply payload_set_address_fields in Hpay
    as (Hn' & Ho' & Hqj' & Hqk' & Hb' & Hd' & Hi').
  assert (i < length (Simulator.reservation_stations s))%nat as Hilt
    by by eapply lookup_lt_Some.
  split; simpl.
  - intros j st Hj He. destruct (decide (j = i)) as [->|Hne].
    + rewrite list_lookup_insert_eq in Hj by done. injection Hj as <-.
      split_and!; congruence.
    + rewrite list_lookup_insert_ne in Hj by done. by eapply H1.
  - intros j st Hj Hb. destruct (decide (j = i)) as [->|Hne].
    + rewrite list_lookup_insert_eq in Hj by done. injection Hj as <-.
      congruence.
    + rewrite list_lookup_insert_ne in Hj by done. by eapply H2.
  - intros j st t Hj Hw.
    assert (∃ st0, Simulator.reservation_stations s !! j = Some st0
              ∧ (ReservationStation.qj st0 = Some t
                 ∨ ReservationStation.qk st0 = Some t)) as (st0 & Hst0 & Hw0).
    { destruct (decide (j = i)) as [->|Hne].
      - rewrite list_lookup_insert_eq in Hj by done. injection Hj as <-.
        destruct Hw; congruence.
      - rewrite list_lookup_insert_ne in Hj by done. eauto. }
    destruct (H3 j st0 t Hst0 Hw0)
      as (j' & stj & Hj' & Hnj & Hbj & Hpj & Hjj).
    destruct (decide (j' = i)) as [->|Hne'].
    + exists i, rs'. rewrite list_lookup_insert_eq by done.
      rewrite Hrs in Hj'. injection Hj' as <-. split_and!; congruence.
    + exists j', stj. by rewrite list_lookup_insert_ne.
Qed.

Lemma for_each_Tags positions : ∀ s s',
  Tags s → Simulator.for_each Simulator.execute_station positions s = Ok s' →
  Tags s'.
Proof.
  induction positions as [|i positions IH]; intros s s' HT H; simpl in H.
  - by injection H as <-.
  - apply bind_Ok in H as (s1 & H1 & H). eapply IH; [|exact H].
    by eapply execute_station_Tags.
Qed.

Lemma capture_tag s src v q v' t :
  Inv s →
  Simulator.capture (Simulator.register_file s) src v = Ok (q, v') →
  q = Some t →
  ∃ j st, Simulator.reservation_stations s !! j = Some st
    ∧ ReservationStation.name st = t
    ∧ ReservationStation.busy st = true
    ∧ producing (ReservationStation.op st) = true.
Proof.
  intros HI Hc ->. apply capture_Ok in Hc as (r & _ & [Hc|Hc]).
  - destruct Hc as (t' & [= <-] & _ & Hs).
    destruct (inv_status s HI r t) as (j & st & Hj & Hn & Hb & Hd).
    { unfold status_of. by rewrite Hs. }
    exists j, st. split_and!; try done.
    apply (inv_dest s HI j st Hj).
    apply dest_index_Some in Hd as (d & -> & _). eauto.
  - by destruct Hc.
Qed.

Lemma issue_Tags s s' b :
  Inv s → Tags s → Simulator.issue s = Ok (s', b) → Tags s'.
Proof.
  intros HI [H1 H2 H3] H. destruct b.
  2:{ apply issue_false in H as (_ & Hsts & _). split; rewrite Hsts; done. }
  apply issue_detail in H
    as (ins & i & rs & rs' & rf' & Hins & _ & Hrs & Hnb & -> & Hop).
  assert (i < length (Simulator.reservation_stations s))%nat as Hilt
    by by eapply lookup_lt_Some.
  destruct (H2 i rs Hrs Hnb) as [Hqj0 Hqk0].
  assert (ReservationStation.executing rs = false) as Hex0.
  { destruct (ReservationStation.executing rs) eqn:E; [|done].
    destruct (H1 i rs Hrs E) as (? & _). congruence. }
  assert (ReservationStation.name rs' = ReservationStation.name rs
          ∧ ReservationStation.busy rs' = true
          ∧ ReservationStation.executing rs' = false
          ∧ ∀ t, ReservationStation.qj rs' = Some t
                 ∨ ReservationStation.qk rs' = Some t →
              ∃ j st, Simulator.reservation_stations s !! j = Some st
                ∧ ReservationStation.name st = t
                ∧ ReservationStation.busy st = true
                ∧ producing (ReservationStation.op st) = true)
    as (Hn' & Hb' & Hex' & Hw').
  { destruct (Instruction.op ins).
    1-4: destruct Hop as (qj & vj & qk & vk & Hc1 & Hc2 & _ & ->); simpl;
         split_and!; try done;
         intros t [Ht|Ht];
         [exact (capture_tag _ _ _ _ _ _ HI Hc1 Ht)
         |exact (capture_tag _ _ _ _ _ _ HI Hc2 Ht)].
    - destruct Hop as (qj & vj & Hc1 & _ & ->). simpl.
      split_and!; try done.
      intros t [Ht|Ht]; [exact (capture_tag _ _ _ _ _ _ HI Hc1 Ht)|congruence].
    - destruct Hop as (qj & vj & qk & vk & Hc1 & Hc2 & _ & ->). simpl.
      split_and!; try done.
      intros t [Ht|Ht];
        [exact (capture_tag _ _ _ _ _ _ HI Hc1 Ht)
        |exact (capture_tag _ _ _ _ _ _ HI Hc2 Ht)]. }
  assert (∀ j st, Simulator.reservation_stations s !! j = Some st →
            ReservationStation.busy st = true →
            <[i := rs']> (Simulator.reservation_stations s) !! j = Some st)
    as Hkeep.
  { intros j st Hj Hb. rewrite list_lookup_insert_ne; [done|].
    intros ->. rewrite Hrs in Hj. injection Hj as <-. congruence. }
  split; simpl.
  - intros j st Hj He. destruct (decide (j = i)) as [->|Hne].
    + rewrite list_lookup_insert_eq in Hj by done. injection Hj as <-.
      congruence.
    + rewrite list_lookup_insert_ne in Hj by done. by eapply H1.
  - intros j st Hj Hb. destruct (decide (j = i)) as [->|Hne].
    + rewrite list_lookup_insert_eq in Hj by done. injection Hj as <-.
      congruence.
    + rewrite list_lookup_insert_ne in Hj by done. by eapply H2.
  - intros j st t Hj Hw.
    assert (∃ j' stj, Simulator.reservation_stations s !! j' = Some stj
              ∧ ReservationStation.name stj = t
              ∧ ReservationStation.busy stj = true
              ∧ producing (ReservationStation.op stj) = true
              ∧ j' ≠ j)
      as (j' & stj & Hj' & ? & ? & ? & ?).
    { destruct (decide (j = i)) as [->|Hne].
      - rewrite list_lookup_insert_eq in Hj by done. injection Hj as <-.
        destruct (Hw' t Hw) as (j' & stj & Hj' & ? & ? & ?).
        exists j', stj. split_and!; try done.
        intros ->. rewrite Hrs in Hj'. injection Hj' as <-. congruence.
      - rewrite list_lookup_insert_ne in Hj by done. by eapply H3. }
    exists j', stj. split_and!; try done. by apply Hkeep.
Qed.

Lemma tick_Tags s s' b :
  Inv s → Tags s → Simulator.tick s = Ok (s', b) → Tags s'.
Proof.
  intros HI HT H. unfold Simulator.tick in H.
  apply bind_Ok in H as (s1 & H1 & H).
  apply bind_Ok in H as (s2 & H2 & H).
  apply bind_Ok in H as ([s3 issued] & H3 & H).
  pose proof (begin_cycle_Inv s HI) as HI0.
  pose proof (write_back_Inv _ _ HI0 H1) as HI1.
  pose proof (execute_Inv _ _ HI1 H2) as HI2.
  assert (Tags (Simulator.begin_cycle s)) as HT0 by by destruct HT.
  assert (Tags s3) as HT3.
  { eapply issue_Tags; [exact HI2| |exact H3].
    eapply for_each_Tags; [|exact H2].
    by eapply write_back_Tags; [exact HI0| |exact H1]. }
  destruct (_ && _) in H; by injection H as <- _.
Qed.

Lemma ticks_Tags n : ∀ s s',
  Inv s → Tags s → Simulator.ticks n s = Ok s' → Tags s'.
Proof.
  induction n as [|n IH]; intros s s' HI HT H; simpl in H.
  - by injection H as <-.
  - apply bind_Ok in H as (s1 & H1 & H).
    apply bind_Ok in H as ([s2 b] & H2 & H). injection H as <-.
    eapply tick_Tags; [|by eapply IH|exact H2]. by eapply ticks_Inv.
Qed.

Lemma init_station (i : nat) st :
  ReservationStations.init !! i = Some st →
  ∃ name, st = ReservationStation.init name.
Proof.
  intros H. apply list_elem_of_lookup_2 in H.
  unfold ReservationStations.init in H.
  apply list_elem_of_fmap in H as (n & -> & _). eauto.
Qed.

Lemma reachable_Tags s : reachable s → Tags s.
Proof.
  intros (registers & instructions & out & n & Hlen & Hfresh & H).
  eapply ticks_Tags; [by apply loaded_Inv| |exact H].
  split; simpl.
  - intros i st (name & ->)%init_station. done.
  - intros i st (name & ->)%init_station. done.
  - intros i st t (name & ->)%init_station. by intros [|].
Qed.

(** X8: in every state of a run, a station that waits for an operand
    holds the tag of another station, which is busy with an operation that
    has a register result (never a STORE): no tag is dangling and no
    station waits for itself. *)
Theorem no_dangling_tag s i st t :
  reachable s →
  Simulator.reservation_stations s !! i = Some st →
  ReservationStation.qj st = Some t ∨ ReservationStation.qk st = Some t →
  ReservationStation.busy st = true
  ∧ ReservationStation.executing st = false
  ∧ ∃ j st', Simulator.reservation_stations s !! j = Some st'
      ∧ ReservationStation.name st' = t
      ∧ ReservationStation.busy st' = true
      ∧ producing (ReservationStation.op st') = true
      ∧ j ≠ i.
Proof.
  intros Hreach Hst Hw.
  pose proof (reachable_Tags s Hreach) as HT.
  split_and!.
  - destruct (ReservationStation.busy st) eqn:E; [done|].
    destruct (tag_free s HT i st Hst E). destruct Hw; congruence.
  - destruct (ReservationStation.executing st) eqn:E; [|done].
    destruct (tag_exec s HT i st Hst E) as (_ & ? & ?).
    destruct Hw; congruence.
  - exact (tag_wait s HT i st t Hst Hw).
Qed.

Lemma no_dangling_tag_witness :
  ∃ st,
    Simulator.reservation_stations
      (state_after 2 scenario_registers trace_two_finish_together) !! 1%nat
    = Some st
    ∧ ReservationStation.busy st = true
    ∧ ReservationStation.executing st = false
    ∧ ∃ j st',
        Simulator.reservation_stations
          (state_after 2 scenario_registers trace_two_finish_together) !! j
        = Some st'
        ∧ ReservationStation.name st' = "ALU1"
        ∧ ReservationStation.busy st' = true
        ∧ producing (ReservationStation.op st') = true
        ∧ j ≠ 1%nat.
Proof.
  eexists. split; [vm_compute; reflexivity|].
  eapply (no_dangling_tag
            (state_after 2 scenario_registers trace_two_finish_together)
            1 _ "ALU1").
  - exists scenario_registers, (program trace_two_finish_together), [], 2%nat.
    split; [reflexivity|]. split; [reflexivity|vm_compute; reflexivity].
  - vm_compute; reflexivity.
  - left. vm_compute; reflexivity.
Defined.
(** ** Counters *)

Lemma busy_count_cons st sts :
  busy_count (st :: sts)
  = ((if ReservationStation.busy st then 1 else 0) + busy_count sts)%nat.
Proof. reflexivity. Qed.

Lemma busy_count_payload sts : ∀ sts',
  payload <$> sts' = payload <$> sts → busy_count sts' = busy_count sts.
Proof.
  induction sts as [|st sts IH]; intros [|st' sts'] H; try done.
  rewrite !fmap_cons in H.
  assert (payload st' = payload st
          ∧ payload <$> sts' = payload <$> sts) as [Hp Ht]
    by (split; congruence).
  rewrite !busy_count_cons, (IH _ Ht).
  by apply payload_fields in Hp as (_ & _ & _ & _ & _ & _ & -> & _).
Qed.

Lemma busy_count_insert sts : ∀ i st st',
  sts !! i = Some st →
  (busy_count (<[i := st']> sts)
   + (if ReservationStation.busy st then 1 else 0)
   = busy_count sts + (if ReservationStation.busy st' then 1 else 0))%nat.
Proof.
  induction sts as [|x sts IH]; intros [|i] st st' H; try done.
  - injection H as ->.
    change (<[0%nat := st']> (st :: sts)) with (st' :: sts).
    rewrite !busy_count_cons. lia.
  - change (<[S i := st']> (x :: sts)) with (x :: <[i := st']> sts).
    rewrite !busy_count_cons. specialize (IH i st st' H). lia.
Qed.

Lemma busy_count_update_from_cdb sts n v :
  busy_count (ReservationStations.update_from_cdb sts n v) = busy_count sts.
Proof.
  unfold ReservationStations.update_from_cdb.
  induction sts as [|x sts IH]; [done|].
  rewrite fmap_cons, !busy_count_cons, IH.
  by destruct (update_operand_fields x n v) as (_ & _ & -> & _).
Qed.

Lemma busy_count_zero sts :
  forallb (λ rs, negb (ReservationStation.busy rs)) sts = true →
  busy_count sts = 0%nat.
Proof.
  induction sts as [|x sts IH]; [done|]. simpl.
  intros [Hx H]%andb_true_iff. rewrite busy_count_cons, (IH H).
  by destruct (ReservationStation.busy x).
Qed.

(** What [write_result] leaves alone. *)
Lemma write_result_frame s n v s' :
  Simulator.write_result s n v = Ok s' →
  Simulator.pc s' = Simulator.pc s
  ∧ Simulator.cycle s' = Simulator.cycle s
  ∧ length (Simulator.instructions s') = length (Simulator.instructions s)
  ∧ Simulator.functional_units s' = Simulator.functional_units s
  ∧ (Simulator.metrics s' = Simulator.metrics s
     ∨ Simulator.metrics s'
       = Metrics.increment_completed_instructions (Simulator.metrics s)).
Proof.
  unfold Simulator.write_result. intros H.
  destruct (CommonDataBus.broadcast _ _ _) as [cdb' b].
  destruct (ReservationStations.get_station_by_name _ _) as [i|].
  2:{ injection H as <-. split_and!; try done. by left. }
  apply bind_Ok in H as (rs0 & Hrs0 & H).
  apply bind_Ok in H as (k & Hk & H).
  apply bind_Ok in H as (instrs' & Hst & H).
  unfold Simulator.stamp in Hst.
  apply bind_Ok in Hst as (ins & Hik & Hst).
  apply py_setitem_Ok in Hst as [Hklt ->].
  apply bind_Ok in H as (rf' & Hrf & H).
  apply bind_Ok in H as (rs1 & Hrs1 & H). injection H as <-.
  simpl. rewrite length_insert. split_and!; try done. by right.
Qed.

(** The stations, the units and the counters after [write_back]. *)
Lemma write_back_frame s s' :
  Inv s → Simulator.write_back s = Ok s' →
  Simulator.pc s' = Simulator.pc s
  ∧ Simulator.cycle s' = Simulator.cycle s
  ∧ length (Simulator.instructions s') = length (Simulator.instructions s)
  ∧ (∀ ui u', Simulator.functional_units s' !! ui = Some u' →
       ∃ u, Simulator.functional_units s !! ui = Some u
         ∧ FunctionalUnit.kind u' = FunctionalUnit.kind u
         ∧ (FunctionalUnit.busy u' = true →
            FunctionalUnit.busy u = true
            ∧ FunctionalUnit.reservation_station u'
              = FunctionalUnit.reservation_station u))
  ∧ length (Simulator.functional_units s')
    = length (Simulator.functional_units s)
  ∧ ∃ sts', payload <$> sts' = payload <$> Simulator.reservation_stations s
      ∧ ((Simulator.reservation_stations s' = sts'
          ∧ Simulator.metrics s' = Simulator.metrics s)
         ∨ ∃ i st n v,
             sts' !! i = Some st
             ∧ ReservationStation.busy st = true
             ∧ ReservationStation.name st = n
             ∧ Simulator.reservation_stations s'
               = <[i := ReservationStation.clear
                          (ReservationStation.update_operand st n v)]>
                   (ReservationStations.update_from_cdb sts' n v)
             ∧ Simulator.metrics s'
               = Metrics.increment_completed_instructions
                   (Simulator.metrics s)).
Proof.
  intros HI H.
  destruct (FunctionalUnits.tick (Simulator.functional_units s)
              (Simulator.reservation_stations s) (Simulator.memory s))
    as [[[[[units' sts'] mem'] out] results]|e] eqn:Htick.
  2:{ unfold Simulator.write_back in H. by rewrite Htick in H. }
  rewrite (write_back_unfold _ _ _ _ _ _ Htick) in H. simpl in H.
  pose proof (units_tick_spec _ _ _ _ _ _ _ _ Htick)
    as (Hlen & Hpay & Hunits & _).
  destruct results as [|[n v] rest].
  { injection H as <-. simpl. split_and!; try done.
    exists sts'. split; [done|]. by left. }
  destruct (first_completion_station _ _ _ _ _ _ _ _ HI Htick)
    as (i & st0 & st1 & u & stx & m & m' & o & Hst0 & Hn & Hb & Hst1 & Hp1
        & Hfind & _).
  pose proof (write_result_frame _ _ _ _ H) as (Hpc & Hcy & Hil & Hfu & _).
  pose proof (write_result_effect _ _ _ _ i st1 H Hfind Hst1)
    as (Hsts & Hcompl & _).
  simpl in *. rewrite Hfu. split_and!; try done.
  exists sts'. split; [done|]. right. exists i, st1, n, v.
  apply payload_fields in Hp1 as (Hn1 & _ & _ & _ & _ & _ & Hb1 & _).
  split_and!; try congruence.
  pose proof (write_result_frame _ _ _ _ H) as (_ & _ & _ & _ & [Hm|Hm]);
    [|done].
  simpl in Hm. rewrite Hm in Hcompl. simpl in Hcompl. lia.
Qed.

Lemma for_each_frame positions : ∀ s s',
  Simulator.for_each Simulator.execute_station positions s = Ok s' →
  Simulator.pc s' = Simulator.pc s
  ∧ Simulator.cycle s' = Simulator.cycle s
  ∧ length (Simulator.instructions s') = length (Simulator.instructions s)
  ∧ Simulator.metrics s' = Simulator.metrics s
  ∧ busy_count (Simulator.reservation_stations s')
    = busy_count (Simulator.reservation_stations s).
Proof.
  induction positions as [|i positions IH]; intros s s' H; simpl in H.
  - by injection H as <-.
  - apply bind_Ok in H as (s1 & H1 & H).
    destruct (IH _ _ H) as (-> & -> & -> & -> & ->).
    apply execute_station_cases in H1 as [[-> _]|H1]; [done|].
    destruct H1 as (rs & rs' & u & fu & fu' & o & k & ins & Hrs & _ & _ & _
                    & _ & _ & _ & Hk & Hpay & _ & _ & ->).
    simpl. rewrite length_insert. split_and!; try done.
    apply payload_set_address_fields in Hpay as (_ & _ & _ & _ & Hb & _).
    pose proof (busy_count_insert _ i rs rs' Hrs) as Hc.
    rewrite Hb in Hc. lia.
Qed.

Lemma issue_frame s s' b :
  Simulator.issue s = Ok (s', b) →
  Simulator.cycle s' = Simulator.cycle s
  ∧ length (Simulator.instructions s') = length (Simulator.instructions s)
  ∧ Simulator.functional_units s' = Simulator.functional_units s
  ∧ if b
    then Simulator.pc s' = S (Simulator.pc s)
         ∧ (Simulator.pc s < length (Simulator.instructions s))%nat
         ∧ Simulator.metrics s' = Simulator.metrics s
         ∧ (busy_count (Simulator.reservation_stations s')
            = S (busy_count (Simulator.reservation_stations s)))
    else Simulator.pc s' = Simulator.pc s
         ∧ Simulator.reservation_stations s' = Simulator.reservation_stations s
         ∧ (Simulator.metrics s' = Simulator.metrics s
            ∨ Simulator.metrics s'
              = Metrics.increment_structural_hazard_stalls
                  (Simulator.metrics s)).
Proof.
  intros H. destruct b.
  - apply issue_detail in H
      as (ins & i & rs & rs' & rf' & Hins & _ & Hrs & Hnb & -> & Hop).
    simpl. rewrite length_insert. split_and!; try done.
    { by eapply lookup_lt_Some. }
    pose proof (busy_count_insert _ i rs rs' Hrs) as Hc.
    rewrite Hnb in Hc.
    assert (ReservationStation.busy rs' = true) as Hb'.
    { destruct (Instruction.op ins).
      1-4: by destruct Hop as (? & ? & ? & ? & _ & _ & _ & ->).
      - by destruct Hop as (? & ? & _ & _ & ->).
      - by destruct Hop as (? & ? & ? & ? & _ & _ & _ & ->). }
    rewrite Hb' in Hc. lia.
  - unfold Simulator.issue in H. case_bool_decide as Hpc.
    { injection H as <-. split_and!; try done. by left. }
    apply bind_Ok in H as (ins & Hins & H).
    destruct (ReservationStations.get_available_station _ _) as [i|].
    + apply bind_Ok in H as (rs0 & Hrs0 & H).
      apply bind_Ok in H as (instrs' & Hst & H).
      apply bind_Ok in H as ([rs' rf'] & Hop & H). done.
    + injection H as <-. split_and!; try done. by right.
Qed.

(** One clock cycle and the counters: the cycle advances by one, at most
    one instruction is issued and at most one completes. *)
Lemma tick_frame s s' b :
  Inv s → Simulator.tick s = Ok (s', b) →
  ∃ m0 m1 m2 : Metrics.t,
    m0 = Metrics.update_ls_buffer_utilization
           (Metrics.update_rs_occupancy
              (Metrics.set_total_cycles (Simulator.metrics s)
                 (S (Simulator.cycle s)))
              (Simulator.reservation_stations s))
           (Simulator.reservation_stations s)
    ∧ (m1 = m0 ∨ m1 = Metrics.increment_completed_instructions m0)
    ∧ (m2 = m1 ∨ m2 = Metrics.increment_structural_hazard_stalls m1)
    ∧ Simulator.metrics s' = m2
    ∧ Simulator.cycle s' = S (Simulator.cycle s)
    ∧ length (Simulator.instructions s') = length (Simulator.instructions s)
    ∧ (Simulator.pc s ≤ Simulator.pc s' ≤ S (Simulator.pc s))%nat.
Proof.
  intros HI H. unfold Simulator.tick in H.
  apply bind_Ok in H as (s1 & H1 & H).
  apply bind_Ok in H as (s2 & H2 & H).
  apply bind_Ok in H as ([s3 issued] & H3 & H).
  assert (s' = s3) as -> by (destruct (_ && _) in H; by injection H as <- _).
  pose proof (begin_cycle_Inv s HI) as HI0.
  apply (write_back_frame _ _ HI0) in H1
    as (Hpc1 & Hcy1 & Hl1 & _ & _ & sts' & _ & Hm1).
  apply for_each_frame in H2 as (Hpc2 & Hcy2 & Hl2 & Hm2 & _).
  apply issue_frame in H3 as (Hcy3 & Hl3 & _ & H3).
  simpl in *.
  exists (Simulator.metrics (Simulator.begin_cycle s)),
    (Simulator.metrics s1), (Simulator.metrics s3).
  split; [reflexivity|]. split_and!.
  - destruct Hm1 as [[_ ->]|(? & ? & ? & ? & _ & _ & _ & _ & ->)]; eauto.
  - rewrite <- Hm2. destruct issued.
    + left. by destruct H3 as (_ & _ & -> & _).
    + destruct H3 as (_ & _ & [->| ->]); eauto.
  - done.
  - congruence.
  - congruence.
  - destruct issued; [destruct H3 as (-> & _)|destruct H3 as (-> & _)]; lia.
  - destruct issued; [destruct H3 as (-> & _)|destruct H3 as (-> & _)]; lia.
Qed.

Lemma write_back_Accounted s s' :
  Inv s → Accounted s → Simulator.write_back s = Ok s' → Accounted s'.
Proof.
  intros HI [H1 H2 H3] H.
  apply (write_back_frame _ _ HI) in H
    as (Hpc & _ & Hl & _ & _ & sts' & Hpay & Hm).
  apply busy_count_payload in Hpay.
  destruct Hm as [[Hsts Hmet]|(i & st & n & v & Hst & Hb & _ & Hsts & Hmet)].
  - split; rewrite ?Hsts, ?Hmet, ?Hpc, ?Hl, ?Hpay; done.
  - assert (ReservationStations.update_from_cdb sts' n v !! i
            = Some (ReservationStation.update_operand st n v)) as Hi.
    { unfold ReservationStations.update_from_cdb.
      by rewrite list_lookup_fmap, Hst. }
    pose proof (busy_count_insert _ i _
                  (ReservationStation.clear
                     (ReservationStation.update_operand st n v)) Hi) as Hc.
    destruct (update_operand_fields st n v) as (_ & _ & Hbu & _).
    rewrite Hbu, Hb, busy_count_update_from_cdb, Hpay in Hc. simpl in Hc.
    split; rewrite ?Hsts, ?Hmet, ?Hpc, ?Hl; simpl; try done. lia.
Qed.

Lemma tick_Accounted s s' b :
  Inv s → Accounted s → Simulator.tick s = Ok (s', b) → Accounted s'.
Proof.
  intros HI HA H. unfold Simulator.tick in H.
  apply bind_Ok in H as (s1 & H1 & H).
  apply bind_Ok in H as (s2 & H2 & H).
  apply bind_Ok in H as ([s3 issued] & H3 & H).
  assert (s' = s3) as -> by (destruct (_ && _) in H; by injection H as <- _).
  pose proof (begin_cycle_Inv s HI) as HI0.
  assert (Accounted (Simulator.begin_cycle s)) as HA0 by by destruct HA.
  destruct (write_back_Accounted _ _ HI0 HA0 H1) as [A1 A2 A3].
  apply for_each_frame in H2 as (Hpc2 & _ & Hl2 & Hm2 & Hb2).
  apply issue_frame in H3 as (_ & Hl3 & _ & H3).
  destruct issued.
  - destruct H3 as (Hpc3 & Hlt & Hm3 & Hb3).
    split; rewrite ?Hpc3, ?Hm3, ?Hb3, ?Hl3, ?Hm2, ?Hb2, ?Hpc2, ?Hl2;
      try done; lia.
  - destruct H3 as (Hpc3 & Hsts3 & Hm3).
    split; rewrite ?Hpc3, ?Hsts3, ?Hl3, ?Hb2, ?Hpc2, ?Hl2; try done;
      destruct Hm3 as [-> | ->]; simpl; rewrite ?Hm2; done.
Qed.

Lemma ticks_Accounted n : ∀ s s',
  Inv s → Accounted s → Simulator.ticks n s = Ok s' → Accounted s'.
Proof.
  induction n as [|n IH]; intros s s' HI HA H; simpl in H.
  - by injection H as <-.
  - apply bind_Ok in H as (s1 & H1 & H).
    apply bind_Ok in H as ([s2 b] & H2 & H). injection H as <-.
    eapply tick_Accounted; [|by eapply IH|exact H2]. by eapply ticks_Inv.
Qed.

Lemma busy_count_init : busy_count ReservationStations.init = 0%nat.
Proof. reflexivity. Qed.

Lemma reachable_Accounted s : reachable s → Accounted s.
Proof.
  intros (registers & instructions & out & n & Hlen & Hfresh & H).
  eapply ticks_Accounted; [by apply loaded_Inv| |exact H].
  split; simpl; [by rewrite busy_count_init|lia|done].
Qed.

Lemma reachable_tick s s' b :
  reachable s → Simulator.tick s = Ok (s', b) → reachable s'.
Proof.
  intros (registers & instructions & out & n & Hlen & Hfresh & H) Ht.
  exists registers, instructions, out, (S n). split_and!; try done.
  simpl. rewrite H. simpl. by rewrite Ht.
Qed.

(** X9: in every state of a run, each issued instruction either occupies
    a busy station or has completed: the completed instructions and the
    busy stations add up to the program counter, which never passes the
    end of the program, whose length is [total_instrcutions]. *)
Theorem issued_are_busy_or_completed s :
  reachable s →
  (Metrics.completed_instructions (Simulator.metrics s)
   + busy_count (Simulator.reservation_stations s))%nat
  = Simulator.pc s
  ∧ (Simulator.pc s ≤ length (Simulator.instructions s))%nat
  ∧ Metrics.total_instrcutions (Simulator.metrics s)
    = length (Simulator.instructions s).
Proof. intros [H1 H2 H3]%reachable_Accounted. done. Qed.

Lemma issued_are_busy_or_completed_witness :
  (Metrics.completed_instructions
     (Simulator.metrics
        (state_after 4 scenario_registers trace_two_finish_together))
   + busy_count
       (Simulator.reservation_stations
          (state_after 4 scenario_registers trace_two_finish_together)))%nat
  = Simulator.pc (state_after 4 scenario_registers trace_two_finish_together)
  ∧ (Simulator.pc (state_after 4 scenario_registers trace_two_finish_together)
     ≤ length
         (Simulator.instructions
            (state_after 4 scenario_registers trace_two_finish_together)))%nat
  ∧ Metrics.total_instrcutions
      (Simulator.metrics
         (state_after 4 scenario_registers trace_two_finish_together))
    = length
        (Simulator.instructions
           (state_after 4 scenario_registers trace_two_finish_together)).
Proof.
  apply (issued_are_busy_or_completed
           (state_after 4 scenario_registers trace_two_finish_together)).
  exists scenario_registers, (program trace_two_finish_together), [], 4%nat.
  split; [reflexivity|]. split; [reflexivity|vm_compute; reflexivity].
Defined.

Lemma ticks_front n : ∀ s s1 b,
  Simulator.tick s = Ok (s1, b) →
  Simulator.ticks (S n) s = Simulator.ticks n s1.
Proof.
  induction n as [|n IH]; intros s s1 b H.
  - simpl. by rewrite H.
  - change (Simulator.ticks (S (S n)) s)
      with (let* self' := Simulator.ticks (S n) s in
            let* (self'', _) := Simulator.tick self' in Ok self'').
    by rewrite (IH _ _ _ H).
Qed.

Lemma run_loop_end fuel : ∀ s s',
  Simulator.run_loop fuel s = Ok (Some s') →
  ∃ n s0, Simulator.ticks n s = Ok s0 ∧ Simulator.tick s0 = Ok (s', false).
Proof.
  induction fuel as [|fuel IH]; intros s s' H; simpl in H; [done|].
  apply bind_Ok in H as ([s1 b] & Ht & H). destruct b.
  - destruct (IH _ _ H) as (n & s0 & Hn & H0).
    exists (S n), s0. by rewrite (ticks_front _ _ _ _ Ht).
  - injection H as <-. by exists 0%nat, s.
Qed.

Lemma ticks_length n : ∀ s s',
  Inv s → Simulator.ticks n s = Ok s' →
  length (Simulator.instructions s') = length (Simulator.instructions s)
  ∧ Simulator.cycle s' = (Simulator.cycle s + n)%nat.
Proof.
  induction n as [|n IH]; intros s s' HI H; simpl in H.
  - injection H as <-. split; [done|lia].
  - apply bind_Ok in H as (s1 & H1 & H).
    apply bind_Ok in H as ([s2 b] & H2 & H). injection H as <-.
    destruct (IH _ _ HI H1) as [Hl Hc].
    apply tick_frame in H2 as (_ & _ & _ & _ & _ & _ & _ & Hc2 & Hl2 & _);
      [|by eapply ticks_Inv].
    split; [congruence|lia].
Qed.

Lemma all_free sts :
  forallb (λ rs, negb (ReservationStation.busy rs)) sts = true →
  ∀ i st, sts !! i = Some st → ReservationStation.busy st = false.
Proof.
  induction sts as [|x sts IH]; intros H [|i] st Hl; try done;
    simpl in H; apply andb_true_iff in H as [Hx H].
  - injection Hl as <-. by apply negb_true_iff.
  - by apply (IH H i).
Qed.

Lemma tick_false s s' :
  Simulator.tick s = Ok (s', false) →
  (length (Simulator.instructions s') ≤ Simulator.pc s')%nat
  ∧ forallb (λ rs, negb (ReservationStation.busy rs))
      (Simulator.reservation_stations s') = true.
Proof.
  intros H. unfold Simulator.tick in H.
  apply bind_Ok in H as (s1 & H1 & H).
  apply bind_Ok in H as (s2 & H2 & H).
  apply bind_Ok in H as ([s3 issued] & H3 & H).
  destruct (_ && _) eqn:E in H; [|done]. injection H as <-.
  apply andb_true_iff in E as [E E3]. apply andb_true_iff in E as [_ E2].
  by apply bool_decide_eq_true in E2.
Qed.

(** X10: when the loop of [Simulator.run] ends, every instruction of the
    trace has been issued and has completed, and every station is free:
    [completed_instructions] equals [total_instrcutions], the number of
    instructions loaded. *)
Theorem run_completes_every_instruction fuel registers instructions out s' :
  length registers = Z.to_nat Config.NUM_REGISTERS →
  forallb fresh instructions = true →
  Simulator.run_loop fuel (loaded registers instructions out) = Ok (Some s') →
  Metrics.completed_instructions (Simulator.metrics s') = length instructions
  ∧ Metrics.total_instrcutions (Simulator.metrics s') = length instructions
  ∧ Simulator.pc s' = length instructions
  ∧ length (Simulator.instructions s') = length instructions
  ∧ ∀ i st, Simulator.reservation_stations s' !! i = Some st →
      ReservationStation.busy st = false.
Proof.
  intros Hlen Hfresh H.
  destruct (run_loop_end _ _ _ H) as (n & s0 & Hn & Htick).
  assert (Simulator.ticks (S n) (loaded registers instructions out) = Ok s')
    as Hticks by (simpl; rewrite Hn; simpl; by rewrite Htick).
  assert (reachable s') as Hreach'.
  { exists registers, instructions, out, (S n). by split_and!. }
  destruct (reachable_Accounted _ Hreach') as [A1 A2 A3].
  destruct (tick_false _ _ Htick) as [Hpc Hfree].
  rewrite (busy_count_zero _ Hfree) in A1.
  assert (Inv (loaded registers instructions out)) as HI
    by by apply loaded_Inv.
  destruct (ticks_length _ _ _ HI Hticks) as [Hl _].
  simpl in Hl. split_and!; try lia.
  by apply all_free.
Qed.

Lemma run_completes_every_instruction_witness :
  Metrics.completed_instructions
    (Simulator.metrics
       (state_after 8 scenario_registers trace_two_finish_together))
  = length (program trace_two_finish_together)
  ∧ Metrics.total_instrcutions
      (Simulator.metrics
         (state_after 8 scenario_registers trace_two_finish_together))
    = length (program trace_two_finish_together)
  ∧ Simulator.pc (state_after 8 scenario_registers trace_two_finish_together)
    = length (program trace_two_finish_together)
  ∧ length
      (Simulator.instructions
         (state_after 8 scenario_registers trace_two_finish_together))
    = length (program trace_two_finish_together)
  ∧ ∀ i st,
      Simulator.reservation_stations
        (state_after 8 scenario_registers trace_two_finish_together) !! i
      = Some st →
      ReservationStation.busy st = false.
Proof.
  apply (run_completes_every_instruction 20 scenario_registers
           (program trace_two_finish_together) []).
  - reflexivity.
  - reflexivity.
  - vm_compute; reflexivity.
Defined.

Lemma count_busy_le sts pool : (Metrics.count_busy sts pool ≤ length pool)%nat.
Proof. unfold Metrics.count_busy. apply length_filter. Qed.

Lemma ratio_bounds a b : (a ≤ b)%nat → (0 <= Metrics.ratio a b <= 1)%Q.
Proof.
  intros Hab. unfold Metrics.ratio.
  destruct (0 <? b)%nat eqn:Hb; [|split; discriminate].
  apply Nat.ltb_lt in Hb. unfold Qle. simpl.
  assert (Z.pos (Pos.of_nat b) = Z.of_nat b) as ->.
  { rewrite <- positive_nat_Z, Nat2Pos.id; lia. }
  lia.
Qed.

Lemma percent_bounds a b :
  (a ≤ b)%nat → (0 <= Metrics.ratio a b * 100 <= 100)%Q.
Proof.
  intros [H0 H1]%ratio_bounds. split.
  - apply Qmult_le_0_compat; [done|discriminate].
  - change 100%Q with (1 * 100)%Q at 2.
    apply Qmult_le_compat_r; [done|discriminate].
Qed.

Lemma tick_counters s s' b :
  Inv s → Simulator.tick s = Ok (s', b) →
  let m := Simulator.metrics s in
  let m' := Simulator.metrics s' in
  Simulator.cycle s' = S (Simulator.cycle s)
  ∧ Metrics.total_cycles m' = S (Simulator.cycle s)
  ∧ Metrics.total_instrcutions m' = Metrics.total_instrcutions m
  ∧ (Metrics.completed_instructions m ≤ Metrics.completed_instructions m'
     ≤ S (Metrics.completed_instructions m))%nat
  ∧ (Metrics.structural_hazard_stalls m ≤ Metrics.structural_hazard_stalls m'
     ≤ S (Metrics.structural_hazard_stalls m))%nat
  ∧ Metrics.total_rs_cycles m'
    = (Metrics.total_rs_cycles m
       + (length ReservationStations.alu_stations
          + length ReservationStations.mul_div_stations))%nat
  ∧ Metrics.total_ls_buffer_cycles m'
    = (Metrics.total_ls_buffer_cycles m
       + (length ReservationStations.load_buffers
          + length ReservationStations.store_buffers))%nat
  ∧ (Metrics.rs_busy_cycles m ≤ Metrics.rs_busy_cycles m'
     ≤ Metrics.rs_busy_cycles m
       + (length ReservationStations.alu_stations
          + length ReservationStations.mul_div_stations))%nat
  ∧ (Metrics.ls_buffer_busy_cycles m ≤ Metrics.ls_buffer_busy_cycles m'
     ≤ Metrics.ls_buffer_busy_cycles m
       + (length ReservationStations.load_buffers
          + length ReservationStations.store_buffers))%nat.
Proof.
  intros HI H. cbv zeta.
  apply (tick_frame _ _ _ HI) in H
    as (m0 & m1 & m2 & -> & H1 & H2 & -> & Hc & _).
  pose proof (count_busy_le (Simulator.reservation_stations s)
                (ReservationStations.alu_stations
                 ++ ReservationStations.mul_div_stations)) as Hrs.
  pose proof (count_busy_le (Simulator.reservation_stations s)
                (ReservationStations.load_buffers
                 ++ ReservationStations.store_buffers)) as Hls.
  rewrite length_app in Hrs, Hls.
  destruct H1 as [-> | ->], H2 as [-> | ->];
    unfold Metrics.update_ls_buffer_utilization, Metrics.update_rs_occupancy;
    cbn [Metrics.total_cycles Metrics.total_instrcutions
         Metrics.completed_instructions Metrics.rs_busy_cycles
         Metrics.total_rs_cycles Metrics.ls_buffer_busy_cycles
         Metrics.total_ls_buffer_cycles Metrics.structural_hazard_stalls
         Metrics.increment_completed_instructions
         Metrics.increment_structural_hazard_stalls Metrics.set_total_cycles];
    split_and!; try done; lia.
Qed.

(** X11: in every state of a run the counters behind the report are
    consistent: [total_cycles] is the cycle, the station-cycles are the
    stations times the cycles, no counter of busy cycles, stalls or
    completions exceeds its total, so IPC is at most 1 and the reported
    percentages are between 0 and 100. *)
Theorem report_metrics_bounded s :
  reachable s →
  let m := Simulator.metrics s in
  Metrics.total_cycles m = Simulator.cycle s
  ∧ Metrics.total_rs_cycles m
    = (Simulator.cycle s
       * (length ReservationStations.alu_stations
          + length ReservationStations.mul_div_stations))%nat
  ∧ Metrics.total_ls_buffer_cycles m
    = (Simulator.cycle s
       * (length ReservationStations.load_buffers
          + length ReservationStations.store_buffers))%nat
  ∧ (Metrics.completed_instructions m ≤ Simulator.cycle s)%nat
  ∧ (Metrics.structural_hazard_stalls m ≤ Simulator.cycle s)%nat
  ∧ (Metrics.rs_busy_cycles m ≤ Metrics.total_rs_cycles m)%nat
  ∧ (Metrics.ls_buffer_busy_cycles m ≤ Metrics.total_ls_buffer_cycles m)%nat
  ∧ (0 <= Metrics.ipc m <= 1)%Q
  ∧ (0 <= Metrics.rs_occupancy_percent m <= 100)%Q
  ∧ (0 <= Metrics.ls_buffer_utilization_percent m <= 100)%Q
  ∧ (0 <= Metrics.stall_percent m <= 100)%Q.
Proof.
  intros (registers & instructions & out & n & Hlen & Hfresh & H). cbv zeta.
  assert (Metrics.total_cycles (Simulator.metrics s) = Simulator.cycle s
    ∧ Metrics.total_rs_cycles (Simulator.metrics s)
      = (Simulator.cycle s
         * (length ReservationStations.alu_stations
            + length ReservationStations.mul_div_stations))%nat
    ∧ Metrics.total_ls_buffer_cycles (Simulator.metrics s)
      = (Simulator.cycle s
         * (length ReservationStations.load_buffers
            + length ReservationStations.store_buffers))%nat
    ∧ (Metrics.completed_instructions (Simulator.metrics s)
       ≤ Simulator.cycle s)%nat
    ∧ (Metrics.structural_hazard_stalls (Simulator.metrics s)
       ≤ Simulator.cycle s)%nat
    ∧ (Metrics.rs_busy_cycles (Simulator.metrics s)
       ≤ Metrics.total_rs_cycles (Simulator.metrics s))%nat
    ∧ (Metrics.ls_buffer_busy_cycles (Simulator.metrics s)
       ≤ Metrics.total_ls_buffer_cycles (Simulator.metrics s))%nat)
    as (H1 & H2 & H3 & H4 & H5 & H6 & H7).
  { assert (Inv (loaded registers instructions out)) as HI
      by by apply loaded_Inv.
    revert s H. induction n as [|n IH]; intros s H; simpl in H.
    - injection H as <-. simpl. split_and!; lia.
    - apply bind_Ok in H as (s1 & Hn & H).
      apply bind_Ok in H as ([s2 b] & Ht & H). injection H as <-.
      destruct (IH _ Hn) as (H1 & H2 & H3 & H4 & H5 & H6 & H7).
      apply tick_counters in Ht; [|by eapply ticks_Inv]. cbv zeta in Ht.
      destruct Ht as (-> & -> & _ & T4 & T5 & -> & -> & T8 & T9).
      rewrite H2 in *. rewrite H3 in *. split_and!; lia. }
  assert (Metrics.completed_instructions (Simulator.metrics s)
          ≤ Metrics.total_cycles (Simulator.metrics s))%nat as H4'
    by by rewrite H1.
  assert (Metrics.structural_hazard_stalls (Simulator.metrics s)
          ≤ Metrics.total_cycles (Simulator.metrics s))%nat as H5'
    by by rewrite H1.
  destruct (ratio_bounds _ _ H4'), (percent_bounds _ _ H5'),
    (percent_bounds _ _ H6), (percent_bounds _ _ H7).
  by split_and!.
Qed.

Lemma report_metrics_bounded_witness :
  let s := state_after 8 scenario_registers trace_two_finish_together in
  let m := Simulator.metrics s in
  Metrics.total_cycles m = Simulator.cycle s
  ∧ Metrics.total_rs_cycles m
    = (Simulator.cycle s
       * (length ReservationStations.alu_stations
          + length ReservationStations.mul_div_stations))%nat
  ∧ Metrics.total_ls_buffer_cycles m
    = (Simulator.cycle s
       * (length ReservationStations.load_buffers
          + length ReservationStations.store_buffers))%nat
  ∧ (Metrics.completed_instructions m ≤ Simulator.cycle s)%nat
  ∧ (Metrics.structural_hazard_stalls m ≤ Simulator.cycle s)%nat
  ∧ (Metrics.rs_busy_cycles m ≤ Metrics.total_rs_cycles m)%nat
  ∧ (Metrics.ls_buffer_busy_cycles m ≤ Metrics.total_ls_buffer_cycles m)%nat
  ∧ (0 <= Metrics.ipc m <= 1)%Q
  ∧ (0 <= Metrics.rs_occupancy_percent m <= 100)%Q
  ∧ (0 <= Metrics.ls_buffer_utilization_percent m <= 100)%Q
  ∧ (0 <= Metrics.stall_percent m <= 100)%Q.
Proof.
  apply (report_metrics_bounded
           (state_after 8 scenario_registers trace_two_finish_together)).
  exists scenario_registers, (program trace_two_finish_together), [], 8%nat.
  split; [reflexivity|]. split; [reflexivity|vm_compute; reflexivity].
Defined.
(** ** Classes of stations and units *)

Lemma first_free_pool (sts : list ReservationStation.t) pool i :
  ReservationStations.first_free sts pool = Some i → i ∈ pool.
Proof.
  induction pool as [|j pool IH]; simpl; [done|].
  destruct (sts !! j) as [st|]; [|by right; apply IH].
  destruct (ReservationStation.busy st); [by right; apply IH|].
  intros [= <-]. by left.
Qed.

Lemma write_back_Dispatched s s' :
  Inv s → Dispatched s → Simulator.write_back s = Ok s' → Dispatched s'.
Proof.
  intros HI [D1 D2 D3] H.
  pose proof (write_back_Inv _ _ HI H) as HI'.
  apply (write_back_frame _ _ HI) in H
    as (_ & _ & _ & Hunits & Hlen & sts' & Hpay & Hm).
  pose proof (λ i st', payload_lookup _ _ i st' Hpay) as Hback.
  assert (∀ j st', Simulator.reservation_stations s' !! j = Some st' →
            ReservationStation.busy st' = true →
            ∃ st, Simulator.reservation_stations s !! j = Some st
              ∧ ReservationStation.op st' = ReservationStation.op st
              ∧ ReservationStation.busy st = true) as Hst.
  { intros j st' Hj Hb.
    destruct Hm as [[Hsts _]|(i & st & n & v & Hi & _ & _ & Hsts & _)].
    - rewrite Hsts in Hj. destruct (Hback j st' Hj) as (st0 & Hst0 & Hp).
      apply payload_fields in Hp as (_ & Ho & _ & _ & _ & _ & Hb' & _).
      exists st0. split_and!; congruence.
    - rewrite Hsts in Hj. destruct (decide (j = i)) as [->|Hne].
      + rewrite list_lookup_insert_eq in Hj.
        * injection Hj as <-. done.
        * unfold ReservationStations.update_from_cdb. rewrite length_fmap.
          by eapply lookup_lt_Some.
      + rewrite list_lookup_insert_ne in Hj by done.
        unfold ReservationStations.update_from_cdb in Hj.
        rewrite list_lookup_fmap in Hj.
        destruct (sts' !! j) as [st1|] eqn:Hj1; [|done]. simpl in Hj.
        injection Hj as <-.
        destruct (update_operand_fields st1 n v) as (_ & Ho & Hbu & _).
        destruct (Hback j st1 Hj1) as (st0 & Hst0 & Hp).
        apply payload_fields in Hp as (_ & Ho' & _ & _ & _ & _ & Hb' & _).
        exists st0. split_and!; congruence. }
  split.
  - rewrite <- D1. apply list_eq. intros ui. rewrite !list_lookup_fmap.
    destruct (Simulator.functional_units s' !! ui) as [u'|] eqn:Hu'.
    + destruct (Hunits ui u' Hu') as (u & -> & Hk & _). simpl. by rewrite Hk.
    + apply lookup_ge_None in Hu'. rewrite Hlen in Hu'.
      apply lookup_ge_None in Hu'. by rewrite Hu'.
  - intros i st' Hi Hb. destruct (Hst i st' Hi Hb) as (st & Hs & Ho & Hb0).
    rewrite Ho. by eapply D2.
  - intros ui u' i st' Hu' Hbu Hr Hi.
    destruct (inv_bound s' HI' ui u' Hu' Hbu)
      as (i' & st0 & Hr' & Hi' & Hb' & _).
    rewrite Hr in Hr'. injection Hr' as <-.
    rewrite Hi in Hi'. injection Hi' as <-.
    destruct (Hst i st' Hi Hb') as (st & Hs & Ho & Hb0).
    destruct (Hunits ui u' Hu') as (u & Hu & Hk & Hbusy).
    destruct (Hbusy Hbu) as [Hub Hur].
    rewrite Ho, Hk. eapply (D3 ui u i st); congruence.
Qed.

Lemma execute_station_Dispatched i s s' :
  Dispatched s → Simulator.execute_station i s = Ok s' → Dispatched s'.
Proof.
  intros [D1 D2 D3] H. apply execute_station_cases in H as [[-> _]|H]; [done|].
  destruct H as (rs & rs' & u & fu & fu' & o & k & ins & Hrs & _ & Hfu & _
                 & Hop & Hsup & _ & _ & Hpay & _ & -> & ->).
  apply payload_set_address_fields in Hpay
    as (_ & Ho' & _ & _ & Hb' & _).
  assert (i < length (Simulator.reservation_stations s))%nat as Hilt
    by by eapply lookup_lt_Some.
  assert (u < length (Simulator.functional_units s))%nat as Hult
    by by eapply lookup_lt_Some.
  assert (∀ j st', <[i := rs']> (Simulator.reservation_stations s) !! j
                   = Some st' →
            ∃ st, Simulator.reservation_stations s !! j = Some st
              ∧ ReservationStation.op st' = ReservationStation.op st
              ∧ ReservationStation.busy st' = ReservationStation.busy st)
    as Hst.
  { intros j st' Hj. destruct (decide (j = i)) as [->|Hne].
    - rewrite list_lookup_insert_eq in Hj by done. injection Hj as <-.
      by exists rs.
    - rewrite list_lookup_insert_ne in Hj by done. by exists st'. }
  split; cbn [Simulator.functional_units Simulator.reservation_stations].
  - rewrite <- D1, list_fmap_insert. simpl.
    apply list_insert_id. by rewrite list_lookup_fmap, Hfu.
  - intros j st' Hj Hb. destruct (Hst j st' Hj) as (st & Hs & Ho & Hb0).
    rewrite Ho. eapply D2; [done|congruence].
  - intros ui u' j st' Hu' Hbu Hr Hj.
    destruct (Hst j st' Hj) as (st & Hs & Ho & Hb0). rewrite Ho.
    destruct (decide (ui = u)) as [->|Hne].
    + rewrite list_lookup_insert_eq in Hu' by done. injection Hu' as <-.
      simpl in *. injection Hr as <-.
      rewrite Hrs in Hs. injection Hs as <-. eauto.
    + rewrite list_lookup_insert_ne in Hu' by done. by eapply D3.
Qed.

Lemma for_each_Dispatched positions : ∀ s s',
  Dispatched s →
  Simulator.for_each Simulator.execute_station positions s = Ok s' →
  Dispatched s'.
Proof.
  induction positions as [|i positions IH]; intros s s' HD H; simpl in H.
  - by injection H as <-.
  - apply bind_Ok in H as (s1 & H1 & H). eapply IH; [|exact H].
    by eapply execute_station_Dispatched.
Qed.

Lemma issue_Dispatched s s' b :
  Inv s → Dispatched s → Simulator.issue s = Ok (s', b) → Dispatched s'.
Proof.
  intros HI [D1 D2 D3] H. destruct b.
  2:{ apply issue_false in H as (Hu & Hsts & _).
      split; rewrite ?Hu, ?Hsts; done. }
  apply issue_detail in H
    as (ins & i & rs & rs' & rf' & Hins & Hav & Hrs & Hnb & -> & Hop).
  assert (i < length (Simulator.reservation_stations s))%nat as Hilt
    by by eapply lookup_lt_Some.
  assert (ReservationStation.op rs' = Some (Instruction.op ins)) as Ho'.
  { destruct (Instruction.op ins).
    1-4: by destruct Hop as (? & ? & ? & ? & _ & _ & _ & ->).
    - by destruct Hop as (? & ? & _ & _ & ->).
    - by destruct Hop as (? & ? & ? & ? & _ & _ & _ & ->). }
  split; simpl.
  - done.
  - intros j st' Hj Hb. destruct (decide (j = i)) as [->|Hne].
    + rewrite list_lookup_insert_eq in Hj by done. injection Hj as <-.
      exists (Instruction.op ins). split; [done|].
      by eapply first_free_pool.
    + rewrite list_lookup_insert_ne in Hj by done. by eapply D2.
  - intros ui u j st' Hu Hbu Hr Hj.
    destruct (inv_bound s HI ui u Hu Hbu) as (j' & st0 & Hr' & Hj' & Hb' & _).
    rewrite Hr in Hr'. injection Hr' as <-.
    rewrite list_lookup_insert_ne in Hj.
    + by eapply D3.
    + intros ->. rewrite Hrs in Hj'. injection Hj' as <-. congruence.
Qed.

Lemma tick_Dispatched s s' b :
  Inv s → Dispatched s → Simulator.tick s = Ok (s', b) → Dispatched s'.
Proof.
  intros HI HD H. unfold Simulator.tick in H.
  apply bind_Ok in H as (s1 & H1 & H).
  apply bind_Ok in H as (s2 & H2 & H).
  apply bind_Ok in H as ([s3 issued] & H3 & H).
  assert (s' = s3) as -> by (destruct (_ && _) in H; by injection H as <- _).
  pose proof (begin_cycle_Inv s HI) as HI0.
  pose proof (write_back_Inv _ _ HI0 H1) as HI1.
  pose proof (execute_Inv _ _ HI1 H2) as HI2.
  assert (Dispatched (Simulator.begin_cycle s)) as HD0 by by destruct HD.
  eapply issue_Dispatched; [exact HI2| |exact H3].
  eapply for_each_Dispatched; [|exact H2].
  by eapply write_back_Dispatched; [exact HI0| |exact H1].
Qed.

Lemma ticks_Dispatched n : ∀ s s',
  Inv s → Dispatched s → Simulator.ticks n s = Ok s' → Dispatched s'.
Proof.
  induction n as [|n IH]; intros s s' HI HD H; simpl in H.
  - by injection H as <-.
  - apply bind_Ok in H as (s1 & H1 & H).
    apply bind_Ok in H as ([s2 b] & H2 & H). injection H as <-.
    eapply tick_Dispatched; [|by eapply IH|exact H2]. by eapply ticks_Inv.
Qed.

Lemma reachable_Dispatched s : reachable s → Dispatched s.
Proof.
  intros (registers & instructions & out & n & Hlen & Hfresh & H).
  eapply ticks_Dispatched; [by apply loaded_Inv| |exact H].
  split; simpl.
  - done.
  - intros i st (name & ->)%init_station. done.
  - intros ui u i st Hu Hb. exfalso.
    unfold FunctionalUnits.init in Hu.
    destruct ui as [|[|[|[|ui]]]]; simpl in Hu; try done;
      injection Hu as <-; done.
Qed.

(** X12: in every state of a run, a busy station holds an operation of
    the class of its pool (ADD/SUB in the ALU stations, MUL/DIV in the
    multiplier stations, LOAD in the load buffers, STORE in the store
    buffers), and a busy functional unit works for a busy station whose
    operation the unit supports: the units keep their classes, and no
    unit is handed an operation of another class. *)
Theorem operations_match_their_class s :
  reachable s →
  FunctionalUnit.kind <$> Simulator.functional_units s
  = [FunctionalUnit.ALU; FunctionalUnit.ALU; FunctionalUnit.MulDiv;
     FunctionalUnit.LoadStore]
  ∧ (∀ i st,
       Simulator.reservation_stations s !! i = Some st →
       ReservationStation.busy st = true →
       ∃ o, ReservationStation.op st = Some o
         ∧ i ∈ ReservationStations.pool_of o)
  ∧ (∀ ui u,
       Simulator.functional_units s !! ui = Some u →
       FunctionalUnit.busy u = true →
       ∃ i st o,
         FunctionalUnit.reservation_station u = Some i
         ∧ Simulator.reservation_stations s !! i = Some st
         ∧ ReservationStation.busy st = true
         ∧ ReservationStation.op st = Some o
         ∧ o ∈ FunctionalUnit.supported_ops (FunctionalUnit.kind u)).
Proof.
  intros Hreach.
  destruct (reachable_Dispatched s Hreach) as [D1 D2 D3].
  pose proof (reachable_Inv s Hreach) as HI.
  split_and!; try done.
  intros ui u Hu Hb.
  destruct (inv_bound s HI ui u Hu Hb) as (i & st & Hr & Hi & Hbs & _).
  destruct (D3 ui u i st Hu Hb Hr Hi) as (o & Ho & Hsup).
  by exists i, st, o.
Qed.

Lemma operations_match_their_class_witness :
  let s := state_after 3 scenario_registers trace_store_loses in
  FunctionalUnit.kind <$> Simulator.functional_units s
  = [FunctionalUnit.ALU; FunctionalUnit.ALU; FunctionalUnit.MulDiv;
     FunctionalUnit.LoadStore]
  ∧ (∀ i st,
       Simulator.reservation_stations s !! i = Some st →
       ReservationStation.busy st = true →
       ∃ o, ReservationStation.op st = Some o
         ∧ i ∈ ReservationStations.pool_of o)
  ∧ (∀ ui u,
       Simulator.functional_units s !! ui = Some u →
       FunctionalUnit.busy u = true →
       ∃ i st o,
         FunctionalUnit.reservation_station u = Some i
         ∧ Simulator.reservation_stations s !! i = Some st
         ∧ ReservationStation.busy st = true
         ∧ ReservationStation.op st = Some o
         ∧ o ∈ FunctionalUnit.supported_ops (FunctionalUnit.kind u)).
Proof.
  apply (operations_match_their_class
           (state_after 3 scenario_registers trace_store_loses)).
  exists scenario_registers, (program trace_store_loses), [], 3%nat.
  split; [reflexivity|]. split; [reflexivity|vm_compute; reflexivity].
Defined.
(** * Runs that cannot raise *)

Lemma memory_read_ok mem a :
  memory_ok mem →
  (∃ v out, Memory.read mem a = Ok (Some v, out))
  ∨ (Memory.read mem a = Raise ValueError
     ∧ ¬ (0 ≤ a < Config.MEMORY_SIZE)
     ∧ 10 ^ int_max_str_digits ≤ Z.abs a).
Proof.
  intros [Hlen Hall]. unfold Memory.read.
  destruct ((a <? 0) || (a >=? Config.MEMORY_SIZE)) eqn:E.
  { unfold py_check_str.
    destruct (Z.ltb_spec (Z.abs a) (10 ^ int_max_str_digits)) as [|Hbig];
      simpl; [left; eauto|right].
    split_and!; try done. intros Hin.
    by rewrite (in_range_test a Hin) in E. }
  left. apply orb_false_iff in E as [E1 E2]. apply Z.ltb_ge in E1.
  destruct (Z.geb_spec a Config.MEMORY_SIZE) as [|E3]; [done|].
  destruct (lookup_lt_is_Some_2 (Memory.memory mem) (Z.to_nat a))
    as [w Hw]; [lia|].
  unfold py_getitem. rewrite Hw. simpl.
  rewrite Forall_lookup in Hall. destruct (Hall _ _ Hw) as [v ->]. eauto.
Qed.

Lemma memory_write_ok mem a v :
  memory_ok mem → is_Some v →
  (∃ mem' out, Memory.write mem a v = Ok (mem', out) ∧ memory_ok mem')
  ∨ (Memory.write mem a v = Raise ValueError
     ∧ ¬ (0 ≤ a < Config.MEMORY_SIZE)
     ∧ 10 ^ int_max_str_digits ≤ Z.abs a).
Proof.
  intros [Hlen Hall] Hv. unfold Memory.write.
  destruct ((a <? 0) || (a >=? Config.MEMORY_SIZE)) eqn:E.
  { unfold py_check_str.
    destruct (Z.ltb_spec (Z.abs a) (10 ^ int_max_str_digits)) as [|Hbig];
      simpl; [left; eexists _, _; by split|right].
    split_and!; try done. intros Hin.
    by rewrite (in_range_test a Hin) in E. }
  left. apply orb_false_iff in E as [E1 E2]. apply Z.ltb_ge in E1.
  destruct (Z.geb_spec a Config.MEMORY_SIZE) as [|E3]; [done|].
  unfold py_setitem. rewrite decide_True by lia. simpl.
  eexists _, _. split; [done|]. split; simpl.
  - by rewrite length_insert.
  - by apply Forall_insert.
Qed.

Lemma unit_ready_payload kind st st' :
  payload st' = payload st → unit_ready kind st → unit_ready kind st'.
Proof.
  intros Hp (o & Ho & Hs & Hv).
  apply payload_fields in Hp
    as (_ & Ho' & Hvj & Hvk & _ & _ & _ & _ & _ & _ & Ha).
  exists o. rewrite Ho', Hvj, Hvk, Ha. done.
Qed.

Lemma unprintable_payload st st' :
  payload st' = payload st → unprintable st' → unprintable st.
Proof.
  intros Hp [Ho Ha].
  apply payload_fields in Hp
    as (_ & Ho' & _ & _ & _ & _ & _ & _ & _ & _ & Ha').
  split; by rewrite <- ?Ho', <- ?Ha'.
Qed.

(** [compute_result] on a station the unit can read: it returns, unless
    the warning for the address cannot be formatted. *)
Lemma compute_result_ok kind st mem :
  memory_ok mem → unit_ready kind st →
  (∃ v mem' out,
     FunctionalUnit.compute_result kind st mem = Ok (v, mem', out)
     ∧ memory_ok mem'
     ∧ (v = None → ReservationStation.op st = Some STORE))
  ∨ (FunctionalUnit.compute_result kind st mem = Raise ValueError
     ∧ unprintable st).
Proof.
  intros Hmem (o & Ho & Hs & Hv). unfold FunctionalUnit.compute_result.
  unfold unprintable. rewrite Ho.
  destruct kind, o; simpl in Hs;
    try (exfalso;
         repeat (apply elem_of_cons in Hs as [Hs|Hs]; [discriminate Hs|]);
         by apply elem_of_nil in Hs).
  - destruct Hv as [[x ->] [y ->]]. simpl. left. by eexists _, _, _.
  - destruct Hv as [[x ->] [y ->]]. simpl. left. by eexists _, _, _.
  - destruct Hv as [[x ->] [y ->]]. simpl. left. by eexists _, _, _.
  - destruct Hv as [[x ->] [y ->]]. left. case_bool_decide; simpl.
    + by eexists _, _, _.
    + by eexists _, _, _.
  - destruct Hv as [a ->].
    destruct (memory_read_ok mem a Hmem) as [(v & out & ->)|(-> & Hout)];
      simpl.
    + left. by eexists _, _, _.
    + right. split; [done|]. split; [by left|by exists a].
  - destruct Hv as [[a ->] Hvk].
    destruct (memory_write_ok mem a _ Hmem Hvk)
      as [(mem' & out & -> & Hm')|(-> & Hout)]; simpl.
    + left. by eexists _, _, _.
    + right. split; [done|]. split; [by right|by exists a].
Qed.

Lemma unit_tick_ok u sts mem :
  memory_ok mem →
  (FunctionalUnit.busy u = true →
   ∃ i st, FunctionalUnit.reservation_station u = Some i
     ∧ sts !! i = Some st
     ∧ unit_ready (FunctionalUnit.kind u) st) →
  (∃ u' sts' mem' out c,
     FunctionalUnit.tick u sts mem = Ok (u', sts', mem', out, c)
     ∧ memory_ok mem'
     ∧ payload <$> sts' = payload <$> sts
     ∧ ∀ n v, c = Some (n, v) → v = None →
         ∃ i st, sts !! i = Some st
           ∧ ReservationStation.name st = n
           ∧ ReservationStation.op st = Some STORE)
  ∨ (FunctionalUnit.tick u sts mem = Raise ValueError
     ∧ FunctionalUnit.busy u = true
     ∧ ∃ i st, FunctionalUnit.reservation_station u = Some i
         ∧ sts !! i = Some st ∧ unprintable st).
Proof.
  intros Hmem Hu. unfold FunctionalUnit.tick.
  destruct (FunctionalUnit.busy u); simpl.
  2:{ left. eexists _, _, _, _, _. by split_and!. }
  destruct (Hu eq_refl) as (i & st & -> & Hst & Hready).
  unfold py_getitem. rewrite Hst. simpl.
  destruct (0 <? _).
  { left. eexists _, _, _, _, _. split_and!; try done.
    by apply payload_insert. }
  set (st1 := ReservationStation.set_execution st _ _).
  destruct (compute_result_ok (FunctionalUnit.kind u) st1 mem Hmem)
    as [(v & mem' & out & -> & Hm' & Hv)|[-> Hun]].
  { by apply (unit_ready_payload _ st). }
  2:{ right. split; [done|]. split; [done|]. exists i, st.
      split; [done|]. split; [done|].
      by apply (unprintable_payload _ st1). }
  left. simpl. eexists _, _, _, _, _. split_and!; try done.
  - unfold st1. replace (ReservationStation.set_execution
               (ReservationStation.set_execution st _ _) false _)
      with (ReservationStation.set_execution st false
              (ReservationStation.execution_cycles_left st - 1))
      by by destruct st.
    by apply payload_insert.
  - intros n v' [= <- <-] Hn. exists i, st. split_and!; try done.
    by apply Hv.
Qed.

Lemma units_tick_ok units : ∀ sts mem,
  memory_ok mem →
  (∀ u, u ∈ units → FunctionalUnit.busy u = true →
     ∃ i st, FunctionalUnit.reservation_station u = Some i
       ∧ sts !! i = Some st
       ∧ unit_ready (FunctionalUnit.kind u) st) →
  (∃ units' sts' mem' out results,
     FunctionalUnits.tick units sts mem
     = Ok (units', sts', mem', out, results)
     ∧ memory_ok mem'
     ∧ payload <$> sts' = payload <$> sts
     ∧ ∀ n v, (n, v) ∈ results → v = None →
         ∃ i st, sts !! i = Some st
           ∧ ReservationStation.name st = n
           ∧ ReservationStation.op st = Some STORE)
  ∨ (FunctionalUnits.tick units sts mem = Raise ValueError
     ∧ ∃ u i st, u ∈ units ∧ FunctionalUnit.busy u = true
         ∧ FunctionalUnit.reservation_station u = Some i
         ∧ sts !! i = Some st ∧ unprintable st).
Proof.
  induction units as [|u units IH]; intros sts mem Hmem Hunits; simpl.
  { left. eexists _, _, _, _, _. split_and!; try done.
    intros n v Hin. by apply elem_of_nil in Hin. }
  destruct (unit_tick_ok u sts mem Hmem)
    as [(u' & sts1 & mem1 & out1 & c & -> & Hmem1 & Hpay1 & Hc)
       |(-> & Hb & i & st & Hr & Hst & Hun)].
  { apply Hunits. by left. }
  2:{ right. split; [done|]. exists u, i, st. split_and!; try done.
      by left. }
  simpl.
  pose proof (λ i st', payload_lookup _ _ i st' Hpay1) as Hback.
  pose proof (λ i st, payload_lookup _ _ i st (eq_sym Hpay1)) as Hforw.
  destruct (IH sts1 mem1 Hmem1)
    as [(units' & sts2 & mem2 & out2 & results & -> & Hmem2 & Hpay2 & Hres)
       |(-> & u0 & i & st1 & Hu0 & Hb0 & Hr0 & Hst1 & Hun)].
  { intros u0 Hu0 Hb0.
    destruct (Hunits u0 (list_elem_of_further _ _ _ Hu0) Hb0)
      as (i & st & Hr & Hst & Hready).
    destruct (Hforw i st Hst) as (st1 & Hst1 & Hp).
    exists i, st1. split_and!; try done.
    by apply (unit_ready_payload _ st). }
  2:{ right. split; [done|].
      destruct (Hback i st1 Hst1) as (st & Hst & Hp).
      exists u0, i, st. split_and!; try done.
      - by right.
      - by apply (unprintable_payload _ st1). }
  left. simpl. eexists _, _, _, _, _. split_and!; try done.
  - by rewrite Hpay2.
  - intros n v Hin Hv. apply elem_of_app in Hin as [Hin|Hin].
    + destruct c as [[n' v']|]; simpl in Hin.
      * apply list_elem_of_singleton in Hin. injection Hin as -> ->.
        by apply (Hc n' v').
      * by apply elem_of_nil in Hin.
    + destruct (Hres n v Hin Hv) as (i & st1 & Hst1 & Hn & Ho).
      destruct (Hback i st1 Hst1) as (st & Hst & Hp).
      apply payload_fields in Hp as (Hn' & Ho' & _).
      exists i, st. split_and!; congruence.
Qed.

Lemma Sound_units_ready s :
  Sound s →
  ∀ u, u ∈ Simulator.functional_units s → FunctionalUnit.busy u = true →
    ∃ i st, FunctionalUnit.reservation_station u = Some i
      ∧ Simulator.reservation_stations s !! i = Some st
      ∧ unit_ready (FunctionalUnit.kind u) st.
Proof.
  intros (HI & HW & HT & HD & HV) u Hu Hb.
  apply list_elem_of_lookup_1 in Hu as [ui Hu].
  destruct (inv_bound s HI ui u Hu Hb)
    as (i & st & Hr & Hst & Hbusy & Hex & Hqj & Hqk).
  destruct (dis_unit s HD ui u i st Hu Hb Hr Hst) as (o & Ho & Hsup).
  destruct (val_operands s HV i st Hst Hbusy) as (Hvj & Hvk & _).
  pose proof (val_address s HV i st Hst Hex) as Ha.
  exists i, st. split_and!; try done. exists o. split_and!; try done.
  destruct o; try (split; [by apply Hvj|apply Hvk; congruence]).
  - apply Ha. by left.
  - split; [apply Ha; by right|apply Hvk; congruence].
Qed.

Lemma well_formed_stamps c ins :
  well_formed (Simulator.set_issue_cycle c ins) = well_formed ins
  ∧ well_formed (Simulator.set_start_cycle c ins) = well_formed ins
  ∧ well_formed (Simulator.set_completion_cycles c ins) = well_formed ins.
Proof. done. Qed.

Lemma well_formed_insert (l : list Instruction.t) k ins ins' :
  l !! k = Some ins → well_formed ins' = well_formed ins →
  (∀ j x, l !! j = Some x → well_formed x = true) →
  ∀ j x, <[k := ins']> l !! j = Some x → well_formed x = true.
Proof.
  intros Hk Hw Hall j x Hj. destruct (decide (j = k)) as [->|Hne].
  - rewrite list_lookup_insert_eq in Hj by by eapply lookup_lt_Some.
    injection Hj as <-. rewrite Hw. by eapply Hall.
  - rewrite list_lookup_insert_ne in Hj by done. by eapply Hall.
Qed.

Lemma write_result_instructions s n v s' :
  Simulator.write_result s n v = Ok s' →
  (∀ j x, Simulator.instructions s !! j = Some x → well_formed x = true) →
  ∀ j x, Simulator.instructions s' !! j = Some x → well_formed x = true.
Proof.
  unfold Simulator.write_result. intros H.
  destruct (CommonDataBus.broadcast _ _ _) as [cdb' b].
  destruct (ReservationStations.get_station_by_name _ _) as [i|].
  2:{ by injection H as <-. }
  apply bind_Ok in H as (rs0 & Hrs0 & H).
  apply bind_Ok in H as (k & Hk & H).
  apply bind_Ok in H as (instrs' & Hst & H).
  unfold Simulator.stamp in Hst.
  apply bind_Ok in Hst as (ins & Hik & Hst). apply py_getitem_Ok in Hik.
  apply py_setitem_Ok in Hst as [Hklt ->].
  apply bind_Ok in H as (rf' & Hrf & H).
  apply bind_Ok in H as (rs1 & Hrs1 & H). injection H as <-.
  simpl. intros Hall. apply (well_formed_insert _ k ins); try done.
Qed.

(** In a sound state [write_back] returns, and the values of the state it
    leaves are sound. *)
Lemma write_back_ok s :
  Sound s →
  (∃ s', Simulator.write_back s = Ok s' ∧ Valued s')
  ∨ (Simulator.write_back s = Raise ValueError
     ∧ ∃ i st, Simulator.reservation_stations s !! i = Some st
         ∧ ReservationStation.executing st = true
         ∧ unprintable st).
Proof.
  intros HS. pose proof HS as (HI & HW & HT & HD & HV).
  destruct (units_tick_ok (Simulator.functional_units s)
              (Simulator.reservation_stations s) (Simulator.memory s)
              (val_memory s HV) (Sound_units_ready s HS))
    as [(units' & sts' & mem' & out & results & Htick & Hmem' & Hpay & Hres)
       |(Hraise & u & i & st & Hu & Hb & Hr & Hst & Hun)].
  2:{ right. split; [unfold Simulator.write_back; by rewrite Hraise|].
      apply list_elem_of_lookup_1 in Hu as [ui Hu].
      destruct (inv_bound s HI ui u Hu Hb)
        as (i' & st' & Hr' & Hst' & _ & Hex & _).
      rewrite Hr in Hr'. injection Hr' as <-.
      rewrite Hst in Hst'. injection Hst' as <-.
      by exists i, st. }
  left. rewrite (write_back_unfold _ _ _ _ _ _ Htick). cbv zeta.
  match goal with
  | |- ∃ s', match _ with [] => Ok ?x | _ => _ end = _ ∧ _ => set (s1 := x)
  end.
  pose proof (units_tick_spec _ _ _ _ _ _ _ _ Htick)
    as (_ & _ & _ & Hon & _).
  pose proof (λ i st', payload_lookup _ _ i st' Hpay) as Hback.
  assert (Valued s1) as HV1.
  { split; simpl; try done.
    - exact (val_registers s HV).
    - intros i st' Hi Hb. destruct (Hback i st' Hi) as (st & Hst & Hp).
      apply payload_fields in Hp
        as (_ & Ho & Hvj & Hvk & Hqj & Hqk & Hb' & _ & _ & Hoff & _).
      rewrite <- Ho, <- Hvj, <- Hvk, <- Hqj, <- Hqk, <- Hoff.
      apply (val_operands s HV i st Hst). congruence.
    - intros i st' Hi He. destruct (Hon i st' Hi He) as (st & Hst & He0).
      destruct (Hback i st' Hi) as (st0 & Hst0 & Hp).
      rewrite Hst in Hst0. injection Hst0 as <-.
      apply payload_fields in Hp
        as (_ & Ho & _ & _ & _ & _ & _ & _ & _ & _ & Ha).
      rewrite <- Ho, <- Ha. by apply (val_address s HV i st).
    - exact (val_instructions s HV). }
  destruct results as [|[n v] rest]; [by exists s1|].
  destruct (first_completion_station _ _ _ _ _ _ _ _ HI Htick)
    as (i & st0 & st1 & _ & _ & _ & _ & _ & Hst0 & Hn0 & Hbusy & Hst1 & Hp1
        & Hfind & _).
  destruct (units_tick_Inv s s1 mem' out _ HI Htick) as [HI1 _]; [done..|].
  assert (Writable s1) as HW1 by by apply (Writable_payload s s1).
  pose proof (payload_fields _ _ Hp1)
    as (Hn1 & Ho1 & _ & _ & _ & _ & Hb1 & Hd1 & _).
  destruct (write_result_returns s1 n v i st1 HI1 HW1 Hfind Hst1)
    as [s' Hwr]; [congruence|].
  exists s'. split; [done|].
  assert (v = None → producing (ReservationStation.op st0) = false) as Hstore.
  { intros Hv.
    destruct (Hres n v (list_elem_of_here _ _) Hv) as (i' & st' & Hi' & Hn' & Ho').
    assert (i' = i) as ->.
    { eapply name_lookup_inj; [exact (inv_names s HI)|done|done|congruence]. }
    rewrite Hst0 in Hi'. injection Hi' as <-. by rewrite Ho'. }
  pose proof (write_result_effect _ _ _ _ i st1 Hwr Hfind Hst1)
    as (Hsts & _ & _ & Hnp & Hp & Hother & _ & _ & Hmem & _).
  change (Simulator.reservation_stations s1) with sts' in Hsts.
  split.
  - apply Forall_lookup. intros r x Hx.
    destruct (producing (ReservationStation.op st1)) eqn:Hprod.
    + destruct (Hp eq_refl) as (r0 & Hr0 & Hv0).
      destruct (decide (r = r0)) as [Heq|Hne].
      * rewrite <- Heq in Hv0.
        pose proof (eq_trans (eq_sym Hx) Hv0) as Hxv. injection Hxv as ->.
        destruct v as [z|]; [done|]. rewrite Ho1, Hstore in Hprod; done.
      * destruct (Hother r) as [Hreg _]; [congruence|].
        exact (proj1 (Forall_lookup _ _) (val_registers s1 HV1) r x
                 (eq_trans (eq_sym Hreg) Hx)).
    + rewrite (Hnp eq_refl) in Hx.
      exact (proj1 (Forall_lookup _ _) (val_registers s1 HV1) r x Hx).
  - rewrite Hmem. exact Hmem'.
  - intros j st' Hj Hb. rewrite Hsts in Hj.
    destruct (decide (j = i)) as [->|Hne].
    { rewrite list_lookup_insert_eq in Hj.
      - injection Hj as <-. done.
      - unfold ReservationStations.update_from_cdb. rewrite length_fmap.
        by eapply lookup_lt_Some. }
    rewrite list_lookup_insert_ne in Hj by done.
    unfold ReservationStations.update_from_cdb in Hj.
    rewrite list_lookup_fmap in Hj.
    destruct (sts' !! j) as [stj|] eqn:Hstj; [|done]. simpl in Hj.
    injection Hj as <-.
    destruct (update_operand_fields stj n v) as (_ & Ho & Hbu & _).
    rewrite Hbu in Hb. rewrite Ho.
    destruct (val_operands s1 HV1 j stj Hstj Hb) as (Hvj & Hvk & Hoff).
    assert (ReservationStation.qj stj = Some n
            ∨ ReservationStation.qk stj = Some n → is_Some v) as Hsome.
    { intros Hw. destruct v as [z|]; [done|]. exfalso.
      destruct (Hback j stj Hstj) as (stj0 & Hstj0 & Hpj).
      apply payload_fields in Hpj as (_ & _ & _ & _ & Hqj & Hqk & _).
      destruct (tag_wait s HT j stj0 n Hstj0)
        as (j' & st'' & Hj' & Hn'' & _ & Hprod & _).
      { by rewrite Hqj, Hqk. }
      assert (j' = i) as ->.
      { eapply name_lookup_inj; [exact (inv_names s HI)|done|done|congruence]. }
      rewrite Hst0 in Hj'. injection Hj' as <-.
      rewrite Hstore in Hprod; done. }
    destruct stj; simpl in *. split_and!.
    + case_bool_decide; [intros _; apply Hsome; by left|done].
    + case_bool_decide; [intros _ _; apply Hsome; by right|done].
    + done.
  - intros j st' Hj He Hop. rewrite Hsts in Hj.
    destruct (decide (j = i)) as [->|Hne].
    { rewrite list_lookup_insert_eq in Hj.
      - injection Hj as <-. done.
      - unfold ReservationStations.update_from_cdb. rewrite length_fmap.
        by eapply lookup_lt_Some. }
    rewrite list_lookup_insert_ne in Hj by done.
    unfold ReservationStations.update_from_cdb in Hj.
    rewrite list_lookup_fmap in Hj.
    destruct (sts' !! j) as [stj|] eqn:Hstj; [|done]. simpl in Hj.
    injection Hj as <-.
    pose proof (val_address s1 HV1 j stj Hstj) as Ha.
    destruct stj; simpl in *. by apply Ha.
  - apply (write_result_instructions _ _ _ _ Hwr).
    exact (val_instructions s1 HV1).
Qed.

Lemma Inv_length s :
  Inv s →
  length (Simulator.reservation_stations s)
  = length ReservationStations.station_names.
Proof. intros HI. by rewrite <- (inv_names s HI), length_fmap. Qed.

(** In a sound state one round of the loop of [execute] returns. *)
Lemma execute_station_ok i s :
  Sound s → (i < length ReservationStations.station_names)%nat →
  ∃ s', Simulator.execute_station i s = Ok s' ∧ Valued s'.
Proof.
  intros (HI & HW & HT & HD & HV) Hi. unfold Simulator.execute_station.
  destruct (lookup_lt_is_Some_2 (Simulator.reservation_stations s) i)
    as [rs Hrs]; [by rewrite Inv_length|].
  unfold py_getitem at 1. rewrite Hrs. simpl.
  destruct (ReservationStation.isReady rs
            && negb (ReservationStation.executing rs)) eqn:Hready;
    [|by exists s].
  apply andb_true_iff in Hready as [Hready _].
  apply isReady_true in Hready as (Hbusy & Hnex & Hqj & Hqk).
  destruct (FunctionalUnits.get_available _ _) as [u|] eqn:Hav; [|by exists s].
  apply get_available_Some in Hav as (fu & o & Hfu & Hop & Hsup & Hfree).
  unfold py_getitem at 1. rewrite Hfu. simpl.
  unfold FunctionalUnit.start_execution. rewrite Hop. simpl.
  destruct (wr_instr s HW i rs Hrs Hbusy) as [k Hk]. rewrite Hk. simpl.
  destruct (inv_instr s HI i rs k Hrs Hk) as (_ & _ & ins & Hins & _).
  unfold Simulator.stamp, py_getitem at 1. rewrite Hins. simpl.
  unfold py_setitem at 1.
  rewrite decide_True by by eapply lookup_lt_Some. simpl.
  destruct (val_operands s HV i rs Hrs Hbusy) as (Hvj & Hvk & Hoff).
  assert (∀ rs'' : ReservationStation.t,
    ReservationStation.op rs'' = ReservationStation.op rs →
    ReservationStation.vj rs'' = ReservationStation.vj rs →
    ReservationStation.vk rs'' = ReservationStation.vk rs →
    ReservationStation.qj rs'' = ReservationStation.qj rs →
    ReservationStation.qk rs'' = ReservationStation.qk rs →
    ReservationStation.offset rs'' = ReservationStation.offset rs →
    (ReservationStation.op rs = Some LOAD
     ∨ ReservationStation.op rs = Some STORE →
     is_Some (ReservationStation.address rs'')) →
    Valued
      {| Simulator.memory := Simulator.memory s;
         Simulator.register_file := Simulator.register_file s;
         Simulator.functional_units :=
           <[u := {| FunctionalUnit.name := FunctionalUnit.name fu;
                     FunctionalUnit.kind := FunctionalUnit.kind fu;
                     FunctionalUnit.busy := true;
                     FunctionalUnit.reservation_station := Some i;
                     FunctionalUnit.cycles_left := LATENCIES o |}]>
             (Simulator.functional_units s);
         Simulator.reservation_stations :=
           <[i := rs'']> (Simulator.reservation_stations s);
         Simulator.cdb := Simulator.cdb s;
         Simulator.metrics := Simulator.metrics s;
         Simulator.instructions :=
           <[k := Simulator.set_start_cycle (Simulator.cycle s) ins]>
             (Simulator.instructions s);
         Simulator.pc := Simulator.pc s;
         Simulator.cycle := Simulator.cycle s;
         Simulator.done := Simulator.done s;
         Simulator.stdout := Simulator.stdout s |}) as Hval.
  { intros rs'' Ho' Hvj' Hvk' Hqj' Hqk' Hoff' Ha'.
    assert (i < length (Simulator.reservation_stations s))%nat as Hilt
      by by eapply lookup_lt_Some.
    split; simpl.
    - exact (val_registers s HV).
    - exact (val_memory s HV).
    - intros j st Hj Hb. destruct (decide (j = i)) as [->|Hne].
      + rewrite list_lookup_insert_eq in Hj by done. injection Hj as <-.
        by rewrite Ho', Hvj', Hvk', Hqj', Hqk', Hoff'.
      + rewrite list_lookup_insert_ne in Hj by done.
        by apply (val_operands s HV j).
    - intros j st Hj He Hls. destruct (decide (j = i)) as [->|Hne].
      + rewrite list_lookup_insert_eq in Hj by done. injection Hj as <-.
        apply Ha'. by rewrite <- Ho'.
      + rewrite list_lookup_insert_ne in Hj by done.
        by apply (val_address s HV j).
    - apply (well_formed_insert _ k ins); try done.
      exact (val_instructions s HV). }
  case_bool_decide as Hls; simpl in Hls.
  - destruct (Hvj Hqj) as [x Hx]. destruct Hoff as [y Hy]; [done|].
    rewrite Hx, Hy. simpl. eexists. split; [done|].
    apply Hval; try done; by intros _.
  - simpl. eexists. split; [done|].
    apply Hval; try done; intros Hc; by destruct Hls.
Qed.

Lemma Sound_execute_station i s s' :
  Sound s → Simulator.execute_station i s = Ok s' → Valued s' → Sound s'.
Proof.
  intros (HI & HW & HT & HD & HV) H HV'. split_and!; try done.
  - by eapply execute_station_Inv.
  - by eapply execute_station_Writable.
  - by eapply execute_station_Tags.
  - by eapply execute_station_Dispatched.
Qed.

Lemma for_each_ok positions : ∀ s,
  Sound s →
  (∀ i, i ∈ positions → (i < length ReservationStations.station_names)%nat) →
  ∃ s', Simulator.for_each Simulator.execute_station positions s = Ok s'
    ∧ Sound s'.
Proof.
  induction positions as [|i positions IH]; intros s HS Hpos; simpl.
  { by exists s. }
  destruct (execute_station_ok i s HS) as (s1 & H1 & HV1).
  { apply Hpos. by left. }
  rewrite H1. simpl. apply IH.
  - by eapply Sound_execute_station.
  - intros j Hj. apply Hpos. by right.
Qed.

Lemma is_register_Ok reg :
  is_register reg = true →
  ∃ r, RegisterFile.get_register_index reg = Ok r
    ∧ (r < Z.to_nat Config.NUM_REGISTERS)%nat.
Proof.
  unfold is_register.
  destruct (RegisterFile.get_register_index reg) as [r|] eqn:E; [|done].
  intros _. exists r. split; [done|]. by eapply get_register_index_lt.
Qed.

Lemma capture_ok rf src v :
  is_register src = true →
  length (RegisterFile.registers rf) = Z.to_nat Config.NUM_REGISTERS →
  length (RegisterFile.status rf) = Z.to_nat Config.NUM_REGISTERS →
  Forall is_Some (RegisterFile.registers rf) →
  ∃ q v', Simulator.capture rf src v = Ok (q, v') ∧ (q = None → is_Some v').
Proof.
  intros (r & Hr & Hlt)%is_register_Ok Hlr Hls Hall.
  unfold Simulator.capture, RegisterFile.get_status, RegisterFile.read.
  rewrite Hr. simpl.
  destruct (lookup_lt_is_Some_2 (RegisterFile.status rf) r) as [t Ht];
    [lia|].
  unfold py_getitem at 1. rewrite Ht. simpl. destruct t as [t|].
  { by eexists _, _. }
  destruct (lookup_lt_is_Some_2 (RegisterFile.registers rf) r) as [w Hw];
    [lia|].
  unfold py_getitem. rewrite Hw. simpl. eexists _, _. split; [done|].
  intros _. exact (proj1 (Forall_lookup _ _) Hall r w Hw).
Qed.

Lemma set_status_ok rf reg tag :
  is_register reg = true →
  length (RegisterFile.status rf) = Z.to_nat Config.NUM_REGISTERS →
  ∃ rf', RegisterFile.set_status rf reg tag = Ok rf'
    ∧ RegisterFile.registers rf' = RegisterFile.registers rf.
Proof.
  intros (r & Hr & Hlt)%is_register_Ok Hls.
  unfold RegisterFile.set_status. rewrite Hr. simpl.
  unfold py_setitem. rewrite decide_True by lia. simpl. by eexists.
Qed.

(** In a sound state [issue] returns. *)
Lemma issue_ok s :
  Sound s → ∃ s' b, Simulator.issue s = Ok (s', b) ∧ Valued s'.
Proof.
  intros (HI & HW & HT & HD & HV). unfold Simulator.issue.
  case_bool_decide as Hpc; [by exists s, false|].
  destruct (lookup_lt_is_Some_2 (Simulator.instructions s) (Simulator.pc s))
    as [ins Hins]; [lia|].
  unfold py_getitem at 1. rewrite Hins. simpl.
  pose proof (val_instructions s HV _ _ Hins) as Hwf.
  destruct (ReservationStations.get_available_station _ _) as [i|] eqn:Hav.
  2:{ eexists _, false. split; [done|]. by destruct HV. }
  apply first_free_Some in Hav as (rs & Hrs & Hnb).
  unfold py_getitem at 1. rewrite Hrs. simpl.
  unfold Simulator.stamp, py_getitem at 1. rewrite Hins. simpl.
  unfold py_setitem at 1. rewrite decide_True by lia. simpl.
  assert (ReservationStation.executing rs = false) as Hnex.
  { destruct (ReservationStation.executing rs) eqn:E; [|done].
    destruct (tag_exec s HT i rs Hrs E) as (? & _). congruence. }
  destruct (tag_free s HT i rs Hrs Hnb) as [Hqj0 Hqk0].
  assert (i < length (Simulator.reservation_stations s))%nat as Hilt
    by by eapply lookup_lt_Some.
  assert (∀ rf' rs',
    RegisterFile.registers rf'
    = RegisterFile.registers (Simulator.register_file s) →
    ReservationStation.executing rs' = false →
    ((ReservationStation.qj rs' = None →
      is_Some (ReservationStation.vj rs'))
     ∧ (ReservationStation.qk rs' = None →
        ReservationStation.op rs' ≠ Some LOAD →
        is_Some (ReservationStation.vk rs'))
     ∧ (ReservationStation.op rs' = Some LOAD
        ∨ ReservationStation.op rs' = Some STORE →
        is_Some (ReservationStation.offset rs'))) →
    Valued
      {| Simulator.memory := Simulator.memory s;
         Simulator.register_file := rf';
         Simulator.functional_units := Simulator.functional_units s;
         Simulator.reservation_stations :=
           <[i := rs']> (Simulator.reservation_stations s);
         Simulator.cdb := Simulator.cdb s;
         Simulator.metrics := Simulator.metrics s;
         Simulator.instructions :=
           <[Simulator.pc s :=
               Simulator.set_issue_cycle (Simulator.cycle s) ins]>
             (Simulator.instructions s);
         Simulator.pc := S (Simulator.pc s);
         Simulator.cycle := Simulator.cycle s;
         Simulator.done := Simulator.done s;
         Simulator.stdout := Simulator.stdout s |}) as Hval.
  { intros rf' rs' Hregs Hex' Hops. split; simpl.
    - rewrite Hregs. exact (val_registers s HV).
    - exact (val_memory s HV).
    - intros j st Hj Hb. destruct (decide (j = i)) as [->|Hne].
      + rewrite list_lookup_insert_eq in Hj by done. by injection Hj as <-.
      + rewrite list_lookup_insert_ne in Hj by done.
        by apply (val_operands s HV j).
    - intros j st Hj He. destruct (decide (j = i)) as [->|Hne].
      + rewrite list_lookup_insert_eq in Hj by done. injection Hj as <-.
        congruence.
      + rewrite list_lookup_insert_ne in Hj by done.
        by apply (val_address s HV j).
    - apply (well_formed_insert _ (Simulator.pc s) ins); try done.
      exact (val_instructions s HV). }
  pose proof (wr_registers s HW) as Hlr. pose proof (wr_status s HW) as Hls.
  pose proof (val_registers s HV) as Hall.
  unfold well_formed in Hwf.
  destruct (Instruction.op ins) eqn:Eop.
  1-4: apply andb_true_iff in Hwf as [Hwf H3];
       apply andb_true_iff in Hwf as [H1 H2];
       destruct (capture_ok (Simulator.register_file s) (Instruction.src1 ins)
                   (ReservationStation.vj rs) H2 Hlr Hls Hall)
         as (qj & vj & -> & Hj);
       destruct (capture_ok (Simulator.register_file s) (Instruction.src2 ins)
                   (ReservationStation.vk rs) H3 Hlr Hls Hall)
         as (qk & vk & -> & Hk);
       destruct (set_status_ok (Simulator.register_file s)
                   (Instruction.dest ins)
                   (Some (ReservationStation.name rs)) H1 Hls)
         as (rf' & -> & Hregs);
       simpl; eexists _, true; split; [done|];
       apply Hval; try done; simpl;
       split_and!;
       first [exact Hj|by intros [|]|intros ? _; by apply Hk].
  - apply andb_true_iff in Hwf as [Hwf H3].
    apply andb_true_iff in Hwf as [H1 H2].
    apply bool_decide_eq_true in H3.
    destruct (capture_ok (Simulator.register_file s) (Instruction.base ins)
                (ReservationStation.vj rs) H2 Hlr Hls Hall)
      as (qj & vj & -> & Hj).
    destruct (set_status_ok (Simulator.register_file s)
                (Instruction.dest ins)
                (Some (ReservationStation.name rs)) H1 Hls)
      as (rf' & -> & Hregs).
    simpl. eexists _, true. split; [done|].
    apply Hval; try done; simpl; split_and!; first [exact Hj|done].
  - apply andb_true_iff in Hwf as [Hwf H3].
    apply andb_true_iff in Hwf as [H1 H2].
    apply bool_decide_eq_true in H3.
    destruct (capture_ok (Simulator.register_file s) (Instruction.base ins)
                (ReservationStation.vj rs) H2 Hlr Hls Hall)
      as (qj & vj & -> & Hj).
    destruct (capture_ok (Simulator.register_file s) (Instruction.src1 ins)
                (ReservationStation.vk rs) H1 Hlr Hls Hall)
      as (qk & vk & -> & Hk).
    simpl. eexists _, true. split; [done|].
    apply Hval; try done; simpl;
      split_and!; first [exact Hj|done|intros ? _; by apply Hk].
Qed.

Lemma begin_cycle_Sound s : Sound s → Sound (Simulator.begin_cycle s).
Proof.
  intros (HI & HW & HT & HD & HV). split_and!.
  - by apply begin_cycle_Inv.
  - by destruct HW.
  - by destruct HT.
  - by destruct HD.
  - by destruct HV.
Qed.

(** In a sound state [tick] returns and leaves a sound state, unless the
    warning for the address of a LOAD or STORE cannot be formatted. *)
Lemma tick_ok s :
  Sound s →
  (∃ s' b, Simulator.tick s = Ok (s', b) ∧ Sound s') ∨ raises_at_limit s.
Proof.
  intros HS. pose proof (begin_cycle_Sound s HS) as HS0.
  unfold raises_at_limit, Simulator.tick.
  destruct (write_back_ok _ HS0) as [(s1 & H1 & HV1)|(H1 & Hst)].
  2:{ right. rewrite H1. by split. }
  left. rewrite H1. simpl.
  pose proof HS0 as (HI0 & HW0 & HT0 & HD0 & _).
  assert (Sound s1) as HS1.
  { split_and!; try done.
    - by eapply write_back_Inv.
    - by eapply write_back_Writable.
    - by eapply write_back_Tags.
    - by eapply write_back_Dispatched. }
  destruct (for_each_ok (seq 0 (length (Simulator.reservation_stations s1)))
              s1 HS1) as (s2 & H2 & HS2).
  { intros i Hi%elem_of_seq. rewrite Inv_length in Hi by apply HS1. lia. }
  unfold Simulator.execute. rewrite H2. simpl.
  destruct (issue_ok s2 HS2) as (s3 & b & H3 & HV3). rewrite H3. simpl.
  pose proof HS2 as (HI2 & HW2 & HT2 & HD2 & _).
  assert (Sound s3) as HS3.
  { split_and!; try done.
    - by eapply issue_Inv.
    - by eapply issue_Writable.
    - by eapply issue_Tags.
    - by eapply issue_Dispatched. }
  destruct (_ && _); eauto.
Qed.

Lemma tick_Sound s s' b :
  Sound s → Simulator.tick s = Ok (s', b) → Sound s'.
Proof.
  intros HS H. destruct (tick_ok s HS) as [(s0 & b0 & H0 & HS')|[Hr _]].
  - rewrite H in H0. by injection H0 as <- <-.
  - rewrite H in Hr. discriminate Hr.
Qed.

Lemma ticks_ok n : ∀ s,
  Sound s →
  (∃ s', Simulator.ticks n s = Ok s' ∧ Sound s')
  ∨ (Simulator.ticks n s = Raise ValueError
     ∧ ∃ m s', (m < n)%nat ∧ Simulator.ticks m s = Ok s' ∧ Sound s'
         ∧ raises_at_limit s').
Proof.
  induction n as [|n IH]; intros s HS; simpl; [left; by exists s|].
  destruct (IH s HS) as [(s1 & H1 & HS1)|(H1 & m & s1 & Hm & Hs1 & HS1 & Hr)].
  - rewrite H1. simpl.
    destruct (tick_ok s1 HS1) as [(s2 & b & -> & HS2)|Hr]; simpl.
    + left. eauto.
    + right. destruct Hr as [Hr Hst]. rewrite Hr. split; [done|].
      exists n, s1. split_and!; try done. lia.
  - right. rewrite H1. split; [done|]. exists m, s1. split_and!; try done.
    lia.
Qed.


Lemma run_loop_ok fuel : ∀ s,
  Sound s →
  (∃ r, Simulator.run_loop fuel s = Ok r)
  ∨ Simulator.run_loop fuel s = Raise ValueError.
Proof.
  induction fuel as [|fuel IH]; intros s HS; simpl; [eauto|].
  destruct (tick_ok s HS) as [(s1 & b & -> & HS1)|[-> _]]; simpl.
  - destruct b; [by apply IH|eauto].
  - by right.
Qed.

Lemma loaded_Sound registers instructions out :
  length registers = Z.to_nat Config.NUM_REGISTERS →
  Forall is_Some registers →
  forallb fresh instructions = true →
  forallb well_formed instructions = true →
  Sound (loaded registers instructions out).
Proof.
  intros Hlen Hints Hfresh Hwf.
  assert (reachable (loaded registers instructions out)) as Hreach.
  { exists registers, instructions, out, 0%nat. by split_and!. }
  split_and!.
  - by apply reachable_Inv.
  - by apply reachable_Writable.
  - by apply reachable_Tags.
  - by apply reachable_Dispatched.
  - split.
    + exact Hints.
    + change (memory_ok Memory.init).
      unfold memory_ok, Memory.init. cbn [Memory.memory].
      split; [apply length_replicate|by apply Forall_replicate].
    + intros i st Hi. change (ReservationStations.init !! i = Some st) in Hi.
      apply init_station in Hi as (name & ->). done.
    + intros i st Hi. change (ReservationStations.init !! i = Some st) in Hi.
      apply init_station in Hi as (name & ->). done.
    + intros k ins Hk. change (instructions !! k = Some ins) in Hk.
      rewrite forallb_forall in Hwf. apply Hwf.
      apply list_elem_of_In. by eapply list_elem_of_lookup_2.
Qed.

(** ** Programs without LOAD and STORE *)

Lemma arithmetic_insert (l : list Instruction.t) k ins ins' :
  l !! k = Some ins →
  Instruction.is_arithmetic ins' = Instruction.is_arithmetic ins →
  (∀ j x, l !! j = Some x → Instruction.is_arithmetic x = true) →
  ∀ j x, <[k := ins']> l !! j = Some x → Instruction.is_arithmetic x = true.
Proof.
  intros Hk Hw Hall j x Hj. destruct (decide (j = k)) as [->|Hne].
  - rewrite list_lookup_insert_eq in Hj by by eapply lookup_lt_Some.
    injection Hj as <-. rewrite Hw. by eapply Hall.
  - rewrite list_lookup_insert_ne in Hj by done. by eapply Hall.
Qed.

Lemma arithmetic_payload s s' :
  payload <$> Simulator.reservation_stations s'
  = payload <$> Simulator.reservation_stations s →
  Simulator.instructions s' = Simulator.instructions s →
  arithmetic_only s → arithmetic_only s'.
Proof.
  intros Hpay Hins [A1 A2]. split; [by rewrite Hins|].
  intros i st' Hi.
  destruct (payload_lookup _ _ i st' Hpay Hi) as (st & Hst & Hp).
  apply payload_fields in Hp as (_ & Ho & _). rewrite <- Ho. by eapply A2.
Qed.

Lemma write_result_arithmetic s n v s' :
  arithmetic_only s → Simulator.write_result s n v = Ok s' →
  arithmetic_only s'.
Proof.
  intros [A1 A2] H. split.
  - unfold Simulator.write_result in H.
    destruct (CommonDataBus.broadcast _ _ _) as [cdb' b].
    destruct (ReservationStations.get_station_by_name _ _) as [i|].
    2:{ by injection H as <-. }
    apply bind_Ok in H as (rs0 & Hrs0 & H).
    apply bind_Ok in H as (k & Hk & H).
    apply bind_Ok in H as (instrs' & Hst & H).
    unfold Simulator.stamp in Hst.
    apply bind_Ok in Hst as (ins & Hik & Hst). apply py_getitem_Ok in Hik.
    apply py_setitem_Ok in Hst as [Hklt ->].
    apply bind_Ok in H as (rf' & Hrf & H).
    apply bind_Ok in H as (rs1 & Hrs1 & H). injection H as <-.
    simpl. by apply (arithmetic_insert _ k ins).
  - apply write_result_stations in H
      as [(_ & Hsts & _)|(i & rs & _ & Hrs & Hn & Hsts)].
    { by rewrite Hsts. }
    intros j st' Hj. rewrite Hsts in Hj.
    destruct (decide (j = i)) as [->|Hne].
    + rewrite list_lookup_insert_eq in Hj.
      * by injection Hj as <-.
      * unfold ReservationStations.update_from_cdb. rewrite length_fmap.
        by eapply lookup_lt_Some.
    + rewrite list_lookup_insert_ne in Hj by done.
      unfold ReservationStations.update_from_cdb in Hj.
      rewrite list_lookup_fmap in Hj.
      destruct (Simulator.reservation_stations s !! j) as [st|] eqn:Hst;
        [|done].
      simpl in Hj. injection Hj as <-.
      destruct (update_operand_fields st n v) as (_ & -> & _).
      by eapply A2.
Qed.

Lemma write_back_arithmetic s s' :
  arithmetic_only s → Simulator.write_back s = Ok s' → arithmetic_only s'.
Proof.
  intros HA H.
  destruct (FunctionalUnits.tick (Simulator.functional_units s)
              (Simulator.reservation_stations s) (Simulator.memory s))
    as [[[[[units' sts'] mem'] out] results]|e] eqn:Htick.
  2:{ unfold Simulator.write_back in H. by rewrite Htick in H. }
  rewrite (write_back_unfold _ _ _ _ _ _ Htick) in H. cbv zeta in H.
  match type of H with
  | match _ with [] => Ok ?x | _ => _ end = _ => set (s1 := x) in *
  end.
  pose proof (units_tick_spec _ _ _ _ _ _ _ _ Htick) as (_ & Hpay & _).
  assert (arithmetic_only s1) as HA1 by by apply (arithmetic_payload s s1).
  destruct results as [|[n v] rest]; [by injection H as <-|].
  by eapply write_result_arithmetic.
Qed.

Lemma execute_station_arithmetic i s s' :
  arithmetic_only s → Simulator.execute_station i s = Ok s' →
  arithmetic_only s'.
Proof.
  intros [A1 A2] Hex.
  apply execute_station_cases in Hex as [[-> _]|Hex]; [done|].
  destruct Hex as (rs & rs' & u & fu & fu' & o & k0 & ins & Hrs & _ & _
                 & _ & _ & _ & _ & Hins & Hpay & _ & _ & ->).
  apply payload_fields in Hpay as (_ & Ho & _). simpl in Ho.
  split; simpl.
  - by apply (arithmetic_insert _ k0 ins).
  - intros j st Hj. destruct (decide (j = i)) as [->|Hne].
    + rewrite list_lookup_insert_eq in Hj by by eapply lookup_lt_Some.
      injection Hj as <-. rewrite Ho. by eapply A2.
    + rewrite list_lookup_insert_ne in Hj by done. by eapply A2.
Qed.

Lemma for_each_arithmetic positions : ∀ s s',
  arithmetic_only s →
  Simulator.for_each Simulator.execute_station positions s = Ok s' →
  arithmetic_only s'.
Proof.
  induction positions as [|i positions IH]; intros s s' HA H; simpl in H.
  - by injection H as <-.
  - apply bind_Ok in H as (s1 & H1 & H2).
    eapply IH; [|exact H2]. by eapply execute_station_arithmetic.
Qed.

Lemma issue_arithmetic s s' b :
  arithmetic_only s → Simulator.issue s = Ok (s', b) → arithmetic_only s'.
Proof.
  intros [A1 A2] Hiss. destruct b.
  2:{ apply issue_false in Hiss as (_ & Hsts & _ & Hins & _).
      split; by rewrite ?Hsts, ?Hins. }
  apply issue_detail in Hiss
    as (ins & i & rs & rs' & rf' & Hins & _ & Hrs & Hnb & -> & Hop).
  pose proof (A1 _ _ Hins) as Ha. apply bool_decide_eq_true in Ha.
  split; simpl.
  - by apply (arithmetic_insert _ (Simulator.pc s) ins).
  - intros j st Hj. destruct (decide (j = i)) as [->|Hne].
    2:{ rewrite list_lookup_insert_ne in Hj by done. by eapply A2. }
    rewrite list_lookup_insert_eq in Hj by by eapply lookup_lt_Some.
    injection Hj as <-.
    destruct (Instruction.op ins);
      try (destruct Hop as (qj & vj & qk & vk & _ & _ & _ & ->); by simpl);
      exfalso;
      repeat (apply elem_of_cons in Ha as [Ha|Ha]; [discriminate Ha|]);
      by apply elem_of_nil in Ha.
Qed.

Lemma tick_arithmetic s s' b :
  arithmetic_only s → Simulator.tick s = Ok (s', b) → arithmetic_only s'.
Proof.
  intros HA H. unfold Simulator.tick in H.
  apply bind_Ok in H as (s1 & H1 & H).
  apply bind_Ok in H as (s2 & H2 & H).
  apply bind_Ok in H as ([s3 issued] & H3 & H).
  assert (arithmetic_only s3) as HA3.
  { eapply issue_arithmetic; [|exact H3].
    eapply for_each_arithmetic; [|exact H2].
    eapply write_back_arithmetic; [|exact H1]. done. }
  destruct (_ && _) in H; by injection H as <- _.
Qed.

(** Without LOAD and STORE no warning about an address is printed: [tick]
    returns. *)
Lemma tick_arithmetic_ok s :
  Sound s → arithmetic_only s →
  ∃ s' b, Simulator.tick s = Ok (s', b) ∧ Sound s' ∧ arithmetic_only s'.
Proof.
  intros HS HA.
  destruct (tick_ok s HS)
    as [(s' & b & H & HS')|(_ & i & st & Hi & _ & Hop & _)].
  - exists s', b. split_and!; try done. by eapply tick_arithmetic.
  - destruct HA as [_ A2]. destruct (A2 i st Hi). by destruct Hop.
Qed.

Lemma ticks_arithmetic_ok n : ∀ s,
  Sound s → arithmetic_only s →
  ∃ s', Simulator.ticks n s = Ok s' ∧ Sound s' ∧ arithmetic_only s'.
Proof.
  induction n as [|n IH]; intros s HS HA; simpl; [by exists s|].
  destruct (IH s HS HA) as (s1 & -> & HS1 & HA1). simpl.
  destruct (tick_arithmetic_ok s1 HS1 HA1) as (s2 & b & -> & HS2 & HA2).
  simpl. eauto.
Qed.

Lemma run_loop_arithmetic_ok fuel : ∀ s,
  Sound s → arithmetic_only s →
  ∃ r, Simulator.run_loop fuel s = Ok r.
Proof.
  induction fuel as [|fuel IH]; intros s HS HA; simpl; [eauto|].
  destruct (tick_arithmetic_ok s HS HA) as (s1 & b & -> & HS1 & HA1). simpl.
  destruct b; [by apply IH|eauto].
Qed.

Lemma loaded_arithmetic registers instructions out :
  forallb Instruction.is_arithmetic instructions = true →
  arithmetic_only (loaded registers instructions out).
Proof.
  intros Ha. split.
  - intros k ins Hk. eapply forallb_forall; [exact Ha|].
    apply list_elem_of_In. by eapply list_elem_of_lookup_2.
  - intros i st Hi.
    change (ReservationStations.init !! i = Some st) in Hi.
    apply init_station in Hi as (name & ->). done.
Qed.

(** X13: the only exception of a run.  With eight integer registers and a
    program of well-formed instructions (each operand its operation uses
    names a register R0..R7, each LOAD and STORE has its offset), a call
    of [tick] returns, leaving integers in all registers and memory cells,
    or raises the [ValueError] of the conversion limit while a LOAD or
    STORE is in execution whose address lies outside the memory and has
    more digits than the limit; so the ticks and the loop of [run] raise
    nothing else, and a program without LOAD and STORE raises nothing. *)
Theorem well_formed_run_raises_only_at_limit registers instructions out n :
  length registers = Z.to_nat Config.NUM_REGISTERS →
  Forall is_Some registers →
  forallb fresh instructions = true →
  forallb well_formed instructions = true →
  ((∃ s, Simulator.ticks n (loaded registers instructions out) = Ok s
      ∧ Forall is_Some (RegisterFile.registers (Simulator.register_file s))
      ∧ Forall is_Some (Memory.memory (Simulator.memory s))
      ∧ ((∃ s' continue, Simulator.tick s = Ok (s', continue))
         ∨ raises_at_limit s))
   ∨ (Simulator.ticks n (loaded registers instructions out)
      = Raise ValueError
      ∧ ∃ m s, (m < n)%nat
          ∧ Simulator.ticks m (loaded registers instructions out) = Ok s
          ∧ raises_at_limit s))
  ∧ ((∃ r, Simulator.run_loop n (loaded registers instructions out) = Ok r)
     ∨ Simulator.run_loop n (loaded registers instructions out)
       = Raise ValueError)
  ∧ (forallb Instruction.is_arithmetic instructions = true →
     (∃ s s' continue,
        Simulator.ticks n (loaded registers instructions out) = Ok s
        ∧ Simulator.tick s = Ok (s', continue))
     ∧ ∃ r, Simulator.run_loop n (loaded registers instructions out) = Ok r).
Proof.
  intros Hlen Hints Hfresh Hwf.
  pose proof (loaded_Sound registers instructions out Hlen Hints Hfresh Hwf)
    as HS.
  split_and!; [|by apply run_loop_ok|].
  - destruct (ticks_ok n _ HS)
      as [(s & Hs & HS')|(Hr & m & s & Hm & Hs & _ & Hlim)].
    2:{ right. split; [done|]. by exists m, s. }
    left. exists s. split; [done|].
    pose proof HS' as (_ & _ & _ & _ & HV).
    split; [exact (val_registers s HV)|].
    split; [exact (proj2 (val_memory s HV))|].
    destruct (tick_ok s HS') as [(s' & b & Ht & _)|Hlim]; eauto.
  - intros Ha.
    pose proof (loaded_arithmetic registers instructions out Ha) as HA.
    split; [|by apply run_loop_arithmetic_ok].
    destruct (ticks_arithmetic_ok n _ HS HA) as (s & Hs & HS' & HA').
    destruct (tick_arithmetic_ok s HS' HA') as (s' & b & Ht & _).
    by exists s, s', b.
Qed.

Lemma well_formed_run_raises_only_at_limit_witness :
  let s0 := loaded scenario_registers (program trace_store_loses) [] in
  ((∃ s, Simulator.ticks 12 s0 = Ok s
      ∧ Forall is_Some (RegisterFile.registers (Simulator.register_file s))
      ∧ Forall is_Some (Memory.memory (Simulator.memory s))
      ∧ ((∃ s' continue, Simulator.tick s = Ok (s', continue))
         ∨ raises_at_limit s))
   ∨ (Simulator.ticks 12 s0 = Raise ValueError
      ∧ ∃ m s, (m < 12)%nat ∧ Simulator.ticks m s0 = Ok s
          ∧ raises_at_limit s))
  ∧ ((∃ r, Simulator.run_loop 12 s0 = Ok r)
     ∨ Simulator.run_loop 12 s0 = Raise ValueError)
  ∧ (forallb Instruction.is_arithmetic (program trace_store_loses) = true →
     (∃ s s' continue,
        Simulator.ticks 12 s0 = Ok s ∧ Simulator.tick s = Ok (s', continue))
     ∧ ∃ r, Simulator.run_loop 12 s0 = Ok r).
Proof.
  apply (well_formed_run_raises_only_at_limit scenario_registers
           (program trace_store_loses) [] 12).
  - reflexivity.
  - unfold scenario_registers. repeat constructor; eauto.
  - reflexivity.
  - vm_compute; reflexivity.
Defined.
(** * Runs that end *)

(** ** Stations wait for earlier instructions *)

Lemma Ordered_payload s s' :
  payload <$> Simulator.reservation_stations s'
  = payload <$> Simulator.reservation_stations s →
  Ordered s → Ordered s'.
Proof.
  intros Hpay [H].
  pose proof (λ i st', payload_lookup _ _ i st' Hpay) as Hback.
  pose proof (λ i st, payload_lookup _ _ i st (eq_sym Hpay)) as Hforw.
  split. intros i st' t Hi Hw.
  destruct (Hback i st' Hi) as (st & Hst & Hp).
  apply payload_fields in Hp
    as (_ & _ & _ & _ & Hqj & Hqk & _ & _ & Hins & _).
  destruct (H i st t Hst) as (j & stj & k & k' & Hj & Hn & Hb & Hk & Hk' & Hlt).
  { by rewrite Hqj, Hqk. }
  destruct (Hforw j stj Hj) as (stj' & Hj' & Hp').
  apply payload_fields in Hp'
    as (Hn' & _ & _ & _ & _ & _ & Hb' & _ & Hins' & _).
  exists j, stj', k, k'. split_and!; congruence.
Qed.

Lemma write_result_Ordered s n v s' :
  Ordered s → Simulator.write_result s n v = Ok s' → Ordered s'.
Proof.
  intros [H] Hwr.
  apply write_result_stations in Hwr
    as [(_ & Hsts & _)|(i & rs & _ & Hrs & Hn & Hsts)].
  { split; rewrite Hsts; done. }
  set (upd := λ st, ReservationStation.update_operand st n v) in *.
  assert (∀ j st', Simulator.reservation_stations s' !! j = Some st' →
            (j = i ∧ st' = ReservationStation.clear (upd rs))
            ∨ (j ≠ i ∧ ∃ st, Simulator.reservation_stations s !! j = Some st
                 ∧ st' = upd st)) as Hlook.
  { intros j st' Hj. rewrite Hsts in Hj.
    destruct (decide (j = i)) as [->|Hne].
    - rewrite list_lookup_insert_eq in Hj.
      + left. split; [done|]. by injection Hj.
      + unfold ReservationStations.update_from_cdb. rewrite length_fmap.
        by eapply lookup_lt_Some.
    - rewrite list_lookup_insert_ne in Hj by done.
      unfold ReservationStations.update_from_cdb in Hj.
      rewrite list_lookup_fmap in Hj.
      destruct (Simulator.reservation_stations s !! j) as [st|]; [|done].
      right. split; [done|]. exists st. split; [done|]. simpl in Hj.
      by injection Hj. }
  split. intros j st' t Hj Hwait.
  destruct (Hlook j st' Hj) as [[-> ->]|(Hne & st & Hst & ->)].
  { by destruct Hwait. }
  assert ((ReservationStation.qj st = Some t
           ∨ ReservationStation.qk st = Some t) ∧ t ≠ n) as [Hold Htn].
  { destruct st; unfold upd in Hwait; simpl in *.
    destruct Hwait as [Hw|Hw]; case_bool_decide; try done.
    - split; [by left|congruence].
    - split; [by right|congruence]. }
  destruct (H j st t Hst Hold)
    as (j' & stj & k & k' & Hj' & Hnj & Hbj & Hk & Hk' & Hlt).
  assert (j' ≠ i) as Hne'.
  { intros ->. rewrite Hrs in Hj'. injection Hj' as <-. congruence. }
  exists j', (upd stj), k, k'. split.
  { rewrite Hsts, list_lookup_insert_ne by done.
    unfold ReservationStations.update_from_cdb.
    by rewrite list_lookup_fmap, Hj'. }
  destruct (update_operand_fields stj n v) as (Hn' & _ & Hb' & _ & Hi' & _).
  destruct (update_operand_fields st n v) as (_ & _ & _ & _ & Hi'' & _).
  fold (upd stj) in Hn', Hb', Hi'. fold (upd st) in Hi''.
  split_and!; congruence.
Qed.

Lemma write_back_Ordered s s' :
  Ordered s → Simulator.write_back s = Ok s' → Ordered s'.
Proof.
  intros HO H. unfold Simulator.write_back in H.
  apply bind_Ok in H as ([[[[units' sts'] mem'] out] results] & Htick & H).
  match type of H with
  | match _ with [] => Ok ?x | _ => _ end = _ => set (s1 := x) in *
  end.
  assert (Ordered s1) as HO1.
  { apply units_tick_spec in Htick as (_ & Hpay & _).
    by apply (Ordered_payload s s1). }
  destruct results as [|[n v] rest].
  - by injection H as <-.
  - by eapply write_result_Ordered.
Qed.

Lemma execute_station_Ordered i s s' :
  Ordered s → Simulator.execute_station i s = Ok s' → Ordered s'.
Proof.
  intros [H] Hex.
  apply execute_station_cases in Hex as [[-> _]|Hex]; [done|].
  destruct Hex as (rs & rs' & u & fu & fu' & o & k0 & ins & Hrs & _ & _
                 & _ & _ & _ & _ & _ & Hpay & _ & _ & ->).
  apply payload_set_address_fields in Hpay
    as (Hn' & _ & Hqj' & Hqk' & Hb' & _ & Hi').
  assert (i < length (Simulator.reservation_stations s))%nat as Hilt
    by by eapply lookup_lt_Some.
  assert (∀ j st', <[i := rs']> (Simulator.reservation_stations s) !! j
                   = Some st' →
            ∃ st, Simulator.reservation_stations s !! j = Some st
              ∧ ReservationStation.name st' = ReservationStation.name st
              ∧ ReservationStation.qj st' = ReservationStation.qj st
              ∧ ReservationStation.qk st' = ReservationStation.qk st
              ∧ ReservationStation.busy st' = ReservationStation.busy st
              ∧ ReservationStation.instruction st'
                = ReservationStation.instruction st) as Hback.
  { intros j st' Hj. destruct (decide (j = i)) as [->|Hne].
    - rewrite list_lookup_insert_eq in Hj by done. injection Hj as <-.
      by exists rs.
    - rewrite list_lookup_insert_ne in Hj by done. by exists st'. }
  assert (∀ j st, Simulator.reservation_stations s !! j = Some st →
            ∃ st', <[i := rs']> (Simulator.reservation_stations s) !! j
                   = Some st'
              ∧ ReservationStation.name st' = ReservationStation.name st
              ∧ ReservationStation.busy st' = ReservationStation.busy st
              ∧ ReservationStation.instruction st'
                = ReservationStation.instruction st) as Hforw.
  { intros j st Hj. destruct (decide (j = i)) as [->|Hne].
    - rewrite list_lookup_insert_eq by done. exists rs'.
      rewrite Hrs in Hj. injection Hj as <-. by split_and!.
    - rewrite list_lookup_insert_ne by done. by exists st. }
  split. simpl. intros j st' t Hj Hw.
  destruct (Hback j st' Hj) as (st & Hst & _ & Hqj & Hqk & _ & Hi).
  destruct (H j st t Hst) as (j' & stj & k & k' & Hj' & Hnj & Hbj & Hk & Hk' & Hlt).
  { by rewrite <- Hqj, <- Hqk. }
  destruct (Hforw j' stj Hj') as (stj' & Hj'' & Hn'' & Hb'' & Hi'').
  exists j', stj', k, k'. split_and!; congruence.
Qed.

Lemma for_each_Ordered positions : ∀ s s',
  Ordered s → Simulator.for_each Simulator.execute_station positions s = Ok s' →
  Ordered s'.
Proof.
  induction positions as [|i positions IH]; intros s s' HT H; simpl in H.
  - by injection H as <-.
  - apply bind_Ok in H as (s1 & H1 & H). eapply IH; [|exact H].
    by eapply execute_station_Ordered.
Qed.

Lemma capture_order s src v q v' t :
  Inv s → Writable s →
  Simulator.capture (Simulator.register_file s) src v = Ok (q, v') →
  q = Some t →
  ∃ j st k', Simulator.reservation_stations s !! j = Some st
    ∧ ReservationStation.name st = t
    ∧ ReservationStation.busy st = true
    ∧ ReservationStation.instruction st = Some k'
    ∧ (k' < Simulator.pc s)%nat.
Proof.
  intros HI HW Hc ->. apply capture_Ok in Hc as (r & _ & [Hc|Hc]).
  - destruct Hc as (t' & [= <-] & _ & Hs).
    destruct (inv_status s HI r t) as (j & st & Hj & Hn & Hb & Hd).
    { unfold status_of. by rewrite Hs. }
    destruct (wr_instr s HW j st Hj Hb) as [k' Hk'].
    destruct (inv_instr s HI j st k' Hj Hk') as (_ & Hlt & _).
    by exists j, st, k'.
  - by destruct Hc.
Qed.

Lemma issue_Ordered s s' b :
  Inv s → Writable s → Ordered s → Simulator.issue s = Ok (s', b) →
  Ordered s'.
Proof.
  intros HI HW [H] Hiss. destruct b.
  2:{ apply issue_false in Hiss as (_ & Hsts & _). split; rewrite Hsts; done. }
  apply issue_detail in Hiss
    as (ins & i & rs & rs' & rf' & Hins & _ & Hrs & Hnb & -> & Hop).
  assert (i < length (Simulator.reservation_stations s))%nat as Hilt
    by by eapply lookup_lt_Some.
  assert (ReservationStation.instruction rs' = Some (Simulator.pc s)
          ∧ ∀ t, ReservationStation.qj rs' = Some t
                 ∨ ReservationStation.qk rs' = Some t →
              ∃ j st k', Simulator.reservation_stations s !! j = Some st
                ∧ ReservationStation.name st = t
                ∧ ReservationStation.busy st = true
                ∧ ReservationStation.instruction st = Some k'
                ∧ (k' < Simulator.pc s)%nat)
    as (Hi' & Hw').
  { destruct (Instruction.op ins).
    1-4: destruct Hop as (qj & vj & qk & vk & Hc1 & Hc2 & _ & ->); simpl;
         split; [done|];
         intros t [Ht|Ht];
         [exact (capture_order _ _ _ _ _ _ HI HW Hc1 Ht)
         |exact (capture_order _ _ _ _ _ _ HI HW Hc2 Ht)].
    - destruct Hop as (qj & vj & Hc1 & _ & ->). simpl. split; [done|].
      intros t [Ht|Ht]; [exact (capture_order _ _ _ _ _ _ HI HW Hc1 Ht)|].
      destruct (H i rs t Hrs (or_intror Ht))
        as (j & st & k & k' & Hj & Hn & Hb & Hk & Hk' & Hlt).
      destruct (inv_instr s HI i rs k Hrs Hk) as (Hbusy & _). congruence.
    - destruct Hop as (qj & vj & qk & vk & Hc1 & Hc2 & _ & ->). simpl.
      split; [done|].
      intros t [Ht|Ht];
        [exact (capture_order _ _ _ _ _ _ HI HW Hc1 Ht)
        |exact (capture_order _ _ _ _ _ _ HI HW Hc2 Ht)]. }
  assert (∀ j st, Simulator.reservation_stations s !! j = Some st →
            ReservationStation.busy st = true →
            <[i := rs']> (Simulator.reservation_stations s) !! j = Some st)
    as Hkeep.
  { intros j st Hj Hb. rewrite list_lookup_insert_ne; [done|].
    intros ->. rewrite Hrs in Hj. injection Hj as <-. congruence. }
  split. simpl. intros j st t Hj Hw.
  destruct (decide (j = i)) as [->|Hne].
  - rewrite list_lookup_insert_eq in Hj by done. injection Hj as <-.
    destruct (Hw' t Hw) as (j' & stj & k' & Hj' & Hn & Hb & Hk' & Hlt).
    exists j', stj, (Simulator.pc s), k'. split_and!; try done.
    by apply Hkeep.
  - rewrite list_lookup_insert_ne in Hj by done.
    destruct (H j st t Hj Hw)
      as (j' & stj & k & k' & Hj' & Hn & Hb & Hk & Hk' & Hlt).
    exists j', stj, k, k'. split_and!; try done. by apply Hkeep.
Qed.

(** ** Stations in execution have a unit *)

(** A station that is still in execution after [FunctionalUnits.tick] was
    in execution before, and the busy units that worked for it still do. *)
Lemma units_tick_driven units : ∀ sts mem units' sts' mem' out results,
  FunctionalUnits.tick units sts mem = Ok (units', sts', mem', out, results) →
  ∀ i st', sts' !! i = Some st' → ReservationStation.executing st' = true →
    ∀ ui u, units !! ui = Some u → FunctionalUnit.busy u = true →
      FunctionalUnit.reservation_station u = Some i →
      ∃ u', units' !! ui = Some u'
        ∧ FunctionalUnit.busy u' = true
        ∧ FunctionalUnit.reservation_station u' = Some i.
Proof.
  induction units as [|u0 units IH];
    intros sts mem units' sts' mem' out results H i st' Hi He ui u Hu Hb Hr.
  { done. }
  simpl in H.
  apply bind_Ok in H as ([[[[u1 sts1] mem1] out1] c] & Hu0 & H).
  apply bind_Ok in H as ([[[[us2 sts2] mem2] out2] res2] & Hus & H).
  injection H as <- <- <- <- <-.
  destruct ui as [|ui]; [|by eapply (IH _ _ _ _ _ _ _ Hus i st' Hi He ui u)].
  simpl in Hu. injection Hu as ->. exists u1. split; [done|].
  pose proof (units_tick_spec _ _ _ _ _ _ _ _ Hus) as (_ & _ & _ & Hon & _).
  destruct (Hon i st' Hi He) as (st1 & Hst1 & He1).
  apply unit_tick_cases in Hu0 as [_ [(Hnb & _)|Hcase]]; [congruence|].
  destruct Hcase as (j & rs & _ & Hrj & Hrs & [Hgo|Hend]).
  - destruct Hgo as (_ & Hb1 & Hr1 & _). split; congruence.
  - destruct Hend as (_ & _ & -> & _). exfalso.
    rewrite Hr in Hrj. injection Hrj as <-.
    rewrite list_lookup_insert_eq in Hst1 by by eapply lookup_lt_Some.
    injection Hst1 as <-. done.
Qed.

Lemma write_back_Driven s s' :
  Driven s → Simulator.write_back s = Ok s' → Driven s'.
Proof.
  intros [H] Hwb. unfold Simulator.write_back in Hwb.
  apply bind_Ok in Hwb as ([[[[units' sts'] mem'] out] results] & Htick & Hwb).
  match type of Hwb with
  | match _ with [] => Ok ?x | _ => _ end = _ => set (s1 := x) in *
  end.
  assert (Driven s1) as [H1].
  { split. simpl. intros i st' Hi He.
    pose proof (units_tick_spec _ _ _ _ _ _ _ _ Htick) as (_ & _ & _ & Hon & _).
    destruct (Hon i st' Hi He) as (st & Hst & He0).
    destruct (H i st Hst He0) as (ui & u & Hu & Hb & Hr).
    destruct (units_tick_driven _ _ _ _ _ _ _ _ Htick i st' Hi He ui u Hu Hb Hr)
      as (u' & Hu' & Hb' & Hr').
    by exists ui, u'. }
  destruct results as [|[n v] rest].
  { by injection Hwb as <-. }
  pose proof (write_result_frame _ _ _ _ Hwb) as (_ & _ & _ & Hfu & _).
  apply write_result_stations in Hwb
    as [(_ & Hsts & _)|(i & rs & _ & Hrs & Hn & Hsts)].
  { split; rewrite Hsts, Hfu; done. }
  split. rewrite Hfu, Hsts. intros j st' Hj He.
  destruct (decide (j = i)) as [->|Hne].
  { rewrite list_lookup_insert_eq in Hj.
    - by injection Hj as <-.
    - unfold ReservationStations.update_from_cdb. rewrite length_fmap.
      by eapply lookup_lt_Some. }
  rewrite list_lookup_insert_ne in Hj by done.
  unfold ReservationStations.update_from_cdb in Hj.
  rewrite list_lookup_fmap in Hj.
  destruct (Simulator.reservation_stations s1 !! j) as [st|] eqn:Hst;
    [|done].
  simpl in Hj. injection Hj as <-.
  destruct (update_operand_fields st n v) as (_ & _ & _ & _ & _ & Hex & _).
  rewrite Hex in He. by apply (H1 j st).
Qed.

Lemma execute_station_Driven i s s' :
  Driven s → Simulator.execute_station i s = Ok s' → Driven s'.
Proof.
  intros [H] Hex.
  apply execute_station_cases in Hex as [[-> _]|Hex]; [done|].
  destruct Hex as (rs & rs' & u & fu & fu' & o & k0 & ins & Hrs & _ & Hfu
                 & Hfree & _ & _ & _ & _ & _ & _ & -> & ->).
  assert (i < length (Simulator.reservation_stations s))%nat as Hilt
    by by eapply lookup_lt_Some.
  assert (u < length (Simulator.functional_units s))%nat as Hult
    by by eapply lookup_lt_Some.
  split. simpl. intros j st Hj He.
  destruct (decide (j = i)) as [->|Hne].
  - exists u. eexists. rewrite list_lookup_insert_eq by done. by split_and!.
  - rewrite list_lookup_insert_ne in Hj by done.
    destruct (H j st Hj He) as (ui & u0 & Hu0 & Hb0 & Hr0).
    exists ui, u0. split_and!; try done.
    rewrite list_lookup_insert_ne; [done|]. intros ->. congruence.
Qed.

Lemma for_each_Driven positions : ∀ s s',
  Driven s → Simulator.for_each Simulator.execute_station positions s = Ok s' →
  Driven s'.
Proof.
  induction positions as [|i positions IH]; intros s s' HT H; simpl in H.
  - by injection H as <-.
  - apply bind_Ok in H as (s1 & H1 & H). eapply IH; [|exact H].
    by eapply execute_station_Driven.
Qed.

Lemma issue_Driven s s' b :
  Tags s → Driven s → Simulator.issue s = Ok (s', b) → Driven s'.
Proof.
  intros HT [H] Hiss. destruct b.
  2:{ apply issue_false in Hiss as (Hu & Hsts & _).
      split; rewrite Hsts, Hu; done. }
  apply issue_detail in Hiss
    as (ins & i & rs & rs' & rf' & Hins & _ & Hrs & Hnb & -> & Hop).
  assert (i < length (Simulator.reservation_stations s))%nat as Hilt
    by by eapply lookup_lt_Some.
  assert (ReservationStation.executing rs = false) as Hex0.
  { destruct (ReservationStation.executing rs) eqn:E; [|done].
    destruct (tag_exec s HT i rs Hrs E) as (? & _). congruence. }
  assert (ReservationStation.executing rs' = false) as Hex'.
  { destruct (Instruction.op ins).
    1-4: by destruct Hop as (? & ? & ? & ? & _ & _ & _ & ->).
    - by destruct Hop as (? & ? & _ & _ & ->).
    - by destruct Hop as (? & ? & ? & ? & _ & _ & _ & ->). }
  split. simpl. intros j st Hj He.
  destruct (decide (j = i)) as [->|Hne].
  - rewrite list_lookup_insert_eq in Hj by done. injection Hj as <-.
    congruence.
  - rewrite list_lookup_insert_ne in Hj by done. by apply (H j st).
Qed.

(** ** The work ahead *)

Lemma sum_list_with_insert {A : Type} (f : A → nat) (l : list A) : ∀ i x y,
  l !! i = Some x →
  (sum_list_with f (<[i := y]> l) + f x = sum_list_with f l + f y)%nat.
Proof.
  induction l as [|a l IH]; intros [|i] x y H; try done; simpl in *.
  - injection H as ->. lia.
  - specialize (IH i x y H). lia.
Qed.

Lemma unit_tick_quiet u sts mem u' sts' mem' out :
  FunctionalUnit.tick u sts mem = Ok (u', sts', mem', out, None) →
  (FunctionalUnit.busy u = false ∧ u' = u ∧ sts' = sts)
  ∨ (FunctionalUnit.busy u = true
     ∧ (unit_work u' + 1 = unit_work u)%nat
     ∧ ∃ i rs e c, sts !! i = Some rs
         ∧ sts' = <[i := ReservationStation.set_execution rs e c]> sts
         ∧ e = ReservationStation.executing rs).
Proof.
  unfold FunctionalUnit.tick. intros H.
  destruct (FunctionalUnit.busy u) eqn:Hb; simpl in H.
  2:{ injection H as <- <- _ _. by left. }
  right. split; [done|].
  destruct (FunctionalUnit.reservation_station u) as [i|]; [|done].
  apply bind_Ok in H as (rs & Hrs & H). apply py_getitem_Ok in Hrs.
  destruct (Z.ltb_spec 0 (FunctionalUnit.cycles_left u - 1)) as [Hlt|Hle].
  - injection H as <- <- _ _. unfold unit_work. rewrite Hb. simpl.
    split; [lia|]. by eexists i, rs, _, _.
  - apply bind_Ok in H as ([[res m1] o1] & _ & H). done.
Qed.

Lemma station_work_set_execution rs c :
  station_work
    (ReservationStation.set_execution rs (ReservationStation.executing rs) c)
  = station_work rs.
Proof. by destruct rs. Qed.

(** A call of [FunctionalUnits.tick] without completions: every busy unit
    counted down by one, and no station started or stopped. *)
Lemma units_tick_quiet units : ∀ sts mem units' sts' mem' out,
  FunctionalUnits.tick units sts mem = Ok (units', sts', mem', out, []) →
  (sum_list_with unit_work units' ≤ sum_list_with unit_work units)%nat
  ∧ (Exists (λ u, FunctionalUnit.busy u = true) units →
     (sum_list_with unit_work units' < sum_list_with unit_work units)%nat)
  ∧ sum_list_with station_work sts' = sum_list_with station_work sts.
Proof.
  induction units as [|u units IH]; intros sts mem units' sts' mem' out H.
  { simpl in H. injection H as <- <- _ _. split_and!; try done.
    by intros ?%Exists_nil. }
  simpl in H.
  apply bind_Ok in H as ([[[[u1 sts1] mem1] out1] c] & Hu & H).
  apply bind_Ok in H as ([[[[us2 sts2] mem2] out2] res2] & Hus & H).
  injection H as <- <- <- <- Hres.
  apply app_eq_nil in Hres as [Hc ->]. destruct c; [done|].
  destruct (IH _ _ _ _ _ _ Hus) as (Hle & Hlt & Hst).
  apply unit_tick_quiet in Hu
    as [(Hb & -> & ->)|(Hb & Hw & i & rs & e & c & Hrs & -> & ->)].
  - simpl. split_and!; [lia| |done].
    intros [Hx|Hx]%Exists_cons; [congruence|]. specialize (Hlt Hx). lia.
  - simpl. split_and!; [lia|intros _; lia|].
    rewrite Hst.
    pose proof (sum_list_with_insert station_work sts i rs
                  (ReservationStation.set_execution rs
                     (ReservationStation.executing rs) c) Hrs) as Hs.
    rewrite station_work_set_execution in Hs. lia.
Qed.

(** [write_back] either completes an instruction, or it only counts the
    units down. *)
Lemma write_back_progress s s' :
  Inv s → Simulator.write_back s = Ok s' →
  Metrics.completed_instructions (Simulator.metrics s')
  = S (Metrics.completed_instructions (Simulator.metrics s))
  ∨ (Simulator.metrics s' = Simulator.metrics s
     ∧ (work s' ≤ work s)%nat
     ∧ (Exists (λ u, FunctionalUnit.busy u = true)
          (Simulator.functional_units s) →
        (work s' < work s)%nat)).
Proof.
  intros HI H.
  destruct (FunctionalUnits.tick (Simulator.functional_units s)
              (Simulator.reservation_stations s) (Simulator.memory s))
    as [[[[[units' sts'] mem'] out] results]|e] eqn:Htick.
  2:{ unfold Simulator.write_back in H. by rewrite Htick in H. }
  rewrite (write_back_unfold _ _ _ _ _ _ Htick) in H. cbv zeta in H.
  destruct results as [|[n v] rest].
  - injection H as <-. right. split; [done|].
    destruct (units_tick_quiet _ _ _ _ _ _ _ Htick) as (Hle & Hlt & Hst).
    unfold work. simpl. rewrite Hst. split; [lia|].
    intros Hx. specialize (Hlt Hx). lia.
  - left.
    destruct (first_completion_station _ _ _ _ _ _ _ _ HI Htick)
      as (i & st0 & st1 & _ & _ & _ & _ & _ & _ & _ & _ & Hst1 & _ & Hfind & _).
    by pose proof (write_result_effect _ _ _ _ i st1 H Hfind Hst1)
      as (_ & Hcompl & _).
Qed.

Lemma execute_station_work i s s' :
  Simulator.execute_station i s = Ok s' →
  (s' = s
   ∧ ∀ rs, Simulator.reservation_stations s !! i = Some rs →
       ReservationStation.isReady rs = true →
       FunctionalUnits.get_available (Simulator.functional_units s)
         (ReservationStation.op rs) = None)
  ∨ (work s' < work s)%nat.
Proof.
  intros H. apply execute_station_cases in H as [H|H]; [by left|right].
  destruct H as (rs & rs' & u & fu & fu' & o & k & ins & Hrs & Hready & Hfu
                 & Hfree & _ & _ & _ & _ & _ & Hex & -> & ->).
  apply isReady_true in Hready as (Hbusy & Hnex & _).
  unfold work. simpl. rewrite length_insert.
  pose proof (sum_list_with_insert unit_work _ u fu
                {| FunctionalUnit.name := FunctionalUnit.name fu;
                   FunctionalUnit.kind := FunctionalUnit.kind fu;
                   FunctionalUnit.busy := true;
                   FunctionalUnit.reservation_station := Some i;
                   FunctionalUnit.cycles_left := LATENCIES o |} Hfu) as Hu.
  pose proof (sum_list_with_insert station_work _ i rs rs' Hrs) as Hs.
  assert (unit_work fu = 0%nat) as Hz
    by (unfold unit_work; by rewrite Hfree).
  change (unit_work _) with (Z.to_nat (LATENCIES o)) in Hu at 2.
  assert (station_work rs = 21%nat) as Hr
    by (unfold station_work; by rewrite Hbusy, Hnex).
  assert (station_work rs' = 0%nat) as Hr'
    by (unfold station_work; rewrite Hex; by rewrite andb_false_r).
  assert (Z.to_nat (LATENCIES o) ≤ 20)%nat by (destruct o; simpl; lia).
  lia.
Qed.

Lemma for_each_work positions : ∀ s s',
  Simulator.for_each Simulator.execute_station positions s = Ok s' →
  (work s' ≤ work s)%nat
  ∧ ((∃ i rs, i ∈ positions
        ∧ Simulator.reservation_stations s !! i = Some rs
        ∧ ReservationStation.isReady rs = true
        ∧ is_Some (FunctionalUnits.get_available
                     (Simulator.functional_units s)
                     (ReservationStation.op rs))) →
     (work s' < work s)%nat).
Proof.
  induction positions as [|j positions IH]; intros s s' H; simpl in H.
  { injection H as <-. split; [done|].
    intros (i & rs & Hi & _). by apply elem_of_nil in Hi. }
  apply bind_Ok in H as (s1 & H1 & H).
  destruct (IH _ _ H) as [Hle Hlt].
  apply execute_station_work in H1 as [[-> Hnone]|H1]; [|lia].
  split; [done|]. intros (i & rs & Hi & Hrs & Hready & Hav).
  apply elem_of_cons in Hi as [->|Hi].
  - rewrite (Hnone rs Hrs Hready) in Hav. by destruct Hav.
  - apply Hlt. by exists i, rs.
Qed.

Lemma issue_work s s' b :
  Simulator.issue s = Ok (s', b) →
  if b then (work s' < work s)%nat else work s' = work s.
Proof.
  intros H. destruct b.
  - apply issue_detail in H
      as (ins & i & rs & rs' & rf' & Hins & _ & Hrs & Hnb & -> & Hop).
    apply lookup_lt_Some in Hins.
    unfold work. simpl. rewrite length_insert.
    pose proof (sum_list_with_insert station_work _ i rs rs' Hrs) as Hs.
    assert (station_work rs = 0%nat) as Hz
      by (unfold station_work; by rewrite Hnb).
    assert (station_work rs' ≤ 21)%nat
      by (unfold station_work; destruct (_ && _); lia).
    lia.
  - apply issue_false in H as (Hu & Hsts & _ & Hi & Hpc & _).
    unfold work. by rewrite Hu, Hsts, Hi, Hpc.
Qed.

(** ** No deadlock *)

(** While a station is busy, a unit is busy or a station is ready: the
    busy station with the earliest instruction waits for no operand. *)
Lemma busy_station_progress s :
  Writable s → Ordered s → Driven s →
  ∀ k i st,
    Simulator.reservation_stations s !! i = Some st →
    ReservationStation.busy st = true →
    ReservationStation.instruction st = Some k →
    Exists (λ u, FunctionalUnit.busy u = true) (Simulator.functional_units s)
    ∨ ∃ j rs, Simulator.reservation_stations s !! j = Some rs
        ∧ ReservationStation.isReady rs = true.
Proof.
  intros HW HO HD k. induction k as [k IH] using lt_wf_ind.
  intros i st Hst Hb Hk.
  destruct (ReservationStation.qj st) as [t|] eqn:Hqj.
  { destruct (ord_wait s HO i st t Hst (or_introl Hqj))
      as (j & st' & k0 & k' & Hj & _ & Hb' & Hk0 & Hk' & Hlt).
    rewrite Hk in Hk0. injection Hk0 as <-. by apply (IH k' Hlt j st'). }
  destruct (ReservationStation.qk st) as [t|] eqn:Hqk.
  { destruct (ord_wait s HO i st t Hst (or_intror Hqk))
      as (j & st' & k0 & k' & Hj & _ & Hb' & Hk0 & Hk' & Hlt).
    rewrite Hk in Hk0. injection Hk0 as <-. by apply (IH k' Hlt j st'). }
  destruct (ReservationStation.executing st) eqn:He.
  - left. destruct (drv_unit s HD i st Hst He) as (ui & u & Hu & Hbu & _).
    apply Exists_exists. exists u. split; [|done].
    by eapply list_elem_of_lookup_2.
  - right. exists i, st. split; [done|]. by apply isReady_true.
Qed.

Lemma get_available_free (units : list FunctionalUnit.t) o :
  FunctionalUnit.kind <$> units
  = FunctionalUnit.kind <$> FunctionalUnits.init →
  Forall (λ u, FunctionalUnit.busy u = false) units →
  is_Some (FunctionalUnits.get_available units (Some o)).
Proof.
  intros Hk Hfree.
  destruct (FunctionalUnits.get_available units (Some o)) eqn:E; [eauto|].
  exfalso. rewrite get_available_None in E.
  destruct units as [|u0 [|u1 [|u2 [|u3 [|]]]]]; try done.
  injection Hk as Hk0 Hk1 Hk2 Hk3.
  apply Forall_cons in Hfree as [Hf0 Hfree].
  apply Forall_cons in Hfree as [Hf1 Hfree].
  apply Forall_cons in Hfree as [Hf2 Hfree].
  apply Forall_cons in Hfree as [Hf3 _].
  pose proof (E 0%nat u0 eq_refl) as E0.
  pose proof (E 2%nat u2 eq_refl) as E2.
  pose proof (E 3%nat u3 eq_refl) as E3.
  unfold FunctionalUnit.can_accept in *.
  rewrite Hk0, Hf0 in E0. rewrite Hk2, Hf2 in E2. rewrite Hk3, Hf3 in E3.
  destruct o; simpl in *; done.
Qed.

Lemma busy_count_pos sts :
  (0 < busy_count sts)%nat ↔
  ∃ i st, sts !! i = Some st ∧ ReservationStation.busy st = true.
Proof.
  induction sts as [|x sts IH].
  { split; [by intros ?%Nat.lt_irrefl|by intros (i & st & ? & _)]. }
  rewrite busy_count_cons. split.
  - destruct (ReservationStation.busy x) eqn:Hx.
    + intros _. by exists 0%nat, x.
    + intros H. destruct (proj1 IH) as (i & st & Hi & Hb); [lia|].
      by exists (S i), st.
  - intros (i & st & Hi & Hb). destruct i as [|i]; simpl in Hi.
    + injection Hi as ->. rewrite Hb. lia.
    + assert (0 < busy_count sts)%nat by (apply IH; eauto). lia.
Qed.

Lemma first_free_None (sts : list ReservationStation.t) pool :
  ReservationStations.first_free sts pool = None →
  ∀ j st, j ∈ pool → sts !! j = Some st → ReservationStation.busy st = true.
Proof.
  induction pool as [|i pool IH]; simpl; intros H j st Hj Hst.
  { by apply elem_of_nil in Hj. }
  destruct (sts !! i) as [sti|] eqn:Hi.
  - destruct (ReservationStation.busy sti) eqn:Hb; [|done].
    apply elem_of_cons in Hj as [->|Hj]; [|by eapply IH].
    rewrite Hi in Hst. by injection Hst as <-.
  - apply elem_of_cons in Hj as [->|Hj]; [|by eapply IH]. congruence.
Qed.

(** A stall of [issue] before the end of the program leaves a busy
    station. *)
Lemma issue_stall s s' :
  Inv s → Simulator.issue s = Ok (s', false) →
  (Simulator.pc s < length (Simulator.instructions s))%nat →
  (0 < busy_count (Simulator.reservation_stations s))%nat.
Proof.
  intros HI H Hpc. unfold Simulator.issue in H.
  case_bool_decide as Hge; [lia|].
  apply bind_Ok in H as (ins & Hins & H).
  destruct (ReservationStations.get_available_station _ _) as [i|] eqn:Hav.
  { apply bind_Ok in H as (rs0 & Hrs0 & H).
    apply bind_Ok in H as (instrs' & Hst & H).
    apply bind_Ok in H as ([rs' rf'] & Hop & H). done. }
  pose proof (first_free_None _ _ Hav) as Hall.
  pose proof (Inv_length s HI) as Hlen.
  assert (∃ j, j ∈ ReservationStations.pool_of (Instruction.op ins)
               ∧ (j < length ReservationStations.station_names)%nat)
    as (j & Hj & Hjlt).
  { destruct (Instruction.op ins);
      [exists 0%nat|exists 0%nat|exists 3%nat|exists 3%nat|exists 5%nat
      |exists 7%nat];
      (split; [apply elem_of_seq; vm_compute; lia|vm_compute; lia]). }
  destruct (lookup_lt_is_Some_2 (Simulator.reservation_stations s) j)
    as [st Hst]; [lia|].
  apply busy_count_pos. exists j, st. split; [done|]. by eapply Hall.
Qed.

(** ** Every cycle makes progress *)

Lemma tick_phases s s' b :
  Simulator.tick s = Ok (s', b) →
  ∃ s1 s2 issued,
    Simulator.write_back (Simulator.begin_cycle s) = Ok s1
    ∧ Simulator.for_each Simulator.execute_station
        (seq 0 (length (Simulator.reservation_stations s1))) s1 = Ok s2
    ∧ Simulator.issue s2 = Ok (s', issued)
    ∧ b = negb (negb issued
                && bool_decide (length (Simulator.instructions s')
                                ≤ Simulator.pc s')%nat
                && forallb (λ rs, negb (ReservationStation.busy rs))
                     (Simulator.reservation_stations s')).
Proof.
  intros H. unfold Simulator.tick in H.
  apply bind_Ok in H as (s1 & H1 & H).
  apply bind_Ok in H as (s2 & H2 & H).
  apply bind_Ok in H as ([s3 issued] & H3 & H).
  exists s1, s2, issued.
  destruct (_ && _) eqn:E in H; injection H as <- <-; by rewrite E.
Qed.

Lemma tick_Live s s' b : Live s → Simulator.tick s = Ok (s', b) → Live s'.
Proof.
  intros (HS & HO & HD & HA) H.
  pose proof (tick_Sound s s' b HS H) as HS'.
  pose proof HS as (HI & _).
  split_and!; [done| | |by eapply tick_Accounted].
  - apply tick_phases in H as (s1 & s2 & issued & H1 & H2 & H3 & _).
    destruct (begin_cycle_Sound s HS) as (HI0 & HW0 & HT0 & HD0 & HV0).
    pose proof (write_back_Inv _ _ HI0 H1) as HI1.
    pose proof (write_back_Writable _ _ HW0 H1) as HW1.
    eapply issue_Ordered; [| | |exact H3].
    + by eapply for_each_Inv.
    + by eapply for_each_Writable.
    + eapply for_each_Ordered; [|exact H2].
      eapply write_back_Ordered; [|exact H1]. by destruct HO.
  - apply tick_phases in H as (s1 & s2 & issued & H1 & H2 & H3 & _).
    destruct (begin_cycle_Sound s HS) as (HI0 & HW0 & HT0 & HD0 & HV0).
    pose proof (write_back_Inv _ _ HI0 H1) as HI1.
    pose proof (write_back_Tags _ _ HI0 HT0 H1) as HT1.
    eapply issue_Driven; [| |exact H3].
    + by eapply for_each_Tags.
    + eapply for_each_Driven; [|exact H2].
      eapply write_back_Driven; [|exact H1]. by destruct HD.
Qed.

(** A cycle after which the run goes on has completed an instruction, or
    it has reduced the work ahead. *)
Lemma tick_progress s s' :
  Live s → Simulator.tick s = Ok (s', true) →
  (remaining s' < remaining s)%nat
  ∨ (remaining s' = remaining s ∧ (work s' < work s)%nat).
Proof.
  intros HL H. pose proof (tick_Live _ _ _ HL H) as (_ & _ & _ & HA').
  destruct HL as (HS & HO & HD & HA).
  apply tick_phases in H as (s1 & s2 & issued & H1 & H2 & H3 & Hb).
  pose proof (begin_cycle_Sound s HS) as HS0.
  pose proof HS0 as (HI0 & HW0 & HT0 & HD0 & HV0).
  pose proof (write_back_Inv _ _ HI0 H1) as HI1.
  pose proof (write_back_Writable _ _ HW0 H1) as HW1.
  pose proof (write_back_Dispatched _ _ HI0 HD0 H1) as HD1.
  assert (Ordered s1) as HO1
    by (eapply write_back_Ordered; [|exact H1]; by destruct HO).
  assert (Driven s1) as HDr1
    by (eapply write_back_Driven; [|exact H1]; by destruct HD).
  pose proof (for_each_Inv _ _ _ HI1 H2) as HI2.
  pose proof (write_back_frame _ _ HI0 H1)
    as (Hpc1 & _ & Hl1 & Hunits & _ & _).
  pose proof (for_each_frame _ _ _ H2) as (Hpc2 & _ & Hl2 & Hm2 & Hb2).
  pose proof (issue_frame _ _ _ H3) as (_ & Hl3 & _ & Hi3).
  pose proof (for_each_work _ _ _ H2) as [Hw2 Hw2'].
  pose proof (issue_work _ _ _ H3) as Hw3.
  assert (Metrics.completed_instructions (Simulator.metrics s')
          = Metrics.completed_instructions (Simulator.metrics s1)) as Hc3.
  { rewrite <- Hm2. destruct issued.
    - by destruct Hi3 as (_ & _ & -> & _).
    - by destruct Hi3 as (_ & _ & [-> | ->]). }
  assert (length (Simulator.instructions s')
          = length (Simulator.instructions s)) as Hlen by (simpl in *; congruence).
  destruct (write_back_progress _ _ HI0 H1) as [Hdone|(Hm1 & Hw1 & Hw1')].
  { left. unfold remaining. rewrite Hlen, Hc3, Hdone. simpl.
    destruct HA' as [A1 A2 _]. rewrite Hc3, Hdone in A1. simpl in A1. lia. }
  right. split.
  { unfold remaining. by rewrite Hlen, Hc3, Hm1. }
  change (work (Simulator.begin_cycle s)) with (work s) in *.
  destruct issued; [lia|].
  destruct Hi3 as (Hpc3 & Hsts3 & _).
  assert (0 < busy_count (Simulator.reservation_stations s1))%nat as Hbusy.
  { rewrite <- Hb2. simpl in Hb. symmetry in Hb.
    apply negb_true_iff, andb_false_iff in Hb as [Hb|Hb].
    - apply bool_decide_eq_false in Hb.
      apply (issue_stall s2 s' HI2 H3). lia.
    - rewrite <- Hsts3.
      destruct (busy_count (Simulator.reservation_stations s')) eqn:E; [|lia].
      exfalso. rewrite <- not_true_iff_false in Hb. apply Hb.
      clear -E. induction (Simulator.reservation_stations s') as [|x l IH];
        [done|].
      rewrite busy_count_cons in E. simpl.
      destruct (ReservationStation.busy x); [lia|]. simpl. apply IH. lia. }
  apply busy_count_pos in Hbusy as (i & st & Hst & Hbst).
  destruct (wr_instr s1 HW1 i st Hst Hbst) as [k Hk].
  assert (Exists (λ u, FunctionalUnit.busy u = true)
            (Simulator.functional_units s1) →
          (work s' < work s)%nat) as Hunit.
  { intros Hx. apply Exists_exists in Hx as (u' & Hu' & Hbu').
    apply list_elem_of_lookup_1 in Hu' as [ui Hu'].
    destruct (Hunits ui u' Hu') as (u & Hu & _ & Hbu).
    destruct (Hbu Hbu') as [Hbusy _].
    assert ((work s1 < work s)%nat); [|lia].
    apply Hw1'. apply Exists_exists. exists u. split; [|done].
    by eapply list_elem_of_lookup_2. }
  destruct (busy_station_progress s1 HW1 HO1 HDr1 k i st Hst Hbst Hk)
    as [Hx|(j & rs & Hj & Hready)]; [by apply Hunit|].
  destruct (decide (Forall (λ u, FunctionalUnit.busy u = false)
                      (Simulator.functional_units s1))) as [Hfree|Hnfree].
  - assert ((work s2 < work s1)%nat); [|lia].
    apply Hw2'. exists j, rs. split_and!; try done.
    + apply elem_of_seq. split; [lia|]. simpl. by eapply lookup_lt_Some.
    + pose proof Hready as (Hbj & _)%isReady_true.
      destruct (dis_pool s1 HD1 j rs Hj Hbj) as (o & -> & _).
      apply get_available_free; [|done]. exact (dis_kinds s1 HD1).
  - apply Hunit. apply not_Forall_Exists in Hnfree; [|apply _].
    eapply Exists_impl; [exact Hnfree|]. simpl. intros u Hu.
    by destruct (FunctionalUnit.busy u).
Qed.

(** The loop of [run] ends, by induction on the instructions that remain
    and on the work ahead: it returns, or a tick raises at the conversion
    limit. *)
Lemma run_loop_terminates : ∀ r w s,
  Live s → remaining s = r → work s = w →
  ∃ fuel, (∃ s', Simulator.run_loop fuel s = Ok (Some s'))
          ∨ Simulator.run_loop fuel s = Raise ValueError.
Proof.
  induction r as [r IHr] using lt_wf_ind.
  induction w as [w IHw] using lt_wf_ind.
  intros s HL Hr Hw. pose proof HL as (HS & _).
  destruct (tick_ok s HS) as [(s1 & b & Ht & _)|[Ht _]].
  2:{ exists 1%nat. right. simpl. by rewrite Ht. }
  destruct b.
  - pose proof (tick_Live _ _ _ HL Ht) as HL1.
    destruct (tick_progress _ _ HL Ht) as [Hlt|[Heq Hlt]].
    + destruct (IHr (remaining s1) ltac:(lia) (work s1) s1 HL1 eq_refl eq_refl)
        as (fuel & Hrun).
      exists (S fuel). simpl. by rewrite Ht.
    + destruct (IHw (work s1) ltac:(lia) s1 HL1 ltac:(lia) eq_refl)
        as (fuel & Hrun).
      exists (S fuel). simpl. by rewrite Ht.
  - exists 1%nat. left. exists s1. simpl. by rewrite Ht.
Qed.

(** Without LOAD and STORE the loop returns. *)
Lemma run_loop_arithmetic_terminates s :
  Live s → arithmetic_only s →
  ∃ fuel s', Simulator.run_loop fuel s = Ok (Some s').
Proof.
  intros HL HA.
  destruct (run_loop_terminates _ _ s HL eq_refl eq_refl)
    as (fuel & [[s' Hrun]|Hraise]); [by exists fuel, s'|].
  destruct HL as (HS & _).
  destruct (run_loop_arithmetic_ok fuel s HS HA) as [r Hr].
  rewrite Hr in Hraise. discriminate Hraise.
Qed.


Lemma loaded_Live registers instructions out :
  length registers = Z.to_nat Config.NUM_REGISTERS →
  Forall is_Some registers →
  forallb fresh instructions = true →
  forallb well_formed instructions = true →
  Live (loaded registers instructions out).
Proof.
  intros Hlen Hints Hfresh Hwf. split_and!.
  - by apply loaded_Sound.
  - split. intros i st t Hi.
    change (ReservationStations.init !! i = Some st) in Hi.
    apply init_station in Hi as (name & ->). by intros [|].
  - split. intros i st Hi.
    change (ReservationStations.init !! i = Some st) in Hi.
    apply init_station in Hi as (name & ->). done.
  - apply reachable_Accounted.
    exists registers, instructions, out, 0%nat. by split_and!.
Qed.

Lemma run_loop_cycles fuel : ∀ s s',
  Simulator.run_loop fuel s = Ok (Some s') →
  ∃ n s0, (n < fuel)%nat
    ∧ Simulator.ticks n s = Ok s0 ∧ Simulator.tick s0 = Ok (s', false).
Proof.
  induction fuel as [|fuel IH]; intros s s' H; simpl in H; [done|].
  apply bind_Ok in H as ([s1 b] & Ht & H). destruct b.
  - destruct (IH _ _ H) as (n & s0 & Hlt & Hn & H0).
    exists (S n), s0. rewrite (ticks_front _ _ _ _ Ht). split_and!; [lia|done..].
  - injection H as <-. exists 0%nat, s. split_and!; [lia|done..].
Qed.




(** * The destination register at write-back *)


(** X15: in a run, when [write_back] processes the completion of a station
    whose operation writes a register, the destination register holds the
    result afterwards whatever its status was: the status is cleared if it
    named the station and is kept otherwise, so the value is written even
    when the register is already renamed to, or was written by, a later
    instruction. *)
Theorem write_back_writes_destination s units' sts' mem' out n v rest :
  reachable s →
  FunctionalUnits.tick (Simulator.functional_units (Simulator.begin_cycle s))
    (Simulator.reservation_stations (Simulator.begin_cycle s))
    (Simulator.memory (Simulator.begin_cycle s))
  = Ok (units', sts', mem', out, (n, v) :: rest) →
  ∃ s' i w,
    Simulator.write_back (Simulator.begin_cycle s) = Ok s'
    ∧ Simulator.reservation_stations s !! i = Some w
    ∧ ReservationStation.name w = n
    ∧ (producing (ReservationStation.op w) = true →
       ∃ r, dest_index w = Some r
         ∧ RegisterFile.registers (Simulator.register_file s') !! r = Some v
         ∧ status_of s' r
           = if bool_decide (status_of s r = Some n) then None
             else status_of s r).
Proof.
  intros Hreach Htick.
  destruct (write_back_returns _ _ _ _ _ _ Hreach Htick) as [s' Hwb].
  pose proof (begin_cycle_Inv _ (reachable_Inv _ Hreach)) as HI.
  destruct (completions_of_cycle _ _ _ _ _ _ _ _ _ HI Htick Hwb)
    as [(i & st0 & st1 & Hst0 & Hn0 & Hst1 & Hp1 & Hfind & Hwr) _].
  exists s', i, st0. split_and!; try done.
  intros Hprod.
  pose proof (payload_fields _ _ Hp1) as (_ & Ho & _).
  destruct (write_result_destination _ _ _ _ i st1 Hwr Hfind Hst1)
    as (r & Hr & Hv & Hs); [by rewrite Ho|].
  exists r. split_and!; try done.
  by rewrite <- (dest_index_payload _ _ Hp1).
Qed.

Lemma write_back_writes_destination_witness :
  ∃ s' i w,
    Simulator.write_back
      (Simulator.begin_cycle
         (state_after 11 scenario_registers trace_slow_then_fast)) = Ok s'
    ∧ Simulator.reservation_stations
        (state_after 11 scenario_registers trace_slow_then_fast) !! i = Some w
    ∧ ReservationStation.name w = "MUL1"
    ∧ (producing (ReservationStation.op w) = true →
       ∃ r, dest_index w = Some r
         ∧ RegisterFile.registers (Simulator.register_file s') !! r
           = Some (Some 35)
         ∧ status_of s' r
           = if bool_decide
                  (status_of
                     (state_after 11 scenario_registers trace_slow_then_fast)
                     r = Some "MUL1")
             then None
             else status_of
                    (state_after 11 scenario_registers trace_slow_then_fast)
                    r).
Proof.
  eassert (FunctionalUnits.tick
             (Simulator.functional_units
                (Simulator.begin_cycle
                   (state_after 11 scenario_registers trace_slow_then_fast)))
             (Simulator.reservation_stations
                (Simulator.begin_cycle
                   (state_after 11 scenario_registers trace_slow_then_fast)))
             (Simulator.memory
                (Simulator.begin_cycle
                   (state_after 11 scenario_registers trace_slow_then_fast)))
           = Ok (_, _, _, _, [("MUL1", Some 35)])) as Htick
    by (vm_compute; reflexivity).
  assert (reachable (state_after 11 scenario_registers trace_slow_then_fast))
    as Hreach.
  { exists scenario_registers, (program trace_slow_then_fast), [], 11%nat.
    split; [reflexivity|]. split; [reflexivity|vm_compute; reflexivity]. }
  exact (write_back_writes_destination _ _ _ _ _ _ _ _ Hreach Htick).
Defined.
(** * Timestamps and latencies *)

Lemma unit_tick_clock u sts mem u' sts' mem' out c :
  FunctionalUnit.tick u sts mem = Ok (u', sts', mem', out, c) →
  payload <$> sts' = payload <$> sts
  ∧ (FunctionalUnit.busy u' = true →
     FunctionalUnit.busy u = true
     ∧ FunctionalUnit.reservation_station u'
       = FunctionalUnit.reservation_station u
     ∧ FunctionalUnit.cycles_left u' = FunctionalUnit.cycles_left u - 1
     ∧ 0 < FunctionalUnit.cycles_left u')
  ∧ (∀ n v, c = Some (n, v) →
     ∃ i st, FunctionalUnit.busy u = true
       ∧ FunctionalUnit.reservation_station u = Some i
       ∧ sts !! i = Some st
       ∧ ReservationStation.name st = n
       ∧ FunctionalUnit.cycles_left u - 1 ≤ 0).
Proof.
  unfold FunctionalUnit.tick. intros H.
  destruct (FunctionalUnit.busy u) eqn:Hb; simpl in H.
  2:{ injection H as <- <- _ _ <-. split_and!; [done|congruence|done]. }
  destruct (FunctionalUnit.reservation_station u) as [i|] eqn:Hr; [|done].
  apply bind_Ok in H as (rs & Hrs & H). apply py_getitem_Ok in Hrs.
  destruct (Z.ltb_spec 0 (FunctionalUnit.cycles_left u - 1)) as [Hlt|Hle].
  - injection H as <- <- _ _ <-. split_and!; [|done..].
    by apply payload_insert.
  - apply bind_Ok in H as ([[res m1] o1] & _ & H).
    injection H as <- <- _ _ <-. split_and!; [|done|].
    + replace (ReservationStation.set_execution
                 (ReservationStation.set_execution rs _ _) false _)
        with (ReservationStation.set_execution rs false
                (ReservationStation.execution_cycles_left rs - 1))
        by by destruct rs.
      by apply payload_insert.
    + intros n v [= <- <-]. exists i, rs. by split_and!.
Qed.

(** The countdowns in one call of [FunctionalUnits.tick]: a unit that is
    still busy has counted down by one and has cycles left; a completion
    comes from a busy unit whose countdown ended. *)
Lemma units_tick_clock units : ∀ sts mem units' sts' mem' out results,
  FunctionalUnits.tick units sts mem = Ok (units', sts', mem', out, results) →
  (∀ ui u', units' !! ui = Some u' → FunctionalUnit.busy u' = true →
     ∃ u, units !! ui = Some u
       ∧ FunctionalUnit.busy u = true
       ∧ FunctionalUnit.reservation_station u'
         = FunctionalUnit.reservation_station u
       ∧ FunctionalUnit.cycles_left u' = FunctionalUnit.cycles_left u - 1
       ∧ 0 < FunctionalUnit.cycles_left u')
  ∧ (∀ n v, (n, v) ∈ results →
       ∃ ui u i st, units !! ui = Some u
         ∧ FunctionalUnit.busy u = true
         ∧ FunctionalUnit.reservation_station u = Some i
         ∧ sts !! i = Some st
         ∧ ReservationStation.name st = n
         ∧ FunctionalUnit.cycles_left u - 1 ≤ 0).
Proof.
  induction units as [|u0 units IH];
    intros sts mem units' sts' mem' out results H.
  { simpl in H. injection H as <- _ _ _ <-. split; [done|].
    intros n v Hin. by apply elem_of_nil in Hin. }
  simpl in H.
  apply bind_Ok in H as ([[[[u1 sts1] mem1] out1] c] & Hu & H).
  apply bind_Ok in H as ([[[[us2 sts2] mem2] out2] res2] & Hus & H).
  injection H as <- <- <- <- <-.
  destruct (unit_tick_clock _ _ _ _ _ _ _ _ Hu) as (Hpay & Hbusy & Hc).
  destruct (IH _ _ _ _ _ _ _ Hus) as [Hunits Hres].
  split.
  - intros [|ui] u' Hu' Hb'; simpl in Hu'.
    + injection Hu' as <-. exists u0. split; [done|]. by apply Hbusy.
    + by apply (Hunits ui u').
  - intros n v [Hin|Hin]%elem_of_app.
    + destruct c as [[n' v']|]; simpl in Hin; [|by apply elem_of_nil in Hin].
      apply list_elem_of_singleton in Hin. injection Hin as -> ->.
      destruct (Hc n' v' eq_refl) as (i & st & ? & ? & ? & ? & ?).
      by exists 0%nat, u0, i, st.
    + destruct (Hres n v Hin) as (ui & u & i & st1 & Hu' & Hb & Hr & Hst1 & Hn & Hcl).
      destruct (payload_lookup _ _ i st1 Hpay Hst1) as (st & Hst & Hp).
      apply payload_fields in Hp as (Hn' & _).
      exists (S ui), u, i, st. split_and!; try done. congruence.
Qed.

Lemma begin_cycle_Timed s :
  Timed 0 0 s → Timed 1 1 (Simulator.begin_cycle s).
Proof.
  intros [T1 T2 T3 T4]. split; simpl.
  - intros i st k ins Hst Hk Hins.
    destruct (T1 i st k ins Hst Hk Hins) as (Ho & c1 & Hc1 & Hle).
    split; [done|]. exists c1. split; [done|lia].
  - intros ui u i st k ins Hu Hb Hr Hst Hk Hins.
    destruct (T2 ui u i st k ins Hu Hb Hr Hst Hk Hins) as (c2 & Hc2 & Heq & Hge).
    exists c2. split_and!; try done. lia.
  - intros k ins c2 Hins Hc2.
    destruct (T3 k ins c2 Hins Hc2) as (c1 & Hc1 & Hlt & Hle).
    exists c1. split_and!; try done. lia.
  - intros k ins c3 Hins Hc3.
    destruct (T4 k ins c3 Hins Hc3) as (He & Hle & c2 & Hc2 & Heq).
    split_and!; try done; [lia|]. by exists c2.
Qed.

Lemma write_result_stamp s n v s' i rs :
  Simulator.write_result s n v = Ok s' →
  ReservationStations.get_station_by_name (Simulator.reservation_stations s) n
  = Some i →
  Simulator.reservation_stations s !! i = Some rs →
  ∃ k ins, ReservationStation.instruction rs = Some k
    ∧ Simulator.instructions s !! k = Some ins
    ∧ Simulator.instructions s'
      = <[k := Simulator.set_completion_cycles (Simulator.cycle s) ins]>
          (Simulator.instructions s)
    ∧ Simulator.cycle s' = Simulator.cycle s.
Proof.
  intros H Hfind Hrs. unfold Simulator.write_result in H.
  destruct (CommonDataBus.broadcast _ _ _) as [cdb' b] eqn:Hcdb.
  rewrite Hfind in H.
  apply bind_Ok in H as (rs0 & Hrs0 & H). apply py_getitem_Ok in Hrs0.
  rewrite Hrs in Hrs0. injection Hrs0 as <-.
  apply bind_Ok in H as (k & Hk & H).
  destruct (ReservationStation.instruction rs) as [k'|] eqn:Hins; [|done].
  injection Hk as ->.
  apply bind_Ok in H as (instrs' & Hst & H).
  unfold Simulator.stamp in Hst.
  apply bind_Ok in Hst as (ins & Hik & Hst). apply py_getitem_Ok in Hik.
  apply py_setitem_Ok in Hst as [Hklt ->].
  apply bind_Ok in H as (rf' & Hrf & H).
  apply bind_Ok in H as (rs1 & Hrs1 & H). injection H as <-.
  by exists k, ins.
Qed.

Lemma write_back_Timed s s' :
  Inv s → Timed 1 1 s → Simulator.write_back s = Ok s' → Timed 1 0 s'.
Proof.
  intros HI HT H.
  destruct (FunctionalUnits.tick (Simulator.functional_units s)
              (Simulator.reservation_stations s) (Simulator.memory s))
    as [[[[[units' sts'] mem'] out] results]|e] eqn:Htick.
  2:{ unfold Simulator.write_back in H. by rewrite Htick in H. }
  rewrite (write_back_unfold _ _ _ _ _ _ Htick) in H. cbv zeta in H.
  match type of H with
  | match _ with [] => Ok ?x | _ => _ end = _ => set (s1 := x) in *
  end.
  pose proof (units_tick_spec _ _ _ _ _ _ _ _ Htick) as (_ & Hpay & _).
  pose proof (units_tick_clock _ _ _ _ _ _ _ _ Htick) as [Hclock Hdone].
  pose proof (λ i st', payload_lookup _ _ i st' Hpay) as Hback.
  destruct HT as [T1 T2 T3 T4].
  assert (Timed 1 0 s1) as HT1.
  { split; simpl.
    - intros i st' k ins Hst' Hk Hins.
      destruct (Hback i st' Hst') as (st & Hst & Hp).
      apply payload_fields in Hp
        as (_ & Ho & _ & _ & _ & _ & _ & _ & Hi & _).
      rewrite <- Ho. apply (T1 i st k ins); congruence.
    - intros ui u' i st' k ins Hu' Hb' Hr' Hst' Hk Hins.
      destruct (Hclock ui u' Hu' Hb') as (u & Hu & Hb & Hr & Hcl & Hpos).
      destruct (Hback i st' Hst') as (st & Hst & Hp).
      apply payload_fields in Hp
        as (_ & _ & _ & _ & _ & _ & _ & _ & Hi & _).
      destruct (T2 ui u i st k ins) as (c2 & Hc2 & Heq & _); try congruence.
      exists c2. split_and!; [done|lia|lia].
    - exact T3.
    - exact T4. }
  destruct results as [|[n v] rest]; [by injection H as <-|].
  destruct (first_completion_station _ _ _ _ _ _ _ _ HI Htick)
    as (i & st0 & st1 & _ & _ & _ & _ & _ & Hst0 & Hn0 & _ & Hst1 & Hp1
        & Hfind & _).
  destruct (units_tick_Inv s s1 mem' out _ HI Htick) as [HI1 _]; [done..|].
  destruct (write_result_stamp _ _ _ _ i st1 H Hfind Hst1)
    as (k & ins & Hk & Hins & Hinstrs & Hcycle).
  pose proof (write_result_effect _ _ _ _ i st1 H Hfind Hst1)
    as (Hsts & _ & _ & _ & _ & _ & _ & Hunits & _).
  pose proof (write_back_Inv s s' HI) as HI'.
  rewrite (write_back_unfold _ _ _ _ _ _ Htick) in HI'.
  specialize (HI' H).
  change (Simulator.reservation_stations s1) with sts' in Hsts.
  change (Simulator.functional_units s1) with units' in Hunits.
  change (Simulator.instructions s1) with (Simulator.instructions s)
    in Hins, Hinstrs.
  change (Simulator.cycle s1) with (Simulator.cycle s) in Hinstrs, Hcycle.
  assert (∀ j st', Simulator.reservation_stations s' !! j = Some st' →
            is_Some (ReservationStation.instruction st') →
            j ≠ i ∧ ∃ stj, sts' !! j = Some stj
              ∧ ReservationStation.instruction stj
                = ReservationStation.instruction st'
              ∧ ReservationStation.op stj = ReservationStation.op st')
    as Hlook.
  { intros j st' Hj Hsome. rewrite Hsts in Hj.
    destruct (decide (j = i)) as [->|Hne].
    { rewrite list_lookup_insert_eq in Hj.
      - injection Hj as <-. by destruct Hsome.
      - unfold ReservationStations.update_from_cdb. rewrite length_fmap.
        by eapply lookup_lt_Some. }
    split; [done|]. rewrite list_lookup_insert_ne in Hj by done.
    unfold ReservationStations.update_from_cdb in Hj.
    rewrite list_lookup_fmap in Hj.
    destruct (sts' !! j) as [stj|] eqn:Hstj; [|done]. simpl in Hj.
    injection Hj as <-. exists stj.
    by destruct (update_operand_fields stj n v) as (_ & -> & _ & _ & -> & _). }
  assert (∀ j stj kj, j ≠ i → sts' !! j = Some stj →
            ReservationStation.instruction stj = Some kj → kj ≠ k) as Hother.
  { intros j stj kj Hne Hstj Hkj ->.
    apply Hne. by eapply (inv_instr_inj s1 HI1 j i stj st1 k). }
  destruct HT1 as [U1 U2 U3 U4]. simpl in U1, U2, U3, U4.
  split; rewrite ?Hcycle, ?Hunits, Hinstrs.
  - intros j st' kj insj Hj Hkj Hinsj.
    destruct (Hlook j st' Hj) as (Hne & stj & Hstj & Hi & Ho); [by eexists|].
    rewrite list_lookup_insert_ne in Hinsj
      by (apply not_eq_sym; eapply Hother; [done..|congruence]).
    rewrite <- Ho. apply (U1 j stj kj insj); congruence.
  - intros ui u j st' kj insj Hu Hb Hr Hj Hkj Hinsj.
    destruct (Hlook j st' Hj) as (Hne & stj & Hstj & Hi & Ho); [by eexists|].
    rewrite list_lookup_insert_ne in Hinsj
      by (apply not_eq_sym; eapply Hother; [done..|congruence]).
    apply (U2 ui u j stj kj insj); congruence.
  - intros k' ins' c2 Hins' Hc2.
    destruct (decide (k' = k)) as [->|Hne].
    + rewrite list_lookup_insert_eq in Hins' by by eapply lookup_lt_Some.
      injection Hins' as <-. by apply (U3 k ins c2).
    + rewrite list_lookup_insert_ne in Hins' by done. by apply (U3 k' ins' c2).
  - intros k' ins' c3 Hins' Hc3.
    destruct (decide (k' = k)) as [->|Hne].
    2:{ rewrite list_lookup_insert_ne in Hins' by done.
        by apply (U4 k' ins' c3). }
    rewrite list_lookup_insert_eq in Hins' by by eapply lookup_lt_Some.
    injection Hins' as <-. simpl in *. injection Hc3 as <-.
    split_and!; [done|lia|].
    destruct (Hdone n v (list_elem_of_here _ _))
      as (ui & u & i0 & st & Hu & Hb & Hr & Hst & Hn & Hcl).
    assert (i0 = i) as ->.
    { eapply name_lookup_inj; [exact (inv_names s HI)|done|done|congruence]. }
    rewrite Hst0 in Hst. injection Hst as <-.
    apply payload_fields in Hp1
      as (_ & _ & _ & _ & _ & _ & _ & _ & Hi1 & _).
    destruct (T2 ui u i st0 k ins Hu Hb Hr Hst0) as (c2 & Hc2 & Heq & Hge);
      [congruence|done|].
    exists c2. split; [done|]. lia.
Qed.

Lemma execute_station_Timed i s s' :
  Inv s → Timed 1 0 s → Simulator.execute_station i s = Ok s' → Timed 1 0 s'.
Proof.
  intros HI [T1 T2 T3 T4] H.
  apply execute_station_cases in H as [[-> _]|H]; [done|].
  destruct H as (rs & rs' & u & fu & fu' & o & k & ins & Hrs & Hready & Hfu
                 & Hfree & Hop & _ & Hk & Hins & Hpay & _ & -> & ->).
  apply isReady_true in Hready as (Hbusy & Hnex & _).
  apply payload_set_address_fields in Hpay
    as (_ & Ho' & _ & _ & _ & _ & Hi').
  assert (i < length (Simulator.reservation_stations s))%nat as Hilt
    by by eapply lookup_lt_Some.
  assert (u < length (Simulator.functional_units s))%nat as Hult
    by by eapply lookup_lt_Some.
  assert (k < length (Simulator.instructions s))%nat as Hklt
    by by eapply lookup_lt_Some.
  destruct (T1 i rs k ins Hrs Hk Hins) as (Hopi & c1 & Hc1 & Hle).
  destruct (inv_instr s HI i rs k Hrs Hk) as (_ & _ & ins0 & Hins0 & _ & Hwr).
  rewrite Hins in Hins0. injection Hins0 as <-.
  assert (∀ j st' kj,
            <[i := rs']> (Simulator.reservation_stations s) !! j = Some st' →
            ReservationStation.instruction st' = Some kj →
            (j = i ∧ kj = k ∧ st' = rs')
            ∨ (j ≠ i ∧ kj ≠ k
               ∧ Simulator.reservation_stations s !! j = Some st'))
    as Hlook.
  { intros j st' kj Hj Hkj. destruct (decide (j = i)) as [->|Hne].
    - rewrite list_lookup_insert_eq in Hj by done. injection Hj as <-.
      left. split_and!; congruence.
    - rewrite list_lookup_insert_ne in Hj by done. right.
      split_and!; try done. intros ->. apply Hne.
      by eapply (inv_instr_inj s HI j i st' rs k). }
  split; simpl.
  - intros j st' kj insj Hj Hkj Hinsj.
    destruct (Hlook j st' kj Hj Hkj) as [(-> & -> & ->)|(Hne & Hnk & Hst)].
    + rewrite list_lookup_insert_eq in Hinsj by done. injection Hinsj as <-.
      simpl. split; [congruence|]. by exists c1.
    + rewrite list_lookup_insert_ne in Hinsj by done.
      by apply (T1 j st' kj insj).
  - intros ui u0 j st' kj insj Hu0 Hb0 Hr0 Hj Hkj Hinsj.
    destruct (decide (ui = u)) as [->|Hneu].
    + rewrite list_lookup_insert_eq in Hu0 by done. injection Hu0 as <-.
      simpl in *. injection Hr0 as <-.
      destruct (Hlook i st' kj Hj Hkj) as [(_ & -> & ->)|(Hne & _)]; [|done].
      rewrite list_lookup_insert_eq in Hinsj by done. injection Hinsj as <-.
      simpl. exists (Simulator.cycle s). split; [done|].
      assert (o = Instruction.op ins) as -> by congruence.
      split; [lia|]. destruct (Instruction.op ins); simpl; lia.
    + rewrite list_lookup_insert_ne in Hu0 by done.
      destruct (inv_bound s HI ui u0 Hu0 Hb0)
        as (j' & stj & Hr' & Hstj & _ & Hex & _).
      rewrite Hr0 in Hr'. injection Hr' as <-.
      destruct (Hlook j st' kj Hj Hkj) as [(-> & _)|(Hne & Hnk & Hst)].
      { rewrite Hrs in Hstj. injection Hstj as <-. congruence. }
      rewrite list_lookup_insert_ne in Hinsj by done.
      by apply (T2 ui u0 j st' kj insj).
  - intros k' ins' c2 Hins' Hc2.
    destruct (decide (k' = k)) as [->|Hne].
    + rewrite list_lookup_insert_eq in Hins' by done.
      injection Hins' as <-. simpl in *. injection Hc2 as <-.
      exists c1. split_and!; [done|lia|lia].
    + rewrite list_lookup_insert_ne in Hins' by done. by apply (T3 k' ins' c2).
  - intros k' ins' c3 Hins' Hc3.
    destruct (decide (k' = k)) as [->|Hne].
    + rewrite list_lookup_insert_eq in Hins' by done.
      injection Hins' as <-. simpl in Hc3. congruence.
    + rewrite list_lookup_insert_ne in Hins' by done. by apply (T4 k' ins' c3).
Qed.

Lemma for_each_Timed positions : ∀ s s',
  Inv s → Timed 1 0 s →
  Simulator.for_each Simulator.execute_station positions s = Ok s' →
  Timed 1 0 s'.
Proof.
  induction positions as [|i positions IH]; intros s s' HI HT H; simpl in H.
  - by injection H as <-.
  - apply bind_Ok in H as (s1 & H1 & H). eapply IH; [| |exact H].
    + by eapply execute_station_Inv.
    + by eapply execute_station_Timed.
Qed.

Lemma fresh_fields ins :
  fresh ins = true →
  Instruction.issue_cycle ins = None ∧ Instruction.start_cycle ins = None
  ∧ Instruction.execute_complete_cycle ins = None
  ∧ Instruction.write_result_cycle ins = None.
Proof.
  unfold fresh. rewrite !andb_true_iff, !bool_decide_eq_true. tauto.
Qed.

Lemma issue_Timed s s' b :
  Inv s → Timed 1 0 s → Simulator.issue s = Ok (s', b) → Timed 0 0 s'.
Proof.
  intros HI [T1 T2 T3 T4] H. destruct b.
  2:{ apply issue_false in H as (Hu & Hsts & _ & Hi & _ & _ & Hc & _).
      split; rewrite ?Hu, ?Hsts, ?Hi, ?Hc; try done.
      intros i st k ins Hst Hk Hins.
      destruct (T1 i st k ins Hst Hk Hins) as (Ho & c1 & Hc1 & Hle).
      split; [done|]. exists c1. split; [done|lia]. }
  apply issue_detail in H
    as (ins & i & rs & rs' & rf' & Hins & _ & Hrs & Hnb & -> & Hop).
  assert (i < length (Simulator.reservation_stations s))%nat as Hilt
    by by eapply lookup_lt_Some.
  assert (Simulator.pc s < length (Simulator.instructions s))%nat as Hplt
    by by eapply lookup_lt_Some.
  assert (ReservationStation.instruction rs' = Some (Simulator.pc s)
          ∧ ReservationStation.op rs' = Some (Instruction.op ins))
    as [Hi' Ho'].
  { destruct (Instruction.op ins).
    1-4: by destruct Hop as (? & ? & ? & ? & _ & _ & _ & ->).
    - by destruct Hop as (? & ? & _ & _ & ->).
    - by destruct Hop as (? & ? & ? & ? & _ & _ & _ & ->). }
  destruct (fresh_fields ins (inv_fresh s HI _ ins Hins (le_n _)))
    as (_ & Hst0 & _ & Hwr0).
  assert (∀ j st' kj,
            <[i := rs']> (Simulator.reservation_stations s) !! j = Some st' →
            ReservationStation.instruction st' = Some kj →
            (j = i ∧ kj = Simulator.pc s ∧ st' = rs')
            ∨ (j ≠ i ∧ kj ≠ Simulator.pc s
               ∧ Simulator.reservation_stations s !! j = Some st'))
    as Hlook.
  { intros j st' kj Hj Hkj. destruct (decide (j = i)) as [->|Hne].
    - rewrite list_lookup_insert_eq in Hj by done. injection Hj as <-.
      left. split_and!; congruence.
    - rewrite list_lookup_insert_ne in Hj by done. right.
      split_and!; try done.
      destruct (inv_instr s HI j st' kj Hj Hkj) as (_ & Hlt & _). lia. }
  split; simpl.
  - intros j st' kj insj Hj Hkj Hinsj.
    destruct (Hlook j st' kj Hj Hkj) as [(-> & -> & ->)|(Hne & Hnk & Hst)].
    + rewrite list_lookup_insert_eq in Hinsj by done. injection Hinsj as <-.
      simpl. split; [done|]. exists (Simulator.cycle s). split; [done|lia].
    + rewrite list_lookup_insert_ne in Hinsj by done.
      destruct (T1 j st' kj insj Hst Hkj Hinsj) as (Ho & c1 & Hc1 & Hle).
      split; [done|]. exists c1. split; [done|lia].
  - intros ui u j st' kj insj Hu Hb Hr Hj Hkj Hinsj.
    destruct (inv_bound s HI ui u Hu Hb)
      as (j' & stj & Hr' & Hstj & Hbj & _).
    rewrite Hr in Hr'. injection Hr' as <-.
    destruct (Hlook j st' kj Hj Hkj) as [(-> & _)|(Hne & Hnk & Hst)].
    { rewrite Hrs in Hstj. injection Hstj as <-. congruence. }
    rewrite list_lookup_insert_ne in Hinsj by done.
    by apply (T2 ui u j st' kj insj).
  - intros k' ins' c2 Hins' Hc2.
    destruct (decide (k' = Simulator.pc s)) as [->|Hne].
    + rewrite list_lookup_insert_eq in Hins' by done.
      injection Hins' as <-. simpl in Hc2. congruence.
    + rewrite list_lookup_insert_ne in Hins' by done. by apply (T3 k' ins' c2).
  - intros k' ins' c3 Hins' Hc3.
    destruct (decide (k' = Simulator.pc s)) as [->|Hne].
    + rewrite list_lookup_insert_eq in Hins' by done.
      injection Hins' as <-. simpl in Hc3. congruence.
    + rewrite list_lookup_insert_ne in Hins' by done. by apply (T4 k' ins' c3).
Qed.

Lemma tick_Timed s s' b :
  Inv s → Timed 0 0 s → Simulator.tick s = Ok (s', b) → Timed 0 0 s'.
Proof.
  intros HI HT H.
  apply tick_phases in H as (s1 & s2 & issued & H1 & H2 & H3 & _).
  pose proof (begin_cycle_Inv s HI) as HI0.
  pose proof (write_back_Inv _ _ HI0 H1) as HI1.
  pose proof (for_each_Inv _ _ _ HI1 H2) as HI2.
  eapply issue_Timed; [exact HI2| |exact H3].
  eapply for_each_Timed; [exact HI1| |exact H2].
  eapply write_back_Timed; [exact HI0| |exact H1].
  by apply begin_cycle_Timed.
Qed.

Lemma ticks_Timed n : ∀ s s',
  Inv s → Timed 0 0 s → Simulator.ticks n s = Ok s' → Timed 0 0 s'.
Proof.
  induction n as [|n IH]; intros s s' HI HT H; simpl in H.
  - by injection H as <-.
  - apply bind_Ok in H as (s1 & H1 & H).
    apply bind_Ok in H as ([s2 b] & H2 & H). injection H as <-.
    eapply tick_Timed; [|by eapply IH|exact H2]. by eapply ticks_Inv.
Qed.

Lemma reachable_Timed s : reachable s → Timed 0 0 s.
Proof.
  intros (registers & instructions & out & n & Hlen & Hfresh & H).
  eapply ticks_Timed; [by apply loaded_Inv| |exact H].
  assert (∀ k ins, instructions !! k = Some ins → fresh ins = true) as Hf.
  { intros k ins Hk. rewrite forallb_forall in Hfresh. apply Hfresh.
    apply list_elem_of_In. by eapply list_elem_of_lookup_2. }
  split.
  - intros i st k ins Hi.
    change (ReservationStations.init !! i = Some st) in Hi.
    apply init_station in Hi as (name & ->). done.
  - intros ui u i st k ins Hu Hb. exfalso.
    change (FunctionalUnits.init !! ui = Some u) in Hu.
    unfold FunctionalUnits.init in Hu.
    destruct ui as [|[|[|[|ui]]]]; simpl in Hu; try done;
      injection Hu as <-; done.
  - intros k ins c2 Hk Hc2. change (instructions !! k = Some ins) in Hk.
    destruct (fresh_fields ins (Hf k ins Hk)) as (_ & ? & _). congruence.
  - intros k ins c3 Hk Hc3. change (instructions !! k = Some ins) in Hk.
    destruct (fresh_fields ins (Hf k ins Hk)) as (_ & _ & _ & ?). congruence.
Qed.

(** X16: the timestamps of an instruction follow the latencies.  In every
    state of a run, an instruction that has started was issued in an
    earlier cycle; an instruction that has written its result did so in
    the cycle its execution completed, exactly [LATENCIES] of its
    operation after the start recorded in [start_cycle]; and a busy unit
    is that many cycles, less its countdown, past the start. *)
Theorem timestamps_follow_latency s k ins :
  reachable s →
  Simulator.instructions s !! k = Some ins →
  (∀ c2, Instruction.start_cycle ins = Some c2 →
     ∃ c1, Instruction.issue_cycle ins = Some c1
       ∧ (c1 < c2)%nat ∧ (c2 ≤ Simulator.cycle s)%nat)
  ∧ (∀ c3, Instruction.write_result_cycle ins = Some c3 →
       Instruction.execute_complete_cycle ins = Some c3
       ∧ (c3 ≤ Simulator.cycle s)%nat
       ∧ ∃ c1 c2, Instruction.issue_cycle ins = Some c1
           ∧ Instruction.start_cycle ins = Some c2
           ∧ (c1 < c2)%nat
           ∧ Z.of_nat c3 = Z.of_nat c2 + LATENCIES (Instruction.op ins))
  ∧ (∀ ui u i st,
       Simulator.functional_units s !! ui = Some u →
       FunctionalUnit.busy u = true →
       FunctionalUnit.reservation_station u = Some i →
       Simulator.reservation_stations s !! i = Some st →
       ReservationStation.instruction st = Some k →
       ∃ c2, Instruction.start_cycle ins = Some c2
         ∧ Z.of_nat (Simulator.cycle s) - Z.of_nat c2
           = LATENCIES (Instruction.op ins) - FunctionalUnit.cycles_left u
         ∧ 1 ≤ FunctionalUnit.cycles_left u).
Proof.
  intros Hreach Hins. destruct (reachable_Timed s Hreach) as [T1 T2 T3 T4].
  split_and!.
  - intros c2 Hc2. by apply (T3 k ins c2).
  - intros c3 Hc3.
    destruct (T4 k ins c3 Hins Hc3) as (He & Hle & c2 & Hc2 & Heq).
    destruct (T3 k ins c2 Hins Hc2) as (c1 & Hc1 & Hlt & _).
    split_and!; try done. by exists c1, c2.
  - intros ui u i st Hu Hb Hr Hst Hk.
    destruct (T2 ui u i st k ins Hu Hb Hr Hst Hk Hins) as (c2 & Hc2 & Heq & Hge).
    exists c2. split_and!; [done|lia|done].
Qed.

Lemma timestamps_follow_latency_witness :
  let s := state_after 12 scenario_registers trace_slow_then_fast in
  ∃ ins,
    Simulator.instructions s !! 0%nat = Some ins
    ∧ (∀ c2, Instruction.start_cycle ins = Some c2 →
         ∃ c1, Instruction.issue_cycle ins = Some c1
           ∧ (c1 < c2)%nat ∧ (c2 ≤ Simulator.cycle s)%nat)
    ∧ (∀ c3, Instruction.write_result_cycle ins = Some c3 →
         Instruction.execute_complete_cycle ins = Some c3
         ∧ (c3 ≤ Simulator.cycle s)%nat
         ∧ ∃ c1 c2, Instruction.issue_cycle ins = Some c1
             ∧ Instruction.start_cycle ins = Some c2
             ∧ (c1 < c2)%nat
             ∧ Z.of_nat c3 = Z.of_nat c2 + LATENCIES (Instruction.op ins))
    ∧ (∀ ui u i st,
         Simulator.functional_units s !! ui = Some u →
         FunctionalUnit.busy u = true →
         FunctionalUnit.reservation_station u = Some i →
         Simulator.reservation_stations s !! i = Some st →
         ReservationStation.instruction st = Some 0%nat →
         ∃ c2, Instruction.start_cycle ins = Some c2
           ∧ Z.of_nat (Simulator.cycle s) - Z.of_nat c2
             = LATENCIES (Instruction.op ins) - FunctionalUnit.cycles_left u
           ∧ 1 ≤ FunctionalUnit.cycles_left u).
Proof.
  cbv zeta. eexists. split; [vm_compute; reflexivity|].
  apply (timestamps_follow_latency
           (state_after 12 scenario_registers trace_slow_then_fast) 0).
  - exists scenario_registers, (program trace_slow_then_fast), [], 12%nat.
    split; [reflexivity|]. split; [reflexivity|vm_compute; reflexivity].
  - vm_compute; reflexivity.
Defined.
(** * The trace generator *)

Lemma randint_Ok draw a b pos :
  a ≤ b →
  ∃ z, TraceGenerator.randint draw a b pos = Ok (z, S pos) ∧ a ≤ z ≤ b.
Proof.
  intros Hab. unfold TraceGenerator.randint.
  destruct (Z.ltb_spec b a) as [|_]; [lia|].
  eexists. split; [done|].
  pose proof (Z.mod_pos_bound (Z.of_nat (draw pos)) (b - a + 1)). lia.
Qed.

Lemma offset_range_bounds base_val :
  let '(lo, hi) := TraceGenerator.offset_range base_val in
  lo ≤ hi ∧ -32 ≤ lo ∧ hi ≤ 32
  ∧ (-32 ≤ base_val ≤ TraceGenerator.MEMORY_SIZE + 31 →
     0 ≤ base_val + lo ∧ base_val + hi < TraceGenerator.MEMORY_SIZE)
  ∧ (base_val < -32 ∨ TraceGenerator.MEMORY_SIZE + 31 < base_val →
     lo = 0 ∧ hi = 0).
Proof.
  unfold TraceGenerator.offset_range, TraceGenerator.MEMORY_SIZE.
  destruct (Z.ltb_spec (Z.min (1024 - 1 - base_val) 32)
              (Z.max (- base_val) (-32))); lia.
Qed.

(** X17: [generate_valid_offset] never raises and returns an offset
    between -32 and 32.  The address [base_val + offset] is inside the
    memory, as its comment promises, exactly when
    [-32 <= base_val <= MEMORY_SIZE + 31]; for any other base value the
    offset is 0 and the address is outside. *)
Theorem generate_valid_offset_range draw base_val pos :
  ∃ offset,
    TraceGenerator.generate_valid_offset draw base_val pos
    = Ok (offset, S pos)
    ∧ -32 ≤ offset ≤ 32
    ∧ (-32 ≤ base_val ≤ TraceGenerator.MEMORY_SIZE + 31 →
       0 ≤ base_val + offset < TraceGenerator.MEMORY_SIZE)
    ∧ (base_val < -32 ∨ TraceGenerator.MEMORY_SIZE + 31 < base_val →
       offset = 0
       ∧ ¬ (0 ≤ base_val + offset < TraceGenerator.MEMORY_SIZE)).
Proof.
  unfold TraceGenerator.generate_valid_offset.
  pose proof (offset_range_bounds base_val) as H.
  destruct (TraceGenerator.offset_range base_val) as [lo hi].
  destruct H as (Hle & Hlo & Hhi & Hin & Hout).
  destruct (randint_Ok draw lo hi pos Hle) as (z & Hz & Hr).
  exists z. split; [done|]. unfold TraceGenerator.MEMORY_SIZE in *.
  split_and!; lia.
Qed.

(** ** The lines of a generated trace *)



Lemma registers_lookup (z : Z) :
  0 ≤ z ≤ 7 →
  ∃ name, TraceGenerator.REGISTERS !! Z.to_nat z = Some name
    ∧ Z.to_nat z ∈ seq 0 8.
Proof.
  intros Hz.
  destruct (lookup_lt_is_Some_2 TraceGenerator.REGISTERS (Z.to_nat z))
    as [name Hn];
    [change (length TraceGenerator.REGISTERS) with 8%nat; lia|].
  exists name. split; [done|]. apply elem_of_seq. lia.
Qed.












(** * The values a run computes *)

Lemma sequential_length l : ∀ regs, length (sequential regs l) = length regs.
Proof.
  unfold sequential. induction l as [|ins l IH]; intros regs; simpl; [done|].
  rewrite IH. unfold sequential_step. by rewrite length_insert.
Qed.

Lemma sequential_app regs l1 l2 :
  sequential regs (l1 ++ l2) = sequential (sequential regs l1) l2.
Proof. apply foldl_app. Qed.

Lemma sequential_frame l r : ∀ regs,
  Forall (λ ins, reg_index (Instruction.dest ins) ≠ r) l →
  sequential regs l !!! r = regs !!! r.
Proof.
  unfold sequential. induction l as [|ins l IH]; intros regs Hall; [done|].
  apply Forall_cons in Hall as [Hne Hall]. simpl. rewrite (IH _ Hall).
  unfold sequential_step. by rewrite list_lookup_total_insert_ne.
Qed.

(** With distinct destinations, the register an instruction writes keeps
    the value of that instruction. *)
Lemma sequential_writer regs0 program p k ins :
  NoDup (destinations program) →
  program !! p = Some ins → (p < k)%nat →
  (reg_index (Instruction.dest ins) < length regs0)%nat →
  sequential regs0 (take k program) !!! reg_index (Instruction.dest ins)
  = arith_value (Instruction.op ins)
      (sequential regs0 (take p program)
       !!! reg_index (Instruction.src1 ins))
      (sequential regs0 (take p program)
       !!! reg_index (Instruction.src2 ins)).
Proof.
  intros Hnd Hp Hlt Hd.
  assert (take k program
          = take p program ++ ins :: take (k - S p) (drop (S p) program))
    as ->.
  { rewrite <- (take_drop p program) at 1.
    rewrite take_app_ge by (rewrite length_take; lia).
    rewrite length_take, Nat.min_l by (apply lookup_lt_Some in Hp; lia).
    f_equal. rewrite (drop_S _ ins p Hp).
    replace (k - p)%nat with (S (k - S p)) by lia. done. }
  rewrite sequential_app. simpl.
  change (foldl sequential_step ?a ?l) with (sequential a l).
  change (sequential (sequential regs0 (take p program))
            (ins :: take (k - S p) (drop (S p) program)))
    with (sequential (sequential_step (sequential regs0 (take p program)) ins)
            (take (k - S p) (drop (S p) program))).
  rewrite sequential_frame.
  - unfold sequential_step. rewrite list_lookup_total_insert_eq; [done|].
    by rewrite sequential_length.
  - apply Forall_forall. intros ins' Hin Heq.
    apply list_elem_of_lookup_1 in Hin as [j Hj].
    apply lookup_take_Some in Hj as [Hj _]. rewrite lookup_drop in Hj.
    assert (S p + j = p)%nat; [|lia].
    eapply (NoDup_lookup (destinations program)); [done|..];
      unfold destinations; rewrite list_lookup_fmap.
    + by rewrite Hj.
    + rewrite Hp. simpl. by rewrite Heq.
Qed.

Lemma sequential_next regs0 program k ins r :
  program !! k = Some ins →
  reg_index (Instruction.dest ins) ≠ r →
  sequential regs0 (take (S k) program) !!! r
  = sequential regs0 (take k program) !!! r.
Proof.
  intros Hk Hne. rewrite (take_S_r _ _ _ Hk), sequential_app. simpl.
  unfold sequential_step. by rewrite list_lookup_total_insert_ne.
Qed.

Lemma unstamped_fresh l :
  forallb fresh l = true → unstamped <$> l = l.
Proof.
  induction l as [|ins l IH]; [done|].
  intros Hf. simpl in Hf. apply andb_true_iff in Hf as [Hf Hl].
  rewrite fmap_cons, (IH Hl). f_equal.
  apply fresh_fields in Hf as (H1 & H2 & H3 & H4).
  destruct ins; simpl in *. unfold unstamped, Instruction.init. simpl.
  congruence.
Qed.

Lemma unstamped_lookup (l : list Instruction.t) program k ins :
  unstamped <$> l = program → l !! k = Some ins →
  program !! k = Some (unstamped ins).
Proof. intros <- Hk. by rewrite list_lookup_fmap, Hk. Qed.

Lemma unstamped_insert (l : list Instruction.t) k ins ins' :
  l !! k = Some ins → unstamped ins' = unstamped ins →
  unstamped <$> <[k := ins']> l = unstamped <$> l.
Proof.
  intros Hk He. rewrite list_fmap_insert, He.
  apply list_insert_id. by rewrite list_lookup_fmap, Hk.
Qed.

Lemma reg_index_Ok reg :
  is_register reg = true →
  RegisterFile.get_register_index reg = Ok (reg_index reg)
  ∧ (reg_index reg < Z.to_nat Config.NUM_REGISTERS)%nat.
Proof.
  intros (r & Hr & Hlt)%is_register_Ok. unfold reg_index. by rewrite Hr.
Qed.

Lemma arithmetic_registers ins :
  Instruction.is_arithmetic ins = true → well_formed ins = true →
  is_register (Instruction.dest ins) = true
  ∧ is_register (Instruction.src1 ins) = true
  ∧ is_register (Instruction.src2 ins) = true
  ∧ producing (Some (Instruction.op ins)) = true.
Proof.
  unfold Instruction.is_arithmetic, well_formed. intros Ha Hw.
  apply bool_decide_eq_true in Ha.
  destruct (Instruction.op ins);
    try (apply andb_true_iff in Hw as [Hw H3];
         apply andb_true_iff in Hw as [H1 H2]; by split_and!);
    exfalso;
    repeat (apply elem_of_cons in Ha as [Ha|Ha]; [discriminate Ha|]);
    by apply elem_of_nil in Ha.
Qed.

Section DataFlow.

Variable program : list Instruction.t.
Variable regs0 : list Z.
Hypothesis Hregs : length regs0 = Z.to_nat Config.NUM_REGISTERS.
Hypothesis Harith : ∀ k ins,
  program !! k = Some ins → Instruction.is_arithmetic ins = true.
Hypothesis Hwf : ∀ k ins, program !! k = Some ins → well_formed ins = true.
Hypothesis Hnodup : NoDup (destinations program).

Lemma destination_inj p k ins ins' :
  program !! p = Some ins → program !! k = Some ins' →
  reg_index (Instruction.dest ins) = reg_index (Instruction.dest ins') →
  p = k.
Proof.
  intros Hp Hk Heq.
  eapply (NoDup_lookup (destinations program)); [done|..];
    unfold destinations; rewrite list_lookup_fmap.
  - by rewrite Hp.
  - rewrite Hk. simpl. by rewrite Heq.
Qed.

Lemma dest_index_register st reg :
  is_register reg = true → ReservationStation.dest st = reg →
  dest_index st = Some (reg_index reg).
Proof.
  intros Hr Hd. unfold dest_index, reg_index, is_register in *. rewrite Hd.
  destruct reg as [d|]; [|done].
  by destruct (RegisterFile.get_register_index (Some d)).
Qed.

(** A state that differs in the executing flags, the addresses and the
    timestamps only. *)
Lemma Flow_stations s s' :
  unstamped <$> Simulator.instructions s'
  = unstamped <$> Simulator.instructions s →
  Simulator.register_file s' = Simulator.register_file s →
  Simulator.pc s' = Simulator.pc s →
  (∀ i st', Simulator.reservation_stations s' !! i = Some st' →
     ∃ st, Simulator.reservation_stations s !! i = Some st
       ∧ ReservationStation.name st' = ReservationStation.name st
       ∧ ReservationStation.op st' = ReservationStation.op st
       ∧ ReservationStation.vj st' = ReservationStation.vj st
       ∧ ReservationStation.vk st' = ReservationStation.vk st
       ∧ ReservationStation.qj st' = ReservationStation.qj st
       ∧ ReservationStation.qk st' = ReservationStation.qk st
       ∧ ReservationStation.dest st' = ReservationStation.dest st
       ∧ ReservationStation.instruction st'
         = ReservationStation.instruction st) →
  (∀ i st, Simulator.reservation_stations s !! i = Some st →
     ∃ st', Simulator.reservation_stations s' !! i = Some st'
       ∧ ReservationStation.name st' = ReservationStation.name st
       ∧ ReservationStation.instruction st'
         = ReservationStation.instruction st) →
  Flow program regs0 s → Flow program regs0 s'.
Proof.
  intros Hins Hrf Hpc Hback Hforw [F1 F2 F3 F4].
  split; unfold status_of in *; rewrite ?Hrf, ?Hins, ?Hpc; try done.
  - intros i st' k ins Hi Hk Hp.
    destruct (Hback i st' Hi)
      as (st & Hst & Hn & Ho & _ & _ & _ & _ & Hd & Hin).
    rewrite Hn, Ho, Hd. apply (F3 i st k ins); congruence.
  - intros i st' k ins Hi Hk Hp.
    destruct (Hback i st' Hi)
      as (st & Hst & _ & _ & Hvj & Hvk & Hqj & Hqk & _ & Hin).
    destruct (F4 i st k ins Hst) as (G1 & G2 & G3 & G4); [congruence|done|].
    rewrite Hvj, Hvk, Hqj, Hqk. split_and!; try done.
    + intros t Ht. destruct (G3 t Ht)
        as (j & stj & p & ins' & Hj & Hnm & Hip & Hpp & Hlt & Hdd).
      destruct (Hforw j stj Hj) as (stj' & Hj' & Hn' & Hin').
      exists j, stj', p, ins'. split_and!; try done; congruence.
    + intros t Ht. destruct (G4 t Ht)
        as (j & stj & p & ins' & Hj & Hnm & Hip & Hpp & Hlt & Hdd).
      destruct (Hforw j stj Hj) as (stj' & Hj' & Hn' & Hin').
      exists j, stj', p, ins'. split_and!; try done; congruence.
Qed.

Lemma Flow_payload s s' :
  payload <$> Simulator.reservation_stations s'
  = payload <$> Simulator.reservation_stations s →
  Simulator.register_file s' = Simulator.register_file s →
  Simulator.instructions s' = Simulator.instructions s →
  Simulator.pc s' = Simulator.pc s →
  Flow program regs0 s → Flow program regs0 s'.
Proof.
  intros Hpay Hrf Hins Hpc. apply Flow_stations; [by rewrite Hins|done..| |].
  - intros i st' Hi.
    destruct (payload_lookup _ _ i st' Hpay Hi) as (st & Hst & Hpl).
    apply payload_fields in Hpl
      as (Hn & Ho & Hvj & Hvk & Hqj & Hqk & _ & Hd & Hin & _).
    exists st. by split_and!.
  - intros i st Hi.
    destruct (payload_lookup _ _ i st (eq_sym Hpay) Hi) as (st' & Hst & Hpl).
    apply payload_fields in Hpl
      as (Hn & _ & _ & _ & _ & _ & _ & _ & Hin & _).
    exists st'. by split_and!.
Qed.

(** The value of a completion is the value of its instruction in the
    sequential execution. *)
Lemma completion_value s units' sts' mem' out results n v :
  Inv s → Writable s → Dispatched s → Flow program regs0 s →
  FunctionalUnits.tick (Simulator.functional_units s)
    (Simulator.reservation_stations s) (Simulator.memory s)
  = Ok (units', sts', mem', out, results) →
  (n, v) ∈ results →
  ∃ i st k ins,
    Simulator.reservation_stations s !! i = Some st
    ∧ ReservationStation.name st = n
    ∧ ReservationStation.instruction st = Some k
    ∧ program !! k = Some ins
    ∧ v = Some (arith_value (Instruction.op ins)
                  (sequential regs0 (take k program)
                   !!! reg_index (Instruction.src1 ins))
                  (sequential regs0 (take k program)
                   !!! reg_index (Instruction.src2 ins))).
Proof.
  intros HI HW HD [F1 F2 F3 F4] Htick Hin.
  pose proof (units_tick_spec _ _ _ _ _ _ _ _ Htick)
    as (_ & _ & _ & _ & _ & Hres).
  destruct (Hres n v Hin)
    as (ui & u & u' & i & st & st' & Hu & Hb & Hr & Hst & Hn & _ & _ & _ & _
        & stx & m & m' & o & Hpx & Hc & _).
  destruct (inv_bound s HI ui u Hu Hb)
    as (i' & st0 & Hr' & Hst0 & Hbusy & _ & Hqj & Hqk).
  rewrite Hr in Hr'. injection Hr' as <-.
  rewrite Hst in Hst0. injection Hst0 as <-.
  destruct (wr_instr s HW i st Hst Hbusy) as [k Hk].
  destruct (inv_instr s HI i st k Hst Hk) as (_ & _ & ins_s & Hins & _).
  pose proof (unstamped_lookup _ _ _ _ F1 Hins) as Hp.
  destruct (F3 i st k _ Hst Hk Hp) as (Hop & _).
  destruct (F4 i st k _ Hst Hk Hp) as (Hvj & Hvk & _).
  destruct (dis_unit s HD ui u i st Hu Hb Hr Hst) as (o' & Ho' & Hsup).
  exists i, st, k, (unstamped ins_s). split_and!; try done.
  apply payload_fields in Hpx as (_ & Hox & Hvjx & Hvkx & _).
  pose proof (Harith k _ Hp) as Ha. apply bool_decide_eq_true in Ha.
  unfold FunctionalUnit.compute_result in Hc.
  rewrite Hox, Hvjx, Hvkx, Hop, (Hvj Hqj), (Hvk Hqk) in Hc.
  rewrite Hop in Ho'. injection Ho' as <-.
  change (Instruction.op (unstamped ins_s)) with (Instruction.op ins_s) in *.
  destruct (FunctionalUnit.kind u), (Instruction.op ins_s);
    simpl in Hsup, Hc |- *; try done;
    try (exfalso;
         repeat (apply elem_of_cons in Hsup as [Hsup|Hsup];
                 [discriminate Hsup|]);
         by apply elem_of_nil in Hsup);
    try (exfalso;
         repeat (apply elem_of_cons in Ha as [Ha|Ha]; [discriminate Ha|]);
         by apply elem_of_nil in Ha);
    try (by injection Hc as <- _ _).
  all: case_bool_decide as Hz; simplify_eq/=; try done.
  all: first [by rewrite bool_decide_eq_true_2
             |by rewrite bool_decide_eq_false_2; [|congruence]].
Qed.

Lemma write_result_Flow s n v s' i st k ins :
  Inv s → Writable s → Flow program regs0 s →
  Simulator.reservation_stations s !! i = Some st →
  ReservationStation.name st = n →
  ReservationStations.get_station_by_name (Simulator.reservation_stations s) n
  = Some i →
  ReservationStation.instruction st = Some k →
  program !! k = Some ins →
  v = Some (arith_value (Instruction.op ins)
              (sequential regs0 (take k program)
               !!! reg_index (Instruction.src1 ins))
              (sequential regs0 (take k program)
               !!! reg_index (Instruction.src2 ins))) →
  Simulator.write_result s n v = Ok s' →
  Flow program regs0 s'.
Proof.
  intros HI HW [F1 F2 F3 F4] Hst Hn Hfind Hk Hp Hv Hwr.
  pose proof (write_result_effect _ _ _ _ i st Hwr Hfind Hst)
    as (Hsts & _ & _ & _ & _ & Hother & _ & _ & _ & Hpc & _).
  destruct (write_result_stamp _ _ _ _ i st Hwr Hfind Hst)
    as (k0 & ins_s & Hk0 & Hins_s & Hinstrs & _).
  rewrite Hk in Hk0. injection Hk0 as <-.
  destruct (F3 i st k ins Hst Hk Hp) as (Hop & Hd & Hstat).
  destruct (arithmetic_registers ins (Harith k ins Hp) (Hwf k ins Hp))
    as (Hrd & Hr1 & Hr2 & Hprod).
  destruct (reg_index_Ok _ Hrd) as [_ Hdlt].
  pose proof (dest_index_register st _ Hrd Hd) as Hdi.
  set (d := reg_index (Instruction.dest ins)) in *.
  destruct (write_result_destination _ _ _ _ i st Hwr Hfind Hst)
    as (r & Hr & Hreg & Hstatus); [by rewrite Hop|].
  rewrite Hdi in Hr. injection Hr as <-.
  rewrite Hstat, Hn, bool_decide_eq_true_2 in Hstatus by done.
  destruct (inv_instr s HI i st k Hst Hk) as (Hbusy & Hklt & _).
  assert (i < length (Simulator.reservation_stations s))%nat as Hilt
    by by eapply lookup_lt_Some.
  set (upd := λ st, ReservationStation.update_operand st n v) in *.
  assert (∀ j st', Simulator.reservation_stations s' !! j = Some st' →
            (j = i ∧ st' = ReservationStation.clear (upd st))
            ∨ (j ≠ i ∧ ∃ st0, Simulator.reservation_stations s !! j = Some st0
                 ∧ st' = upd st0)) as Hlook.
  { intros j st' Hj. rewrite Hsts in Hj.
    destruct (decide (j = i)) as [->|Hne].
    - rewrite list_lookup_insert_eq in Hj
        by (unfold ReservationStations.update_from_cdb; by rewrite length_fmap).
      left. split; [done|]. by injection Hj.
    - rewrite list_lookup_insert_ne in Hj by done.
      unfold ReservationStations.update_from_cdb in Hj.
      rewrite list_lookup_fmap in Hj.
      destruct (Simulator.reservation_stations s !! j) as [st0|]; [|done].
      right. split; [done|]. exists st0. split; [done|]. simpl in Hj.
      by injection Hj. }
  assert (∀ r, r ≠ d →
            status_of s' r = status_of s r
            ∧ RegisterFile.registers (Simulator.register_file s') !! r
              = RegisterFile.registers (Simulator.register_file s) !! r)
    as Hkeep.
  { intros r Hne. destruct (Hother r) as [H1 H2]; [congruence|].
    unfold status_of. by rewrite H2. }
  assert (∀ j stj kj insj, j ≠ i →
            Simulator.reservation_stations s !! j = Some stj →
            ReservationStation.instruction stj = Some kj →
            program !! kj = Some insj →
            reg_index (Instruction.dest insj) ≠ d) as Hdest.
  { intros j stj kj insj Hne Hj Hkj Hpj Heq. apply Hne.
    assert (kj = k) as -> by by eapply destination_inj.
    by eapply (inv_instr_inj s HI j i stj st k). }
  assert (∀ kj, (k < kj)%nat →
            sequential regs0 (take kj program) !!! d
            = arith_value (Instruction.op ins)
                (sequential regs0 (take k program)
                 !!! reg_index (Instruction.src1 ins))
                (sequential regs0 (take k program)
                 !!! reg_index (Instruction.src2 ins))) as Hseq.
  { intros kj Hlt. apply sequential_writer; try done. by rewrite Hregs. }
  split.
  - rewrite Hinstrs, <- F1. by eapply unstamped_insert.
  - intros r Hrlt Hs'. rewrite Hpc. destruct (decide (r = d)) as [->|Hne].
    + refine (eq_trans Hreg _). rewrite Hv. do 2 f_equal. symmetry.
      by apply Hseq.
    + destruct (Hkeep r Hne) as [Hs Hrg]. refine (eq_trans Hrg _).
      apply F2; [done|congruence].
  - intros j st' kj insj Hj Hkj Hpj.
    destruct (Hlook j st' Hj) as [[-> ->]|(Hne & stj & Hstj & ->)]; [done|].
    destruct (update_operand_fields stj n v)
      as (Hn' & Ho' & _ & Hd' & Hi' & _).
    fold (upd stj) in Hn', Ho', Hd', Hi'. rewrite Hi' in Hkj.
    destruct (F3 j stj kj insj Hstj Hkj Hpj) as (Ho & Hdd & Hss).
    rewrite Hn', Ho', Hd'. split_and!; try done.
    destruct (Hkeep (reg_index (Instruction.dest insj))) as [-> _];
      [by eapply Hdest|done].
  - intros j st' kj insj Hj Hkj Hpj.
    destruct (Hlook j st' Hj) as [[-> ->]|(Hne & stj & Hstj & ->)]; [done|].
    destruct (update_operand_fields stj n v) as (_ & _ & _ & _ & Hi' & _).
    fold (upd stj) in Hi'. rewrite Hi' in Hkj.
    destruct (F4 j stj kj insj Hstj Hkj Hpj) as (G1 & G2 & G3 & G4).
    assert (∀ src : option string,
              (∃ j0 st0 p ins0,
                 Simulator.reservation_stations s !! j0 = Some st0
                 ∧ ReservationStation.name st0 = n
                 ∧ ReservationStation.instruction st0 = Some p
                 ∧ program !! p = Some ins0
                 ∧ (p < kj)%nat
                 ∧ reg_index (Instruction.dest ins0) = reg_index src) →
              v = Some (sequential regs0 (take kj program) !!! reg_index src))
      as Hval.
    { intros src (j0 & st0 & p & ins0 & Hj0 & Hn0 & Hp0 & Hpp & Hlt & Hdd).
      assert (j0 = i) as ->.
      { eapply name_lookup_inj;
          [exact (inv_names s HI)|done|done|congruence]. }
      rewrite Hst in Hj0. injection Hj0 as <-.
      rewrite Hk in Hp0. injection Hp0 as <-.
      rewrite Hp in Hpp. injection Hpp as <-.
      rewrite Hv, <- Hdd. f_equal. symmetry. by apply Hseq. }
    assert (∀ (src : option string) t, t ≠ n →
              (∃ j0 st0 p ins0,
                 Simulator.reservation_stations s !! j0 = Some st0
                 ∧ ReservationStation.name st0 = t
                 ∧ ReservationStation.instruction st0 = Some p
                 ∧ program !! p = Some ins0
                 ∧ (p < kj)%nat
                 ∧ reg_index (Instruction.dest ins0) = reg_index src) →
              ∃ j0 st0 p ins0,
                 Simulator.reservation_stations s' !! j0 = Some st0
                 ∧ ReservationStation.name st0 = t
                 ∧ ReservationStation.instruction st0 = Some p
                 ∧ program !! p = Some ins0
                 ∧ (p < kj)%nat
                 ∧ reg_index (Instruction.dest ins0) = reg_index src)
      as Hwait.
    { intros src t Htn (j0 & st0 & p & ins0 & Hj0 & Hn0 & Hp0 & Hpp & Hlt
                        & Hdd).
      assert (j0 ≠ i) as Hne0.
      { intros ->. rewrite Hst in Hj0. injection Hj0 as <-. congruence. }
      exists j0, (upd st0), p, ins0.
      destruct (update_operand_fields st0 n v)
        as (Hn' & _ & _ & _ & Hi0 & _).
      fold (upd st0) in Hn', Hi0.
      split_and!; try done; try congruence.
      rewrite Hsts, list_lookup_insert_ne by done.
      unfold ReservationStations.update_from_cdb.
      by rewrite list_lookup_fmap, Hj0. }
    unfold upd. destruct stj; simpl in *. split_and!.
    + intros Hq. case_bool_decide as Hh.
      * apply (Hval (Instruction.src1 insj)). by apply G3.
      * by apply G1.
    + intros Hq. case_bool_decide as Hh.
      * apply (Hval (Instruction.src2 insj)). by apply G4.
      * by apply G2.
    + intros t Hq. case_bool_decide as Hh; [done|].
      apply (Hwait (Instruction.src1 insj)); [congruence|by apply G3].
    + intros t Hq. case_bool_decide as Hh; [done|].
      apply (Hwait (Instruction.src2 insj)); [congruence|by apply G4].
Qed.

Lemma write_back_Flow s s' :
  Inv s → Writable s → Dispatched s → Flow program regs0 s →
  Simulator.write_back s = Ok s' → Flow program regs0 s'.
Proof.
  intros HI HW HD HF H.
  destruct (FunctionalUnits.tick (Simulator.functional_units s)
              (Simulator.reservation_stations s) (Simulator.memory s))
    as [[[[[units' sts'] mem'] out] results]|e] eqn:Htick.
  2:{ unfold Simulator.write_back in H. by rewrite Htick in H. }
  rewrite (write_back_unfold _ _ _ _ _ _ Htick) in H. cbv zeta in H.
  match type of H with
  | match _ with [] => Ok ?x | _ => _ end = _ => set (s1 := x) in *
  end.
  pose proof (units_tick_spec _ _ _ _ _ _ _ _ Htick) as (_ & Hpay & _).
  assert (Flow program regs0 s1) as HF1 by by apply (Flow_payload s s1).
  destruct results as [|[n v] rest]; [by injection H as <-|].
  destruct (first_completion_station _ _ _ _ _ _ _ _ HI Htick)
    as (i & st0 & st1 & _ & _ & _ & _ & _ & Hst0 & Hn0 & _ & Hst1 & Hp1
        & Hfind & _).
  destruct (units_tick_Inv s s1 mem' out _ HI Htick) as [HI1 _]; [done..|].
  assert (Writable s1) as HW1 by by apply (Writable_payload s s1).
  destruct (completion_value s _ _ _ _ _ n v HI HW HD HF Htick)
    as (i' & st & k & ins & Hi' & Hn' & Hk & Hp & Hv);
    [apply list_elem_of_here|].
  assert (i' = i) as ->.
  { eapply name_lookup_inj; [exact (inv_names s HI)|done|done|congruence]. }
  rewrite Hst0 in Hi'. injection Hi' as <-.
  apply payload_fields in Hp1
    as (Hn1 & _ & _ & _ & _ & _ & _ & _ & Hi1 & _).
  apply (write_result_Flow s1 n v s' i st1 k ins); try done; congruence.
Qed.

Lemma execute_station_Flow i s s' :
  Flow program regs0 s → Simulator.execute_station i s = Ok s' →
  Flow program regs0 s'.
Proof.
  intros HF Hex.
  apply execute_station_cases in Hex as [[-> _]|Hex]; [done|].
  destruct Hex as (rs & rs' & u & fu & fu' & o & k0 & ins & Hrs & _ & _
                 & _ & _ & _ & Hk0 & Hins & Hpay & _ & _ & ->).
  apply payload_fields in Hpay
    as (Hn & Ho & Hvj & Hvk & Hqj & Hqk & _ & Hd & Hi & _).
  simpl in Hn, Ho, Hvj, Hvk, Hqj, Hqk, Hd, Hi.
  assert (i < length (Simulator.reservation_stations s))%nat as Hilt
    by by eapply lookup_lt_Some.
  apply (Flow_stations s); simpl; try done.
  - by eapply unstamped_insert.
  - intros j st' Hj. destruct (decide (j = i)) as [->|Hne].
    + rewrite list_lookup_insert_eq in Hj by done. injection Hj as <-.
      by exists rs.
    + rewrite list_lookup_insert_ne in Hj by done. by exists st'.
  - intros j st Hj. destruct (decide (j = i)) as [->|Hne].
    + rewrite list_lookup_insert_eq by done. exists rs'.
      rewrite Hrs in Hj. injection Hj as <-. by split_and!.
    + rewrite list_lookup_insert_ne by done. by exists st.
Qed.

Lemma for_each_Flow positions : ∀ s s',
  Flow program regs0 s →
  Simulator.for_each Simulator.execute_station positions s = Ok s' →
  Flow program regs0 s'.
Proof.
  induction positions as [|i positions IH]; intros s s' HF H; simpl in H.
  - by injection H as <-.
  - apply bind_Ok in H as (s1 & H1 & H2).
    eapply IH; [|exact H2]. by eapply execute_station_Flow.
Qed.

(** What [capture] reads for the operand [src] of the instruction at
    [pc]. *)
Lemma capture_Flow s src v q v' :
  Inv s → Writable s → Flow program regs0 s →
  Simulator.capture (Simulator.register_file s) src v = Ok (q, v') →
  (q = None →
   v' = Some (sequential regs0 (take (Simulator.pc s) program)
              !!! reg_index src))
  ∧ (∀ t, q = Some t →
       ∃ j st p ins, Simulator.reservation_stations s !! j = Some st
         ∧ ReservationStation.name st = t
         ∧ ReservationStation.busy st = true
         ∧ ReservationStation.instruction st = Some p
         ∧ program !! p = Some ins
         ∧ (p < Simulator.pc s)%nat
         ∧ reg_index (Instruction.dest ins) = reg_index src).
Proof.
  intros HI HW [F1 F2 F3 F4] Hc.
  apply capture_Ok in Hc as (r & Hr & Hc).
  assert (reg_index src = r) as Hri by (unfold reg_index; by rewrite Hr).
  rewrite Hri.
  destruct Hc as [(t & -> & -> & Hs)|(-> & Hs & Hv)]; split; try done.
  - intros t' [= <-].
    destruct (inv_status s HI r t) as (j & st & Hj & Hn & Hb & Hdi).
    { unfold status_of. by rewrite Hs. }
    destruct (wr_instr s HW j st Hj Hb) as [p Hp].
    destruct (inv_instr s HI j st p Hj Hp) as (_ & Hlt & ins_s & Hins & _).
    pose proof (unstamped_lookup _ _ _ _ F1 Hins) as Hpp.
    destruct (F3 j st p _ Hj Hp Hpp) as (_ & Hd & _).
    destruct (arithmetic_registers _ (Harith p _ Hpp) (Hwf p _ Hpp))
      as (Hrd & _).
    pose proof (dest_index_register st _ Hrd Hd) as Hdi'.
    exists j, st, p, (unstamped ins_s). split_and!; try done. congruence.
  - intros _.
    assert (r < Z.to_nat Config.NUM_REGISTERS)%nat as Hlt.
    { rewrite <- (wr_status s HW). by eapply lookup_lt_Some. }
    pose proof (F2 r Hlt) as Hval. unfold status_of in Hval.
    rewrite Hs in Hval. specialize (Hval eq_refl).
    pose proof (eq_trans (eq_sym Hv) Hval) as He. by injection He.
Qed.

Lemma issue_Flow s s' b :
  Inv s → Writable s → Flow program regs0 s →
  Simulator.issue s = Ok (s', b) → Flow program regs0 s'.
Proof.
  intros HI HW HF Hiss. destruct b.
  2:{ apply issue_false in Hiss as (_ & Hsts & Hrf & Hins & Hpc & _).
      apply (Flow_stations s); rewrite ?Hsts, ?Hins; try done;
        intros j st Hj; by exists st. }
  apply issue_detail in Hiss
    as (ins_s & i & rs & rs' & rf' & Hins & _ & Hrs & Hnb & -> & Hop).
  pose proof HF as [F1 F2 F3 F4].
  pose proof (unstamped_lookup _ _ _ _ F1 Hins) as Hp.
  set (ins := unstamped ins_s) in *.
  destruct (arithmetic_registers _ (Harith _ _ Hp) (Hwf _ _ Hp))
    as (Hrd & Hr1 & Hr2 & _).
  destruct (reg_index_Ok _ Hrd) as [Hdi Hdlt].
  set (d := reg_index (Instruction.dest ins)) in *.
  assert (i < length (Simulator.reservation_stations s))%nat as Hilt
    by by eapply lookup_lt_Some.
  assert (∃ qj vj qk vk,
            Simulator.capture (Simulator.register_file s)
              (Instruction.src1 ins) (ReservationStation.vj rs) = Ok (qj, vj)
            ∧ Simulator.capture (Simulator.register_file s)
                (Instruction.src2 ins) (ReservationStation.vk rs)
              = Ok (qk, vk)
            ∧ RegisterFile.status rf'
              = <[d := Some (ReservationStation.name rs)]>
                  (RegisterFile.status (Simulator.register_file s))
            ∧ RegisterFile.registers rf'
              = RegisterFile.registers (Simulator.register_file s)
            ∧ ReservationStation.name rs' = ReservationStation.name rs
            ∧ ReservationStation.op rs' = Some (Instruction.op ins)
            ∧ ReservationStation.dest rs' = Instruction.dest ins
            ∧ ReservationStation.instruction rs' = Some (Simulator.pc s)
            ∧ ReservationStation.qj rs' = qj
            ∧ ReservationStation.vj rs' = vj
            ∧ ReservationStation.qk rs' = qk
            ∧ ReservationStation.vk rs' = vk)
    as (qj & vj & qk & vk & Hc1 & Hc2 & Hstat & Hregf & Hn' & Ho' & Hd' & Hi'
        & Hqj & Hvj & Hqk & Hvk).
  { pose proof (Harith _ _ Hp) as Ha. apply bool_decide_eq_true in Ha.
    change (Instruction.op ins) with (Instruction.op ins_s) in *.
    change (Instruction.dest ins) with (Instruction.dest ins_s) in *.
    change (Instruction.src1 ins) with (Instruction.src1 ins_s) in *.
    change (Instruction.src2 ins) with (Instruction.src2 ins_s) in *.
    destruct (Instruction.op ins_s) eqn:Heqo;
      try (exfalso;
           repeat (apply elem_of_cons in Ha as [Ha|Ha]; [discriminate Ha|]);
           by apply elem_of_nil in Ha);
      destruct Hop as (qj & vj & qk & vk & Hc1 & Hc2 & Hset & ->);
      exists qj, vj, qk, vk;
      apply set_status_Ok in Hset as (dn & r & Hdn & Hr & _ & Hst' & Hrg');
      rewrite <- Hdn in Hr;
      (assert (r = d) as -> by congruence);
      by split_and!. }
  assert (∀ j st, Simulator.reservation_stations s !! j = Some st →
            ReservationStation.busy st = true →
            <[i := rs']> (Simulator.reservation_stations s) !! j = Some st)
    as Hkeep.
  { intros j st Hj Hb. rewrite list_lookup_insert_ne; [done|].
    intros ->. rewrite Hrs in Hj. injection Hj as <-. congruence. }
  assert (length (RegisterFile.status (Simulator.register_file s))
          = Z.to_nat Config.NUM_REGISTERS) as Hlen by apply (wr_status s HW).
  destruct (capture_Flow _ _ _ _ _ HI HW HF Hc1) as [Hj1 Hj2].
  destruct (capture_Flow _ _ _ _ _ HI HW HF Hc2) as [Hk1 Hk2].
  split; unfold status_of; simpl; rewrite ?Hstat, ?Hregf.
  - rewrite <- F1. by eapply unstamped_insert.
  - intros r Hrlt Hs. destruct (decide (r = d)) as [->|Hne].
    { rewrite list_lookup_insert_eq in Hs by by rewrite Hlen. done. }
    rewrite list_lookup_insert_ne in Hs by done.
    rewrite (sequential_next _ _ _ ins) by done. by apply F2.
  - intros j st' k insk Hj Hk Hpk. destruct (decide (j = i)) as [->|Hne].
    + rewrite list_lookup_insert_eq in Hj by done. injection Hj as <-.
      rewrite Hi' in Hk. injection Hk as <-.
      rewrite Hp in Hpk. injection Hpk as <-.
      split_and!; try done.
      rewrite list_lookup_insert_eq by by rewrite Hlen. simpl. by rewrite Hn'.
    + rewrite list_lookup_insert_ne in Hj by done.
      destruct (F3 j st' k insk Hj Hk Hpk) as (Ho & Hdd & Hss).
      split_and!; try done.
      rewrite list_lookup_insert_ne; [done|].
      intros Heq. destruct (inv_instr s HI j st' k Hj Hk) as (_ & Hlt & _).
      assert (Simulator.pc s = k) by by eapply destination_inj.
      lia.
  - intros j st' k insk Hj Hk Hpk. destruct (decide (j = i)) as [->|Hne].
    + rewrite list_lookup_insert_eq in Hj by done. injection Hj as <-.
      rewrite Hi' in Hk. injection Hk as <-.
      rewrite Hp in Hpk. injection Hpk as <-.
      rewrite Hqj, Hvj, Hqk, Hvk. split_and!; try done.
      * intros t Ht. destruct (Hj2 t Ht)
          as (j0 & st0 & p & ins0 & Hj0 & Hn0 & Hb0 & Hp0 & Hpp & Hlt & Hdd).
        exists j0, st0, p, ins0. split_and!; try done. by apply Hkeep.
      * intros t Ht. destruct (Hk2 t Ht)
          as (j0 & st0 & p & ins0 & Hj0 & Hn0 & Hb0 & Hp0 & Hpp & Hlt & Hdd).
        exists j0, st0, p, ins0. split_and!; try done. by apply Hkeep.
    + rewrite list_lookup_insert_ne in Hj by done.
      destruct (F4 j st' k insk Hj Hk Hpk) as (G1 & G2 & G3 & G4).
      split_and!; try done.
      * intros t Ht. destruct (G3 t Ht)
          as (j0 & st0 & p & ins0 & Hj0 & Hn0 & Hp0 & Hpp & Hlt & Hdd).
        destruct (inv_instr s HI j0 st0 p Hj0 Hp0) as (Hb0 & _).
        exists j0, st0, p, ins0. split_and!; try done. by apply Hkeep.
      * intros t Ht. destruct (G4 t Ht)
          as (j0 & st0 & p & ins0 & Hj0 & Hn0 & Hp0 & Hpp & Hlt & Hdd).
        destruct (inv_instr s HI j0 st0 p Hj0 Hp0) as (Hb0 & _).
        exists j0, st0, p, ins0. split_and!; try done. by apply Hkeep.
Qed.

Lemma tick_Flow s s' b :
  Sound s → Flow program regs0 s → Simulator.tick s = Ok (s', b) →
  Flow program regs0 s'.
Proof.
  intros HS HF H.
  apply tick_phases in H as (s1 & s2 & issued & H1 & H2 & H3 & _).
  destruct (begin_cycle_Sound s HS) as (HI0 & HW0 & _ & HD0 & _).
  pose proof (write_back_Inv _ _ HI0 H1) as HI1.
  pose proof (write_back_Writable _ _ HW0 H1) as HW1.
  eapply issue_Flow; [| | |exact H3].
  - by eapply for_each_Inv.
  - by eapply for_each_Writable.
  - eapply for_each_Flow; [|exact H2].
    eapply write_back_Flow; [exact HI0|exact HW0|exact HD0| |exact H1].
    destruct HF as [F1 F2 F3 F4]. by split.
Qed.

Lemma ticks_Flow n : ∀ s s',
  Sound s → Flow program regs0 s → Simulator.ticks n s = Ok s' →
  Sound s' ∧ Flow program regs0 s'.
Proof.
  induction n as [|n IH]; intros s s' HS HF H; simpl in H.
  - by injection H as <-.
  - apply bind_Ok in H as (s1 & H1 & H2).
    apply bind_Ok in H2 as ([s2 b] & H2 & [= <-]).
    destruct (IH s s1 HS HF H1) as [HS1 HF1].
    split; [exact (tick_Sound s1 _ _ HS1 H2)|].
    exact (tick_Flow s1 _ _ HS1 HF1 H2).
Qed.

Lemma loaded_Flow out :
  forallb fresh program = true →
  Flow program regs0 (loaded (Some <$> regs0) program out).
Proof.
  intros Hfresh. split.
  - by apply unstamped_fresh.
  - intros r Hr _. change (sequential regs0 (take 0 program)) with regs0.
    change ((Some <$> regs0) !! r = Some (Some (regs0 !!! r))).
    rewrite list_lookup_fmap.
    by rewrite (list_lookup_lookup_total_lt regs0 r) by by rewrite Hregs.
  - intros i st k ins Hi.
    change (ReservationStations.init !! i = Some st) in Hi.
    apply init_station in Hi as (name & ->). done.
  - intros i st k ins Hi.
    change (ReservationStations.init !! i = Some st) in Hi.
    apply init_station in Hi as (name & ->). done.
Qed.

(** When the loop of [run] has ended, every register holds the value of
    the sequential execution. *)
Lemma final_registers s :
  Inv s → Writable s → Flow program regs0 s →
  (length (Simulator.instructions s) ≤ Simulator.pc s)%nat →
  (∀ i st, Simulator.reservation_stations s !! i = Some st →
     ReservationStation.busy st = false) →
  RegisterFile.registers (Simulator.register_file s)
  = Some <$> sequential regs0 program.
Proof.
  intros HI HW [F1 F2 F3 F4] Hpc Hfree.
  assert (take (Simulator.pc s) program = program) as Htake.
  { apply take_ge. by rewrite <- F1, length_fmap. }
  apply list_eq. intros r. rewrite list_lookup_fmap.
  destruct (decide (r < Z.to_nat Config.NUM_REGISTERS)%nat) as [Hr|Hr].
  - rewrite (list_lookup_lookup_total_lt (sequential regs0 program) r)
      by by rewrite sequential_length, Hregs.
    simpl. rewrite <- Htake. apply F2; [done|].
    destruct (status_of s r) as [t|] eqn:Hs; [|done].
    destruct (inv_status s HI r t Hs) as (i & st & Hi & _ & Hb & _).
    rewrite (Hfree i st Hi) in Hb. done.
  - rewrite !(proj2 (lookup_ge_None _ _)); [done| |].
    + rewrite sequential_length, Hregs. lia.
    + rewrite (wr_registers s HW). lia.
Qed.

End DataFlow.

(** X19: a program of arithmetic instructions on registers that no two
    instructions write runs to the end, and leaves in every register the
    value that the instructions give when they execute one after the
    other, each on the registers the previous one left. *)
Theorem distinct_destinations_run_sequentially regs0 program out :
  length regs0 = Z.to_nat Config.NUM_REGISTERS →
  forallb fresh program = true →
  forallb well_formed program = true →
  forallb Instruction.is_arithmetic program = true →
  NoDup (destinations program) →
  ∃ fuel s',
    Simulator.run_loop fuel (loaded (Some <$> regs0) program out)
    = Ok (Some s')
    ∧ RegisterFile.registers (Simulator.register_file s')
      = Some <$> sequential regs0 program.
Proof.
  intros Hregs Hfresh Hwf Harith Hnodup.
  assert (∀ (f : Instruction.t → bool), forallb f program = true →
            ∀ k ins, program !! k = Some ins → f ins = true) as Hall.
  { intros f Hf k ins Hk. eapply forallb_forall; [exact Hf|].
    apply list_elem_of_In. by eapply list_elem_of_lookup_2. }
  assert (Live (loaded (Some <$> regs0) program out)) as HL.
  { apply loaded_Live; try done.
    - by rewrite length_fmap.
    - apply Forall_fmap, Forall_true. intros z. by eexists. }
  destruct (run_loop_arithmetic_terminates _ HL
              (loaded_arithmetic (Some <$> regs0) program out Harith))
    as (fuel & s' & Hrun).
  exists fuel, s'. split; [done|].
  destruct (run_loop_cycles _ _ _ Hrun) as (n & s1 & _ & Hticks & Htick).
  destruct HL as (HS & _).
  destruct (ticks_Flow program regs0 Hregs (Hall _ Harith) (Hall _ Hwf)
              Hnodup n _ s1 HS (loaded_Flow program regs0 Hregs out Hfresh)
              Hticks) as [HS1 HF1].
  pose proof (tick_Flow program regs0 Hregs (Hall _ Harith) (Hall _ Hwf)
                Hnodup s1 s' false HS1 HF1 Htick) as HF'.
  destruct (tick_Sound s1 s' false HS1 Htick) as (HI' & HW' & _).
  destruct (tick_false _ _ Htick) as [Hpc Hfree].
  apply (final_registers program regs0 Hregs s' HI' HW' HF' Hpc).
  by apply all_free.
Qed.

Lemma distinct_destinations_run_sequentially_witness :
  ∃ fuel s',
    Simulator.run_loop fuel
      (loaded (Some <$> [0; 5; 7; 3; 0; 0; 0; 0])
         (program trace_two_finish_together) [])
    = Ok (Some s')
    ∧ RegisterFile.registers (Simulator.register_file s')
      = Some <$> [0; 5; 7; 3; 12; 9; 9; 0].
Proof.
  apply (distinct_destinations_run_sequentially [0; 5; 7; 3; 0; 0; 0; 0]
           (program trace_two_finish_together) []).
  - reflexivity.
  - reflexivity.
  - vm_compute; reflexivity.
  - vm_compute; reflexivity.
  - apply (bool_decide_unpack _). vm_compute. exact I.
Defined.

(** * Printing and parsing an instruction *)

Lemma string_app_cons c (s t : string) :
  String c s +:+ t = String c (s +:+ t).
Proof. reflexivity. Qed.

Lemma string_app_nil_l (t : string) : "" +:+ t = t.
Proof. reflexivity. Qed.

Lemma string_app_nil_r (s : string) : s +:+ "" = s.
Proof.
  induction s as [|c s IH]; [done|]. by rewrite string_app_cons, IH.
Qed.

Lemma string_app_assoc (x y z : string) : (x +:+ y) +:+ z = x +:+ (y +:+ z).
Proof.
  induction x as [|c x IH]; [done|]. by rewrite !string_app_cons, IH.
Qed.

Lemma string_rev_app_acc (s acc : string) :
  String.rev_app s acc = String.rev s +:+ acc.
Proof.
  revert acc. induction s as [|c s IH]; intros acc; [done|].
  unfold String.rev. simpl. rewrite (IH (String c acc)), (IH (String c "")).
  by rewrite string_app_assoc.
Qed.

Lemma string_rev_cons c (s : string) :
  String.rev (String c s) = String.rev s +:+ String c "".
Proof. unfold String.rev at 1. simpl. apply string_rev_app_acc. Qed.

Lemma string_rev_app (x y : string) :
  String.rev (x +:+ y) = String.rev y +:+ String.rev x.
Proof.
  induction x as [|c x IH].
  - by rewrite string_app_nil_l, string_app_nil_r.
  - by rewrite string_app_cons, !string_rev_cons, IH, string_app_assoc.
Qed.

Lemma string_rev_involutive (s : string) : String.rev (String.rev s) = s.
Proof.
  induction s as [|c s IH]; [done|].
  by rewrite string_rev_cons, string_rev_app, IH.
Qed.

Lemma free_of_app p (x y : string) :
  free_of p (x +:+ y) = free_of p x && free_of p y.
Proof.
  induction x as [|c x IH]; [done|].
  rewrite string_app_cons. simpl. by rewrite IH, andb_assoc.
Qed.

Lemma free_of_rev p (s : string) : free_of p (String.rev s) = free_of p s.
Proof.
  induction s as [|c s IH]; [done|].
  rewrite string_rev_cons, free_of_app, IH. simpl.
  by rewrite andb_true_r, andb_comm.
Qed.

(** ** [rstrip] and [strip] *)

(** [rstrip] removes a suffix of characters of the class. *)
Lemma rstrip_by_suffix p (s : string) :
  ∃ t, s = PyStr.rstrip_by p s +:+ t ∧ free_of (λ c, negb (p c)) t = true.
Proof.
  unfold PyStr.rstrip_by.
  match goal with
  | |- context [String.rev (?f (String.rev s))] => set (go := f)
  end.
  assert (∀ r, ∃ t, r = t +:+ go r ∧ free_of (λ c, negb (p c)) t = true)
    as Hgo.
  { induction r as [|c r [t [Ht Hp]]]; [by exists ""|].
    simpl. destruct (p c) eqn:Hc.
    - exists (String c t). rewrite string_app_cons, <- Ht. simpl.
      by rewrite Hc, Hp.
    - by exists "". }
  destruct (Hgo (String.rev s)) as (t & Ht & Hp).
  exists (String.rev t). split; [|by rewrite free_of_rev].
  rewrite <- string_rev_app, <- Ht. by rewrite string_rev_involutive.
Qed.

(** Characters of the class at the end do not count. *)
Lemma rstrip_by_app p (s t : string) :
  free_of (λ c, negb (p c)) t = true →
  PyStr.rstrip_by p (s +:+ t) = PyStr.rstrip_by p s.
Proof.
  intros Ht. unfold PyStr.rstrip_by. rewrite string_rev_app.
  match goal with
  | |- String.rev (?f _) = _ => set (go := f)
  end.
  f_equal. rewrite <- free_of_rev in Ht.
  induction (String.rev t) as [|c r IH]; [done|].
  simpl in Ht. apply andb_true_iff in Ht as [Hc Hr].
  rewrite string_app_cons. simpl.
  apply negb_true_iff, negb_false_iff in Hc. rewrite Hc. by apply IH.
Qed.

(** A string that does not end with a character of the class is left as
    it is; this is so of a string [rstrip] returned. *)
Lemma rstrip_by_idemp p (s : string) :
  PyStr.rstrip_by p (PyStr.rstrip_by p s) = PyStr.rstrip_by p s.
Proof.
  unfold PyStr.rstrip_by. rewrite string_rev_involutive.
  match goal with
  | |- String.rev (?f _) = _ => set (go := f)
  end.
  f_equal. induction (String.rev s) as [|c r IH]; [done|].
  simpl. destruct (p c) eqn:Hc; [done|]. simpl. by rewrite Hc.
Qed.

Lemma rstrip_by_free p (s : string) :
  free_of p s = true → PyStr.rstrip_by p s = s.
Proof.
  intros Hs. unfold PyStr.rstrip_by. rewrite <- free_of_rev in Hs.
  rewrite <- (string_rev_involutive s) at 2. f_equal.
  destruct (String.rev s) as [|c r]; [done|].
  simpl in Hs. apply andb_true_iff in Hs as [Hc _].
  apply negb_true_iff in Hc. by rewrite Hc.
Qed.

Lemma rstrip_by_keeps_free q p (s : string) :
  free_of q s = true → free_of q (PyStr.rstrip_by p s) = true.
Proof.
  intros Hs. destruct (rstrip_by_suffix p s) as (t & Ht & _).
  rewrite Ht, free_of_app in Hs. by apply andb_true_iff in Hs as [? _].
Qed.

Lemma lstrip_free (s : string) :
  free_of PyStr.isspace s = true → PyStr.lstrip s = s.
Proof.
  destruct s as [|c s]; [done|]. simpl. intros Hs.
  apply andb_true_iff in Hs as [Hc _]. apply negb_true_iff in Hc.
  by rewrite Hc.
Qed.

Lemma strip_free (s : string) :
  free_of PyStr.isspace s = true → PyStr.strip s = s.
Proof.
  intros Hs. unfold PyStr.strip. rewrite (lstrip_free s Hs).
  by apply rstrip_by_free.
Qed.

(** ** [split()] *)

Lemma split_ws_go_spaces (t : string) :
  free_of (λ c, negb (PyStr.isspace c)) t = true →
  PyStr.split_ws_go None t = [].
Proof.
  induction t as [|c t IH]; [done|]. simpl. intros Ht.
  apply andb_true_iff in Ht as [Hc Ht].
  apply negb_true_iff, negb_false_iff in Hc. rewrite Hc. by apply IH.
Qed.

Lemma split_ws_go_app_spaces (x t : string) : ∀ cur,
  free_of (λ c, negb (PyStr.isspace c)) t = true →
  PyStr.split_ws_go cur (x +:+ t) = PyStr.split_ws_go cur x.
Proof.
  induction x as [|c x IH]; intros cur Ht.
  - rewrite string_app_nil_l. destruct t as [|c t]; [done|].
    simpl in *. apply andb_true_iff in Ht as [Hc Ht].
    apply negb_true_iff, negb_false_iff in Hc. rewrite Hc.
    by rewrite (split_ws_go_spaces t Ht), app_nil_r.
  - rewrite string_app_cons. simpl.
    destruct (PyStr.isspace c); by rewrite IH.
Qed.

Lemma split_ws_lstrip (s : string) :
  PyStr.split_ws (PyStr.lstrip s) = PyStr.split_ws s.
Proof.
  unfold PyStr.split_ws. induction s as [|c s IH]; [done|].
  simpl. destruct (PyStr.isspace c) eqn:Hc; [done|]. simpl. by rewrite Hc.
Qed.

(** [s.strip().split()] is [s.split()]. *)
Lemma split_ws_strip (s : string) :
  PyStr.split_ws (PyStr.strip s) = PyStr.split_ws s.
Proof.
  unfold PyStr.strip.
  destruct (rstrip_by_suffix PyStr.isspace (PyStr.lstrip s)) as (t & Ht & Hp).
  rewrite <- (split_ws_lstrip s). rewrite Ht at 2.
  unfold PyStr.split_ws. by rewrite split_ws_go_app_spaces.
Qed.

(** The words of [split()] have no white space. *)
Lemma split_ws_go_free (s : string) : ∀ cur,
  free_of PyStr.isspace (default "" cur) = true →
  Forall (λ w, free_of PyStr.isspace w = true) (PyStr.split_ws_go cur s).
Proof.
  induction s as [|c s IH]; intros cur Hcur; simpl.
  - destruct cur as [w|]; simpl; [|done].
    apply Forall_singleton. by rewrite free_of_rev.
  - destruct (PyStr.isspace c) eqn:Hc.
    + apply Forall_app. split; [|by apply IH].
      destruct cur as [w|]; simpl; [|done].
      apply Forall_singleton. by rewrite free_of_rev.
    + apply IH. simpl. by rewrite Hc, Hcur.
Qed.

Lemma remove_char_app c (x y : string) :
  PyStr.remove_char c (x +:+ y)
  = PyStr.remove_char c x +:+ PyStr.remove_char c y.
Proof.
  induction x as [|d x IH]; [done|]. rewrite string_app_cons. simpl.
  destruct (Ascii.eqb d c); [done|]. by rewrite string_app_cons, IH.
Qed.

Lemma remove_char_free c (x : string) :
  free_of (λ d, Ascii.eqb d c) x = true → PyStr.remove_char c x = x.
Proof.
  induction x as [|d x IH]; [done|]. simpl. intros Hx.
  apply andb_true_iff in Hx as [Hd Hx]. apply negb_true_iff in Hd.
  by rewrite Hd, IH.
Qed.

Lemma space_isspace c : PyStr.isspace c = false → Ascii.eqb c " " = false.
Proof.
  intros Hc. apply Ascii.eqb_neq. intros ->. by vm_compute in Hc.
Qed.

Lemma free_of_weaken (p q : ascii → bool) (s : string) :
  (∀ c, p c = false → q c = false) →
  free_of p s = true → free_of q s = true.
Proof.
  intros Hpq. induction s as [|c s IH]; [done|]. simpl. intros Hs.
  apply andb_true_iff in Hs as [Hc Hs]. apply negb_true_iff in Hc.
  by rewrite (Hpq c Hc), IH.
Qed.

(** [' '.join(words).replace(' ', '')] puts the words one after the
    other. *)
Lemma join_remove_cons (x : string) (l : list string) :
  PyStr.remove_char " " (PyStr.join " " (x :: l))
  = PyStr.remove_char " " x +:+ PyStr.remove_char " " (PyStr.join " " l).
Proof.
  destruct l as [|y l]; simpl.
  - by rewrite string_app_nil_r.
  - by rewrite !remove_char_app.
Qed.

Lemma join_remove_split_ws (s : string) : ∀ cur,
  PyStr.remove_char " " (PyStr.join " " (PyStr.split_ws_go cur s))
  = PyStr.remove_char " " (String.rev (default "" cur))
    +:+ remove_spaces s.
Proof.
  induction s as [|c s IH]; intros cur; simpl.
  - destruct cur as [w|]; simpl; [|done]. by rewrite string_app_nil_r.
  - destruct (PyStr.isspace c) eqn:Hc.
    + destruct cur as [w|].
      * change (option_list (String.rev <$> Some w) ++ ?l)
          with (String.rev w :: l).
        rewrite join_remove_cons. f_equal. apply (IH None).
      * apply (IH None).
    + rewrite IH. simpl. rewrite string_rev_cons, remove_char_app.
      rewrite string_app_assoc. f_equal. simpl.
      by rewrite (space_isspace c Hc).
Qed.

(** The operands that [parse] reads after the mnemonic. *)
Lemma operands_of_cons (word rest : string) :
  Instruction.operands_of (word :: PyStr.split_ws rest)
  = PyStr.split "," (remove_spaces rest).
Proof.
  unfold Instruction.operands_of, PyStr.split_ws.
  change (drop 1 (word :: PyStr.split_ws_go None rest))
    with (PyStr.split_ws_go None rest).
  by rewrite (join_remove_split_ws rest None).
Qed.

Lemma remove_spaces_app (x y : string) :
  remove_spaces (x +:+ y) = remove_spaces x +:+ remove_spaces y.
Proof.
  induction x as [|c x IH]; [done|]. rewrite string_app_cons. simpl.
  destruct (PyStr.isspace c); [done|]. by rewrite string_app_cons, IH.
Qed.

Lemma remove_spaces_free (x : string) :
  free_of PyStr.isspace x = true → remove_spaces x = x.
Proof.
  induction x as [|c x IH]; [done|]. simpl. intros Hx.
  apply andb_true_iff in Hx as [Hc Hx]. apply negb_true_iff in Hc.
  by rewrite Hc, IH.
Qed.

(** ** [split(sep)] *)

Lemma split_go_app sep (x y : string) : ∀ cur,
  free_of (λ c, Ascii.eqb c sep) x = true →
  PyStr.split_go sep cur (x +:+ String sep y)
  = (String.rev cur +:+ x) :: PyStr.split_go sep "" y.
Proof.
  induction x as [|c x IH]; intros cur Hx.
  - rewrite string_app_nil_l, string_app_nil_r. simpl.
    by rewrite Ascii.eqb_refl.
  - simpl in Hx. apply andb_true_iff in Hx as [Hc Hx].
    apply negb_true_iff in Hc. rewrite string_app_cons. simpl.
    rewrite Hc, (IH _ Hx), string_rev_cons, string_app_assoc. done.
Qed.

Lemma split_go_last sep (x : string) : ∀ cur,
  free_of (λ c, Ascii.eqb c sep) x = true →
  PyStr.split_go sep cur x = [String.rev cur +:+ x].
Proof.
  induction x as [|c x IH]; intros cur Hx; simpl.
  - by rewrite string_app_nil_r.
  - simpl in Hx. apply andb_true_iff in Hx as [Hc Hx].
    apply negb_true_iff in Hc.
    rewrite Hc, (IH _ Hx), string_rev_cons, string_app_assoc. done.
Qed.

Lemma split_app sep (x y : string) :
  free_of (λ c, Ascii.eqb c sep) x = true →
  PyStr.split sep (x +:+ String sep y) = x :: PyStr.split sep y.
Proof. intros Hx. unfold PyStr.split. by rewrite split_go_app. Qed.

Lemma split_last sep (x : string) :
  free_of (λ c, Ascii.eqb c sep) x = true → PyStr.split sep x = [x].
Proof. intros Hx. unfold PyStr.split. by rewrite split_go_last. Qed.

(** The pieces of [split(sep)] do not contain [sep], and contain no
    character that the string does not. *)
Lemma split_go_free_sep sep (s : string) : ∀ cur,
  free_of (λ c, Ascii.eqb c sep) cur = true →
  Forall (λ w, free_of (λ c, Ascii.eqb c sep) w = true)
    (PyStr.split_go sep cur s).
Proof.
  induction s as [|c s IH]; intros cur Hcur; simpl.
  - apply Forall_singleton. by rewrite free_of_rev.
  - destruct (Ascii.eqb c sep) eqn:Hc.
    + apply Forall_cons. split; [by rewrite free_of_rev|]. by apply IH.
    + apply IH. simpl. by rewrite Hc, Hcur.
Qed.

Lemma split_go_free q sep (s : string) : ∀ cur,
  free_of q cur = true → free_of q s = true →
  Forall (λ w, free_of q w = true) (PyStr.split_go sep cur s).
Proof.
  induction s as [|c s IH]; intros cur Hcur Hs; simpl.
  - apply Forall_singleton. by rewrite free_of_rev.
  - simpl in Hs. apply andb_true_iff in Hs as [Hc Hs].
    destruct (Ascii.eqb c sep).
    + apply Forall_cons. split; [by rewrite free_of_rev|]. by apply IH.
    + apply IH; [|done]. simpl. by rewrite Hc, Hcur.
Qed.

(** ** [str] and [int] of an integer *)

Lemma digits_acc (d : Decimal.uint) : ∀ p,
  PyStr.digits (Z.pos p) true (NilEmpty.string_of_uint d)
  = Some (Z.pos (Pos.of_uint_acc d p)).
Proof.
  induction d as [|d IH|d IH|d IH|d IH|d IH|d IH|d IH|d IH|d IH|d IH];
    intros p; [done|..];
    cbn [NilEmpty.string_of_uint Pos.of_uint_acc];
    match goal with
    | |- PyStr.digits ?acc _ (String ?c ?s) = _ =>
        change (PyStr.digits acc true (String c s))
          with (PyStr.digits (10 * acc + Z.of_nat (nat_of_ascii c - 48))
                  true s)
    end;
    rewrite <- IH; f_equal; simpl; lia.
Qed.

Lemma digits_uint (d : Decimal.uint) : ∀ b,
  d ≠ Decimal.Nil ∨ b = true →
  PyStr.digits 0 b (NilEmpty.string_of_uint d) = Some (Z.of_uint d).
Proof.
  unfold Z.of_uint.
  induction d as [|d IH|d IH|d IH|d IH|d IH|d IH|d IH|d IH|d IH|d IH];
    intros b Hb.
  { destruct Hb as [?| ->]; done. }
  { cbn [NilEmpty.string_of_uint Pos.of_uint].
    change (PyStr.digits 0 b (String "0" ?s)) with (PyStr.digits 0 true s).
    apply IH. by right. }
  all: cbn [NilEmpty.string_of_uint Pos.of_uint];
    match goal with
    | |- PyStr.digits 0 ?b (String ?c ?s) = _ =>
        change (PyStr.digits 0 b (String c s))
          with (PyStr.digits (Z.of_nat (nat_of_ascii c - 48)) true s)
    end;
    apply digits_acc.
Qed.

Lemma free_of_uint p (d : Decimal.uint) :
  free_of p "0123456789" = true →
  free_of p (NilEmpty.string_of_uint d) = true.
Proof.
  intros Hp. simpl in Hp.
  repeat (apply andb_true_iff in Hp as [?%negb_true_iff Hp]).
  induction d as [|d IH|d IH|d IH|d IH|d IH|d IH|d IH|d IH|d IH|d IH];
    simpl; [done|..]; rewrite IH, andb_true_r; by apply negb_true_iff.
Qed.

(** [str] of an integer has a sign and digits only. *)
Lemma free_of_py_str p (z : Z) :
  free_of p "-0123456789" = true → free_of p (py_str z) = true.
Proof.
  intros Hp. simpl in Hp. apply andb_true_iff in Hp as [Hm Hp].
  assert (∀ d, free_of p (NilZero.string_of_uint d) = true) as Hd.
  { intros d. destruct d;
      [exact (free_of_uint p (Decimal.D0 Decimal.Nil) Hp)
      |apply (free_of_uint p (_ _) Hp)..]. }
  unfold py_str, NilZero.string_of_int.
  destruct (Z.to_int z) as [d|d]; [apply Hd|].
  change (negb (p "-"%char) && free_of p (NilZero.string_of_uint d) = true).
  by rewrite Hm, Hd.
Qed.

Lemma digit_cases (c : ascii) (k : Z) :
  PyStr.digit c = Some k →
  Ascii.eqb c "_" = false
  ∧ ((c = "0"%char ∧ k = 0) ∨ (c = "1"%char ∧ k = 1) ∨ (c = "2"%char ∧ k = 2)
     ∨ (c = "3"%char ∧ k = 3) ∨ (c = "4"%char ∧ k = 4) ∨ (c = "5"%char ∧ k = 5)
     ∨ (c = "6"%char ∧ k = 6) ∨ (c = "7"%char ∧ k = 7) ∨ (c = "8"%char ∧ k = 8)
     ∨ (c = "9"%char ∧ k = 9)).
Proof.
  destruct c as [[] [] [] [] [] [] [] []]; vm_compute; intros H;
    try discriminate; injection H as <-; (split; [done|tauto]).
Qed.

Lemma digits_pos_uint (s : string) : ∀ p b v,
  PyStr.digits (Z.pos p) b s = Some v →
  ∃ d, v = Z.pos (Pos.of_uint_acc d p)
       ∧ Z.of_nat (Decimal.nb_digits d) = PyStr.count_digits s.
Proof.
  induction s as [|c s IH]; intros p b v H.
  { simpl in H. destruct b; [|done]. injection H as <-. by exists Decimal.Nil. }
  cbn [PyStr.digits PyStr.count_digits] in *.
  destruct (PyStr.digit c) as [k|] eqn:Hk.
  - destruct (digit_cases c k Hk) as [Hu Hc]. rewrite Hu in H.
    destruct Hc as [[-> ->]|[[-> ->]|[[-> ->]|[[-> ->]|[[-> ->]|[[-> ->]
                   |[[-> ->]|[[-> ->]|[[-> ->]|[-> ->]]]]]]]]]];
      apply IH in H as (d & -> & Hd);
      [exists (Decimal.D0 d)|exists (Decimal.D1 d)|exists (Decimal.D2 d)
      |exists (Decimal.D3 d)|exists (Decimal.D4 d)|exists (Decimal.D5 d)
      |exists (Decimal.D6 d)|exists (Decimal.D7 d)|exists (Decimal.D8 d)
      |exists (Decimal.D9 d)];
      (split; [|cbn [Decimal.nb_digits]; lia]). all: cbn [Pos.of_uint_acc]; do 2 f_equal; lia.
  - destruct (Ascii.eqb c "_"); [|done]. destruct b; [|done].
    by apply IH in H.
Qed.

Lemma digits_zero_uint (s : string) : ∀ b v,
  PyStr.digits 0 b s = Some v →
  ∃ d, v = Z.of_uint d
       ∧ Z.of_nat (Decimal.nb_digits d) = PyStr.count_digits s
       ∧ (b = false → d ≠ Decimal.Nil).
Proof.
  unfold Z.of_uint.
  induction s as [|c s IH]; intros b v H.
  { simpl in H. destruct b; [|done]. injection H as <-. by exists Decimal.Nil. }
  cbn [PyStr.digits PyStr.count_digits] in *.
  destruct (PyStr.digit c) as [k|] eqn:Hk.
  - destruct (digit_cases c k Hk) as [Hu Hc]. rewrite Hu in H.
    destruct Hc as [[-> ->]|Hc].
    { apply IH in H as (d & -> & Hd & _). exists (Decimal.D0 d).
      split; [done|]. split; [cbn [Decimal.nb_digits]; lia|done]. }
    destruct Hc as [[-> ->]|[[-> ->]|[[-> ->]|[[-> ->]|[[-> ->]
                   |[[-> ->]|[[-> ->]|[[-> ->]|[-> ->]]]]]]]]];
      apply digits_pos_uint in H as (d & -> & Hd);
      [exists (Decimal.D1 d)|exists (Decimal.D2 d)
      |exists (Decimal.D3 d)|exists (Decimal.D4 d)|exists (Decimal.D5 d)
      |exists (Decimal.D6 d)|exists (Decimal.D7 d)|exists (Decimal.D8 d)
      |exists (Decimal.D9 d)];
      (split; [done|]); (split; [cbn [Decimal.nb_digits]; lia|done]).
  - destruct (Ascii.eqb c "_"); [|done]. destruct b; [|done].
    apply IH in H as (d & -> & Hd & Hn). exists d. eauto.
Qed.

Lemma count_digits_uint (d : Decimal.uint) :
  PyStr.count_digits (NilEmpty.string_of_uint d)
  = Z.of_nat (Decimal.nb_digits d).
Proof.
  induction d as [|d IH|d IH|d IH|d IH|d IH|d IH|d IH|d IH|d IH|d IH];
    [done|..];
    cbn [NilEmpty.string_of_uint Decimal.nb_digits];
    match goal with
    | |- PyStr.count_digits (String ?c ?s) = _ =>
        change (PyStr.count_digits (String c s))
          with (1 + PyStr.count_digits s)
    end;
    rewrite IH; lia.
Qed.

Lemma count_digits_nonnil (d : Decimal.uint) :
  d ≠ Decimal.Nil →
  PyStr.count_digits (NilZero.string_of_uint d)
  = Z.of_nat (Decimal.nb_digits d).
Proof.
  intros Hd. rewrite <- count_digits_uint. by destruct d.
Qed.

Lemma count_digits_opp (z : Z) :
  PyStr.count_digits (py_str (- z)) = PyStr.count_digits (py_str z).
Proof. by destruct z. Qed.

(** [str] of a number read from digits has no more digits than were read. *)
Lemma count_digits_py_str (s : string) (v : Z) :
  PyStr.digits 0 false s = Some v →
  PyStr.count_digits (py_str v) ≤ PyStr.count_digits s.
Proof.
  intros H. apply digits_zero_uint in H as (d & -> & <- & Hd).
  specialize (Hd eq_refl).
  change (Z.of_uint d) with (Z.of_int (Decimal.Pos d)).
  unfold py_str. rewrite DecimalZ.to_of.
  change (Decimal.norm (Decimal.Pos d)) with (Decimal.Pos (Decimal.unorm d)).
  change (NilZero.string_of_int (Decimal.Pos (Decimal.unorm d)))
    with (NilZero.string_of_uint (Decimal.unorm d)).
  rewrite count_digits_nonnil by apply DecimalFacts.unorm_nonnil.
  apply inj_le. by apply DecimalFacts.nb_digits_unorm.
Qed.

Lemma int_digits_bound (s : string) (z : Z) :
  PyStr.int s = Ok z → PyStr.count_digits (py_str z) ≤ int_max_str_digits.
Proof.
  unfold PyStr.int. cbv zeta. intros H.
  destruct (PyStr.strip s) as [|c r] eqn:Hs; [done|].
  assert (∀ c' v, PyStr.digit c' = None → PyStr.digits 0 false r = Some v →
            PyStr.count_digits (String c' r) ≤ int_max_str_digits →
            PyStr.count_digits (py_str v) ≤ int_max_str_digits) as Hsign.
  { intros c' v Hc' Hv Hn. cbn [PyStr.count_digits] in Hn. rewrite Hc' in Hn.
    pose proof (count_digits_py_str r v Hv). lia. }
  destruct (ascii_dec c "-") as [->|Hm].
  { destruct (PyStr.digits 0 false r) as [v|] eqn:Hv; [|done].
    cbn [fmap option_fmap option_map] in H.
    destruct (Z.ltb_spec int_max_str_digits
                (PyStr.count_digits (String "-" r))) as [|Hn]; [done|].
    injection H as <-. rewrite count_digits_opp.
    by apply (Hsign "-"%char). }
  destruct (ascii_dec c "+") as [->|Hp].
  { destruct (PyStr.digits 0 false r) as [v|] eqn:Hv; [|done].
    destruct (Z.ltb_spec int_max_str_digits
                (PyStr.count_digits (String "+" r))) as [|Hn]; [done|].
    injection H as <-. by apply (Hsign "+"%char). }
  assert (match String c r with
          | String "-" r0 => Z.opp <$> PyStr.digits 0 false r0
          | String "+" r0 => PyStr.digits 0 false r0
          | _ => PyStr.digits 0 false (String c r)
          end = PyStr.digits 0 false (String c r)) as Heq.
  { destruct c as [[] [] [] [] [] [] [] []]; done. }
  rewrite Heq in H.
  destruct (PyStr.digits 0 false (String c r)) as [v|] eqn:Hv; [|done].
  destruct (Z.ltb_spec int_max_str_digits
              (PyStr.count_digits (String c r))) as [|Hn]; [done|].
  injection H as <-. pose proof (count_digits_py_str _ _ Hv). lia.
Qed.

(** [int(str(z))] is [z], unless [str(z)] has more digits than the limit. *)
Lemma int_py_str (z : Z) :
  PyStr.count_digits (py_str z) ≤ int_max_str_digits →
  PyStr.int (py_str z) = Ok z.
Proof.
  intros Hn. apply Z.ltb_ge in Hn.
  assert (PyStr.strip (py_str z) = py_str z) as Hstrip.
  { apply strip_free, free_of_py_str. reflexivity. }
  unfold PyStr.int. cbv zeta. rewrite Hstrip, Hn. clear Hn.
  pose proof (DecimalZ.of_to z) as Hz.
  unfold py_str, NilZero.string_of_int.
  destruct (Z.to_int z) as [d|d]; simpl in Hz.
  - destruct d;
      try (rewrite <- Hz;
           match goal with
           | |- context [NilZero.string_of_uint (?k ?d)] =>
               change (NilZero.string_of_uint (k d))
                 with (NilEmpty.string_of_uint (k d));
               assert (k d ≠ Decimal.Nil) as Hne by discriminate;
               pose proof (digits_uint (k d) false (or_introl Hne)) as Hd;
               cbn [NilEmpty.string_of_uint] in Hd |- *;
               cbv beta iota; by rewrite Hd
           end).
    by rewrite <- Hz.
  - destruct d;
      try (rewrite <- Hz;
           match goal with
           | |- context [NilZero.string_of_uint (?k ?d)] =>
               change (NilZero.string_of_uint (k d))
                 with (NilEmpty.string_of_uint (k d));
               assert (k d ≠ Decimal.Nil) as Hne by discriminate;
               pose proof (digits_uint (k d) false (or_introl Hne)) as Hd;
               cbv beta iota; by rewrite Hd
           end).
    by rewrite <- Hz.
Qed.

(** ** [Instruction.parse] on a printed instruction *)

Lemma join_remove_free (l : list string) :
  Forall (λ w, free_of PyStr.isspace w = true) l →
  free_of PyStr.isspace (PyStr.remove_char " " (PyStr.join " " l)) = true.
Proof.
  induction l as [|x l IH]; intros Hl; [done|].
  apply Forall_cons in Hl as [Hx Hl].
  rewrite join_remove_cons, free_of_app, (IH Hl), andb_true_r.
  rewrite remove_char_free; [done|].
  eapply free_of_weaken; [|exact Hx]. apply space_isspace.
Qed.

(** The operands [parse] reads contain neither white space nor commas. *)
Lemma operands_of_free (s : string) :
  Forall (λ w, free_of PyStr.isspace w = true
               ∧ free_of (λ c, Ascii.eqb c ",") w = true)
    (Instruction.operands_of (PyStr.split_ws s)).
Proof.
  unfold Instruction.operands_of, PyStr.split, PyStr.split_ws.
  apply Forall_and. split.
  - apply split_go_free; [done|]. apply join_remove_free.
    apply Forall_drop. by apply split_ws_go_free.
  - by apply split_go_free_sep.
Qed.

Lemma opcode_of_mnemonic (op : opcode) :
  Instruction.opcode_of (PyStr.upper (TraceGenerator.mnemonic op)) = Some op.
Proof. by destruct op. Qed.

Lemma split_ws_mnemonic (op : opcode) (rest : string) :
  PyStr.split_ws (TraceGenerator.mnemonic op +:+ " " +:+ rest)
  = TraceGenerator.mnemonic op :: PyStr.split_ws rest.
Proof. by destruct op. Qed.

(** [parse] of a mnemonic followed by a space and the operands. *)
Ltac parse_mnemonic :=
  unfold Instruction.parse;
  rewrite split_ws_strip, split_ws_mnemonic;
  cbv zeta;
  change (py_getitem (?w :: ?l) 0) with (Ok w);
  cbn [bind];
  rewrite opcode_of_mnemonic, operands_of_cons.

Lemma parse_arithmetic_str (op : opcode) (d a b : string) :
  op ∈ [ADD; SUB; MUL; DIV] →
  free_of PyStr.isspace d = true → free_of (λ c, Ascii.eqb c ",") d = true →
  free_of PyStr.isspace a = true → free_of (λ c, Ascii.eqb c ",") a = true →
  free_of PyStr.isspace b = true → free_of (λ c, Ascii.eqb c ",") b = true →
  Instruction.parse (TraceGenerator.mnemonic op +:+ " " +:+ d +:+ " , "
                     +:+ a +:+ " , " +:+ b)
  = Ok (Instruction.init op (Some d) (Some a) (Some b) None None).
Proof.
  intros Hop Hd1 Hd2 Ha1 Ha2 Hb1 Hb2. parse_mnemonic.
  rewrite !remove_spaces_app, (remove_spaces_free d), (remove_spaces_free a),
    (remove_spaces_free b) by done.
  change (remove_spaces " , ") with ",".
  rewrite !string_app_cons, !string_app_nil_l.
  rewrite (split_app _ _ _ Hd2), (split_app _ _ _ Ha2), (split_last _ _ Hb2).
  destruct op; try done; exfalso;
    repeat (apply elem_of_cons in Hop as [Hop|Hop]; [discriminate Hop|]);
    by apply elem_of_nil in Hop.
Qed.

Lemma rstrip_char_close (b : string) :
  PyStr.rstrip_char ")" b = b → PyStr.rstrip_char ")" (b +:+ ")") = b.
Proof.
  intros Hb. unfold PyStr.rstrip_char in *. by rewrite rstrip_by_app.
Qed.

Lemma split_mem_ref (z : Z) (b : string) :
  free_of (λ c, Ascii.eqb c "(") b = true →
  PyStr.split "(" (py_str z +:+ String "(" (b +:+ ")"))
  = [py_str z; b +:+ ")"].
Proof.
  intros Hb. rewrite split_app by by apply free_of_py_str.
  by rewrite split_last by by rewrite free_of_app, Hb.
Qed.

Lemma parse_load_str (d b : string) (z : Z) :
  free_of PyStr.isspace d = true → free_of (λ c, Ascii.eqb c ",") d = true →
  free_of PyStr.isspace b = true → free_of (λ c, Ascii.eqb c ",") b = true →
  free_of (λ c, Ascii.eqb c "(") b = true →
  PyStr.rstrip_char ")" b = b →
  PyStr.count_digits (py_str z) ≤ int_max_str_digits →
  Instruction.parse (TraceGenerator.mnemonic LOAD +:+ " " +:+ d +:+ " , "
                     +:+ py_str z +:+ " (" +:+ b +:+ ")")
  = Ok (Instruction.init LOAD (Some d) None None (Some z) (Some b)).
Proof.
  intros Hd1 Hd2 Hb1 Hb2 Hb3 Hb4 Hz. parse_mnemonic.
  rewrite !remove_spaces_app, (remove_spaces_free d), (remove_spaces_free b),
    (remove_spaces_free (py_str z)) by (done || by apply free_of_py_str).
  change (remove_spaces " , ") with ",". change (remove_spaces " (") with "(".
  change (remove_spaces ")") with ")".
  rewrite !string_app_cons, !string_app_nil_l.
  rewrite (split_app _ _ _ Hd2), split_last
    by (rewrite free_of_app,
          (free_of_py_str (λ c, Ascii.eqb c ",") z eq_refl); simpl;
        by rewrite free_of_app, Hb2).
  cbn [py_getitem lookup list_lookup bind].
  rewrite (split_mem_ref z b Hb3).
  cbn [py_getitem lookup list_lookup bind].
  by rewrite (int_py_str z Hz), (rstrip_char_close b Hb4).
Qed.

Lemma parse_store_str (a b : string) (z : Z) :
  free_of PyStr.isspace a = true → free_of (λ c, Ascii.eqb c ",") a = true →
  free_of PyStr.isspace b = true → free_of (λ c, Ascii.eqb c ",") b = true →
  free_of (λ c, Ascii.eqb c "(") b = true →
  PyStr.rstrip_char ")" b = b →
  PyStr.count_digits (py_str z) ≤ int_max_str_digits →
  Instruction.parse (TraceGenerator.mnemonic STORE +:+ " " +:+ py_str z
                     +:+ " (" +:+ b +:+ "), " +:+ a +:+ " ")
  = Ok (Instruction.init STORE None (Some a) None (Some z) (Some b)).
Proof.
  intros Ha1 Ha2 Hb1 Hb2 Hb3 Hb4 Hz. parse_mnemonic.
  rewrite !remove_spaces_app, (remove_spaces_free a), (remove_spaces_free b),
    (remove_spaces_free (py_str z)) by (done || by apply free_of_py_str).
  change (remove_spaces "), ") with "),". change (remove_spaces " (") with "(".
  change (remove_spaces " ") with "".
  rewrite string_app_nil_r, !string_app_cons, !string_app_nil_l.
  assert (py_str z +:+ String "(" (b +:+ String ")" (String "," a))
          = (py_str z +:+ String "(" (b +:+ ")")) +:+ String "," a) as ->.
  { by rewrite !string_app_assoc, !string_app_cons, !string_app_assoc. }
  rewrite split_app, (split_last _ _ Ha2)
    by (rewrite free_of_app,
          (free_of_py_str (λ c, Ascii.eqb c ",") z eq_refl); simpl;
        by rewrite free_of_app, Hb2).
  cbn [py_getitem lookup list_lookup bind].
  rewrite (split_mem_ref z b Hb3).
  cbn [py_getitem lookup list_lookup bind].
  rewrite (int_py_str z Hz). cbn [py_getitem lookup list_lookup bind].
  by rewrite (rstrip_char_close b Hb4).
Qed.

(** The base register [parse] reads in [offset(base)]. *)
Lemma base_of_mem_ref (mem_ref base_str : string) :
  free_of PyStr.isspace mem_ref = true →
  free_of (λ c, Ascii.eqb c ",") mem_ref = true →
  PyStr.split "(" mem_ref !! 1%nat = Some base_str →
  let base := PyStr.rstrip_char ")" base_str in
  free_of PyStr.isspace base = true
  ∧ free_of (λ c, Ascii.eqb c ",") base = true
  ∧ free_of (λ c, Ascii.eqb c "(") base = true
  ∧ PyStr.rstrip_char ")" base = base.
Proof.
  intros Hs Hc Hb. unfold PyStr.split in Hb. cbv zeta.
  pose proof (split_go_free PyStr.isspace "(" mem_ref "" eq_refl Hs) as H1.
  pose proof (split_go_free (λ c, Ascii.eqb c ",") "(" mem_ref "" eq_refl Hc)
    as H2.
  pose proof (split_go_free_sep "(" mem_ref "" eq_refl) as H3.
  rewrite Forall_lookup in H1, H2, H3.
  unfold PyStr.rstrip_char. split_and!.
  - apply rstrip_by_keeps_free. by eapply H1.
  - apply rstrip_by_keeps_free. by eapply H2.
  - apply rstrip_by_keeps_free. by eapply H3.
  - apply rstrip_by_idemp.
Qed.

(** The instructions that [parse] returns. *)
Lemma parse_Ok_fields (s : string) (ins : Instruction.t) :
  Instruction.parse s = Ok ins →
  let clean x := free_of PyStr.isspace x = true
                 ∧ free_of (λ c, Ascii.eqb c ",") x = true in
  let based b := clean b ∧ free_of (λ c, Ascii.eqb c "(") b = true
                 ∧ PyStr.rstrip_char ")" b = b in
  (∃ op d a b, op ∈ [ADD; SUB; MUL; DIV] ∧ clean d ∧ clean a ∧ clean b
     ∧ ins = Instruction.init op (Some d) (Some a) (Some b) None None)
  ∨ (∃ d z b, clean d ∧ based b
       ∧ PyStr.count_digits (py_str z) ≤ int_max_str_digits
       ∧ ins = Instruction.init LOAD (Some d) None None (Some z) (Some b))
  ∨ (∃ a z b, clean a ∧ based b
       ∧ PyStr.count_digits (py_str z) ≤ int_max_str_digits
       ∧ ins = Instruction.init STORE None (Some a) None (Some z) (Some b)).
Proof.
  intros H clean based. unfold Instruction.parse in H. cbv zeta in H.
  rewrite split_ws_strip in H.
  pose proof (operands_of_free s) as Hops. rewrite Forall_lookup in Hops.
  apply bind_Ok in H as (word & _ & H).
  destruct (Instruction.opcode_of (PyStr.upper word)) as [op|]; [|done].
  assert (∀ i x, py_getitem (Instruction.operands_of (PyStr.split_ws s)) i
                 = Ok x → clean x) as Hclean.
  { intros i x Hx. apply py_getitem_Ok in Hx. by apply (Hops i x). }
  destruct op.
  1-4: apply bind_Ok in H as (d & Hd & H);
       apply bind_Ok in H as (a & Ha & H);
       apply bind_Ok in H as (b & Hb & H);
       injection H as <-; left; eexists _, d, a, b;
       (split; [|by eauto 10]);
       repeat first [apply list_elem_of_here|apply list_elem_of_further].
  - apply bind_Ok in H as (d & Hd & H).
    apply bind_Ok in H as (mem_ref & Hm & H).
    apply bind_Ok in H as (offset_str & _ & H).
    apply bind_Ok in H as (z & Hz%int_digits_bound & H).
    apply bind_Ok in H as (base_str & Hb & H).
    injection H as <-. right. left. eexists d, z, _.
    split; [by eauto|]. split; [|done].
    apply py_getitem_Ok in Hb. destruct (Hclean _ _ Hm) as [Hm1 Hm2].
    destruct (base_of_mem_ref _ _ Hm1 Hm2 Hb) as (? & ? & ? & ?). done.
  - apply bind_Ok in H as (mem_ref & Hm & H).
    apply bind_Ok in H as (offset_str & _ & H).
    apply bind_Ok in H as (z & Hz%int_digits_bound & H).
    apply bind_Ok in H as (base_str & Hb & H).
    apply bind_Ok in H as (a & Ha & H).
    injection H as <-. right. right. eexists a, z, _.
    split; [by eauto|]. split; [|done].
    apply py_getitem_Ok in Hb. destruct (Hclean _ _ Hm) as [Hm1 Hm2].
    destruct (base_of_mem_ref _ _ Hm1 Hm2 Hb) as (? & ? & ? & ?). done.
Qed.

(** X20: printing an instruction that [Instruction.parse] returned and
    parsing the line again gives the same instruction. *)
Theorem parse_str_round_trip (s : string) (ins : Instruction.t) :
  Instruction.parse s = Ok ins →
  Instruction.parse (InstructionStr.__str__ ins) = Ok ins.
Proof.
  intros H. apply parse_Ok_fields in H.
  destruct H as [(op & d & a & b & Hop & [Hd1 Hd2] & [Ha1 Ha2] & [Hb1 Hb2]
                  & ->)
                |[(d & z & b & [Hd1 Hd2] & ([Hb1 Hb2] & Hb3 & Hb4) & Hz & ->)
                 |(a & z & b & [Ha1 Ha2] & ([Hb1 Hb2] & Hb3 & Hb4) & Hz & ->)]].
  - unfold InstructionStr.__str__, Instruction.is_arithmetic. simpl.
    rewrite bool_decide_eq_true_2 by done. by apply parse_arithmetic_str.
  - by apply parse_load_str.
  - by apply parse_store_str.
Qed.

Lemma parse_str_round_trip_witness :
  let ins := Instruction.init LOAD (Some "R1") None None (Some 4)
               (Some "R2") in
  Instruction.parse "  load  R1,+4(R2) " = Ok ins
  ∧ InstructionStr.__str__ ins = "LOAD R1 , 4 (R2)"
  ∧ Instruction.parse "LOAD R1 , 4 (R2)" = Ok ins.
Proof.
  split; [reflexivity|]. split; [reflexivity|].
  apply (parse_str_round_trip "  load  R1,+4(R2) "
           (Instruction.init LOAD (Some "R1") None None (Some 4)
              (Some "R2"))).
  reflexivity.
Defined.

(** ** Register renaming *)

Lemma lookup_unstamped (l l' : list Instruction.t) k ins :
  unstamped <$> l' = unstamped <$> l → l !! k = Some ins →
  ∃ ins', l' !! k = Some ins'
    ∧ Instruction.op ins' = Instruction.op ins
    ∧ Instruction.dest ins' = Instruction.dest ins.
Proof.
  intros He Hk.
  assert ((unstamped <$> l') !! k = Some (unstamped ins)) as H.
  { by rewrite He, list_lookup_fmap, Hk. }
  rewrite list_lookup_fmap in H.
  destruct (l' !! k) as [ins'|]; [|done].
  exists ins'. split; [done|]. simpl in H. injection H as H1 H2 _. done.
Qed.

Lemma writes_register_unstamped (l l' : list Instruction.t) k ins ins' r :
  unstamped <$> l' = unstamped <$> l →
  l !! k = Some ins → l' !! k = Some ins' →
  writes_register ins r → writes_register ins' r.
Proof.
  intros He Hk Hk' [H1 H2].
  destruct (lookup_unstamped l l' k ins He Hk) as (x & Hx & Ho & Hd).
  rewrite Hk' in Hx. injection Hx as <-.
  split; by rewrite ?Ho, ?Hd.
Qed.

Lemma youngest_producer_ext s s' r k :
  Simulator.pc s' = Simulator.pc s →
  unstamped <$> Simulator.instructions s'
  = unstamped <$> Simulator.instructions s →
  youngest_producer s r k → youngest_producer s' r k.
Proof.
  intros Hpc He (Hlt & (ins & Hk & Hw) & Hlast).
  split; [by rewrite Hpc|]. split.
  - destruct (lookup_unstamped _ _ k ins He Hk) as (ins' & Hk' & _).
    exists ins'. split; [done|].
    by eapply writes_register_unstamped.
  - intros k' ins' Hk' Hins' Hw'. rewrite Hpc in Hk'.
    destruct (lookup_unstamped _ _ k' ins' (eq_sym He) Hins')
      as (x & Hx & _).
    apply (Hlast k' x Hk' Hx).
    eapply writes_register_unstamped; [exact (eq_sym He)|done..].
Qed.

Lemma youngest_producer_inj s r k k' :
  youngest_producer s r k → youngest_producer s r k' → k = k'.
Proof.
  intros (Hlt & (ins & Hk & Hw) & Hlast) (Hlt' & (ins' & Hk' & Hw') & Hlast').
  destruct (Nat.lt_trichotomy k k') as [H|[H|H]]; [|done|].
  - destruct (Hlast k' ins'); done.
  - destruct (Hlast' k ins); done.
Qed.

Lemma written_back_kept s s' k :
  instrs_kept (Simulator.instructions s) (Simulator.instructions s') →
  written_back s k → written_back s' k.
Proof.
  intros Hkept (ins & c & Hk & Hc).
  destruct (Hkept k ins Hk) as (ins' & Hk' & _ & _ & Hw & _).
  exists ins', c. split; [done|]. by apply Hw.
Qed.

Lemma Renamed_payload s s' :
  payload <$> Simulator.reservation_stations s'
  = payload <$> Simulator.reservation_stations s →
  Simulator.register_file s' = Simulator.register_file s →
  Simulator.instructions s' = Simulator.instructions s →
  Simulator.pc s' = Simulator.pc s →
  Renamed s → Renamed s'.
Proof.
  intros Hpay Hrf Hins Hpc [H1 H2 H3].
  pose proof (λ i st', payload_lookup _ _ i st' Hpay) as Hback.
  pose proof (λ i st, payload_lookup _ _ i st (eq_sym Hpay)) as Hforw.
  assert (∀ r k, youngest_producer s' r k ↔ youngest_producer s r k) as Hy.
  { intros r k. split; apply youngest_producer_ext; by rewrite ?Hins, ?Hpc. }
  split.
  - intros i st' Hi Hb. destruct (Hback i st' Hi) as (st & Hst & Hp).
    apply payload_fields in Hp
      as (_ & Ho & _ & _ & _ & _ & Hbs & Hd & Hk & _).
    destruct (H1 i st Hst) as (k & ins & ? & ? & ? & ?); [congruence|].
    exists k, ins. rewrite Hins. split_and!; try congruence.
    intros Hop. rewrite <- Hd. auto.
  - intros r t Hr. unfold status_of in Hr. rewrite Hrf in Hr.
    destruct (H2 r t Hr) as (i & st & k & Hi & Hn & Hk & Hyk).
    destruct (Hforw i st Hi) as (st' & Hi' & Hp).
    apply payload_fields in Hp as (Hn' & _ & _ & _ & _ & _ & _ & _ & Hk' & _).
    exists i, st', k. split_and!; try congruence. by apply Hy.
  - intros r k Hr Hyk. unfold status_of in Hr. rewrite Hrf in Hr.
    apply Hy in Hyk. destruct (H3 r k Hr Hyk) as (ins & c & ? & ?).
    exists ins, c. by rewrite Hins.
Qed.

(** The status of every register after [write_result]. *)
Lemma write_result_status_of s n v s' i rs :
  Simulator.write_result s n v = Ok s' →
  ReservationStations.get_station_by_name (Simulator.reservation_stations s) n
  = Some i →
  Simulator.reservation_stations s !! i = Some rs →
  ∀ r, status_of s' r
       = if bool_decide (producing (ReservationStation.op rs) = true
                         ∧ dest_index rs = Some r
                         ∧ status_of s r = Some n)
         then None else status_of s r.
Proof.
  intros H Hfind Hrs r.
  pose proof (write_result_effect _ _ _ _ i rs H Hfind Hrs)
    as (_ & _ & _ & Hstore & _ & Hregs & _).
  destruct (producing (ReservationStation.op rs)) eqn:Hprod.
  - destruct (write_result_destination _ _ _ _ i rs H Hfind Hrs Hprod)
      as (r0 & Hr0 & _ & Hs).
    destruct (decide (r = r0)) as [->|Hne].
    + rewrite Hs. case_bool_decide as Hn.
      * by rewrite bool_decide_eq_true_2.
      * by rewrite bool_decide_eq_false_2 by by intros (_ & _ & ?).
    + rewrite bool_decide_eq_false_2 by (intros (_ & ? & _); congruence).
      destruct (Hregs r) as [_ Hst]; [congruence|].
      unfold status_of. by rewrite Hst.
  - rewrite bool_decide_eq_false_2 by by intros (? & _).
    unfold status_of. by rewrite Hstore.
Qed.

Lemma write_result_Renamed s n v s' :
  Inv s → Renamed s → Simulator.write_result s n v = Ok s' → Renamed s'.
Proof.
  intros HI HR Hwr.
  destruct (ReservationStations.get_station_by_name
              (Simulator.reservation_stations s) n) as [i|] eqn:Hfind.
  2:{ unfold Simulator.write_result in Hwr. rewrite Hfind in Hwr.
      destruct (CommonDataBus.broadcast _ _ _). injection Hwr as <-.
      by apply (Renamed_payload s). }
  destruct (get_station_by_name_Some _ _ _ Hfind) as (rs & Hrs & Hn).
  pose proof (write_result_status_of _ _ _ _ i rs Hwr Hfind Hrs) as Hstatus.
  pose proof (write_result_stamps _ _ _ _ HI Hwr) as Hkept.
  pose proof (write_result_frame _ _ _ _ Hwr) as (Hpc & _).
  destruct (write_result_stamp _ _ _ _ i rs Hwr Hfind Hrs)
    as (k & ins & Hk & Hins & Hinstrs & _).
  pose proof (write_result_effect _ _ _ _ i rs Hwr Hfind Hrs) as (Hsts & _).
  assert (unstamped <$> Simulator.instructions s'
          = unstamped <$> Simulator.instructions s) as He.
  { rewrite Hinstrs. by eapply unstamped_insert. }
  assert (∀ r k, youngest_producer s' r k ↔ youngest_producer s r k) as Hy.
  { intros r k0. split; apply youngest_producer_ext; by rewrite ?He, ?Hpc. }
  set (upd := λ st, ReservationStation.update_operand st n v) in *.
  assert (∀ j st, j ≠ i → Simulator.reservation_stations s !! j = Some st →
            Simulator.reservation_stations s' !! j = Some (upd st)) as Hforw.
  { intros j st Hne Hj. rewrite Hsts, list_lookup_insert_ne by done.
    unfold ReservationStations.update_from_cdb.
    by rewrite list_lookup_fmap, Hj. }
  destruct HR as [H1 H2 H3]. split.
  - intros j st' Hj Hb. rewrite Hsts in Hj.
    destruct (decide (j = i)) as [->|Hne].
    { rewrite list_lookup_insert_eq in Hj.
      - injection Hj as <-. done.
      - unfold ReservationStations.update_from_cdb. rewrite length_fmap.
        by eapply lookup_lt_Some. }
    rewrite list_lookup_insert_ne in Hj by done.
    unfold ReservationStations.update_from_cdb in Hj.
    rewrite list_lookup_fmap in Hj.
    destruct (Simulator.reservation_stations s !! j) as [st|] eqn:Hst;
      [|done].
    injection Hj as <-.
    destruct (update_operand_fields st n v) as (_ & Ho & Hb' & Hd & Hi' & _).
    destruct (H1 j st Hst) as (k0 & ins0 & Hk0 & Hins0 & Hop0 & Hd0);
      [congruence|].
    destruct (lookup_unstamped _ _ k0 ins0 He Hins0) as (x & Hx & Hxo & Hxd).
    exists k0, x. split_and!; try congruence.
    intros Hop. rewrite Hd, Hxd. apply Hd0. congruence.
  - intros r t Hr. rewrite Hstatus in Hr.
    case_bool_decide as Hc; [done|].
    destruct (H2 r t Hr) as (j & st & k0 & Hj & Hnt & Hk0 & Hy0).
    assert (j ≠ i) as Hne.
    { intros ->. rewrite Hrs in Hj. injection Hj as <-.
      destruct (inv_status s HI r t Hr) as (j' & st' & Hj' & Hn' & Hb' & Hd').
      assert (j' = i) as ->.
      { eapply name_lookup_inj; [exact (inv_names s HI)|done..|congruence]. }
      rewrite Hrs in Hj'. injection Hj' as <-.
      apply Hc. split_and!; [|done|congruence].
      apply (inv_dest s HI i rs Hrs).
      apply dest_index_Some in Hd' as (d & -> & _). eauto. }
    exists j, (upd st), k0.
    destruct (update_operand_fields st n v) as (Hn' & _ & _ & _ & Hi' & _).
    split_and!; [by apply Hforw|unfold upd; congruence..|by apply Hy].
  - intros r k0 Hr Hy0. apply Hy in Hy0. rewrite Hstatus in Hr.
    case_bool_decide as Hc.
    + destruct Hc as (_ & _ & Hc).
      destruct (H2 r n Hc) as (j & st & k1 & Hj & Hnt & Hk1 & Hy1).
      assert (j = i) as ->.
      { eapply name_lookup_inj; [exact (inv_names s HI)|done..|congruence]. }
      rewrite Hrs in Hj. injection Hj as <-.
      assert (k0 = k) as ->.
      { apply (youngest_producer_inj s r); [done|congruence]. }
      eexists _, _. rewrite Hinstrs. split.
      * apply list_lookup_insert_eq. by eapply lookup_lt_Some.
      * reflexivity.
    + eapply written_back_kept; [exact Hkept|]. by apply (H3 r).
Qed.

Lemma write_back_Renamed s s' :
  Inv s → Renamed s → Simulator.write_back s = Ok s' → Renamed s'.
Proof.
  intros HI HR H. unfold Simulator.write_back in H.
  apply bind_Ok in H as ([[[[units' sts'] mem'] out] results] & Htick & H).
  match type of H with
  | match _ with [] => Ok ?x | _ => _ end = _ => set (s1 := x) in *
  end.
  destruct (units_tick_Inv s s1 mem' out results HI Htick)
    as [HI1 _]; [done..|].
  assert (Renamed s1) as HR1.
  { apply units_tick_spec in Htick as (_ & Hpay & _).
    by apply (Renamed_payload s s1). }
  destruct results as [|[n v] rest].
  - by injection H as <-.
  - by eapply write_result_Renamed.
Qed.

Lemma execute_station_Renamed i s s' :
  Inv s → Renamed s → Simulator.execute_station i s = Ok s' → Renamed s'.
Proof.
  intros HI HR Hex.
  pose proof (execute_station_stamps _ _ _ HI Hex) as Hkept.
  apply execute_station_cases in Hex as [[-> _]|Hex]; [done|].
  destruct Hex as (rs & rs' & u & fu & fu' & o & k0 & ins & Hrs & _ & _
                 & _ & _ & _ & Hk0 & Hins & Hpay & _ & _ & ->).
  simpl in Hkept.
  apply payload_set_address_fields in Hpay
    as (Hn' & Ho' & _ & _ & Hb' & Hd' & Hi').
  assert (i < length (Simulator.reservation_stations s))%nat as Hilt
    by by eapply lookup_lt_Some.
  set (s' := Simulator.mk _ _ _ _ _ _ _ _ _ _ _) in *.
  assert (unstamped <$> Simulator.instructions s'
          = unstamped <$> Simulator.instructions s) as He.
  { by eapply unstamped_insert. }
  assert (∀ r k, youngest_producer s' r k ↔ youngest_producer s r k) as Hy.
  { intros r k. split; apply youngest_producer_ext; by rewrite ?He. }
  destruct HR as [H1 H2 H3]. split.
  - intros j st' Hj Hb. simpl in Hj.
    assert (∃ st, Simulator.reservation_stations s !! j = Some st
              ∧ ReservationStation.op st' = ReservationStation.op st
              ∧ ReservationStation.busy st' = ReservationStation.busy st
              ∧ ReservationStation.dest st' = ReservationStation.dest st
              ∧ ReservationStation.instruction st'
                = ReservationStation.instruction st)
      as (st & Hst & Ho & Hbs & Hd & Hi).
    { destruct (decide (j = i)) as [->|Hne].
      - rewrite list_lookup_insert_eq in Hj by done. injection Hj as <-.
        by exists rs.
      - rewrite list_lookup_insert_ne in Hj by done. by exists st'. }
    destruct (H1 j st Hst) as (k & x & Hk & Hx & Hop & Hdx); [congruence|].
    destruct (lookup_unstamped _ _ k x He Hx) as (x' & Hx' & Hxo & Hxd).
    exists k, x'. split_and!; try congruence.
    intros Hop'. rewrite Hd, Hxd. apply Hdx. congruence.
  - intros r t Hr.
    destruct (H2 r t Hr) as (j & st & k & Hj & Hnt & Hk & Hyk).
    destruct (decide (j = i)) as [->|Hne].
    + rewrite Hrs in Hj. injection Hj as <-.
      exists i, rs', k. simpl. rewrite list_lookup_insert_eq by done.
      split_and!; try congruence. by apply Hy.
    + exists j, st, k. simpl. rewrite list_lookup_insert_ne by done.
      split_and!; try done. by apply Hy.
  - intros r k Hr Hyk. apply Hy in Hyk.
    eapply written_back_kept; [exact Hkept|]. by apply (H3 r).
Qed.

Lemma for_each_Renamed positions : ∀ s s',
  Inv s → Renamed s →
  Simulator.for_each Simulator.execute_station positions s = Ok s' →
  Renamed s'.
Proof.
  induction positions as [|i positions IH]; intros s s' HI HR H; simpl in H.
  - by injection H as <-.
  - apply bind_Ok in H as (s1 & H1 & H). eapply IH; [| |exact H].
    + by eapply execute_station_Inv.
    + by eapply execute_station_Renamed.
Qed.

Lemma writes_register_dec ins r :
  writes_register ins r ∨ ¬ writes_register ins r.
Proof.
  unfold writes_register.
  destruct (decide (Instruction.op ins = STORE)) as [?|Ho];
    [right; by intros [? _]|].
  destruct (RegisterFile.get_register_index (Instruction.dest ins))
    as [r0|e]; [|right; by intros [_ ?]].
  destruct (decide (r0 = r)) as [->|Hne]; [by left|].
  right. intros [_ [= ?]]. done.
Qed.

Lemma issue_Renamed s s' b :
  Inv s → Renamed s → Simulator.issue s = Ok (s', b) → Renamed s'.
Proof.
  intros HI HR Hiss.
  pose proof (issue_stamps _ _ _ HI Hiss) as Hkept.
  destruct b.
  2:{ apply issue_false in Hiss as (_ & Hsts & Hrf & Hins & Hpc & _).
      apply (Renamed_payload s); by rewrite ?Hsts. }
  apply issue_detail in Hiss
    as (ins & i & rs & rs' & rf' & Hins & _ & Hrs & Hnb & -> & Hop).
  set (s' := Simulator.mk _ _ _ _ _ _ _ _ _ _ _) in *.
  simpl in Hkept.
  assert (i < length (Simulator.reservation_stations s))%nat as Hilt
    by by eapply lookup_lt_Some.
  assert (Simulator.pc s < length (Simulator.instructions s))%nat as Hpclt
    by by eapply lookup_lt_Some.
  assert (ReservationStation.name rs' = ReservationStation.name rs
          ∧ ReservationStation.busy rs' = true
          ∧ ReservationStation.instruction rs' = Some (Simulator.pc s)
          ∧ ReservationStation.op rs' = Some (Instruction.op ins)
          ∧ (Instruction.op ins ≠ STORE →
             ReservationStation.dest rs' = Instruction.dest ins)
          ∧ ((Instruction.op ins = STORE ∧ rf' = Simulator.register_file s)
             ∨ (Instruction.op ins ≠ STORE
                ∧ RegisterFile.set_status (Simulator.register_file s)
                    (Instruction.dest ins)
                    (Some (ReservationStation.name rs)) = Ok rf')))
    as (Hn' & Hb' & Hi' & Ho' & Hd' & Hrf').
  { destruct (Instruction.op ins).
    1-4: destruct Hop as (qj & vj & qk & vk & _ & _ & Hset & ->); simpl;
         split_and!; try done; right; by split.
    - destruct Hop as (qj & vj & _ & Hset & ->). simpl.
      split_and!; try done. right. by split.
    - destruct Hop as (qj & vj & qk & vk & _ & _ & -> & ->). simpl.
      split_and!; try done. left. by split. }
  clear Hop.
  assert (unstamped <$> Simulator.instructions s'
          = unstamped <$> Simulator.instructions s) as He.
  { by eapply unstamped_insert. }
  assert (∀ r, (writes_register ins r →
                status_of s' r = Some (ReservationStation.name rs))
               ∧ (¬ writes_register ins r → status_of s' r = status_of s r))
    as Hstatus.
  { intros r. unfold status_of. simpl.
    destruct Hrf' as [[Hst ->]|[Hnst Hset]].
    { split; [by intros [? _]|done]. }
    apply set_status_Ok in Hset as (d & r0 & Hd & Hr0 & Hlt & -> & _).
    assert (writes_register ins r ↔ r = r0) as Hw.
    { unfold writes_register. rewrite Hd, Hr0. split.
      - by intros [_ [= ->]].
      - by intros ->. }
    split.
    - intros ->%Hw. by rewrite list_lookup_insert_eq.
    - intros Hne. rewrite list_lookup_insert_ne; [done|].
      intros <-. by apply Hne, Hw. }
  assert (∀ r, writes_register ins r →
            youngest_producer s' r (Simulator.pc s)) as Hya.
  { intros r Hw. split; [simpl; lia|]. split.
    - eexists. simpl. split; [by apply list_lookup_insert_eq|]. done.
    - intros k' ins'. simpl. lia. }
  assert (∀ r k, ¬ writes_register ins r →
            youngest_producer s' r k ↔ youngest_producer s r k) as Hyb.
  { intros r k Hnw. split.
    - intros (Hlt & (x & Hx & Hwx) & Hlast). simpl in Hlt, Hx.
      assert (k ≠ Simulator.pc s) as Hne.
      { intros ->. rewrite list_lookup_insert_eq in Hx by done.
        injection Hx as <-. done. }
      rewrite list_lookup_insert_ne in Hx by done.
      split; [lia|]. split; [by exists x|].
      intros k' ins' Hk' Hins' Hw'.
      apply (Hlast k' ins'); [simpl; lia| |done].
      simpl. rewrite list_lookup_insert_ne by lia. done.
    - intros (Hlt & (x & Hx & Hwx) & Hlast).
      split; [simpl; lia|]. split.
      + exists x. simpl. rewrite list_lookup_insert_ne by lia. done.
      + intros k' ins' Hk' Hins' Hw'. simpl in Hk', Hins'.
        destruct (decide (k' = Simulator.pc s)) as [->|Hne].
        * rewrite list_lookup_insert_eq in Hins' by done.
          injection Hins' as <-. done.
        * rewrite list_lookup_insert_ne in Hins' by done.
          apply (Hlast k' ins'); [lia|done..]. }
  assert (∀ j st, Simulator.reservation_stations s !! j = Some st →
            ReservationStation.busy st = true →
            Simulator.reservation_stations s' !! j = Some st) as Hkeep.
  { intros j st Hj Hb. simpl. rewrite list_lookup_insert_ne; [done|].
    intros ->. rewrite Hrs in Hj. injection Hj as <-. congruence. }
  destruct HR as [H1 H2 H3]. split.
  - intros j st Hj Hb. simpl in Hj.
    destruct (decide (j = i)) as [->|Hne].
    + rewrite list_lookup_insert_eq in Hj by done. injection Hj as <-.
      eexists _, _. split; [done|]. split.
      { simpl. by apply list_lookup_insert_eq. }
      done.
    + rewrite list_lookup_insert_ne in Hj by done.
      destruct (H1 j st Hj Hb) as (k & x & Hk & Hx & Hop & Hdx).
      destruct (lookup_unstamped _ _ k x He Hx) as (x' & Hx' & Hxo & Hxd).
      exists k, x'. split_and!; try congruence.
      intros Hop'. rewrite Hxd. apply Hdx. congruence.
  - intros r t Hr.
    destruct (writes_register_dec ins r) as [Hw|Hnw].
    + destruct (Hstatus r) as [Hs _]. rewrite (Hs Hw) in Hr.
      injection Hr as <-. exists i, rs', (Simulator.pc s).
      split_and!; try done; [|by apply Hya].
      simpl. by apply list_lookup_insert_eq.
    + destruct (Hstatus r) as [_ Hs]. rewrite (Hs Hnw) in Hr.
      destruct (H2 r t Hr) as (j & st & k & Hj & Hnt & Hk & Hyk).
      destruct (inv_instr s HI j st k Hj Hk) as (Hb & _).
      exists j, st, k. split_and!; try done; [by apply Hkeep|by apply Hyb].
  - intros r k Hr Hyk.
    destruct (writes_register_dec ins r) as [Hw|Hnw].
    + destruct (Hstatus r) as [Hs _]. by rewrite (Hs Hw) in Hr.
    + destruct (Hstatus r) as [_ Hs]. rewrite (Hs Hnw) in Hr.
      apply Hyb in Hyk; [|done].
      eapply written_back_kept; [exact Hkept|]. by apply (H3 r).
Qed.

Lemma tick_Renamed s s' b :
  Inv s → Renamed s → Simulator.tick s = Ok (s', b) → Renamed s'.
Proof.
  intros HI HR H.
  apply tick_phases in H as (s1 & s2 & issued & H1 & H2 & H3 & _).
  pose proof (begin_cycle_Inv s HI) as HI0.
  pose proof (write_back_Inv _ _ HI0 H1) as HI1.
  assert (Inv s2) as HI2 by by eapply for_each_Inv.
  eapply issue_Renamed; [exact HI2| |exact H3].
  eapply for_each_Renamed; [exact HI1| |exact H2].
  eapply write_back_Renamed; [exact HI0| |exact H1].
  by apply (Renamed_payload s).
Qed.

Lemma ticks_Renamed n : ∀ s s',
  Inv s → Renamed s → Simulator.ticks n s = Ok s' → Renamed s'.
Proof.
  induction n as [|n IH]; intros s s' HI HR H; simpl in H.
  - by injection H as <-.
  - apply bind_Ok in H as (s1 & H1 & H).
    apply bind_Ok in H as ([s2 b] & H2 & H). injection H as <-.
    eapply tick_Renamed; [|by eapply IH|exact H2]. by eapply ticks_Inv.
Qed.

Lemma reachable_Renamed s : reachable s → Renamed s.
Proof.
  intros (registers & instructions & out & n & Hlen & Hfresh & H).
  eapply ticks_Renamed; [by apply loaded_Inv| |exact H].
  split; simpl.
  - intros i st (name & ->)%init_station. done.
  - intros r t Hr. unfold status_of in Hr. simpl in Hr.
    do 8 (destruct r as [|r]; [done|]). by destruct r.
  - intros r k _ (Hlt & _). simpl in Hlt. lia.
Qed.

(** C1 (as amended): in every state of a run, the status of a register is
    the tag [t] exactly when the station named [t] is busy with the most
    recently issued instruction that writes the register, and its
    destination is that register; the status is [None] exactly when no
    issued instruction writes the register or the most recent one has
    written its result.  A register whose status is a tag is therefore the
    destination of the station with that tag, which is busy, and no other
    station has the tag; so at least one busy station has the register as
    destination. *)
Theorem status_names_busy_producer s r :
  reachable s →
  (∀ t, status_of s r = Some t ↔
     ∃ i st k, Simulator.reservation_stations s !! i = Some st
       ∧ ReservationStation.name st = t
       ∧ ReservationStation.busy st = true
       ∧ dest_index st = Some r
       ∧ ReservationStation.instruction st = Some k
       ∧ youngest_producer s r k)
  ∧ (status_of s r = None ↔ ∀ k, youngest_producer s r k → written_back s k)
  ∧ (∀ t, status_of s r = Some t →
       ∃ i st, Simulator.reservation_stations s !! i = Some st
         ∧ ReservationStation.name st = t
         ∧ ReservationStation.busy st = true
         ∧ dest_index st = Some r
         ∧ (∀ j st', Simulator.reservation_stations s !! j = Some st' →
              ReservationStation.name st' = t → j = i)
         ∧ (1 ≤ busy_producers s r)%nat).
Proof.
  intros Hreach.
  pose proof (reachable_Inv _ Hreach) as HI.
  pose proof (reachable_Renamed _ Hreach) as [H1 H2 H3].
  assert (∀ t, status_of s r = Some t →
            ∃ i st k, Simulator.reservation_stations s !! i = Some st
              ∧ ReservationStation.name st = t
              ∧ ReservationStation.busy st = true
              ∧ dest_index st = Some r
              ∧ ReservationStation.instruction st = Some k
              ∧ youngest_producer s r k) as Hforw.
  { intros t Hr.
    destruct (H2 r t Hr) as (i & st & k & Hi & Hn & Hk & Hy).
    destruct (inv_status s HI r t Hr) as (i' & st' & Hi' & Hn' & Hb' & Hd').
    assert (i' = i) as ->.
    { eapply name_lookup_inj; [exact (inv_names s HI)|done..|congruence]. }
    rewrite Hi in Hi'. injection Hi' as <-.
    by exists i, st, k. }
  assert (∀ i st k, Simulator.reservation_stations s !! i = Some st →
            ReservationStation.instruction st = Some k →
            ¬ written_back s k) as Hlive.
  { intros i st k Hi Hk (ins & c & Hins & Hc).
    destruct (inv_instr s HI i st k Hi Hk) as (_ & _ & x & Hx & _ & Hw).
    congruence. }
  split_and!.
  - intros t. split; [apply Hforw|].
    intros (i & st & k & Hi & Hn & Hb & Hd & Hk & Hy).
    destruct (status_of s r) as [t'|] eqn:Hr.
    + destruct (Hforw t' eq_refl)
        as (i' & st' & k' & Hi' & Hn' & _ & _ & Hk' & Hy').
      assert (k' = k) as -> by by eapply youngest_producer_inj.
      assert (i' = i) as -> by by eapply (inv_instr_inj s HI).
      congruence.
    + destruct (Hlive i st k Hi Hk). by apply (H3 r).
  - split; [intros Hr k; by apply H3|].
    intros Hall. destruct (status_of s r) as [t|] eqn:Hr; [|done].
    destruct (Hforw t eq_refl) as (i & st & k & Hi & _ & _ & _ & Hk & Hy).
    destruct (Hlive i st k Hi Hk). by apply Hall.
  - intros t Hr.
    destruct (inv_status s HI r t Hr) as (i & st & Hi & Hn & Hb & Hd).
    exists i, st. split_and!; try done.
    + intros j st' Hj Hn'.
      eapply name_lookup_inj; [exact (inv_names s HI)|done|done|congruence].
    + unfold busy_producers.
      assert (st ∈ filter (λ st, ReservationStation.busy st = true
                                 ∧ dest_index st = Some r)
                     (Simulator.reservation_stations s)) as Hin.
      { apply list_elem_of_filter. split; [done|].
        by eapply list_elem_of_lookup_2. }
      destruct (filter _ _); [by apply elem_of_nil in Hin|simpl; lia].
Qed.

Lemma status_names_busy_producer_witness :
  ∃ i st k,
    Simulator.reservation_stations
      (state_after 2 scenario_registers trace_same_destination) !! i = Some st
    ∧ ReservationStation.name st = "ALU2"
    ∧ ReservationStation.busy st = true
    ∧ dest_index st = Some 4%nat
    ∧ ReservationStation.instruction st = Some k
    ∧ youngest_producer
        (state_after 2 scenario_registers trace_same_destination) 4 k.
Proof.
  assert (reachable (state_after 2 scenario_registers trace_same_destination))
    as Hreach.
  { exists scenario_registers, (program trace_same_destination), [], 2%nat.
    split; [reflexivity|]. split; [reflexivity|vm_compute; reflexivity]. }
  destruct (status_names_busy_producer
              (state_after 2 scenario_registers trace_same_destination) 4
              Hreach) as (H & _).
  apply (H "ALU2"). vm_compute. reflexivity.
Defined.

(** After five ticks of [MUL R4, R1, R2; ADD R4, R1, R2] the station MUL1
    is busy with destination R4 and R4 has no status: the ADD, the most
    recently issued instruction that writes R4, has written its result. *)
Example superseded_producer_still_busy :
  let s := state_after 5 scenario_registers trace_slow_then_fast in
  status_of s 4 = None
  ∧ (λ st, (ReservationStation.name st, ReservationStation.busy st,
            dest_index st, ReservationStation.instruction st))
      <$> Simulator.reservation_stations s !! 3%nat
    = Some ("MUL1", true, Some 4%nat, Some 0%nat)
  ∧ Instruction.write_result_cycle
      <$> Simulator.instructions s !! 1%nat = Some (Some 5%nat)
  ∧ Instruction.write_result_cycle
      <$> Simulator.instructions s !! 0%nat = Some None.
Proof. vm_compute. by split_and!. Qed.
